(* ===== verification/_CoqProject ===== *)
-Q . S2P
Prelude.v
Update.v
Reader.v
SlotTable.v
Float32.v
MeshTypes.v
LinkMetric.v
NeighborTable.v
RoutingTable.v
Router.v
Crypto.v
AnnounceCodec.v
Forwarder.v
LinkArq.v
Packet.v
Kiss.v
Sar.v
NodeTable.v
Telemetry.v
Control.v
LocatorDir.v
RadioHal.v
TxQueue.v
Cadence.v
Fuzz.v
Seeds.v
RouterWf.v
Learning.v
Hdlc.v
UsbGuard.v
HostWrite.v
Node.v
Transmit.v
NodeOk.v
LocService.v
TelemService.v
CtrlPlane.v
SarSession.v
SarTransfer.v
Rx.v
Beaconing.v
Guard.v
Flood.v
Unicast.v
FirstContact.v
Loop.v
Flash.v
CString.v
Printf.v
Console.v
Reports.v
Firmware.v
Settings.v
