(* ===== verification/Prelude.v ===== *)
(** * agnostic-LoRa-Net: a verification library of the mesh node firmware

    The program is the firmware of one LoRa mesh node: the portable mesh core
    (src/lib/mesh), the radio driver's state machine (src/src/radio_hal.cpp) and
    the firmware proper (src/src/main.cpp), which owns all state, runs one loop,
    and connects the core to the radio, to flash and to two hosts (USB and BLE).
    This library translates all of it into executable definitions and proves
    what makes it correct, from the single codec up to the running firmware
    across resets.

    ** The program and the files that model it

    A frame received by the radio goes through [on_rx]; commands and payloads
    come in as bytes from the two hosts; timers fire in the main loop; frames to
    send go through one queue to the radio.

    Foundations, of no source of their own:
    - Prelude: machine integers, bytes, lists; the automation and hint databases;
    - Update: functional record update;
    - Reader: bounds-checked reads and writes, the results [Ok], [Rej], [Oob], and
      [safe];
    - SlotTable: arrays of slots searched by a linear scan, and their map view;
    - Float32: the C++ [float], on the standard library's IEEE specification;
    - CString: the C library's string functions the console uses; Printf: its
      [snprintf], with the bound of a line's length that its format and types give.

    The mesh core, src/lib/mesh, one file per source file:
    - MeshTypes (mesh_types.h), LinkMetric, NeighborTable, RoutingTable,
      Router (router.{h,cpp}, capabilities.h), RouterWf (its wire well-formedness),
      Learning (what one announce teaches it);
    - AnnounceCodec, Forwarder, LinkArq, Packet (packet.h, version_stats.h),
      Kiss, Sar, NodeTable, Telemetry, Control, LocatorDir.

    The firmware, src/src and src/include:
    - RadioHal (radio_hal.{h,cpp}), TxQueue, Cadence, Hdlc, UsbGuard, HostWrite
      (main.cpp: the outbound queue, the timing arithmetic, the framing of the host
      links, the wrapper of the USB port, and how a frame is written to the hosts);
    - Node: the static variables of main.cpp as one record; NodeOk: its invariant;
    - Transmit: building, stamping and queueing frames;
    - LocService, TelemService, CtrlPlane, SarSession: the four services;
    - Rx: [on_rx]; Loop: [agn_loop_once];
    - Flash: the eight records in flash and the node's identity;
    - Console: [handle_command] and the bytes of both hosts;
    - Reports: the lines the node prints, character by character;
    - Firmware: [setup], a whole pass, interrupts and the reachable states.

    The fuzz targets, src/fuzz: Fuzz, all eight of them, over the codecs above;
    Seeds, the corpus they start from ([gen_seeds.cpp]), every seed proved valid.

    Theorems about several components together:
    - Guard: what a received frame cannot do; Flood: floods over several nodes;
    - Beaconing: what two nodes learn from each other's beacons, and what a beacon
      has no room for;
    - Unicast: a payload's way over several nodes, hop by hop with its
      acknowledgements; FirstContact: from never having heard of each other to
      payloads delivered both ways;
    - SarTransfer: payload transport between two nodes;
    - Settings: what survives a reset.

    Crypto, [FileSystem] and [KeyGen] (Flash) are the interfaces to code that is
    not under src/ or not ours: classes of operations, with classes of the laws
    their documentation gives.  Each has a concrete instance for the witnesses.

    ** How the model reads

    A [uintN_t] is a [Z]; conversions and wrapping arithmetic are written out
    ([u8], [u16], [u32], [i8], [i32]).  Clock tests are the code's signed
    differences ([due]), so the theorems hold across the wrap of [millis()]
    unless they say otherwise, and some state what goes wrong at the wrap.
    A handler is a function from the node (and its arguments) to the node; a
    access outside a buffer is the value [Oob], an early [return false] is [Rej].
    Reads of a frame or message are always checked ([Reader.rd]); so are the
    writes of the parsers and of the reassembler into their fixed arrays
    ([Reader.wr], [Reader.into]).  Tables and rings written by a searched or
    wrapped index keep their length and the index its range by invariant
    ([NodeOk.node_ok]), and builders return what they write, with its length.
    What the outside answers is an argument: [now] ([millis()], read once per
    handler or loop stage), [micros()], [random()], [ChipEnv] (the radio driver),
    [ConEnv] (one command), [LoopEnv] (one pass), [BootEnv] (one [setup]).
    Outputs are logs in the node: [n_ops], the driver calls made, and [n_host],
    what the hosts receive.  Flash is a state of its own during [setup]; between
    resets the node carries the eight records as last saved, in fields that only
    the saving operations write ([Firmware.saved_of]), and [Flash.flash_refines]
    relates the two, byte for byte.

    Recursion is structural (over the bytes, the slots or the frames at hand), so
    a theorem that a handler succeeds is an equation [... = Ok _].  Four loops have
    no such bound and run on fuel: the one that skips zero in
    [LinkArq.next_seq], where two rounds always do ([LinkArq.next_seq_total]); the
    packets of [HostWrite.host_write], where one round per packet and 602
    refusals do; the looks at the USB port of [UsbGuard.usb_loop], where
    [22 K + 2] per byte do when the clock advances every [K] looks; and the
    operations of [Fuzz.fuzz_sar_loop], where one per input byte does.
    [HostWrite.host_write_whole_or_prefix], [UsbGuard.usb_write_returns] and
    [Fuzz.fuzz_targets_hold] prove that with this much they return.  Handlers
    leave frames for the host in [n_host];
    [host_write] is what then happens to each.

    ** What is shown

    - Safety of the whole: [Firmware.firmware_safe] (no reachable state breaks
      the invariant of the node, no pass takes a checked access out of bounds), with
      [Rx.on_rx_safe] for a single frame and [NodeOk.node_ok] as the invariant:
      slot and key uniqueness of every table, ring indices, buffer lengths,
      well-formed ids, sane radio states.
    - Authority: [Guard.control_needs_signature], [CtrlPlane.control_no_replay],
      [Guard.identity_proved]; the dead-man rails [CtrlPlane.power_dead_man] and
      [CtrlPlane.block_dead_man].
    - Persistence: [Flash.flash_refines], [Flash.identity_stable],
      [Settings.settings_survive_reset], [Settings.running_period_in_range].
    - Payload transport: [Sar.sar_reassembly], [Sar.sar_add_robust],
      [SarSession.tunnel_queue_refines], [SarTransfer.tunnel_end_to_end],
      [SarTransfer.sar_nack_repairs]; for payloads of one frame
      [Unicast.unicast_delivers], [Unicast.retransmission_only_acked] and, from
      the first beacon on, [FirstContact.strangers_talk].
    - Routing: [Router.reachable_routing_sound], [RoutingTable.offer_refines],
      [Router.on_beacon_q_rx_irrelevant], [Router.tick_exact],
      [Beaconing.beacons_link], [Beaconing.beacon_teaches_routes],
      [Beaconing.self_advertised_iff].
    - Forwarding and floods (over a mesh of any topology, in synchronous rounds;
      [Flood.late_copy_not_relayed] is what other orders can do):
      [Forwarder.relay_bounded],
      [Forwarder.no_double_handling], [Transmit.relay_integrity],
      [Transmit.originate_roundtrip], [Flood.flood_handled_once],
      [Flood.register_flood_reaches].
    - Radio and link (frames handed to the chip; what it refuses is dropped, as the
      code says): [RadioHal.hal_exactly_once], [RadioHal.csma_bounded],
      [TxQueue.tx_fifo], [LinkArq.arq_lifecycle], [Loop.beacon_cadence].
    - Codecs: [AnnounceCodec.announce_roundtrip],
      [AnnounceCodec.announce_deserialize_safe], [Control.ctrl_verify_sound],
      [LocatorDir.loc_codec_exact], [Kiss.kiss_stream_roundtrip],
      [Hdlc.hdlc_stream_roundtrip], [Transmit.beacon_self_certifying];
      [HostWrite.host_write_whole_or_prefix] and [UsbGuard.usb_write_returns] for
      the last step to the host; [Fuzz.fuzz_targets_hold] for all parsers at once:
      no input makes a fuzz target trap, or read or write outside a buffer.
    - Reports: [Reports.reports_whole] (no line is cut by its buffer),
      [Reports.report_ids_read_back] (what is printed is read back).
    - Tables: [NodeTable.handle_never_aliases].
    - Faults of the code, stated as they are: [Beaconing.dense_node_unreachable],
      [Hdlc.hdlc_stream_roundtrip] (one stray flag byte inverts frames and text),
      [HostWrite.aborted_frame_desyncs], [Loop.beacons_stop_after_24_days],
      [LocService.loc_query_answered], [TelemService.status_query_answered],
      [SarTransfer.xfer_collision_misdelivers], [Reports.received_text_cut], and
      the lemmas [Reports.pub_line_cut], [Reports.rf_default_cut],
      [Reports.ctrl_ack_line_cut],
      [CtrlPlane.power_revert_chain], [Router.relax_hop_wrap],
      [NodeTable.handle_aliases_after_256], [Kiss.kiss_shared_fend].

    ** What is not modelled, and why

    - Usage texts and most confirmations, most logs of single events ([TX], [SAR],
      [tun], [ble], [ctrl] as a command is applied; the figures Arduino's [Print]
      writes after the head of an [RX] line), the LED, the watchdog,
      the captured fault record and the entry into the bootloader: output, or
      hardware state nothing reads back.  Reports are functions of the node, and
      of what is told to a host ([HostOut]); that a handler prints them is not
      part of its definition.
    - The Bluefruit and SoftDevice stack, RadioLib, LittleFS, the random number
      generator and the battery converter: not under src/; their answers are
      arguments.  The BLE stack is taken to accept a packet of at most one
      notification whole or not at all, which is what the code relies on; the
      time [host_write] spends waiting is not fed back into the clock of the
      loop stage that called it.
    - Monocypher (src/lib/monocypher): vendored; its laws are [Crypto.CryptoLaws]
      and [Flash.KeyGenLaws].  No theorem assumes unforgeability.
    - [atof] reads decimal notation only, and [long] has 32 bits.
    - libFuzzer itself, and the host tests, which run the modelled code on fixed
      inputs.
    - Board variants, the controller, the web pages, the Reticulum interface and
      the host tools: configuration, or other programs. *)

From stdpp Require Export base numbers list gmap.
From Stdlib Require Export ZArith Lia.

#[global] Open Scope Z_scope.

(** ** Machine integers

    A [uintN_t] is a [Z] in [0, 2^N); every C++ conversion or wrapping
    operation is written out with the wrap functions below. *)

Definition u8 (x : Z) : Z := x mod 256.
Definition u16 (x : Z) : Z := x mod 65536.
Definition u32 (x : Z) : Z := x mod 4294967296.

(** Two's-complement readings: [(int8_t)x], [(int16_t)x], [(int32_t)x]. *)
Definition i8 (x : Z) : Z := if u8 x <? 128 then u8 x else u8 x - 256.
Definition i16 (x : Z) : Z := if u16 x <? 32768 then u16 x else u16 x - 65536.
Definition i32 (x : Z) : Z := if u32 x <? 2147483648 then u32 x else u32 x - 4294967296.

Definition is_u8 (x : Z) : Prop := 0 <= x < 256.
Definition is_u16 (x : Z) : Prop := 0 <= x < 65536.
Definition is_u32 (x : Z) : Prop := 0 <= x < 4294967296.
Definition is_i8 (x : Z) : Prop := -128 <= x < 128.
Definition is_i16 (x : Z) : Prop := -32768 <= x < 32768.

(** The wrap-aware clock test used all over the firmware:
    [(int32_t)(now - deadline) >= 0]. *)
Definition due (now deadline : Z) : bool := 0 <=? i32 (now - deadline).

(** [zlia]: linear arithmetic over the wrap functions. *)
Ltac unfold_ints :=
  unfold due, i8, i16, i32, u8, u16, u32, is_u8, is_u16, is_u32, is_i8, is_i16 in *.
Ltac zlia :=
  unfold_ints;
  repeat match goal with
         | H : context [?x <? ?y] |- _ => destruct (Z.ltb_spec x y)
         | H : context [?x <=? ?y] |- _ => destruct (Z.leb_spec x y)
         | |- context [?x <? ?y] => destruct (Z.ltb_spec x y)
         | |- context [?x <=? ?y] => destruct (Z.leb_spec x y)
         end;
  Z.div_mod_to_equations; lia.

Lemma u8_range x : is_u8 (u8 x).
Proof. zlia. Qed.
Lemma u16_range x : is_u16 (u16 x).
Proof. zlia. Qed.
Lemma u32_range x : is_u32 (u32 x).
Proof. zlia. Qed.
Lemma i8_range x : is_i8 (i8 x).
Proof. zlia. Qed.
Lemma i16_range x : is_i16 (i16 x).
Proof. zlia. Qed.
Lemma u8_small x : is_u8 x → u8 x = x.
Proof. apply Z.mod_small. Qed.
Lemma u16_small x : is_u16 x → u16 x = x.
Proof. apply Z.mod_small. Qed.
Lemma u32_small x : is_u32 x → u32 x = x.
Proof. apply Z.mod_small. Qed.
Lemma i8_u8 x : is_i8 x → i8 (u8 x) = x.
Proof. zlia. Qed.
Lemma i16_u16 x : is_i16 x → i16 (u16 x) = x.
Proof. zlia. Qed.
Lemma u8_i8 x : is_u8 x → u8 (i8 x) = x.
Proof. zlia. Qed.
Lemma u16_i16 x : is_u16 x → u16 (i16 x) = x.
Proof. zlia. Qed.

(** [bools]: turn boolean hypotheses into propositions. *)
Ltac bools :=
  repeat match goal with
         | H : negb _ = true |- _ => apply negb_true_iff in H
         | H : negb _ = false |- _ => apply negb_false_iff in H
         | H : _ || _ = false |- _ => apply orb_false_iff in H; destruct H
         | H : _ && _ = true |- _ => apply andb_true_iff in H; destruct H
         | H : (_ <? _) = true |- _ => apply Z.ltb_lt in H
         | H : (_ <? _) = false |- _ => apply Z.ltb_ge in H
         | H : (_ <=? _) = true |- _ => apply Z.leb_le in H
         | H : (_ <=? _) = false |- _ => apply Z.leb_gt in H
         | H : (_ =? _) = true |- _ => apply Z.eqb_eq in H
         | H : (_ =? _) = false |- _ => apply Z.eqb_neq in H
         end.

(** ** Bytes and little-endian fields *)

Abbreviation bytes := (list Z).
Definition zlen {A} (l : list A) : Z := Z.of_nat (length l).
Arguments zlen : simpl never.

Lemma zlen_nil {A} : zlen ([] : list A) = 0.
Proof. reflexivity. Qed.
Lemma zlen_cons {A} (x : A) l : zlen (x :: l) = 1 + zlen l.
Proof. unfold zlen. simpl. lia. Qed.
Lemma zlen_app {A} (l k : list A) : zlen (l ++ k) = zlen l + zlen k.
Proof. unfold zlen. rewrite length_app. lia. Qed.
Lemma zlen_nonneg {A} (l : list A) : 0 <= zlen l.
Proof. unfold zlen. lia. Qed.
Lemma zlen_take {A} (l : list A) (n : Z) :
  0 <= n <= zlen l → zlen (take (Z.to_nat n) l) = n.
Proof. unfold zlen. intros. rewrite length_take. lia. Qed.
Lemma to_nat_zlen {A} (l : list A) : Z.to_nat (zlen l) = length l.
Proof. apply Nat2Z.id. Qed.
Lemma zlen_replicate {A} (n : nat) (x : A) : zlen (replicate n x) = Z.of_nat n.
Proof. unfold zlen. by rewrite length_replicate. Qed.

(** Tables and buffers are [replicate n x]: never unfold them by accident. *)
#[global] Arguments replicate {A} n x : simpl never.

Lemma filter_ext_in {A} (P Q : A → Prop) `{∀ x, Decision (P x), ∀ x, Decision (Q x)} (l : list A) :
  (∀ x, x ∈ l → P x ↔ Q x) → filter P l = filter Q l.
Proof.
  induction l as [|x l IH]; intros HPQ; [done|]. rewrite !filter_cons.
  rewrite IH by (intros y Hy; apply HPQ; by right).
  destruct (HPQ x) as [H1 H2]; [by left|].
  destruct (decide (P x)), (decide (Q x)); tauto || done.
Qed.

Create Rewrite HintDb zlen.
#[export] Hint Rewrite @zlen_nil @zlen_cons @zlen_app @zlen_replicate : zlen.

Definition wf_bytes (l : bytes) : Prop := Forall is_u8 l.
(** On a concrete buffer: by evaluation. *)
Lemma wf_bytes_check (l : bytes) : forallb (λ x, (0 <=? x) && (x <? 256)) l = true → wf_bytes l.
Proof.
  induction l as [|x l IH]; simpl; [constructor|]. intros [Hx Hl]%andb_true_iff.
  constructor; [|by apply IH]. bools. zlia.
Qed.

(** [put_u16], [put_u32]: byte-by-byte little-endian stores;
    [le16], [le32]: the matching loads. *)
Definition put_u16 (v : Z) : bytes := [u8 v; u8 (Z.shiftr v 8)].
Definition put_u32 (v : Z) : bytes :=
  [u8 v; u8 (Z.shiftr v 8); u8 (Z.shiftr v 16); u8 (Z.shiftr v 24)].
Definition le16 (p0 p1 : Z) : Z := u16 (Z.lor p0 (Z.shiftl p1 8)).
Definition le32 (p0 p1 p2 p3 : Z) : Z :=
  u32 (Z.lor (Z.lor (Z.lor p0 (Z.shiftl p1 8)) (Z.shiftl p2 16)) (Z.shiftl p3 24)).

(** [lor] of disjoint bit ranges is addition. *)
Lemma lor_shiftl_add a b n : 0 <= n → 0 <= a < 2 ^ n →
  Z.lor a (Z.shiftl b n) = a + b * 2 ^ n.
Proof.
  intros Hn Ha. rewrite Z.shiftl_mul_pow2 by lia.
  assert (Z.land a (b * 2 ^ n) = 0) as Hland.
  { apply Z.bits_inj'; intros k Hk; rewrite Z.land_spec, Z.bits_0.
    destruct (decide (k < n)).
    - rewrite Z.mul_pow2_bits_low by lia. apply andb_false_r.
    - replace a with (a mod 2 ^ n) by (apply Z.mod_small; lia).
      by rewrite Z.mod_pow2_bits_high by lia. }
  by rewrite <- Z.lxor_lor, Z.add_nocarry_lxor.
Qed.

(** [n]-bit values are closed under the bitwise operations. *)
Lemma bits_range a n : 0 <= n → 0 <= a → (∀ k, n <= k → Z.testbit a k = false) → a < 2 ^ n.
Proof.
  intros Hn Ha Hb. destruct (decide (a = 0)) as [->|Hne]; [lia|].
  apply Z.log2_lt_pow2; [lia|]. destruct (Z.lt_ge_cases (Z.log2 a) n) as [|Hl]; [done|].
  specialize (Hb _ Hl). rewrite Z.bit_log2 in Hb by lia. done.
Qed.

Lemma testbit_high a n k : 0 <= n → 0 <= a < 2 ^ n → n <= k → Z.testbit a k = false.
Proof.
  intros Hn Ha Hk. destruct (decide (a = 0)) as [->|Hne]; [apply Z.bits_0|].
  apply Z.bits_above_log2; [lia|]. assert (Z.log2 a < n) by (apply Z.log2_lt_pow2; lia). lia.
Qed.

Lemma lxor_range a b n : 0 <= n → 0 <= a < 2 ^ n → 0 <= b < 2 ^ n → 0 <= Z.lxor a b < 2 ^ n.
Proof.
  intros Hn Ha Hb. assert (0 <= Z.lxor a b) by (apply Z.lxor_nonneg; lia). split; [done|].
  apply bits_range; [done|done|]. intros k Hk.
  by rewrite Z.lxor_spec, !(testbit_high _ n) by done.
Qed.

Lemma land_range a b n : 0 <= n → 0 <= a < 2 ^ n → 0 <= Z.land a b < 2 ^ n.
Proof.
  intros Hn Ha. assert (0 <= Z.land a b) by (apply Z.land_nonneg; lia). split; [done|].
  apply bits_range; [done|done|]. intros k Hk.
  by rewrite Z.land_spec, (testbit_high a n) by done.
Qed.

Lemma land_127_range b : is_u8 b → 0 <= Z.land b 127 < 128.
Proof. intros Hb. change 127 with (Z.ones 7). rewrite Z.land_ones by lia. zlia. Qed.

Lemma le16_eq p0 p1 : is_u8 p0 → is_u8 p1 → le16 p0 p1 = p0 + p1 * 256.
Proof.
  intros H0 H1. unfold le16. rewrite lor_shiftl_add by (cbn; zlia).
  apply u16_small. zlia.
Qed.

Lemma le32_eq p0 p1 p2 p3 : is_u8 p0 → is_u8 p1 → is_u8 p2 → is_u8 p3 →
  le32 p0 p1 p2 p3 = p0 + p1 * 256 + p2 * 65536 + p3 * 16777216.
Proof.
  intros H0 H1 H2 H3. unfold le32.
  rewrite (lor_shiftl_add p0) by (cbn; zlia).
  rewrite (lor_shiftl_add (p0 + _)) by (cbn; zlia).
  rewrite lor_shiftl_add by (cbn; zlia).
  rewrite u32_small; [cbn; lia | zlia].
Qed.

Lemma shiftr_div x n : 0 <= n → Z.shiftr x n = x / 2 ^ n.
Proof. apply Z.shiftr_div_pow2. Qed.

Lemma le16_put_u16 v : is_u16 v → le16 (u8 v) (u8 (Z.shiftr v 8)) = v.
Proof.
  intros Hv. rewrite le16_eq by apply u8_range. rewrite shiftr_div by lia. zlia.
Qed.

Lemma le32_put_u32 v : is_u32 v →
  le32 (u8 v) (u8 (Z.shiftr v 8)) (u8 (Z.shiftr v 16)) (u8 (Z.shiftr v 24)) = v.
Proof.
  intros Hv. rewrite le32_eq by apply u8_range. rewrite !shiftr_div by lia. zlia.
Qed.

Lemma put_u16_le16 p0 p1 : is_u8 p0 → is_u8 p1 → put_u16 (le16 p0 p1) = [p0; p1].
Proof.
  intros H0 H1. rewrite le16_eq by done. unfold put_u16.
  rewrite shiftr_div by lia. repeat f_equal; zlia.
Qed.

Lemma put_u32_le32 p0 p1 p2 p3 : is_u8 p0 → is_u8 p1 → is_u8 p2 → is_u8 p3 →
  put_u32 (le32 p0 p1 p2 p3) = [p0; p1; p2; p3].
Proof.
  intros H0 H1 H2 H3. rewrite le32_eq by done. unfold put_u32.
  rewrite !shiftr_div by lia. repeat f_equal; zlia.
Qed.

Lemma le16_range p0 p1 : is_u16 (le16 p0 p1).
Proof. apply u16_range. Qed.
Lemma le32_range p0 p1 p2 p3 : is_u32 (le32 p0 p1 p2 p3).
Proof. apply u32_range. Qed.

Lemma wf_put_u16 v : wf_bytes (put_u16 v).
Proof. repeat constructor; apply u8_range. Qed.
Lemma wf_put_u32 v : wf_bytes (put_u32 v).
Proof. repeat constructor; apply u8_range. Qed.
Lemma zlen_put_u16 v : zlen (put_u16 v) = 2.
Proof. reflexivity. Qed.
Lemma zlen_put_u32 v : zlen (put_u32 v) = 4.
Proof. reflexivity. Qed.
#[export] Hint Rewrite zlen_put_u16 zlen_put_u32 : zlen.

(** [each]: a [Forall] over a literal list, element by element. *)
Ltac each := repeat (apply Forall_cons; split); try apply Forall_nil; simpl; try exact I.

Create HintDb wf.
#[export] Hint Resolve wf_put_u16 wf_put_u32 u8_range u16_range u32_range
  le16_range le32_range : wf.
