(* ===== verification/Update.v ===== *)
(** Functional record update: [r <| field := v |>] and [r <| field ::= f |>]
    for the records whose handlers write a few fields of many.  A field is
    updatable when it has an [Update] instance. *)
From S2P Require Import Prelude.

Class Update {R E : Type} (field : R → E) := update : (E → E) → R → R.
Arguments update {R E} field {Update} f r /.

Declare Scope update_scope.
Notation "r <| field := v |>" := (update field (λ _, v) r)
  (at level 8, field at level 0, v at level 99, left associativity, format "r <| field  :=  v |>")
  : update_scope.
Notation "r <| field ::= f |>" := (update field f r)
  (at level 8, field at level 0, f at level 99, left associativity, format "r <| field  ::=  f |>")
  : update_scope.
#[global] Open Scope update_scope.
