(* ===== verification/Reader.v ===== *)
(** Checked access to buffers.

    The firmware's parsers index a [const uint8_t* msg] of [len] bytes and fill
    arrays of fixed size.  Here a read outside the buffer, or a copy past the end
    of an array, is a value of its own, [Oob]: a parser that is memory-safe is one
    that never returns it, whatever bytes the radio delivers.
    [Rej] is the C++ [return false] (or the corresponding error verdict). *)
From S2P Require Import Prelude.

Inductive res (A : Type) : Type :=
  | Ok (a : A)
  | Rej
  | Oob.
Arguments Ok {A} a.
Arguments Rej {A}.
Arguments Oob {A}.

#[export] Instance res_ret : MRet res := λ A a, Ok a.
#[export] Instance res_bind : MBind res := λ A B f m,
  match m with Ok a => f a | Rej => Rej | Oob => Oob end.

(** [if (c) return false;] *)
Definition guard (c : bool) : res unit := if c then Ok () else Rej.

(** [msg[i]] *)
Definition rd (b : bytes) (i : Z) : res Z :=
  if i <? 0 then Oob else
  match b !! Z.to_nat i with Some v => Ok v | None => Oob end.

(** [memcpy(dst, msg + i, n)] *)
Definition rdn (b : bytes) (i n : Z) : res bytes :=
  if (0 <=? i) && (0 <=? n) && (i + n <=? zlen b)
  then Ok (take (Z.to_nat n) (drop (Z.to_nat i) b)) else Oob.

(** A store to [n] cells, from [i] on, of an array of [cap] cells, and one that
    fills an array from its start: past its end is [Oob] as well. *)
Definition wr (cap i n : Z) : res unit :=
  if (0 <=? i) && (0 <=? n) && (i + n <=? cap) then Ok () else Oob.
Definition into {A} (cap : Z) (l : list A) : res (list A) := _ ← wr cap 0 (zlen l); Ok l.

(** [get_u16(msg + i)], [get_u32(msg + i)] *)
Definition rd_u16 (b : bytes) (i : Z) : res Z :=
  p0 ← rd b i; p1 ← rd b (i + 1); Ok (le16 p0 p1).
Definition rd_u32 (b : bytes) (i : Z) : res Z :=
  p0 ← rd b i; p1 ← rd b (i + 1); p2 ← rd b (i + 2); p3 ← rd b (i + 3);
  Ok (le32 p0 p1 p2 p3).

Definition res_ok {A} (m : res A) : bool := match m with Ok _ => true | _ => false end.
Definition res_opt {A} (m : res A) : option A := match m with Ok a => Some a | _ => None end.

(** ** Memory safety as a weakest precondition *)

(** [safe m Q]: [m] stays in bounds, and its result satisfies [Q]. *)
Definition safe {A} (m : res A) (Q : A → Prop) : Prop :=
  match m with Ok a => Q a | Rej => True | Oob => False end.

Lemma safe_not_oob {A} (m : res A) Q : safe m Q → m ≠ Oob.
Proof. by destruct m. Qed.
Lemma safe_mono {A} (m : res A) (P Q : A → Prop) :
  safe m P → (∀ a, P a → Q a) → safe m Q.
Proof. destruct m; simpl; auto. Qed.
(** Keep the equation of the step in a memory-safety proof. *)
Lemma safe_eq {A} (m : res A) (P Q : A → Prop) :
  safe m P → (∀ a, m = Ok a → P a → Q a) → safe m Q.
Proof. destruct m; simpl; auto. Qed.
Lemma safe_ok {A} (a : A) (Q : A → Prop) : Q a → safe (Ok a) Q.
Proof. done. Qed.
Lemma safe_rej {A} (Q : A → Prop) : safe Rej Q.
Proof. done. Qed.
Lemma safe_bind {A B} (m : res A) (f : A → res B) Q :
  safe m (λ a, safe (f a) Q) → safe (m ≫= f) Q.
Proof. by destruct m. Qed.
Lemma safe_guard (c : bool) (Q : () → Prop) : (c = true → Q ()) → safe (guard c) Q.
Proof. destruct c; simpl; auto. Qed.

Lemma lookup_wf (b : bytes) (i : nat) v : wf_bytes b → b !! i = Some v → is_u8 v.
Proof. intros Hb Hi. by eapply Forall_lookup_1. Qed.

Lemma safe_rd b i (Q : Z → Prop) : wf_bytes b → 0 <= i < zlen b →
  (∀ v, is_u8 v → Q v) → safe (rd b i) Q.
Proof.
  intros Hb Hi HQ. unfold rd. destruct (Z.ltb_spec i 0); [lia|].
  destruct (lookup_lt_is_Some_2 b (Z.to_nat i)) as [v Hv]; [unfold zlen in *; lia|].
  rewrite Hv. simpl. eauto using lookup_wf.
Qed.

Lemma safe_rdn b i n (Q : bytes → Prop) : wf_bytes b → 0 <= i → 0 <= n → i + n <= zlen b →
  (∀ l, wf_bytes l → zlen l = n → Q l) → safe (rdn b i n) Q.
Proof.
  intros Hb Hi Hn Hlen HQ. unfold rdn.
  rewrite !(proj2 (Z.leb_le _ _)) by lia. simpl. apply HQ.
  - unfold wf_bytes in *. apply Forall_take, Forall_drop; auto.
  - apply zlen_take. unfold zlen in *. rewrite length_drop. lia.
Qed.

Lemma safe_rd_u16 b i (Q : Z → Prop) : wf_bytes b → 0 <= i → i + 2 <= zlen b →
  (∀ v, is_u16 v → Q v) → safe (rd_u16 b i) Q.
Proof.
  intros Hb Hi Hlen HQ. unfold rd_u16.
  apply safe_bind, safe_rd; [done|lia|intros p0 H0].
  apply safe_bind, safe_rd; [done|lia|intros p1 H1].
  apply HQ, le16_range.
Qed.

Lemma safe_rd_u32 b i (Q : Z → Prop) : wf_bytes b → 0 <= i → i + 4 <= zlen b →
  (∀ v, is_u32 v → Q v) → safe (rd_u32 b i) Q.
Proof.
  intros Hb Hi Hlen HQ. unfold rd_u32.
  do 4 (apply safe_bind, safe_rd; [done|lia|intros ? ?]).
  apply HQ, le32_range.
Qed.

Lemma wr_ok cap i n : 0 <= i → 0 <= n → i + n <= cap → wr cap i n = Ok ().
Proof. intros Hi Hn Hc. unfold wr. by rewrite !(proj2 (Z.leb_le _ _)) by lia. Qed.
Lemma into_ok {A} cap (l : list A) : zlen l <= cap → into cap l = Ok l.
Proof. intros Hl. unfold into. rewrite wr_ok; [done|lia|apply zlen_nonneg|lia]. Qed.
Lemma safe_wr cap i n (Q : () → Prop) : 0 <= i → 0 <= n → i + n <= cap → Q () → safe (wr cap i n) Q.
Proof. intros Hi Hn Hc HQ. by rewrite wr_ok. Qed.
Lemma safe_into {A} cap (l : list A) (Q : list A → Prop) : zlen l <= cap → Q l → safe (into cap l) Q.
Proof. intros Hl HQ. by rewrite into_ok. Qed.
Lemma into_inv {A} cap (l k : list A) : into cap l = Ok k → k = l ∧ zlen l <= cap.
Proof.
  unfold into, wr. destruct (_ && _) eqn:Hc; [|done]. intros [= <-]. bools. split; [done|lia].
Qed.
Lemma into_ne_rej {A} cap (l : list A) : into cap l ≠ Rej.
Proof. unfold into, wr. by destruct (_ && _). Qed.
Lemma wr_ne_rej cap i n : wr cap i n ≠ Rej.
Proof. unfold wr. by destruct (_ && _). Qed.

(** [safe_step]: one step of a memory-safety proof. *)
Ltac safe_step :=
  match goal with
  | |- safe (Ok _) _ => apply safe_ok
  | |- safe Rej _ => exact I
  | |- safe (mret _) _ => apply safe_ok
  | |- safe (_ ≫= _) _ => apply safe_bind
  | |- safe (guard _) _ => apply safe_guard; intros ?
  | |- safe (rd _ _) _ => apply safe_rd; [done| |intros ? ?]
  | |- safe (rd_u16 _ _) _ => apply safe_rd_u16; [done| | |intros ? ?]
  | |- safe (rd_u32 _ _) _ => apply safe_rd_u32; [done| | |intros ? ?]
  | |- safe (wr _ _ _) _ => apply safe_wr
  | |- safe (into _ _) _ => apply safe_into
  | |- safe (rdn _ _ _) _ => apply safe_rdn; [done| | | |intros ? ? ?]
  end.

(** ** Reading back what was written

    [at_ b i r]: the unread part of [b] at offset [i] is [r]. *)
Definition at_ (b : bytes) (i : Z) (r : bytes) : Prop :=
  0 <= i <= zlen b ∧ drop (Z.to_nat i) b = r.

Lemma at_start b : at_ b 0 b.
Proof. split; [pose proof (zlen_nonneg b); lia | done]. Qed.

Lemma at_zlen b i r : at_ b i r → zlen b = i + zlen r.
Proof. intros [Hi <-]. unfold zlen in *. rewrite length_drop. lia. Qed.

Lemma at_skip b i xs r : at_ b i (xs ++ r) → at_ b (i + zlen xs) r.
Proof.
  intros H. pose proof (at_zlen _ _ _ H) as Hlen. destruct H as [Hi Hd].
  rewrite zlen_app in Hlen. pose proof (zlen_nonneg r). pose proof (zlen_nonneg xs).
  split; [lia|]. rewrite Z2Nat.inj_add by lia.
  rewrite <- drop_drop, Hd. unfold zlen. by rewrite Nat2Z.id, drop_app_length.
Qed.

Lemma at_next b i x r : at_ b i (x :: r) → at_ b (i + 1) r.
Proof. apply (at_skip b i [x] r). Qed.

Lemma at_rd b i x r : at_ b i (x :: r) → rd b i = Ok x.
Proof.
  intros [Hi Hd]. unfold rd. destruct (Z.ltb_spec i 0); [lia|].
  assert (b !! Z.to_nat i = Some x) as ->; [|done].
  replace (Z.to_nat i) with (Z.to_nat i + 0)%nat by lia.
  by rewrite <- lookup_drop, Hd.
Qed.

Lemma at_rdn b i n xs r : at_ b i (xs ++ r) → zlen xs = n → rdn b i n = Ok xs.
Proof.
  intros H <-. pose proof (at_zlen _ _ _ H) as Hlen. destruct H as [Hi Hd].
  rewrite zlen_app in Hlen. pose proof (zlen_nonneg r). pose proof (zlen_nonneg xs).
  unfold rdn. rewrite !(proj2 (Z.leb_le _ _)) by lia. simpl. f_equal.
  unfold zlen. by rewrite Nat2Z.id, Hd, take_app_length.
Qed.

Lemma at_rd_u16 b i v r : at_ b i (put_u16 v ++ r) → is_u16 v → rd_u16 b i = Ok v.
Proof.
  intros H Hv. unfold rd_u16. rewrite (at_rd _ _ _ _ H). simpl.
  apply at_next in H. rewrite (at_rd _ _ _ _ H). simpl. by rewrite le16_put_u16.
Qed.

Lemma at_rd_u32 b i v r : at_ b i (put_u32 v ++ r) → is_u32 v → rd_u32 b i = Ok v.
Proof.
  intros H Hv. unfold rd_u32. rewrite (at_rd _ _ _ _ H). simpl.
  apply at_next in H. rewrite (at_rd _ _ _ _ H). simpl.
  apply at_next in H. replace (i + 1 + 1) with (i + 2) in H by lia.
  rewrite (at_rd _ _ _ _ H). simpl.
  apply at_next in H. replace (i + 2 + 1) with (i + 3) in H by lia.
  rewrite (at_rd _ _ _ _ H). simpl. by rewrite le32_put_u32.
Qed.

(** Move an [at_] fact past [xs], normalising the new offset to [j]. *)
Lemma at_move b i j xs r : at_ b i (xs ++ r) → j = i + zlen xs → at_ b j r.
Proof. intros H ->. by apply at_skip. Qed.

(** Reads never reject: they succeed or are out of bounds. *)
Lemma bind_ne_rej {A B} (m : res A) (f : A → res B) :
  m ≠ Rej → (∀ a, f a ≠ Rej) → m ≫= f ≠ Rej.
Proof. destruct m; simpl; auto. Qed.
Lemma rd_ne_rej b i : rd b i ≠ Rej.
Proof. unfold rd. destruct (_ <? _); [done|]. by destruct (b !! _). Qed.
Lemma rdn_ne_rej b i n : rdn b i n ≠ Rej.
Proof. unfold rdn. by destruct (_ && _). Qed.
Lemma rd_u16_ne_rej b i : rd_u16 b i ≠ Rej.
Proof. repeat (apply bind_ne_rej; [apply rd_ne_rej|intros ?]). done. Qed.
Lemma rd_u32_ne_rej b i : rd_u32 b i ≠ Rej.
Proof. repeat (apply bind_ne_rej; [apply rd_ne_rej|intros ?]). done. Qed.

Lemma safe_total {A} (m : res A) Q : safe m Q → m ≠ Rej → ∃ a, m = Ok a ∧ Q a.
Proof. destruct m; simpl; eauto || done. Qed.

Create HintDb no_rej.
#[export] Hint Resolve rd_ne_rej rdn_ne_rej rd_u16_ne_rej rd_u32_ne_rej into_ne_rej wr_ne_rej : no_rej.

(** ** What a successful read says about the buffer *)

(** The [n] bytes at offset [i]. *)
Definition seg (b : bytes) (i n : Z) : bytes := take (Z.to_nat n) (drop (Z.to_nat i) b).

Lemma seg_split b i n m : 0 <= i → 0 <= n → 0 <= m → seg b i (n + m) = seg b i n ++ seg b (i + n) m.
Proof.
  intros Hi Hn Hm. unfold seg. rewrite !Z2Nat.inj_add by lia.
  by rewrite <- drop_drop, take_take_drop.
Qed.

Lemma seg_all b n : seg b 0 n = take (Z.to_nat n) b.
Proof. done. Qed.

Lemma rd_seg b i v : rd b i = Ok v → seg b i 1 = [v].
Proof.
  unfold rd, seg. destruct (i <? 0); [done|].
  destruct (b !! Z.to_nat i) as [x|] eqn:Hx; [|done]. intros [= ->].
  change (Z.to_nat 1) with 1%nat. by rewrite (drop_S _ _ _ Hx).
Qed.

Lemma rdn_seg b i n l : rdn b i n = Ok l → seg b i n = l ∧ zlen l = n.
Proof.
  unfold rdn. destruct (_ && _) eqn:Hc; [|done]. bools. intros [= <-]. split; [done|].
  unfold zlen in *. rewrite length_take, length_drop. lia.
Qed.

Lemma rd_wf b i v : wf_bytes b → rd b i = Ok v → is_u8 v.
Proof.
  intros Hb. unfold rd. destruct (i <? 0); [done|]. destruct (b !! Z.to_nat i) as [x|] eqn:Hx; [|done].
  intros [= ->]. by eapply lookup_wf.
Qed.

Lemma rd_u16_seg b i v : wf_bytes b → 0 <= i → rd_u16 b i = Ok v → seg b i 2 = put_u16 v.
Proof.
  intros Hb Hi. unfold rd_u16.
  destruct (rd b i) as [p0| |] eqn:H0; simpl; [|done|done].
  destruct (rd b (i + 1)) as [p1| |] eqn:H1; simpl; [|done|done].
  intros [= <-]. rewrite put_u16_le16 by eauto using rd_wf.
  change 2 with (1 + 1). rewrite !seg_split by lia.
  by rewrite (rd_seg _ _ _ H0), (rd_seg _ _ _ H1).
Qed.

(** A buffer is the concatenation of its segments. *)
Lemma seg_whole b : b = seg b 0 (zlen b).
Proof. unfold seg. simpl. by rewrite to_nat_zlen, firstn_all. Qed.

Lemma rd_u32_seg b i v : wf_bytes b → 0 <= i → rd_u32 b i = Ok v → seg b i 4 = put_u32 v.
Proof.
  intros Hb Hi. unfold rd_u32.
  destruct (rd b i) as [p0| |] eqn:H0; simpl; [|done|done].
  destruct (rd b (i + 1)) as [p1| |] eqn:H1; simpl; [|done|done].
  destruct (rd b (i + 2)) as [p2| |] eqn:H2; simpl; [|done|done].
  destruct (rd b (i + 3)) as [p3| |] eqn:H3; simpl; [|done|done].
  intros [= <-]. rewrite put_u32_le32 by eauto using rd_wf.
  change 4 with (1 + (1 + (1 + 1))). rewrite !seg_split by lia.
  rewrite (rd_seg _ _ _ H0), (rd_seg _ _ _ H1).
  replace (i + 1 + 1) with (i + 2) by lia. rewrite (rd_seg _ _ _ H2).
  replace (i + 2 + 1) with (i + 3) by lia. by rewrite (rd_seg _ _ _ H3).
Qed.

(** ** Arrays of fixed-size entries *)

(** [for (i = 0; i < n; i++) { x[i] = parse(msg + off); off += size; }] *)
Fixpoint parse_n {A} (p : bytes → Z → res A) (size : Z) (n : nat) (b : bytes) (off : Z)
    : res (list A) :=
  match n with
  | O => Ok []
  | S n => x ← p b off; xs ← parse_n p size n b (off + size); Ok (x :: xs)
  end.

(** [for (x : l) { if (off + size > cap) break; write(x); off += size; n++; }]:
    how many entries are written. *)
Fixpoint fits {A} (size cap off : Z) (l : list A) : list A :=
  match l with
  | [] => []
  | x :: l => if cap <? off + size then [] else x :: fits size cap (off + size) l
  end.

Lemma safe_parse_n {A} (p : bytes → Z → res A) (P : A → Prop) size n b off
    (Q : list A → Prop) :
  0 <= size → 0 <= off → off + size * Z.of_nat n <= zlen b →
  (∀ o, 0 <= o → o + size <= zlen b → safe (p b o) P) →
  (∀ l, Forall P l → zlen l = Z.of_nat n → Q l) →
  safe (parse_n p size n b off) Q.
Proof.
  intros Hs. revert off Q. induction n as [|n IH]; intros off Q Ho Hl Hp HQ; cbn [parse_n].
  { apply safe_ok, HQ; [constructor|done]. }
  apply safe_bind. eapply safe_mono; [apply Hp; nia|]. intros x Hx.
  apply safe_bind, IH; [lia|nia|done|]. intros l Hl' Hn. apply safe_ok, HQ; [by constructor|].
  rewrite zlen_cons. lia.
Qed.

(** Reading back [flat_map enc l]. *)
Lemma at_parse_n {A B} (p : bytes → Z → res B) (enc : A → bytes) (dec : A → B)
    (P : A → Prop) size l b off r :
  (∀ x, P x → zlen (enc x) = size) →
  (∀ x o r, P x → at_ b o (enc x ++ r) → p b o = Ok (dec x)) →
  Forall P l → at_ b off (flat_map enc l ++ r) →
  parse_n p size (length l) b off = Ok (dec <$> l) ∧ at_ b (off + size * zlen l) r.
Proof.
  intros Hs Hp Hl. revert off. induction Hl as [|x l Hx Hl IH]; intros off Hat; simpl.
  { split; [done|]. by rewrite zlen_nil, Z.mul_0_r, Z.add_0_r. }
  simpl in Hat. rewrite <- app_assoc in Hat. rewrite (Hp _ _ _ Hx Hat). simpl.
  apply at_skip in Hat. rewrite Hs in Hat by done. destruct (IH _ Hat) as [-> Hat'].
  split; [done|]. rewrite zlen_cons. by replace (off + size * (1 + zlen l)) with
    (off + size + size * zlen l) by lia.
Qed.

Lemma fits_take {A} size cap off (l : list A) : 0 < size →
  fits size cap off l = take (Z.to_nat ((cap - off) / size)) l.
Proof.
  intros Hs. revert off. induction l as [|x l IH]; intros off; simpl; [by rewrite take_nil|].
  destruct (Z.ltb_spec cap (off + size)) as [H|H].
  - assert ((cap - off) / size < 1) as Hd by (apply Z.div_lt_upper_bound; lia).
    by replace (Z.to_nat _) with O by lia.
  - rewrite IH. replace (cap - off) with (cap - (off + size) + 1 * size) by lia.
    rewrite Z.div_add by lia.
    assert (0 <= (cap - (off + size)) / size) by (apply Z.div_pos; lia).
    by replace (Z.to_nat (_ + 1)) with (S (Z.to_nat ((cap - (off + size)) / size))) by lia.
Qed.

Lemma fits_bound {A} size cap off (l : list A) : 0 < size → off <= cap →
  off + size * zlen (fits size cap off l) <= cap.
Proof.
  intros Hs. revert off. induction l as [|x l IH]; intros off Ho; simpl; [unfold zlen; simpl; lia|].
  destruct (Z.ltb_spec cap (off + size)) as [H|H]; [unfold zlen; simpl; lia|].
  rewrite zlen_cons. specialize (IH (off + size) H). lia.
Qed.

Lemma fits_len {A} size cap off (l : list A) : zlen (fits size cap off l) <= zlen l.
Proof.
  revert off. induction l as [|x l IH]; intros off; simpl; [done|].
  destruct (cap <? off + size); rewrite ?zlen_nil, !zlen_cons; [pose proof (zlen_nonneg l); lia|].
  specialize (IH (off + size)). lia.
Qed.

Lemma Forall_fits {A} (P : A → Prop) size cap off l : Forall P l → Forall P (fits size cap off l).
Proof.
  intros H. revert off. induction H as [|x l Hx Hl IH]; intros off; simpl; [constructor|].
  destruct (cap <? off + size); by constructor.
Qed.

Lemma zlen_flat_map {A} (enc : A → bytes) size l :
  Forall (λ x, zlen (enc x) = size) l → zlen (flat_map enc l) = size * zlen l.
Proof.
  induction 1 as [|x l Hx _ IH]; simpl; [by rewrite Z.mul_0_r|].
  rewrite zlen_app, zlen_cons, IH, Hx. lia.
Qed.
