(* ===== verification/SlotTable.v ===== *)
(** Fixed-capacity tables: arrays of slots with a [used] flag, searched by a
    linear scan for a key.

    Every table of the firmware (neighbours, routes, node ids, locator
    bindings, pending resolutions, battery reports, ARQ slots) has this shape.
    The file gives the scan loops, the no-duplicate-key invariant, and the
    abstraction of a slot array to a finite map, with one lemma per kind of
    update; the components' refinement theorems are instances. *)
From S2P Require Import Prelude.

(** ** Linear scans *)

(** [for (i = 0; i < N; i++) if (p(slots[i])) return i;] *)
Fixpoint find_index {A} (p : A → bool) (l : list A) : option nat :=
  match l with
  | [] => None
  | x :: l => if p x then Some O else S <$> find_index p l
  end.

(** The counting loop of every [count()]. *)
Fixpoint count_if {A} (p : A → bool) (l : list A) : Z :=
  match l with
  | [] => 0
  | x :: l => (if p x then 1 else 0) + count_if p l
  end.

Lemma find_index_Some {A} (p : A → bool) l i : find_index p l = Some i →
  (∃ x, l !! i = Some x ∧ p x = true) ∧
  (∀ j y, (j < i)%nat → l !! j = Some y → p y = false).
Proof.
  revert i. induction l as [|x l IH]; intros i; simpl; [done|].
  destruct (p x) eqn:Hp.
  - intros [= <-]. split; [by exists x|lia].
  - destruct (find_index p l) as [k|] eqn:Hk; simpl; [|done].
    intros [= <-]. destruct (IH k eq_refl) as [Hx Hmin]. split; [done|].
    intros [|j] y Hj; simpl; [by intros [= <-]|]. intros Hy. apply (Hmin j); [lia|done].
Qed.

Lemma find_index_lookup {A} (p : A → bool) l i : find_index p l = Some i →
  ∃ x, l !! i = Some x ∧ p x = true.
Proof. intros H. by apply find_index_Some in H as [? _]. Qed.

Lemma find_index_lt {A} (p : A → bool) l i : find_index p l = Some i → (i < length l)%nat.
Proof. intros (x & Hx & _)%find_index_lookup. by eapply lookup_lt_Some. Qed.

Lemma find_index_None {A} (p : A → bool) l :
  find_index p l = None ↔ ∀ i x, l !! i = Some x → p x = false.
Proof.
  induction l as [|x l IH]; simpl; [split; [intros _ i y; by rewrite lookup_nil|done]|].
  destruct (p x) eqn:Hp.
  - split; [done|]. intros H. specialize (H O x eq_refl). congruence.
  - destruct (find_index p l) eqn:Hk; simpl.
    + split; [done|]. intros H. exfalso.
      assert (Some n = None) as [=]. apply IH. intros i y. apply (H (S i) y).
    + split; [|done]. intros _ [|i] y; simpl; [by intros [= <-]|].
      apply IH; done.
Qed.

Lemma find_index_ext {A} (p q : A → bool) l :
  (∀ x, x ∈ l → p x = q x) → find_index p l = find_index q l.
Proof.
  induction l as [|x l IH]; intros H; simpl; [done|].
  rewrite (H x) by constructor. rewrite IH; [done|]. intros y Hy. apply H. by constructor.
Qed.

(** Overwriting the slot that a scan stopped at. *)
Lemma find_index_insert_hit {A} (p : A → bool) l i y :
  find_index p l = Some i → p y = true → find_index p (<[i:=y]> l) = Some i.
Proof.
  revert i. induction l as [|x l IH]; intros i; simpl; [done|].
  destruct (p x) eqn:Hp; [intros [= <-] Hy; simpl; by rewrite Hy|].
  destruct (find_index p l) as [k|]; simpl; [|done]. intros [= <-] Hy. simpl.
  rewrite Hp, (IH k); done.
Qed.

Lemma count_if_bounds {A} (p : A → bool) l : 0 <= count_if p l <= zlen l.
Proof.
  induction l as [|x l IH]; simpl; [done|].
  rewrite zlen_cons. destruct (p x); lia.
Qed.

Lemma count_if_insert {A} (p : A → bool) l i x y : l !! i = Some x →
  count_if p (<[i:=y]> l) =
  count_if p l - (if p x then 1 else 0) + (if p y then 1 else 0).
Proof.
  revert i. induction l as [|z l IH]; intros [|i]; simpl; try done.
  - intros [= ->]. lia.
  - intros Hi. rewrite (IH i Hi). lia.
Qed.

Lemma count_if_zero {A} (p : A → bool) l :
  (∀ x, x ∈ l → p x = false) → count_if p l = 0.
Proof.
  induction l as [|x l IH]; intros H; simpl; [done|].
  rewrite (H x) by constructor. rewrite IH; [done|]. intros y Hy. apply H. by constructor.
Qed.

Lemma count_if_full {A} (p : A → bool) l :
  count_if p l = zlen l ↔ ∀ x, x ∈ l → p x = true.
Proof.
  induction l as [|x l IH]; simpl; [split; [intros _ x Hx; by apply elem_of_nil in Hx|done]|].
  rewrite zlen_cons. pose proof (count_if_bounds p l). split.
  - intros Hc y Hy. destruct (p x) eqn:Hp; [|lia].
    apply list_elem_of_In in Hy as [<-|Hy]; [done|]. apply IH; [lia|].
    by apply list_elem_of_In.
  - intros Hall. rewrite (Hall x) by constructor.
    rewrite (proj2 IH); [lia|]. intros y Hy. apply Hall. by constructor.
Qed.

Lemma count_if_app {A} (p : A → bool) l k : count_if p (l ++ k) = count_if p l + count_if p k.
Proof. induction l as [|x l IH]; simpl; [done|]. rewrite IH. lia. Qed.

Lemma count_if_fmap {A B} (p : B → bool) (f : A → B) l :
  count_if p (f <$> l) = count_if (λ x, p (f x)) l.
Proof. induction l as [|x l IH]; [done|]. rewrite fmap_cons. simpl. by rewrite IH. Qed.

(** [slots[i] = f(slots[i])], when slot [i] is known. *)
Lemma alter_insert {A} (f : A → A) (l : list A) i x :
  l !! i = Some x → alter f i l = <[i:=f x]> l.
Proof.
  revert i. induction l as [|y l IH]; intros [|i]; simpl; try done.
  - by intros [= ->].
  - intros Hi. f_equal. by apply IH.
Qed.

(** Removing an array element by moving the last one into its place. *)
Definition swap_remove {A} (i : nat) (l : list A) : list A :=
  let n := length l in
  take (n - 1) (match l !! (n - 1)%nat with Some last => <[i := last]> l | None => l end).

Lemma swap_remove_perm {A} (i : nat) (l : list A) x :
  l !! i = Some x → l ≡ₚ x :: swap_remove i l.
Proof.
  intros Hi. destruct l as [|y l _] using rev_ind; [done|].
  unfold swap_remove. rewrite length_app. simpl. rewrite Nat.add_sub.
  rewrite (lookup_app_r l [y]), Nat.sub_diag by lia. simpl.
  destruct (decide (i = length l)) as [->|Hne].
  - rewrite (lookup_app_r l [y]), Nat.sub_diag in Hi by lia. injection Hi as ->.
    rewrite insert_app_r_alt, Nat.sub_diag, take_app_length by lia. by rewrite Permutation_app_comm.
  - pose proof (lookup_lt_Some _ _ _ Hi) as Hlt. rewrite length_app in Hlt. simpl in Hlt.
    rewrite lookup_app_l in Hi by lia. rewrite insert_app_l by lia.
    rewrite take_app_le, take_ge by (rewrite length_insert; lia).
    rewrite Permutation_app_comm. simpl.
    rewrite (insert_take_drop l i y) by lia.
    rewrite <- (take_drop_middle l i x Hi) at 1.
    rewrite <- !Permutation_middle. constructor.
Qed.

(** ** Keyed slots *)

Section keyed.
Context {A K : Type} `{Countable K} (used : A → bool) (key : A → K).

Definition slot_is (k : K) (s : A) : bool := used s && bool_decide (key s = k).
Definition slot_find (k : K) (l : list A) : option nat := find_index (slot_is k) l.
Definition slot_free (l : list A) : option nat := find_index (λ s, negb (used s)) l.

(** No two used slots hold the same key. *)
Definition slots_unique (l : list A) : Prop :=
  ∀ i j s t, l !! i = Some s → l !! j = Some t →
    used s = true → used t = true → key s = key t → i = j.

(** The finite map a slot array stands for (first match wins, like the scan). *)
Fixpoint slots_map (l : list A) : gmap K A :=
  match l with
  | [] => ∅
  | s :: l => if used s then <[key s := s]> (slots_map l) else slots_map l
  end.

Lemma slot_is_true k s : slot_is k s = true ↔ used s = true ∧ key s = k.
Proof. unfold slot_is. by rewrite andb_true_iff, bool_decide_eq_true. Qed.
Lemma slot_is_false k s : slot_is k s = false ↔ (used s = true → key s ≠ k).
Proof.
  unfold slot_is. rewrite andb_false_iff, bool_decide_eq_false.
  destruct (used s); split; try (intros [?|?]; by auto); auto.
Qed.

Lemma slot_find_Some k l i : slot_find k l = Some i →
  ∃ s, l !! i = Some s ∧ used s = true ∧ key s = k.
Proof. intros (s & Hs & Hk)%find_index_lookup. apply slot_is_true in Hk. eauto. Qed.

Lemma slot_find_None k l : slot_find k l = None ↔
  ∀ i s, l !! i = Some s → used s = true → key s ≠ k.
Proof.
  unfold slot_find. rewrite find_index_None.
  split; intros Hn i s Hi.
  - apply slot_is_false. eauto.
  - apply slot_is_false. eauto.
Qed.

Lemma slot_find_unique k l i s : slots_unique l →
  l !! i = Some s → used s = true → key s = k → slot_find k l = Some i.
Proof.
  intros Hu Hi Hs Hk. destruct (slot_find k l) as [j|] eqn:Hf.
  - apply slot_find_Some in Hf as (t & Hj & Ht & Htk). f_equal. eapply Hu; eauto. congruence.
  - rewrite slot_find_None in Hf. by destruct (Hf i s Hi Hs).
Qed.

Lemma slot_free_Some l i : slot_free l = Some i → ∃ s, l !! i = Some s ∧ used s = false.
Proof. intros (s & Hs & Hn)%find_index_lookup. apply negb_true_iff in Hn. eauto. Qed.

Lemma slot_free_None l : slot_free l = None ↔ ∀ i s, l !! i = Some s → used s = true.
Proof.
  unfold slot_free. rewrite find_index_None.
  split; intros Hn i s Hi; specialize (Hn i s Hi); by apply negb_false_iff.
Qed.

(** The abstraction agrees with the scan. *)
Lemma slots_map_lookup k l :
  slots_map l !! k = match slot_find k l with Some i => l !! i | None => None end.
Proof.
  induction l as [|s l IH]; simpl; [apply lookup_empty|].
  unfold slot_find in *. simpl. unfold slot_is at 1.
  destruct (used s) eqn:Hs; simpl.
  - case_bool_decide as Hk.
    + subst k. by rewrite lookup_insert_eq.
    + rewrite lookup_insert_ne by done. rewrite IH. by destruct (find_index _ l).
  - rewrite IH. by destruct (find_index _ l).
Qed.

Lemma slots_map_lookup_Some k l s : slots_unique l →
  slots_map l !! k = Some s ↔ ∃ i, l !! i = Some s ∧ used s = true ∧ key s = k.
Proof.
  intros Hu. rewrite slots_map_lookup. split.
  - destruct (slot_find k l) as [i|] eqn:Hf; [|done].
    apply slot_find_Some in Hf as (t & Ht & ? & ?). rewrite Ht. intros [= <-]. eauto.
  - intros (i & Hi & Hs & Hk). by rewrite (slot_find_unique k l i s).
Qed.

(** *** Preservation of key uniqueness *)

Lemma slots_unique_clear l i s' : slots_unique l → used s' = false →
  slots_unique (<[i:=s']> l).
Proof.
  intros Hu Hs' a b s t Ha Hb Hs Ht Hk.
  apply list_lookup_insert_Some in Ha as [(? & -> & ?)|[? Ha]]; [congruence|].
  apply list_lookup_insert_Some in Hb as [(? & -> & ?)|[? Hb]]; [congruence|].
  eauto.
Qed.

Lemma slots_unique_update l i s s' : slots_unique l → l !! i = Some s →
  used s = true → key s' = key s → slots_unique (<[i:=s']> l).
Proof.
  intros Hu Hi Hs Hkey a b x y Ha Hb Hx Hy Hk.
  apply list_lookup_insert_Some in Ha as [(<- & -> & ?)|[? Ha]];
    apply list_lookup_insert_Some in Hb as [(<- & -> & ?)|[? Hb]]; try done.
  - eapply Hu; eauto. congruence.
  - eapply Hu; eauto. congruence.
  - eauto.
Qed.

Lemma slots_unique_fresh l i s' : slots_unique l → slot_find (key s') l = None →
  slots_unique (<[i:=s']> l).
Proof.
  intros Hu Hf a b x y Ha Hb Hx Hy Hk. rewrite slot_find_None in Hf.
  apply list_lookup_insert_Some in Ha as [(<- & -> & ?)|[? Ha]];
    apply list_lookup_insert_Some in Hb as [(<- & -> & ?)|[? Hb]]; try done.
  - by destruct (Hf b y Hb Hy).
  - by destruct (Hf a x Ha Hx).
  - eauto.
Qed.

(** A loop over all slots that may clear some of them but keeps keys. *)
Lemma slots_unique_fmap l (f : A → A) : slots_unique l →
  (∀ s, used (f s) = true → used s = true ∧ key (f s) = key s) →
  slots_unique (f <$> l).
Proof.
  intros Hu Hf i j s t Hi Hj Hs Ht Hk.
  rewrite list_lookup_fmap in Hi, Hj.
  destruct (l !! i) as [x|] eqn:Hx; simplify_eq/=.
  destruct (l !! j) as [y|] eqn:Hy; simplify_eq/=.
  destruct (Hf x Hs) as [? ?]. destruct (Hf y Ht) as [? ?].
  eapply Hu; eauto. congruence.
Qed.

Lemma slots_unique_replicate n s : used s = false → slots_unique (replicate n s).
Proof. intros Hs i j x y Hi. apply lookup_replicate in Hi as [-> _]. congruence. Qed.

(** *** Updates of the abstract map *)

Lemma slots_map_update k l i s' : slot_find k l = Some i →
  used s' = true → key s' = k → slots_map (<[i:=s']> l) = <[k:=s']> (slots_map l).
Proof.
  revert i. unfold slot_find. induction l as [|x l IH]; intros i; simpl; [done|].
  destruct (slot_is k x) eqn:Hx.
  - intros [= <-] Hs' Hk. simpl. apply slot_is_true in Hx as [Hx <-].
    rewrite Hs', Hx, Hk. by rewrite insert_insert_eq.
  - destruct (find_index _ l) as [j|] eqn:Hj; simpl; [|done]. intros [= <-] Hs' Hk. simpl.
    rewrite (IH j eq_refl Hs' Hk). destruct (used x) eqn:Hu; [|done].
    rewrite insert_insert_ne; [done|]. intros Heq. by apply slot_is_false in Hx.
Qed.

Lemma slots_map_fresh k l i s' : slot_find k l = None → slot_free l = Some i →
  used s' = true → key s' = k → slots_map (<[i:=s']> l) = <[k:=s']> (slots_map l).
Proof.
  revert i. unfold slot_find, slot_free.
  induction l as [|x l IH]; intros i; simpl; [done|].
  destruct (slot_is k x) eqn:Hx; [done|].
  destruct (find_index (slot_is k) l) eqn:Hf; simpl; [done|]. intros _.
  destruct (used x) eqn:Hu; simpl.
  - destruct (find_index (λ s, negb (used s)) l) as [j|] eqn:Hj; simpl; [|done].
    intros [= <-] Hs' Hk. simpl. rewrite Hu, (IH j eq_refl eq_refl Hs' Hk), insert_insert_ne; [done|]. intros Heq.
    by apply slot_is_false in Hx.
  - intros [= <-] Hs' Hk. simpl. by rewrite Hs', Hk.
Qed.

Lemma slots_map_delete k l i s' : slots_unique l → slot_find k l = Some i →
  used s' = false → slots_map (<[i:=s']> l) = delete k (slots_map l).
Proof.
  intros Hu Hf Hs'. pose proof (slots_unique_clear l i s' Hu Hs') as Hu'.
  apply slot_find_Some in Hf as (s & Hi & Hs & Hk).
  apply map_eq. intros k'. apply option_eq. intros t.
  rewrite slots_map_lookup_Some, lookup_delete_Some, slots_map_lookup_Some by done.
  split.
  - intros (j & Hj & Ht & <-).
    apply list_lookup_insert_Some in Hj as [(? & -> & ?)|[Hne Hj]]; [congruence|].
    split; [|eauto]. intros ->. apply Hne. eapply Hu; eauto.
  - intros (Hne & j & Hj & Ht & <-). exists j. split; [|done].
    rewrite list_lookup_insert_ne; [done|]. congruence.
Qed.

(** Evicting a used slot in favour of a new key. *)
Lemma slots_map_replace l i s s' : slots_unique l → l !! i = Some s → used s = true →
  slot_find (key s') l = None → used s' = true →
  slots_map (<[i:=s']> l) = <[key s':=s']> (delete (key s) (slots_map l)).
Proof.
  intros Hu Hi Hs Hf Hs'. pose proof (slots_unique_fresh l i s' Hu Hf) as Hu'.
  pose proof (lookup_lt_Some _ _ _ Hi) as Hlt. rewrite slot_find_None in Hf.
  apply map_eq. intros k. apply option_eq. intros t.
  rewrite slots_map_lookup_Some, lookup_insert_Some, lookup_delete_Some, slots_map_lookup_Some by done.
  split.
  - intros (j & [(<- & <- & _)|[Hne Hj]]%list_lookup_insert_Some & Ht & <-); [by left|right].
    split; [|split].
    + intros Heq. by apply (Hf j t Hj Ht).
    + intros Heq. apply Hne. by eapply Hu.
    + eauto.
  - intros [[<- <-]|(Hne & Hne' & j & Hj & Ht & <-)].
    + exists i. by rewrite list_lookup_insert_eq.
    + exists j. rewrite list_lookup_insert_ne; [done|]. congruence.
Qed.

(** A loop that keeps or clears each slot: the map is filtered. *)
Lemma slots_map_sweep l (f : A → A) (drop : A → bool) : slots_unique l →
  (∀ s, used s = true → if drop s then used (f s) = false else f s = s) →
  (∀ s, used s = false → used (f s) = false) →
  slots_map (f <$> l) = filter (λ ks, drop (ks.2) = false) (slots_map l).
Proof.
  intros Hu Hf Hf0.
  assert (slots_unique (f <$> l)) as Hu'.
  { apply slots_unique_fmap; [done|]. intros s Hs.
    destruct (used s) eqn:Hs0; [|by rewrite Hf0 in Hs].
    specialize (Hf s Hs0). destruct (drop s); [congruence|]. by rewrite Hf. }
  apply map_eq. intros k. apply option_eq. intros t.
  rewrite slots_map_lookup_Some, map_lookup_filter_Some, slots_map_lookup_Some by done.
  simpl. split.
  - intros (i & Hi & Ht & <-). rewrite list_lookup_fmap in Hi.
    destruct (l !! i) as [s|] eqn:Hs; simplify_eq/=.
    destruct (used s) eqn:Hs0; [|by rewrite Hf0 in Ht].
    specialize (Hf s Hs0). destruct (drop s) eqn:Hd; [congruence|].
    rewrite Hf in *. eauto.
  - intros ((i & Hi & Ht & <-) & Hd). exists i. rewrite list_lookup_fmap, Hi. simpl.
    specialize (Hf t Ht). rewrite Hd in Hf. by rewrite Hf.
Qed.

(** Used slots are exactly the bindings: a bound on the map's size. *)
Lemma slots_map_size l : Z.of_nat (size (slots_map l)) <= count_if used l.
Proof.
  induction l as [|s l IH]; simpl; [by rewrite map_size_empty|].
  destruct (used s); [|lia].
  destruct (slots_map l !! key s) eqn:Hk.
  - rewrite map_size_insert_Some by eauto. lia.
  - rewrite map_size_insert_None by done. lia.
Qed.
End keyed.

Create HintDb slots.
#[export] Hint Resolve slots_unique_clear slots_unique_replicate : slots.
