(* ===== verification/Float32.v ===== *)
(** IEEE-754 binary32, the [float] of the firmware.

    [SpecFloat] is the standard library's executable specification of IEEE
    arithmetic (round to nearest, ties to even); [float] is its instance with a
    24-bit significand and exponents up to 128.  A literal such as [0.3f] is
    the correctly rounded quotient of the two integers that spell it.  Every
    operation is rounded once: no fused multiply-add contraction. *)
From S2P Require Import Prelude.
From Stdlib Require Import SpecFloat.

Abbreviation f32 := spec_float.

#[export] Instance spec_float_eq_dec : EqDecision spec_float.
Proof. solve_decision. Defined.

Definition fadd : f32 → f32 → f32 := SFadd 24 128.
Definition fsub : f32 → f32 → f32 := SFsub 24 128.
Definition fmul : f32 → f32 → f32 := SFmul 24 128.
Definition fdiv : f32 → f32 → f32 := SFdiv 24 128.

(** [x < y], [x <= y], [x > y], [x >= y]: false as soon as one side is NaN. *)
Definition flt (x y : f32) : bool := SFltb x y.
Definition fle (x y : f32) : bool := SFleb x y.
Definition fgt (x y : f32) : bool := SFltb y x.
Definition fge (x y : f32) : bool := SFleb y x.

(** [(float)n] and decimal literals *)
Definition f32_of_Z (n : Z) : f32 := binary_normalize 24 128 n 0 false.
Definition f32_lit (num den : Z) : f32 := fdiv (f32_of_Z num) (f32_of_Z den).

(** [(int)x]: truncation toward zero.  (NaN and out-of-range values are
    undefined in C++; the firmware only converts clamped values.) *)
Definition f32_trunc (x : f32) : Z :=
  match x with
  | S754_finite s m e =>
      let v := if 0 <=? e then Z.pos m * 2 ^ e else Z.pos m / 2 ^ (- e) in
      if s then - v else v
  | _ => 0
  end.

Definition f0 : f32 := f32_of_Z 0.
Definition f1 : f32 := f32_of_Z 1.

(** ** The order on floats

    [SFcompare] is the lexicographic comparison of (sign class, exponent,
    mantissa); NaN has no place in it. *)
Definition fkey (x : f32) : option (Z * Z * Z) :=
  match x with
  | S754_nan => None
  | S754_infinity true => Some (-2, 0, 0)
  | S754_finite true m e => Some (-1, - e, - Z.pos m)
  | S754_zero _ => Some (0, 0, 0)
  | S754_finite false m e => Some (1, e, Z.pos m)
  | S754_infinity false => Some (2, 0, 0)
  end.

Definition klt (a b : Z * Z * Z) : Prop :=
  let '(a0, a1, a2) := a in let '(b0, b1, b2) := b in
  a0 < b0 ∨ a0 = b0 ∧ (a1 < b1 ∨ a1 = b1 ∧ a2 < b2).

Definition fnan (x : f32) : bool := match x with S754_nan => true | _ => false end.

Lemma SFcompare_spec x y :
  match SFcompare x y with
  | Some c => ∃ a b, fkey x = Some a ∧ fkey y = Some b ∧
      match c with Lt => klt a b | Eq => a = b | Gt => klt b a end
  | None => fnan x = true ∨ fnan y = true
  end.
Proof.
  destruct x as [s|s| |s m e], y as [s'|s'| |s' m' e']; simpl; auto;
    try destruct s; try destruct s'; simpl;
    try (eexists _, _; split; [done|]; split; [done|]; simpl; done || (left; lia)).
  - destruct (Z.compare_spec e e') as [->| |]; simpl;
      [change (Pos.compare_cont Eq m m') with (Pos.compare m m');
       destruct (Pos.compare_spec m m') as [->| |]; simpl|..];
      eexists _, _; (split; [done|]); (split; [done|]); simpl; try done; right; lia.
  - destruct (Z.compare_spec e e') as [->| |]; simpl;
      [change (Pos.compare_cont Eq m m') with (Pos.compare m m');
       destruct (Pos.compare_spec m m') as [->| |]; simpl|..];
      eexists _, _; (split; [done|]); (split; [done|]); simpl; try done; right; lia.
Qed.

Lemma klt_irrefl a : ¬ klt a a.
Proof. destruct a as [[? ?] ?]. unfold klt. lia. Qed.
Lemma klt_trans a b c : klt a b → klt b c → klt a c.
Proof. destruct a as [[? ?] ?], b as [[? ?] ?], c as [[? ?] ?]. unfold klt. lia. Qed.
Lemma klt_total a b : klt a b ∨ a = b ∨ klt b a.
Proof.
  destruct a as [[a0 a1] a2], b as [[b0 b1] b2]. unfold klt.
  destruct (decide (a0 = b0)) as [->|]; [|lia].
  destruct (decide (a1 = b1)) as [->|]; [|lia].
  destruct (decide (a2 = b2)) as [->|]; [auto|lia].
Qed.

Lemma fkey_nan x : fnan x = false ↔ ∃ a, fkey x = Some a.
Proof.
  destruct x as [[]|[]| |[] ? ?]; simpl; split; try done; try (by eexists).
  by intros [a ?].
Qed.

Lemma fnan_key x : fnan x = true → fkey x = None.
Proof. by destruct x. Qed.

(** Both order tests at once, as facts about the keys. *)
Lemma flt_fle_spec x y a b : fkey x = Some a → fkey y = Some b →
  (flt x y = true ↔ klt a b) ∧ (fle x y = true ↔ klt a b ∨ a = b).
Proof.
  intros Ha Hb. unfold flt, SFltb, fle, SFleb. pose proof (SFcompare_spec x y) as H.
  destruct (SFcompare x y) as [c|].
  - destruct H as (a' & b' & Ha' & Hb' & H).
    assert (a' = a) as -> by congruence. assert (b' = b) as -> by congruence.
    destruct c.
    + subst b. split; split; auto; try done. intros. by destruct (klt_irrefl a).
    + split; split; auto; done.
    + split; split; try done.
      * intros H'. destruct (klt_irrefl a). by eapply klt_trans.
      * intros [H'| ->]; [|by destruct (klt_irrefl b)].
        destruct (klt_irrefl a). by eapply klt_trans.
  - destruct H as [H%fnan_key|H%fnan_key]; congruence.
Qed.

Lemma flt_spec x y : flt x y = true ↔
  ∃ a b, fkey x = Some a ∧ fkey y = Some b ∧ klt a b.
Proof.
  split.
  - intros H. pose proof (SFcompare_spec x y) as Hc. unfold flt, SFltb in H.
    destruct (SFcompare x y) as [[]|]; done.
  - intros (a & b & Ha & Hb & H). by apply (flt_fle_spec x y a b).
Qed.

Lemma fle_spec x y : fle x y = true ↔
  ∃ a b, fkey x = Some a ∧ fkey y = Some b ∧ (klt a b ∨ a = b).
Proof.
  split.
  - intros H. pose proof (SFcompare_spec x y) as Hc. unfold fle, SFleb in H.
    destruct (SFcompare x y) as [[]|]; try done; destruct Hc as (a & b & ? & ? & ?); eauto 10.
  - intros (a & b & Ha & Hb & H). by apply (flt_fle_spec x y a b).
Qed.

Lemma fle_refl x : fnan x = false → fle x x = true.
Proof. intros [a Ha]%fkey_nan. apply fle_spec. eauto 10. Qed.

Lemma fle_trans x y z : fle x y = true → fle y z = true → fle x z = true.
Proof.
  rewrite !fle_spec. intros (a & b & Ha & Hb & Hab) (b' & c & Hb' & Hc & Hbc).
  simplify_eq. exists a, c. destruct Hab as [Hab| ->], Hbc as [Hbc| ->]; auto.
  eauto using klt_trans.
Qed.

Lemma flt_fle x y : flt x y = true → fle x y = true.
Proof. rewrite flt_spec, fle_spec. intros (a & b & ? & ? & ?). eauto 10. Qed.

Lemma flt_irrefl x : flt x x = false.
Proof.
  apply not_true_iff_false. rewrite flt_spec. intros (a & b & Ha & Hb & Hlt).
  simplify_eq. by eapply klt_irrefl.
Qed.

Lemma flt_trans x y z : flt x y = true → flt y z = true → flt x z = true.
Proof.
  rewrite !flt_spec. intros (a & b & Ha & Hb & Hab) (b' & c & Hb' & Hc & Hbc).
  simplify_eq. eauto 10 using klt_trans.
Qed.

(** Away from NaN, [!(x < y)] is [y <= x]. *)
Lemma flt_false x y : fnan x = false → fnan y = false →
  flt x y = false → fle y x = true.
Proof.
  intros [a Ha]%fkey_nan [b Hb]%fkey_nan Hlt. apply fle_spec.
  exists b, a. split; [done|]. split; [done|].
  destruct (klt_total a b) as [H|[->|H]]; auto.
  assert (flt x y = true) by (apply flt_spec; eauto). congruence.
Qed.

Lemma fle_not_nan x y : fle x y = true → fnan x = false ∧ fnan y = false.
Proof. rewrite fle_spec. intros (a & b & Ha & Hb & _). split; apply fkey_nan; eauto. Qed.

(** ** [clampf] from link_metric.cpp *)
Definition clampf (v lo hi : f32) : f32 :=
  if flt v lo then lo else if fgt v hi then hi else v.

Lemma clampf_range v lo hi : fnan v = false → fle lo hi = true →
  fle lo (clampf v lo hi) = true ∧ fle (clampf v lo hi) hi = true.
Proof.
  intros Hv Hlo. destruct (fle_not_nan _ _ Hlo) as [Hnlo Hnhi]. unfold clampf.
  destruct (flt v lo) eqn:E1; [split; [by apply fle_refl|done]|].
  unfold fgt. change (SFltb hi v) with (flt hi v).
  destruct (flt hi v) eqn:E2; [split; [done|by apply fle_refl]|].
  split; by apply flt_false.
Qed.

(** ** Operations that cannot produce NaN *)

Lemma shr_1_nonneg mrs : 0 <= shr_m mrs → 0 <= shr_m (shr_1 mrs).
Proof. destruct mrs as [[|[]|[]] r s]; simpl; lia. Qed.

Lemma iter_shr_nonneg n mrs : 0 <= shr_m mrs → 0 <= shr_m (iter_pos shr_1 n mrs).
Proof. revert mrs. induction n; intros mrs H; simpl; auto using shr_1_nonneg. Qed.

Lemma shr_fexp_nonneg m e l : 0 <= m → 0 <= shr_m (fst (shr_fexp 24 128 m e l)).
Proof.
  intros Hm. unfold shr_fexp, shr.
  assert (0 <= shr_m (shr_record_of_loc m l)) by (destruct l as [|[]]; done).
  destruct (_ - _); simpl; auto using iter_shr_nonneg.
Qed.

Lemma round_nonneg m l : 0 <= m → 0 <= round_nearest_even m l.
Proof. intros Hm. destruct l as [|[]]; simpl; try destruct (Z.even m); lia. Qed.

(** Rounding a non-negative magnitude yields a number of the given sign. *)
Lemma round_aux_not_nan s m e l : 0 <= m → fnan (binary_round_aux 24 128 s m e l) = false.
Proof.
  intros Hm. unfold binary_round_aux.
  pose proof (shr_fexp_nonneg m e l Hm) as H1.
  destruct (shr_fexp 24 128 m e l) as [mrs' e']. simpl in H1.
  pose proof (shr_fexp_nonneg (round_nearest_even (shr_m mrs') (loc_of_shr_record mrs')) e'
    loc_Exact (round_nonneg _ _ H1)) as H2.
  destruct (shr_fexp _ _ _ e' loc_Exact) as [mrs'' e'']. simpl in H2.
  destruct (shr_m mrs''); [done| |lia]. by destruct (_ <=? _).
Qed.

Definition fsign_pos (x : f32) : bool :=
  match x with
  | S754_zero s | S754_infinity s | S754_finite s _ _ => negb s
  | S754_nan => false
  end.

Lemma round_aux_pos m e l : 0 <= m → fsign_pos (binary_round_aux 24 128 false m e l) = true.
Proof.
  intros Hm. unfold binary_round_aux.
  pose proof (shr_fexp_nonneg m e l Hm) as H1.
  destruct (shr_fexp 24 128 m e l) as [mrs' e']. simpl in H1.
  pose proof (shr_fexp_nonneg (round_nearest_even (shr_m mrs') (loc_of_shr_record mrs')) e'
    loc_Exact (round_nonneg _ _ H1)) as H2.
  destruct (shr_fexp _ _ _ e' loc_Exact) as [mrs'' e'']. simpl in H2.
  destruct (shr_m mrs''); [done| |lia]. by destruct (_ <=? _).
Qed.

Lemma round_not_nan s m e : fnan (binary_round 24 128 s m e) = false.
Proof. unfold binary_round. destruct (shl_align _ _ _). by apply round_aux_not_nan. Qed.
Lemma round_pos m e : fsign_pos (binary_round 24 128 false m e) = true.
Proof. unfold binary_round. destruct (shl_align _ _ _). by apply round_aux_pos. Qed.

Lemma normalize_not_nan m e z : fnan (binary_normalize 24 128 m e z) = false.
Proof. destruct m; simpl; auto using round_not_nan. Qed.

Definition ffinite (x : f32) : bool :=
  match x with S754_zero _ | S754_finite _ _ _ => true | _ => false end.

Lemma ffinite_not_nan x : ffinite x = true → fnan x = false.
Proof. by destruct x. Qed.

Lemma fsub_not_nan x y : ffinite x = true → ffinite y = true → fnan (fsub x y) = false.
Proof.
  destruct x as [s|s| |s m e], y as [s'|s'| |s' m' e']; try done; intros _ _; unfold fsub; simpl.
  - by destruct s, s'.
  - apply normalize_not_nan.
Qed.

Lemma fmul_not_nan x y : ffinite x = true → ffinite y = true → fnan (fmul x y) = false.
Proof.
  destruct x as [s|s| |s m e], y as [s'|s'| |s' m' e']; try done; intros _ _; unfold fmul; simpl.
  by apply round_aux_not_nan.
Qed.

Lemma fmul_pos x y : ffinite x = true → ffinite y = true →
  fsign_pos x = true → fsign_pos y = true → fsign_pos (fmul x y) = true.
Proof.
  destruct x as [[]|s| |[] m e], y as [[]|s'| |[] m' e']; try done; intros _ _ _ _.
  unfold fmul. simpl. by apply round_aux_pos.
Qed.

Lemma fadd_pos x y : fsign_pos x = true → fsign_pos y = true → fsign_pos (fadd x y) = true.
Proof.
  destruct x as [[]|[]| |[] m e], y as [[]|[]| |[] m' e']; try done; intros _ _.
  unfold fadd. simpl. apply round_pos.
Qed.

Lemma fdiv_not_nan x s m e : fnan x = false → fnan (fdiv x (S754_finite s m e)) = false.
Proof.
  destruct x as [s'|s'| |s' m' e']; try done; intros _. unfold fdiv. cbn [SFdiv].
  unfold SFdiv_core_binary. set (e0 := Z.min _ _).
  set (m0 := match _ with Z0 => _ | Z.pos _ => _ | Z.neg _ => _ end).
  assert (0 <= m0) as Hm0.
  { subst m0. destruct (e' - e - e0); try lia. apply Z.shiftl_nonneg. lia. }
  pose proof (Z_div_mod m0 (Z.pos m) eq_refl) as Hd.
  destruct (Z.div_eucl m0 (Z.pos m)) as [q r]. apply round_aux_not_nan.
  destruct Hd as [Hd Hr]. nia.
Qed.

Lemma fsign_pos_not_nan x : fsign_pos x = true → fnan x = false.
Proof. by destruct x. Qed.

(** A float between two positive finite ones is positive and finite. *)
Lemma between_finite lo hi x : fle lo x = true → fle x hi = true →
  flt f0 lo = true → ffinite hi = true → ffinite x = true ∧ fsign_pos x = true.
Proof.
  rewrite !fle_spec, flt_spec.
  intros (a & b & Ha & Hb & Hab) (b' & c & Hb' & Hc & Hbc) (z & a' & Hz & Ha' & Hza) Hfin.
  simplify_eq/=.
  assert (klt (0, 0, 0) b) as Hpos by (destruct Hab as [?| ->]; eauto using klt_trans).
  destruct x as [[]|[]| |[] m e]; simplify_eq/=; try done; unfold klt in *; try (simpl in *; lia).
  destruct hi as [[]|[]| |[] m' e']; simplify_eq/=; destruct Hbc as [?|?]; simplify_eq; lia.
Qed.

Create HintDb f32.
#[export] Hint Resolve fle_refl flt_fle ffinite_not_nan fsub_not_nan fmul_not_nan fmul_pos
  fadd_pos fdiv_not_nan fsign_pos_not_nan round_not_nan normalize_not_nan : f32.
