(* ===== verification/MeshTypes.v ===== *)
(** lib/mesh/mesh_types.h: node ids, their hex form, and node refs. *)
From S2P Require Import Prelude Reader.

(** ** NodeId *)

Record NodeId := mkNodeId { nid_b : bytes }.

#[export] Instance NodeId_eq_dec : EqDecision NodeId.
Proof. solve_decision. Defined.
#[export] Program Instance NodeId_countable : Countable NodeId :=
  inj_countable' nid_b mkNodeId _.
Next Obligation. by intros []. Qed.

(** [uint8_t b[16]] *)
Definition wf_nid (id : NodeId) : Prop := zlen (nid_b id) = 16 ∧ wf_bytes (nid_b id).

(** [operator==] *)
Definition nid_eqb (x y : NodeId) : bool := bool_decide (x = y).

Definition nid_zero : NodeId := mkNodeId (replicate 16 0).
Definition is_zero (id : NodeId) : bool := nid_eqb id nid_zero.
Definition NODE_ID_BROADCAST : NodeId := mkNodeId (replicate 16 255).

Definition nid_write (id : NodeId) : bytes := nid_b id.
Definition nid_read (b : bytes) (i : Z) : res NodeId :=
  l ← rdn b i 16; Ok (mkNodeId l).

(** *** Hex form *)

(** ["0123456789ABCDEF"[n]] *)
Definition hx (n : Z) : Z := if n <? 10 then 48 + n else 65 + (n - 10).

(** 32 uppercase hex characters and the NUL. *)
Definition nid_hex (id : NodeId) : bytes :=
  flat_map (λ x, [hx (Z.shiftr x 4); hx (Z.land x 15)]) (nid_b id) ++ [0].

(** FNV-1a over the 16 bytes. *)
Definition nid_fold (id : NodeId) : Z :=
  fold_left (λ h x, u32 (Z.lxor h x * 16777619)) (nid_b id) 2166136261.

Definition nid_from_u32 (v : Z) : NodeId :=
  mkNodeId ([u8 v; u8 (Z.shiftr v 8); u8 (Z.shiftr v 16); u8 (Z.shiftr v 24)] ++ replicate 12 0).

(** One hex digit to 0..15, or -1. *)
Definition nid_hexval (c : Z) : Z :=
  if (48 <=? c) && (c <=? 57) then c - 48 else
  if (97 <=? c) && (c <=? 102) then c - 97 + 10 else
  if (65 <=? c) && (c <=? 70) then c - 65 + 10 else -1.

(** The parse loop, from byte [i] on ([n] iterations left); [acc] holds the
    bytes already filled.  [s] is the C string with its terminating NUL. *)
Fixpoint nid_from_hex_loop (n : nat) (s : bytes) (i : Z) (acc : bytes) : res bytes :=
  match n with
  | O => Ok acc
  | S n =>
      hi ← (c ← rd s (2 * i); Ok (nid_hexval c));
      if hi <? 0 then Ok acc else
      lo ← (c ← rd s (2 * i + 1); Ok (nid_hexval c));
      if lo <? 0 then Ok acc else
      nid_from_hex_loop n s (i + 1) (acc ++ [u8 (Z.lor (Z.shiftl hi 4) lo)])
  end.

(** Returns the number of bytes filled and the id (unfilled bytes zero). *)
Definition nid_from_hex (s : bytes) : res (Z * NodeId) :=
  l ← nid_from_hex_loop 16 s 0 [];
  Ok (zlen l, mkNodeId (l ++ replicate (16 - length l) 0)).

(** ** node_ref *)

Record node_ref := mkRef { ref_idx : Z; ref_gen : Z }.
#[export] Instance node_ref_eq_dec : EqDecision node_ref.
Proof. solve_decision. Defined.

Definition NODE_REF_NONE : node_ref := mkRef 255 0.
Definition ref_is_none (r : node_ref) : bool := ref_idx r =? ref_idx NODE_REF_NONE.

(** ** Lemmas *)

Lemma nid_eqb_eq x y : nid_eqb x y = true ↔ x = y.
Proof. apply bool_decide_eq_true. Qed.
Lemma nid_eqb_neq x y : nid_eqb x y = false ↔ x ≠ y.
Proof. apply bool_decide_eq_false. Qed.
Lemma nid_eqb_refl x : nid_eqb x x = true.
Proof. by apply nid_eqb_eq. Qed.
Lemma nid_eqb_spec x y : BoolSpec (x = y) (x ≠ y) (nid_eqb x y).
Proof. unfold nid_eqb. case_bool_decide; by constructor. Qed.

Lemma wf_nid_zero : wf_nid nid_zero.
Proof. split; [done|]. apply Forall_replicate. zlia. Qed.
Lemma wf_nid_broadcast : wf_nid NODE_ID_BROADCAST.
Proof. split; [done|]. apply Forall_replicate. zlia. Qed.
Lemma wf_nid_u32 v : wf_nid (nid_from_u32 v).
Proof.
  split; [done|]. apply Forall_app. split; [repeat constructor; apply u8_range|].
  apply Forall_replicate. zlia.
Qed.
Lemma wf_nid_write id : wf_nid id → wf_bytes (nid_write id).
Proof. by intros [_ ?]. Qed.
Lemma zlen_nid_write id : wf_nid id → zlen (nid_write id) = 16.
Proof. by intros [? _]. Qed.
#[export] Hint Resolve wf_nid_zero wf_nid_broadcast wf_nid_u32 wf_nid_write : wf.

Lemma safe_nid_read b i (Q : NodeId → Prop) : wf_bytes b → 0 <= i → i + 16 <= zlen b →
  (∀ id, wf_nid id → Q id) → safe (nid_read b i) Q.
Proof.
  intros Hb Hi Hl HQ. apply safe_bind, safe_rdn; [done|lia|lia|lia|].
  intros l Hw Hl'. by apply HQ.
Qed.

Lemma nid_read_seg b i id : nid_read b i = Ok id → seg b i 16 = nid_write id.
Proof.
  unfold nid_read. destruct (rdn b i 16) as [l| |] eqn:H; simpl; [|done|done].
  intros [= <-]. by apply rdn_seg in H as [? _].
Qed.
Lemma nid_read_wf b i id : wf_bytes b → nid_read b i = Ok id → wf_nid id.
Proof.
  intros Hb. unfold nid_read. destruct (rdn b i 16) as [l| |] eqn:Hr; simpl; [|done|done]. intros [= <-].
  apply rdn_seg in Hr as [<- Hl]. split; [done|]. by apply Forall_take, Forall_drop.
Qed.
Lemma nid_read_ne_rej b i : nid_read b i ≠ Rej.
Proof. by apply bind_ne_rej; [apply rdn_ne_rej|intros l]. Qed.
#[export] Hint Resolve nid_read_ne_rej : no_rej.

Lemma at_nid_read b i id r : wf_nid id → at_ b i (nid_write id ++ r) →
  nid_read b i = Ok id.
Proof.
  intros [Hl _] H. unfold nid_read. rewrite (at_rdn _ _ 16 _ _ H) by done.
  simpl. by destruct id.
Qed.

Lemma nid_fold_range id : is_u32 (nid_fold id).
Proof.
  unfold nid_fold. assert (is_u32 2166136261) as H by zlia. revert H.
  generalize 2166136261. induction (nid_b id) as [|x l IH]; intros h Hh; simpl; [done|].
  apply IH, u32_range.
Qed.

(** *** Hex round trip *)

Lemma hexval_hx n : 0 <= n < 16 → nid_hexval (hx n) = n.
Proof.
  intros Hn. assert (n = 0 ∨ n = 1 ∨ n = 2 ∨ n = 3 ∨ n = 4 ∨ n = 5 ∨ n = 6 ∨ n = 7 ∨ n = 8 ∨
    n = 9 ∨ n = 10 ∨ n = 11 ∨ n = 12 ∨ n = 13 ∨ n = 14 ∨ n = 15) as Hc by lia.
  by repeat destruct Hc as [->|Hc]; [..|subst n].
Qed.

Lemma nibbles x : is_u8 x →
  0 <= Z.shiftr x 4 < 16 ∧ 0 <= Z.land x 15 < 16 ∧
  u8 (Z.lor (Z.shiftl (Z.shiftr x 4) 4) (Z.land x 15)) = x.
Proof.
  intros Hx. change 15 with (Z.ones 4). rewrite Z.land_ones, shiftr_div by lia.
  split; [zlia|]. split; [zlia|].
  rewrite Z.lor_comm, lor_shiftl_add by (cbn; zlia). zlia.
Qed.

Lemma nid_from_hex_loop_hex n l acc pre s i : wf_bytes l → length l = n →
  at_ s (2 * i) (flat_map (λ x, [hx (Z.shiftr x 4); hx (Z.land x 15)]) l ++ pre) →
  nid_from_hex_loop n s i acc = Ok (acc ++ l).
Proof.
  revert n acc i. induction l as [|x l IH]; intros n acc i Hl <- Hat; simpl.
  { by rewrite app_nil_r. }
  apply Forall_cons in Hl as [Hx Hl]. destruct (nibbles x Hx) as (Hh & Hlo & Hu).
  rewrite (at_rd _ _ _ _ Hat). simpl. rewrite hexval_hx by done.
  rewrite (proj2 (Z.ltb_ge _ _)) by lia.
  apply at_next in Hat. rewrite (at_rd _ _ _ _ Hat). simpl. rewrite hexval_hx by done.
  rewrite (proj2 (Z.ltb_ge _ _)) by lia. rewrite Hu.
  apply at_next in Hat. replace (2 * i + 1 + 1) with (2 * (i + 1)) in Hat by lia.
  rewrite (IH _ (acc ++ [x]) (i + 1) Hl eq_refl Hat). by rewrite <- app_assoc.
Qed.

(** A terminated string can be read up to its NUL, which is no hex digit. *)
Lemma rd_before_nul s k j : s !! k = Some 0 → 0 <= j <= Z.of_nat k →
  ∃ c, rd s j = Ok c ∧ (0 <= nid_hexval c → j < Z.of_nat k).
Proof.
  intros Hk Hj. pose proof (lookup_lt_Some _ _ _ Hk).
  destruct (lookup_lt_is_Some_2 s (Z.to_nat j)) as [c Hc]; [lia|].
  exists c. unfold rd. rewrite (proj2 (Z.ltb_ge _ _)), Hc by lia. split; [done|].
  intros Hv. destruct (decide (j = Z.of_nat k)) as [->|]; [|lia].
  rewrite Nat2Z.id, Hk in Hc. by injection Hc as <-.
Qed.

Lemma nid_from_hex_loop_safe n s k i acc : s !! k = Some 0 → 0 <= i → 2 * i <= Z.of_nat k →
  wf_bytes acc →
  safe (nid_from_hex_loop n s i acc) (λ l, wf_bytes l ∧ zlen l <= zlen acc + Z.of_nat n).
Proof.
  revert i acc. induction n as [|n IH]; intros i acc Hk Hi Hik Hacc.
  { apply safe_ok. split; [done|lia]. }
  cbn [nid_from_hex_loop].
  destruct (rd_before_nul s k (2 * i) Hk) as (c & -> & Hc); [lia|]. simpl.
  destruct (Z.ltb_spec (nid_hexval c) 0); [simpl; split; [done|lia]|].
  destruct (rd_before_nul s k (2 * i + 1) Hk) as (c' & -> & Hc'); [lia|]. simpl.
  destruct (Z.ltb_spec (nid_hexval c') 0); [simpl; split; [done|lia]|].
  eapply safe_mono; [apply IH; auto; try lia|].
  - apply Forall_app. split; [done|]. repeat constructor; apply u8_range.
  - intros l [Hl Hn]. split; [done|]. rewrite zlen_app, zlen_cons, zlen_nil in Hn. lia.
Qed.

(** Every id survives display and re-entry: parsing the hex form of a
    node id gives back all 16 bytes and the same id. *)
Theorem nid_hex_roundtrip (id : NodeId) (Hid : wf_nid id) :
  nid_from_hex (nid_hex id) = Ok (16, id).
Proof.
  destruct Hid as [Hlen Hb]. unfold nid_from_hex, nid_hex.
  rewrite (nid_from_hex_loop_hex 16 (nid_b id) [] [0]); [|done|unfold zlen in Hlen; lia|].
  - simpl. rewrite Hlen. replace (16 - length (nid_b id))%nat with O by (unfold zlen in Hlen; lia).
    simpl. rewrite app_nil_r. by destruct id.
  - apply at_start.
Qed.

Example nid_hex_roundtrip_witness :
  wf_nid (nid_from_u32 2864434397) ∧
  nid_from_hex (nid_hex (nid_from_u32 2864434397)) = Ok (16, nid_from_u32 2864434397).
Proof. split; [apply wf_nid_u32|]. apply nid_hex_roundtrip, wf_nid_u32. Defined.

(** The console parser never reads past the terminator, and always yields a
    16-byte id. *)
Lemma nid_from_hex_safe s k : s !! k = Some 0 →
  safe (nid_from_hex s) (λ r, wf_nid (r.2) ∧ 0 <= r.1 <= 16).
Proof.
  intros Hk. apply safe_bind.
  eapply safe_mono; [apply (nid_from_hex_loop_safe 16 s k 0 []); [done|lia|lia|by constructor]|].
  intros l [Hl Hn]. rewrite zlen_nil in Hn. pose proof (zlen_nonneg l). simpl. unfold wf_nid. simpl.
  split; [split|lia].
  - rewrite zlen_app, zlen_replicate. unfold zlen in *. lia.
  - apply Forall_app. split; [done|]. apply Forall_replicate. zlia.
Qed.
