(* ===== verification/LinkMetric.v ===== *)
(** lib/mesh/link_metric.{h,cpp}: RF statistics of a frame to link quality. *)
From S2P Require Import Prelude Float32.
From Stdlib Require Import SpecFloat.

Definition SNR_FLOOR_DB : f32 := f32_of_Z (-17).
Definition SNR_GOOD_DB : f32 := f32_of_Z 8.
Definition RSSI_FLOOR_DBM : f32 := f32_of_Z (-130).
Definition Q_MIN : f32 := f32_lit 2 100.
Definition Q_MAX : f32 := f32_of_Z 1.
(** default argument [alpha = 0.3f] *)
Definition EWMA_ALPHA : f32 := f32_lit 3 10.

Definition quality_from_rf (snr_db rssi_dbm : f32) : f32 :=
  let q := fdiv (fsub snr_db SNR_FLOOR_DB) (fsub SNR_GOOD_DB SNR_FLOOR_DB) in
  let q := clampf q f0 f1 in
  let q := if flt rssi_dbm RSSI_FLOOR_DBM then fmul q (f32_lit 1 2) else q in
  clampf q Q_MIN Q_MAX.

Definition ewma_quality (prev sample alpha : f32) : f32 :=
  if flt prev f0 then clampf sample Q_MIN Q_MAX else
  let q := fadd (fmul alpha sample) (fmul (fsub f1 alpha) prev) in
  clampf q Q_MIN Q_MAX.

(** ** Range *)

Definition in_q (q : f32) : Prop := fle Q_MIN q = true ∧ fle q Q_MAX = true.

Lemma clampf_in_q v : fnan v = false → in_q (clampf v Q_MIN Q_MAX).
Proof. intros Hv. by apply clampf_range. Qed.

(** A quality in range is a positive finite number, never below zero. *)
Lemma in_q_finite q : in_q q → ffinite q = true ∧ fsign_pos q = true.
Proof. intros [H1 H2]. by eapply between_finite. Qed.

Lemma in_q_not_neg q : in_q q → flt q f0 = false.
Proof.
  intros [H1 _]. apply not_true_iff_false. intros H2.
  assert (flt f0 Q_MIN = true) as H3 by done.
  rewrite fle_spec in H1. rewrite flt_spec in H2, H3.
  destruct H1 as (a & b & Ha & Hb & Hab), H2 as (b' & c & Hb' & Hc & Hbc),
    H3 as (c' & a' & Hc' & Ha' & Hca). simplify_eq.
  destruct (klt_irrefl a). destruct Hab as [?| ->]; eauto using klt_trans.
Qed.

Lemma clamp01_finite q : fnan q = false → ffinite (clampf q f0 f1) = true.
Proof.
  intros Hq. unfold clampf. destruct (flt q f0) eqn:E1; [done|].
  change (fgt q f1) with (flt f1 q). destruct (flt f1 q) eqn:E2; [done|].
  destruct q as [s|[]| |s m e]; done.
Qed.

Lemma quality_from_rf_in_q (snr rssi : f32) : ffinite snr = true → in_q (quality_from_rf snr rssi).
Proof.
  intros Hsnr. unfold quality_from_rf.
  assert (fnan (fdiv (fsub snr SNR_FLOOR_DB) (fsub SNR_GOOD_DB SNR_FLOOR_DB)) = false) as Hq.
  { replace (fsub SNR_GOOD_DB SNR_FLOOR_DB) with (f32_of_Z 25) by (by vm_compute).
    apply fdiv_not_nan, fsub_not_nan; done. }
  apply clampf_in_q. destruct (flt rssi RSSI_FLOOR_DBM).
  - apply fmul_not_nan; [by apply clamp01_finite|done].
  - by apply ffinite_not_nan, clamp01_finite.
Qed.

(** [quality_from_rf] returns a usable quality, in [Q_MIN, Q_MAX],
    for every finite SNR and every RSSI: link cost 1/q is never infinite. *)
Theorem quality_from_rf_range (snr rssi : f32) (Hsnr : ffinite snr = true) :
  in_q (quality_from_rf snr rssi).
Proof. by apply quality_from_rf_in_q. Qed.

Example quality_from_rf_range_witness :
  ffinite (f32_lit (-5) 2) = true ∧ in_q (quality_from_rf (f32_lit (-5) 2) (f32_of_Z (-131))).
Proof. split; [done|]. by apply quality_from_rf_range. Defined.

(** The running estimate stays in range whatever the history: no estimate yet
    ([prev < 0]) or a previous estimate in range, and any non-negative sample. *)
Lemma ewma_in_q prev sample : (flt prev f0 = true ∨ in_q prev) →
  ffinite sample = true → fsign_pos sample = true →
  in_q (ewma_quality prev sample EWMA_ALPHA).
Proof.
  intros Hp Hs1 Hs2. unfold ewma_quality. destruct (flt prev f0) eqn:E.
  - by apply clampf_in_q, fsign_pos_not_nan.
  - destruct Hp as [Hp|Hp]; [congruence|]. destruct (in_q_finite _ Hp) as [Hp1 Hp2].
    apply clampf_in_q, fsign_pos_not_nan, fadd_pos; by apply fmul_pos.
Qed.

Create HintDb metric.
#[export] Hint Resolve quality_from_rf_in_q ewma_in_q clampf_in_q : metric.
