(* ===== verification/NeighborTable.v ===== *)
(** lib/mesh/neighbor_table.{h,cpp}: direct neighbours, their per-direction
    link quality and link-local aliases. *)
From S2P Require Import Prelude SlotTable Float32 MeshTypes LinkMetric.
From Stdlib Require Import SpecFloat.

Definition MAX_NEIGHBORS : Z := 32.
Definition ASYM_THRESHOLD : f32 := f32_lit 35 100.
Definition ALIAS_NONE : Z := 0.
Definition ALIAS_BROADCAST : Z := 255.

(** [-1.0f]: quality unknown *)
Definition Q_UNKNOWN : f32 := f32_of_Z (-1).

Record Neighbor := mkNeighbor {
  nb_id : NodeId;
  nb_q_rx : f32;
  nb_q_tx : f32;
  nb_my_alias : Z;
  nb_their_alias : Z;
  nb_last_heard_ms : Z;
  nb_caps : Z;
  nb_used : bool }.

Definition Neighbor_default : Neighbor :=
  mkNeighbor nid_zero Q_UNKNOWN Q_UNKNOWN ALIAS_NONE ALIAS_NONE 0 0 false.

(** [Neighbor::asymmetric] *)
Definition asymmetric (n : Neighbor) : bool :=
  if flt (nb_q_rx n) f0 || flt (nb_q_tx n) f0 then false else
  let d := fsub (nb_q_rx n) (nb_q_tx n) in
  let d := if flt d f0 then SFopp d else d in
  fgt d ASYM_THRESHOLD.

(** Field updates through a [Neighbor*]. *)
Definition nb_set_q_rx (q : f32) (now : Z) (n : Neighbor) : Neighbor :=
  mkNeighbor (nb_id n) q (nb_q_tx n) (nb_my_alias n) (nb_their_alias n) now (nb_caps n) (nb_used n).
Definition nb_set_q_tx (q : f32) (n : Neighbor) : Neighbor :=
  mkNeighbor (nb_id n) (nb_q_rx n) q (nb_my_alias n) (nb_their_alias n) (nb_last_heard_ms n)
    (nb_caps n) (nb_used n).
Definition nb_set_their_alias (a : Z) (n : Neighbor) : Neighbor :=
  mkNeighbor (nb_id n) (nb_q_rx n) (nb_q_tx n) (nb_my_alias n) a (nb_last_heard_ms n)
    (nb_caps n) (nb_used n).
Definition nb_set_caps (c : Z) (n : Neighbor) : Neighbor :=
  mkNeighbor (nb_id n) (nb_q_rx n) (nb_q_tx n) (nb_my_alias n) (nb_their_alias n)
    (nb_last_heard_ms n) c (nb_used n).
Definition nb_clear (n : Neighbor) : Neighbor :=
  mkNeighbor (nb_id n) (nb_q_rx n) (nb_q_tx n) (nb_my_alias n) (nb_their_alias n)
    (nb_last_heard_ms n) (nb_caps n) false.

Record NeighborTable := mkNT { nt_slots : list Neighbor; nt_alias_base : Z }.

Definition NeighborTable_init : NeighborTable :=
  mkNT (replicate 32 Neighbor_default) 0.

Definition set_alias_seed (my_id : NodeId) (t : NeighborTable) : NeighborTable :=
  mkNT (nt_slots t) (u16 (nid_fold my_id mod 254)).

(** ** Lookups *)

Definition nt_find (id : NodeId) (t : NeighborTable) : option nat :=
  find_index (λ n, nb_used n && nid_eqb (nb_id n) id) (nt_slots t).

(** [const Neighbor* find] as a value. *)
Definition nt_get (id : NodeId) (t : NeighborTable) : option Neighbor :=
  i ← nt_find id t; nt_slots t !! i.

Definition supports (id : NodeId) (cap : Z) (t : NeighborTable) : bool :=
  match nt_get id t with Some n => negb (Z.land (nb_caps n) cap =? 0) | None => false end.
Definition their_alias_for (id : NodeId) (t : NeighborTable) : Z :=
  match nt_get id t with Some n => nb_their_alias n | None => ALIAS_NONE end.
Definition my_alias_for (id : NodeId) (t : NeighborTable) : Z :=
  match nt_get id t with Some n => nb_my_alias n | None => ALIAS_NONE end.

Definition is_my_alias (a : Z) (t : NeighborTable) : bool :=
  if a =? ALIAS_NONE then false else
  match find_index (λ n, nb_used n && (nb_my_alias n =? a)) (nt_slots t) with
  | Some _ => true | None => false end.

Definition neighbor_by_my_alias (a : Z) (t : NeighborTable) : NodeId :=
  if a =? ALIAS_NONE then nid_zero else
  match i ← find_index (λ n, nb_used n && (nb_my_alias n =? a)) (nt_slots t); nt_slots t !! i with
  | Some n => nb_id n | None => nid_zero end.

Definition neighbor_by_link (next_hop prev_hop : Z) (t : NeighborTable) : NodeId :=
  if next_hop =? ALIAS_NONE then nid_zero else
  match i ← find_index (λ n, nb_used n && (nb_my_alias n =? next_hop)
                              && (nb_their_alias n =? prev_hop)) (nt_slots t);
        nt_slots t !! i with
  | Some n => nb_id n | None => nid_zero end.

Definition tx_cost (id : NodeId) (t : NeighborTable) : f32 :=
  let q := match nt_get id t with
           | Some n => if fgt (nb_q_tx n) f0 then nb_q_tx n else Q_MIN
           | None => Q_MIN end in
  let q := if flt q Q_MIN then Q_MIN else q in
  fdiv f1 q.

Definition nt_count (t : NeighborTable) : Z := count_if nb_used (nt_slots t).

(** ** Updates *)

Definition alias_taken (slots : list Neighbor) (cand : Z) : bool :=
  existsb (λ n, nb_used n && (nb_my_alias n =? cand)) slots.

(** The cyclic walk from [k] on ([fuel] candidates left). *)
Fixpoint alloc_alias_from (fuel : nat) (k base : Z) (slots : list Neighbor) : Z :=
  match fuel with
  | O => ALIAS_NONE
  | S fuel =>
      let cand := u8 (1 + (base + k) mod 254) in
      if alias_taken slots cand then alloc_alias_from fuel (k + 1) base slots else cand
  end.
Definition alloc_alias (slots : list Neighbor) (base : Z) : Z :=
  alloc_alias_from 254 0 base slots.

(** [heard]: also returns whether a [Neighbor*] (rather than null) came back. *)
Definition heard (id : NodeId) (q : f32) (now_ms : Z) (t : NeighborTable) : NeighborTable * bool :=
  let touch n := nb_set_q_rx (ewma_quality (nb_q_rx n) q EWMA_ALPHA) now_ms n in
  match nt_find id t with
  | Some i => (mkNT (alter touch i (nt_slots t)) (nt_alias_base t), true)
  | None =>
      match find_index (λ n, negb (nb_used n)) (nt_slots t) with
      | None => (t, false)
      | Some i =>
          (* the slot is marked used before [alloc_alias] scans the table; its
             old alias is still in place during that scan *)
          let claim n := mkNeighbor id Q_UNKNOWN Q_UNKNOWN (nb_my_alias n) ALIAS_NONE
                           (nb_last_heard_ms n) (nb_caps n) true in
          let slots1 := alter claim i (nt_slots t) in
          let a := alloc_alias slots1 (nt_alias_base t) in
          let set_alias n := mkNeighbor (nb_id n) (nb_q_rx n) (nb_q_tx n) a (nb_their_alias n)
                               (nb_last_heard_ms n) (nb_caps n) (nb_used n) in
          (mkNT (alter touch i (alter set_alias i slots1)) (nt_alias_base t), true)
      end
  end.

(** [Neighbor* n = find(id); if (n) <update *n>;] *)
Definition nt_update (f : Neighbor → Neighbor) (id : NodeId) (t : NeighborTable) : NeighborTable :=
  match nt_find id t with
  | Some i => mkNT (alter f i (nt_slots t)) (nt_alias_base t)
  | None => t
  end.
Definition set_tx_report (id : NodeId) (q : f32) : NeighborTable → NeighborTable :=
  nt_update (λ n, nb_set_q_tx (ewma_quality (nb_q_tx n) q EWMA_ALPHA) n) id.
Definition set_their_alias (id : NodeId) (alias : Z) : NeighborTable → NeighborTable :=
  nt_update (nb_set_their_alias alias) id.
Definition set_caps (id : NodeId) (caps : Z) : NeighborTable → NeighborTable :=
  nt_update (nb_set_caps caps) id.

Definition nb_stale (now_ms timeout_ms : Z) (n : Neighbor) : bool :=
  nb_used n && (timeout_ms <? u32 (now_ms - nb_last_heard_ms n)).

(** [prune]: the table, the ids written to [removed] (at most [cap]) in slot
    order, and the number of neighbours removed. *)
Definition nt_prune (now_ms timeout_ms cap : Z) (t : NeighborTable)
    : NeighborTable * list NodeId * Z :=
  let stale := filter (λ n, nb_stale now_ms timeout_ms n = true) (nt_slots t) in
  (mkNT ((λ n, if nb_stale now_ms timeout_ms n then nb_clear n else n) <$> nt_slots t)
        (nt_alias_base t),
   take (Z.to_nat cap) (nb_id <$> stale), zlen stale).

(** ** Alias allocation *)

Lemma alias_taken_true slots a : alias_taken slots a = true ↔
  ∃ n, n ∈ slots ∧ nb_used n = true ∧ nb_my_alias n = a.
Proof.
  unfold alias_taken. rewrite existsb_exists. setoid_rewrite andb_true_iff.
  setoid_rewrite Z.eqb_eq. by setoid_rewrite list_elem_of_In.
Qed.

Lemma alias_taken_false slots a : alias_taken slots a = false ↔
  ∀ n, n ∈ slots → nb_used n = true → nb_my_alias n ≠ a.
Proof.
  rewrite <- not_true_iff_false, alias_taken_true. split.
  - intros H n Hn Hu Ha. apply H. eauto.
  - intros H (n & Hn & Hu & Ha). by apply (H n).
Qed.

Definition alias_cand (base k : Z) : Z := u8 (1 + (base + k) mod 254).

Lemma alias_cand_eq base k : alias_cand base k = 1 + (base + k) mod 254.
Proof. unfold alias_cand. apply u8_small. zlia. Qed.

(** The walk stops at a free candidate, or every candidate was taken. *)
Lemma alloc_alias_from_spec fuel k base slots :
  let a := alloc_alias_from fuel k base slots in
  (1 <= a <= 254 ∧ alias_taken slots a = false) ∨
  (∀ j, k <= j < k + Z.of_nat fuel → alias_taken slots (alias_cand base j) = true).
Proof.
  revert k. induction fuel as [|fuel IH]; intros k; simpl; [right; lia|].
  fold (alias_cand base k). destruct (alias_taken slots (alias_cand base k)) eqn:Ht.
  - destruct (IH (k + 1)) as [?|Hall]; [by left|right]. intros j Hj.
    destruct (decide (j = k)) as [->|]; [done|]. apply Hall. lia.
  - left. split; [|done]. rewrite alias_cand_eq. zlia.
Qed.

(** 254 distinct candidates cannot all be held by fewer slots. *)
Lemma aliases_not_exhausted base slots : zlen slots < 254 →
  ¬ ∀ j, 0 <= j < 254 → alias_taken slots (alias_cand base j) = true.
Proof.
  intros Hlen Hall.
  assert (length ((λ j, alias_cand base j) <$> seqZ 0 254) <= length (nb_my_alias <$> slots))%nat.
  { apply NoDup_incl_length.
    - apply NoDup_ListNoDup, NoDup_fmap_2_strong; [|apply NoDup_seqZ].
      intros x y Hx%elem_of_seqZ Hy%elem_of_seqZ. rewrite !alias_cand_eq. zlia.
    - intros a (j & -> & Hj%elem_of_seqZ)%list_elem_of_In%list_elem_of_fmap.
      specialize (Hall j ltac:(lia)).
      apply alias_taken_true in Hall as (n & Hn & _ & Ha).
      apply list_elem_of_In, list_elem_of_fmap. eauto. }
  rewrite !length_fmap, length_seqZ in *. unfold zlen in *. lia.
Qed.

Lemma alloc_alias_ok (slots : list Neighbor) (base : Z) : zlen slots < 254 →
  1 <= alloc_alias slots base <= 254 ∧ alias_taken slots (alloc_alias slots base) = false.
Proof.
  intros Hlen. destruct (alloc_alias_from_spec 254 0 base slots) as [H|H]; [exact H|].
  by destruct (aliases_not_exhausted base slots Hlen).
Qed.

(** Alias allocation never fails: with fewer than 254 slots (the
    table has 32) [alloc_alias] returns a real alias, in 1..254, that no live
    neighbour holds — never ALIAS_NONE and never ALIAS_BROADCAST. *)
Theorem alloc_alias_fresh (slots : list Neighbor) (base : Z) (Hlen : zlen slots < 254) :
  1 <= alloc_alias slots base <= 254 ∧ alias_taken slots (alloc_alias slots base) = false.
Proof. by apply alloc_alias_ok. Qed.

Example alloc_alias_fresh_witness :
  zlen (nt_slots NeighborTable_init) < 254 ∧
  1 <= alloc_alias (nt_slots NeighborTable_init) 253 <= 254 ∧
  alias_taken (nt_slots NeighborTable_init)
    (alloc_alias (nt_slots NeighborTable_init) 253) = false.
Proof. split; [done|]. by apply alloc_alias_fresh. Defined.

(** ** The table invariant *)

Definition q_ok (q : f32) : Prop := q = Q_UNKNOWN ∨ in_q q.

Record nb_ok (n : Neighbor) : Prop := {
  nb_ok_alias : 1 <= nb_my_alias n <= 254;
  nb_ok_q_rx : in_q (nb_q_rx n);
  nb_ok_q_tx : q_ok (nb_q_tx n) }.

Record nt_ok (t : NeighborTable) : Prop := {
  nt_len : length (nt_slots t) = 32%nat;
  nt_ids : slots_unique nb_used nb_id (nt_slots t);
  nt_aliases : slots_unique nb_used nb_my_alias (nt_slots t);
  nt_entries : ∀ i n, nt_slots t !! i = Some n → nb_used n = true → nb_ok n }.

Lemma nt_find_slot id t : nt_find id t = slot_find nb_used nb_id id (nt_slots t).
Proof. done. Qed.

Lemma nt_get_Some id t n : nt_get id t = Some n →
  ∃ i, nt_find id t = Some i ∧ nt_slots t !! i = Some n ∧ nb_used n = true ∧ nb_id n = id.
Proof.
  unfold nt_get. destruct (nt_find id t) as [i|] eqn:Hf; [simpl|done]. intros Hi.
  apply slot_find_Some in Hf as (s & Hs & ? & ?). rewrite Hi in Hs. simplify_eq. eauto 10.
Qed.

Lemma nt_get_unique id t i n : nt_ok t →
  nt_slots t !! i = Some n → nb_used n = true → nb_id n = id → nt_get id t = Some n.
Proof.
  intros Hok Hi Hu Hid. unfold nt_get.
  rewrite nt_find_slot, (slot_find_unique _ _ _ _ i n); [done|apply Hok|done..].
Qed.

Lemma nt_init_ok : nt_ok NeighborTable_init.
Proof.
  unfold NeighborTable_init. split; simpl; [done|by apply slots_unique_replicate..|].
  intros i n [-> _]%lookup_replicate. done.
Qed.

(** Any update of a live entry that keeps its id and alias. *)
Lemma nt_alter_ok f i t : nt_ok t →
  (∀ n, nb_used n = true → nt_slots t !! i = Some n →
    nb_id (f n) = nb_id n ∧ nb_my_alias (f n) = nb_my_alias n ∧ (nb_ok n → nb_ok (f n))) →
  (∃ n, nt_slots t !! i = Some n ∧ nb_used n = true) →
  nt_ok (mkNT (alter f i (nt_slots t)) (nt_alias_base t)).
Proof.
  intros Hok Hf (n & Hn & Hu). destruct (Hf n Hu Hn) as (Hid & Ha & Hpres).
  rewrite (alter_insert _ _ _ _ Hn). split; simpl.
  - rewrite length_insert. apply Hok.
  - eapply slots_unique_update; [apply Hok|done..].
  - eapply slots_unique_update; [apply Hok|done..].
  - intros j m [(<- & <- & _)|[_ Hm]]%list_lookup_insert_Some Hu'.
    + by eapply Hpres, Hok.
    + by eapply Hok.
Qed.

Lemma nt_update_ok f id t : nt_ok t →
  (∀ n, nb_used n = true → nb_id (f n) = nb_id n ∧ nb_my_alias (f n) = nb_my_alias n) →
  (∀ n, nb_ok n → nb_ok (f n)) → nt_ok (nt_update f id t).
Proof.
  intros Hok Hf Hp. unfold nt_update. destruct (nt_find id t) as [i|] eqn:Hi; [|done].
  apply slot_find_Some in Hi as (n & Hn & Hu & _). apply nt_alter_ok; eauto.
  intros m Hum _. destruct (Hf m Hum). auto.
Qed.

Lemma heard_ok id q now t : nt_ok t → ffinite q = true → fsign_pos q = true →
  nt_ok (heard id q now t).1.
Proof.
  intros Hok Hq1 Hq2. unfold heard. destruct (nt_find id t) as [i|] eqn:Hf; simpl.
  { apply slot_find_Some in Hf as (n & Hn & Hu & _). apply nt_alter_ok; eauto.
    intros m _ _. split; [done|]. split; [done|]. intros [? ? ?]. split; simpl; auto with metric. }
  destruct (find_index (λ n, negb (nb_used n)) (nt_slots t)) as [i|] eqn:Hfree; simpl; [|done].
  apply slot_free_Some in Hfree as (n & Hn & Hu).
  pose proof (lookup_lt_Some _ _ _ Hn) as Hlt.
  rewrite (alter_insert _ _ _ _ Hn).
  set (n1 := mkNeighbor id Q_UNKNOWN Q_UNKNOWN _ _ _ _ true).
  set (a := alloc_alias _ _).
  rewrite (alter_insert _ (<[i:=n1]> _) i n1) by (by apply list_lookup_insert_eq).
  erewrite alter_insert by (apply list_lookup_insert_eq; by rewrite length_insert).
  rewrite !list_insert_insert_eq. simpl.
  set (n2 := nb_set_q_rx _ _ _).
  destruct (alloc_alias_ok (<[i:=n1]> (nt_slots t)) (nt_alias_base t)) as [Hr Hfresh].
  { unfold zlen. rewrite length_insert. rewrite (nt_len _ Hok). lia. }
  fold a in Hr, Hfresh. rewrite alias_taken_false in Hfresh.
  assert (nb_ok n2) as Hn2.
  { split; simpl; [done|apply ewma_in_q; auto|by left]. }
  split; simpl.
  - rewrite length_insert. apply Hok.
  - apply slots_unique_fresh; [apply Hok|done].
  - apply slots_unique_fresh; [apply Hok|]. apply slot_find_None.
    intros j m Hj Hum. simpl. apply Hfresh; [|done].
    apply list_elem_of_lookup. exists j. rewrite list_lookup_insert_ne; [done|]. congruence.
  - intros j m [(<- & <- & _)|[_ Hm]]%list_lookup_insert_Some Hu'; [done|by eapply Hok].
Qed.

Lemma set_tx_report_ok id q t : nt_ok t → ffinite q = true → fsign_pos q = true →
  nt_ok (set_tx_report id q t).
Proof.
  intros Hok Hq1 Hq2. apply nt_update_ok; [done|done|]. intros n [? ? Hq]. split; simpl; auto.
  right. apply ewma_in_q; auto. destruct Hq as [-> |?]; auto.
Qed.
Lemma set_their_alias_ok id a t : nt_ok t → nt_ok (set_their_alias id a t).
Proof. intros Hok. apply nt_update_ok; [done|done|]. by intros n [? ? ?]. Qed.
Lemma set_caps_ok id c t : nt_ok t → nt_ok (set_caps id c t).
Proof. intros Hok. apply nt_update_ok; [done|done|]. by intros n [? ? ?]. Qed.

Lemma nt_prune_ok now timeout cap t : nt_ok t → nt_ok (nt_prune now timeout cap t).1.1.
Proof.
  intros Hok. simpl. split; simpl.
  - rewrite length_fmap. apply Hok.
  - apply slots_unique_fmap; [apply Hok|]. intros n. by destruct (nb_stale now timeout n).
  - apply slots_unique_fmap; [apply Hok|]. intros n. by destruct (nb_stale now timeout n).
  - intros i n. rewrite list_lookup_fmap. destruct (nt_slots t !! i) as [m|] eqn:Hm; [|done].
    simpl. destruct (nb_stale now timeout m); intros [= <-]; [done|]. intros. by eapply Hok.
Qed.

Create HintDb nt.
#[export] Hint Resolve nt_init_ok heard_ok set_tx_report_ok set_their_alias_ok set_caps_ok
  nt_prune_ok : nt.

(** ** Functional facts about the operations *)

(** After [heard], the neighbour is present with its new estimate — unless all
    32 slots were taken by others, and then the table is unchanged. *)
Lemma heard_get id q now t : nt_ok t →
  let '(t', ok) := heard id q now t in
  if ok then ∃ n, nt_get id t' = Some n ∧ nb_last_heard_ms n = now ∧
    nb_q_rx n = ewma_quality (match nt_get id t with Some m => nb_q_rx m | None => Q_UNKNOWN end)
                  q EWMA_ALPHA
  else t' = t ∧ nt_get id t = None ∧ ∀ i n, nt_slots t !! i = Some n → nb_used n = true.
Proof.
  intros Hok. unfold heard, nt_get. destruct (nt_find id t) as [i|] eqn:Hf; simpl.
  - pose proof Hf as (n & Hn & Hu & Hid)%slot_find_Some. rewrite Hn. simpl.
    rewrite (alter_insert _ _ _ _ Hn), nt_find_slot. simpl.
    unfold slot_find. erewrite find_index_insert_hit;
      [|exact Hf|by apply slot_is_true]. simpl.
    rewrite list_lookup_insert_eq by (by eapply lookup_lt_Some). eauto.
  - destruct (find_index (λ n, negb (nb_used n)) (nt_slots t)) as [i|] eqn:Hfree; simpl.
    + pose proof Hfree as (n & Hn & Hu)%slot_free_Some.
      pose proof (lookup_lt_Some _ _ _ Hn) as Hlt.
      rewrite (alter_insert _ _ _ _ Hn).
      set (n1 := mkNeighbor id Q_UNKNOWN Q_UNKNOWN _ _ _ _ true). set (a := alloc_alias _ _).
      rewrite (alter_insert _ (<[i:=n1]> _) i n1) by (by apply list_lookup_insert_eq).
      erewrite alter_insert by (apply list_lookup_insert_eq; by rewrite length_insert).
      rewrite !list_insert_insert_eq, nt_find_slot. simpl.
      set (n2 := nb_set_q_rx _ _ _).
      erewrite (slot_find_unique _ _ id _ i n2).
      * simpl. rewrite list_lookup_insert_eq by done. by exists n2.
      * apply slots_unique_fresh; [apply Hok|done].
      * by apply list_lookup_insert_eq.
      * done.
      * done.
    + split; [done|]. split; [done|]. intros i n Hi.
      by eapply (proj1 (slot_free_None nb_used _) Hfree).
Qed.

(** Link ownership of a directed frame is exact. In a table that
    satisfies the invariant, [neighbor_by_link] names neighbour [id] exactly
    when [id]'s entry carries BOTH aliases of the frame — the alias this node
    assigned (next_hop) and the alias the neighbour assigned (prev_hop) — and
    by alias uniqueness there is at most one such neighbour. *)
Theorem neighbor_by_link_iff (t : NeighborTable) (next_hop prev_hop : Z) (id : NodeId)
    (Hok : nt_ok t) (Hid : id ≠ nid_zero) :
  neighbor_by_link next_hop prev_hop t = id ↔
  ∃ n, nt_get id t = Some n ∧ nb_my_alias n = next_hop ∧ nb_their_alias n = prev_hop.
Proof.
  unfold neighbor_by_link. destruct (Z.eqb_spec next_hop ALIAS_NONE) as [->|Hnz].
  { split; [intros <-; done|]. intros (n & (i & _ & Hi & Hu & _)%nt_get_Some & Ha & _).
    destruct (nt_entries _ Hok _ _ Hi Hu) as [Hr _ _]. unfold ALIAS_NONE in Ha. lia. }
  destruct (find_index _ (nt_slots t)) as [i|] eqn:Hf; simpl.
  - apply find_index_lookup in Hf as (n & Hn & Hp). rewrite Hn.
    apply andb_true_iff in Hp as [[Hu Ha%Z.eqb_eq]%andb_true_iff Hb%Z.eqb_eq].
    split.
    + intros <-. exists n. eauto using nt_get_unique.
    + intros (m & (j & _ & Hj & Hum & <-)%nt_get_Some & Hma & _).
      assert (i = j) as -> by (eapply (nt_aliases _ Hok); eauto; congruence). congruence.
  - rewrite find_index_None in Hf. split; [intros <-; done|].
    intros (m & (j & _ & Hj & Hum & <-)%nt_get_Some & Hma & Hmb).
    specialize (Hf j m Hj). simpl in Hf.
    rewrite Hum, Hma, Hmb, !Z.eqb_refl in Hf. done.
Qed.

Definition nt_example : NeighborTable :=
  set_their_alias (nid_from_u32 7) 9
    (heard (nid_from_u32 7) (f32_lit 1 2) 100 NeighborTable_init).1.

Lemma nt_example_ok : nt_ok nt_example.
Proof. by apply set_their_alias_ok, heard_ok; auto with nt. Qed.

Example neighbor_by_link_iff_witness :
  nt_ok nt_example ∧ nid_from_u32 7 ≠ nid_zero ∧
  neighbor_by_link (my_alias_for (nid_from_u32 7) nt_example) 9 nt_example = nid_from_u32 7.
Proof.
  split; [apply nt_example_ok|]. split; [done|].
  apply (neighbor_by_link_iff nt_example); [apply nt_example_ok|done|].
  eexists. split; [vm_compute; reflexivity|]. split; vm_compute; reflexivity.
Defined.

(** Pruning keeps exactly the neighbours heard within the timeout. *)
Lemma nt_prune_map now timeout cap t : nt_ok t →
  slots_map nb_used nb_id (nt_slots (nt_prune now timeout cap t).1.1) =
  filter (λ ks, nb_stale now timeout (ks.2) = false) (slots_map nb_used nb_id (nt_slots t)).
Proof.
  intros Hok. simpl. apply slots_map_sweep; [apply Hok|..].
  - intros s Hs. by destruct (nb_stale now timeout s).
  - intros s Hs. unfold nb_stale. by rewrite Hs.
Qed.

(** The removed ids are those of the stale neighbours. *)
Lemma nt_prune_removed now timeout t : nt_ok t →
  let '(_, removed, n) := nt_prune now timeout MAX_NEIGHBORS t in
  zlen removed = n ∧ ∀ id, id ∈ removed ↔
    ∃ nb, nt_get id t = Some nb ∧ nb_stale now timeout nb = true.
Proof.
  intros Hok. unfold nt_prune.
  set (stale := filter _ (nt_slots t)).
  assert (length stale <= 32)%nat as Hlen.
  { rewrite <- (nt_len _ Hok). apply length_filter. }
  rewrite take_ge by (rewrite length_fmap; unfold MAX_NEIGHBORS; lia). split.
  - unfold zlen. by rewrite length_fmap.
  - intros id. rewrite list_elem_of_fmap. split.
    + intros (n & -> & Hn). apply list_elem_of_filter in Hn as [Hs Hn].
      apply list_elem_of_lookup in Hn as [i Hi]. exists n. split; [|done].
      eapply nt_get_unique; [done|done| |done]. unfold nb_stale in Hs.
      by apply andb_true_iff in Hs as [? _].
    + intros (n & (i & _ & Hi & _ & <-)%nt_get_Some & Hs). exists n. split; [done|].
      apply list_elem_of_filter. split; [done|]. apply list_elem_of_lookup. eauto.
Qed.
