(* ===== verification/RoutingTable.v ===== *)
(** lib/mesh/routing_table.{h,cpp}: distance-vector routes. *)
From S2P Require Import Prelude SlotTable Float32 MeshTypes.
From Stdlib Require Import SpecFloat.

Definition MAX_ROUTES : Z := 64.
Definition MAX_HOPS : Z := 16.
Definition COST_INF : f32 := f32_of_Z 1000000.
Definition EPS : f32 := f32_lit 1 10000.

Record Route := mkRoute {
  r_dst : NodeId;
  r_next_hop : NodeId;
  r_cost : f32;
  r_hops : Z;
  r_updated_ms : Z;
  r_used : bool }.

Definition Route_default : Route := mkRoute nid_zero nid_zero COST_INF 0 0 false.

Definition r_clear (r : Route) : Route :=
  mkRoute (r_dst r) (r_next_hop r) (r_cost r) (r_hops r) (r_updated_ms r) false.

Record RoutingTable := mkRT { rt_self : NodeId; rt_slots : list Route }.

Definition RoutingTable_init : RoutingTable := mkRT nid_zero (replicate 64 Route_default).

(** [find] / [find_mut]: the slot index behind the returned pointer. *)
Definition rt_find (dst : NodeId) (slots : list Route) : option nat :=
  find_index (λ r, r_used r && nid_eqb (r_dst r) dst) slots.

(** The route found, as a value. *)
Definition rt_get (dst : NodeId) (t : RoutingTable) : option Route :=
  i ← rt_find dst (rt_slots t); rt_slots t !! i.

(** [alloc]: the claimed slot and the table with it reset. *)
Definition rt_alloc (dst : NodeId) (slots : list Route) : option (nat * list Route) :=
  i ← find_index (λ r, negb (r_used r)) slots;
  Some (i, <[i := mkRoute dst nid_zero COST_INF 0 0 true]> slots).

(** Writing the path fields through a [Route*]. *)
Definition r_set (next_hop : NodeId) (cost : f32) (hops now_ms : Z) (r : Route) : Route :=
  mkRoute (r_dst r) next_hop cost hops now_ms (r_used r).

Definition set_self (me : NodeId) (now_ms : Z) (t : RoutingTable) : RoutingTable :=
  let write i slots :=
    mkRT me (alter (λ r, mkRoute me me f0 0 now_ms (r_used r)) i slots) in
  match rt_find me (rt_slots t) with
  | Some i => write i (rt_slots t)
  | None =>
      match rt_alloc me (rt_slots t) with
      | Some (i, slots) => write i slots
      | None => mkRT me (rt_slots t)
      end
  end.

Definition offer (dst next_hop : NodeId) (cost : f32) (hops now_ms : Z) (t : RoutingTable)
    : RoutingTable * bool :=
  if nid_eqb dst (rt_self t) then (t, false) else
  if (MAX_HOPS <? hops) || fge cost COST_INF then
    match rt_find dst (rt_slots t) with
    | Some i =>
        match rt_slots t !! i with
        | Some r =>
            if nid_eqb (r_next_hop r) next_hop
            then (mkRT (rt_self t) (alter r_clear i (rt_slots t)), true) else (t, false)
        | None => (t, false)
        end
    | None => (t, false)
    end
  else
  match rt_find dst (rt_slots t) with
  | None =>
      match rt_alloc dst (rt_slots t) with
      | None => (t, false)
      | Some (i, slots) => (mkRT (rt_self t) (alter (r_set next_hop cost hops now_ms) i slots), true)
      end
  | Some i =>
      match rt_slots t !! i with
      | None => (t, false)
      | Some r =>
          if nid_eqb (r_next_hop r) next_hop
          then (mkRT (rt_self t) (alter (r_set next_hop cost hops now_ms) i (rt_slots t)), true)
          else if flt cost (fsub (r_cost r) EPS)
          then (mkRT (rt_self t) (alter (r_set next_hop cost hops now_ms) i (rt_slots t)), true)
          else (t, false)
      end
  end.

Definition rt_next_hop (dst : NodeId) (t : RoutingTable) : NodeId :=
  match rt_get dst t with Some r => r_next_hop r | None => nid_zero end.

Definition r_expired (self : NodeId) (now_ms timeout_ms : Z) (r : Route) : bool :=
  r_used r && negb (nid_eqb (r_dst r) self) && (timeout_ms <? u32 (now_ms - r_updated_ms r)).

Definition rt_prune (now_ms timeout_ms : Z) (t : RoutingTable) : RoutingTable :=
  mkRT (rt_self t)
    ((λ r, if r_expired (rt_self t) now_ms timeout_ms r then r_clear r else r) <$> rt_slots t).

Definition r_via (self via : NodeId) (r : Route) : bool :=
  r_used r && negb (nid_eqb (r_dst r) self) && nid_eqb (r_next_hop r) via.

Definition drop_via (via : NodeId) (t : RoutingTable) : RoutingTable :=
  mkRT (rt_self t)
    ((λ r, if r_via (rt_self t) via r then r_clear r else r) <$> rt_slots t).

Definition rt_count (t : RoutingTable) : Z := count_if r_used (rt_slots t).

(** ** Invariant *)

(** A learned route: reachable and within the hop ceiling. *)
Definition route_ok (r : Route) : Prop :=
  0 <= r_hops r <= MAX_HOPS ∧ fge (r_cost r) COST_INF = false.

(** The route to this node itself. *)
Definition is_self_route (self : NodeId) (r : Route) : Prop :=
  r_next_hop r = self ∧ r_cost r = f0 ∧ r_hops r = 0.

Record rt_ok (t : RoutingTable) : Prop := {
  rt_len : length (rt_slots t) = 64%nat;
  rt_dsts : slots_unique r_used r_dst (rt_slots t);
  rt_self_route : ∃ r, rt_get (rt_self t) t = Some r ∧ is_self_route (rt_self t) r;
  rt_routes : ∀ i r, rt_slots t !! i = Some r → r_used r = true → route_ok r }.

(** ** Abstraction: a finite map from destination to route *)

Definition rt_abs (t : RoutingTable) : gmap NodeId Route := slots_map r_used r_dst (rt_slots t).
Definition rt_full (t : RoutingTable) : bool :=
  match find_index (λ r, negb (r_used r)) (rt_slots t) with Some _ => false | None => true end.

(** What [offer] promises, over the map. *)
Definition spec_offer (self : NodeId) (full : bool) (dst next_hop : NodeId) (cost : f32)
    (hops now_ms : Z) (m : gmap NodeId Route) : gmap NodeId Route * bool :=
  let new := mkRoute dst next_hop cost hops now_ms true in
  if bool_decide (dst = self) then (m, false) else
  match m !! dst, (MAX_HOPS <? hops) || fge cost COST_INF with
  | None, true => (m, false)
  | None, false => if full then (m, false) else (<[dst := new]> m, true)
  | Some r, true => if bool_decide (r_next_hop r = next_hop) then (delete dst m, true) else (m, false)
  | Some r, false =>
      if bool_decide (r_next_hop r = next_hop) || flt cost (fsub (r_cost r) EPS)
      then (<[dst := new]> m, true) else (m, false)
  end.

Lemma rt_get_abs dst t : rt_get dst t = rt_abs t !! dst.
Proof.
  unfold rt_abs. rewrite slots_map_lookup. unfold rt_get.
  change (rt_find dst (rt_slots t)) with (slot_find r_used r_dst dst (rt_slots t)).
  by destruct (slot_find _ _ _ _).
Qed.

Lemma rt_get_Some dst t r : rt_get dst t = Some r →
  ∃ i, rt_find dst (rt_slots t) = Some i ∧ rt_slots t !! i = Some r ∧ r_used r = true ∧ r_dst r = dst.
Proof.
  unfold rt_get. destruct (rt_find dst (rt_slots t)) as [i|] eqn:Hf; [simpl|done]. intros Hi.
  pose proof Hf as (s & Hs & ? & ?)%slot_find_Some. rewrite Hi in Hs. simplify_eq. eauto 10.
Qed.

Lemma offer_spec (t : RoutingTable) (dst next_hop : NodeId) (cost : f32) (hops now : Z)
    (Hok : rt_ok t) :
  let '(t', changed) := offer dst next_hop cost hops now t in
  (rt_abs t', changed) = spec_offer (rt_self t) (rt_full t) dst next_hop cost hops now (rt_abs t)
  ∧ rt_self t' = rt_self t.
Proof.
  unfold offer, spec_offer, nid_eqb. rewrite <- rt_get_abs. unfold rt_get.
  case_bool_decide as Hself; [done|].
  destruct (rt_find dst (rt_slots t)) as [i|] eqn:Hf; simpl.
  - pose proof Hf as (r & Hr & Hu & Hd)%slot_find_Some. rewrite Hr.
    destruct ((MAX_HOPS <? hops) || fge cost COST_INF).
    + case_bool_decide; [|done]. split; [|done]. rewrite (alter_insert _ _ _ _ Hr).
      f_equal. apply slots_map_delete; [apply Hok|done|done].
    + case_bool_decide; [|destruct (flt cost (fsub (r_cost r) EPS)); [|done]].
      all: simpl; split; [|done]; rewrite (alter_insert _ _ _ _ Hr); f_equal.
      all: unfold r_set; rewrite Hu, Hd; by apply slots_map_update.
  - destruct ((MAX_HOPS <? hops) || fge cost COST_INF); [done|].
    unfold rt_alloc, rt_full. destruct (find_index (λ r, negb (r_used r)) (rt_slots t)) as [j|] eqn:Hj;
      [|done]. simpl.
    split; [|done]. f_equal.
    pose proof (find_index_lt _ _ _ Hj) as Hlt.
    erewrite alter_insert by (by apply list_lookup_insert_eq).
    rewrite list_insert_insert_eq. by apply slots_map_fresh.
Qed.

(** C30: [offer] implements its specification: seen as a map from
    destination to route, the table after [offer] — and its "changed" result —
    are exactly [spec_offer]'s: the self-route is never touched, an unreachable
    advertisement only withdraws the route whose next hop sent it, a new
    destination is learned unless the table is full, and a known destination
    changes hands only for a strictly better cost. *)
Theorem offer_refines (t : RoutingTable) (dst next_hop : NodeId) (cost : f32) (hops now : Z)
    (Hok : rt_ok t) :
  let '(t', changed) := offer dst next_hop cost hops now t in
  (rt_abs t', changed) = spec_offer (rt_self t) (rt_full t) dst next_hop cost hops now (rt_abs t)
  ∧ rt_self t' = rt_self t.
Proof. by apply offer_spec. Qed.

(** ** The operations preserve the invariant *)

(** Overwriting a live slot without changing its key. *)
Lemma rt_update_ok t i r r' : rt_ok t → rt_slots t !! i = Some r → r_used r = true →
  r_used r' = true → r_dst r' = r_dst r → route_ok r' →
  (r_dst r = rt_self t → is_self_route (rt_self t) r') →
  rt_ok (mkRT (rt_self t) (<[i:=r']> (rt_slots t))).
Proof.
  intros Hok Hi Hu Hu' Hd Hr' Hself.
  assert (slot_find r_used r_dst (r_dst r) (rt_slots t) = Some i) as Hf
    by (eapply slot_find_unique; [apply Hok|done..]).
  split; simpl.
  - rewrite length_insert. apply Hok.
  - eapply slots_unique_update; [apply Hok|done..].
  - rewrite rt_get_abs. unfold rt_abs. simpl.
    rewrite (slots_map_update _ _ (r_dst r) _ i r') by done.
    destruct (decide (r_dst r = rt_self t)) as [Heq|Hne].
    + rewrite Heq, lookup_insert_eq. eauto.
    + rewrite lookup_insert_ne by done. destruct (rt_self_route _ Hok) as (s & Hs & ?).
      rewrite rt_get_abs in Hs. eauto.
  - intros j s [(<- & <- & _)|[_ Hs]]%list_lookup_insert_Some Hus; [done|by eapply Hok].
Qed.

(** Claiming a free slot for a new destination. *)
Lemma rt_fresh_ok t i r' : rt_ok t → rt_find (r_dst r') (rt_slots t) = None →
  (i < 64)%nat → r_used r' = true → route_ok r' → r_dst r' ≠ rt_self t →
  find_index (λ r, negb (r_used r)) (rt_slots t) = Some i →
  rt_ok (mkRT (rt_self t) (<[i:=r']> (rt_slots t))).
Proof.
  intros Hok Hf Hlt Hu' Hr' Hne Hfree. split; simpl.
  - rewrite length_insert. apply Hok.
  - apply slots_unique_fresh; [apply Hok|done].
  - rewrite rt_get_abs. unfold rt_abs. simpl.
    rewrite (slots_map_fresh _ _ (r_dst r') _ i r') by done.
    rewrite lookup_insert_ne by done. destruct (rt_self_route _ Hok) as (s & Hs & ?).
    rewrite rt_get_abs in Hs. eauto.
  - intros j s [(<- & <- & _)|[_ Hs]]%list_lookup_insert_Some Hus; [done|by eapply Hok].
Qed.

(** A sweep that clears some learned routes. *)
Lemma rt_sweep_ok t (drop : Route → bool) : rt_ok t →
  (∀ r, drop r = true → r_used r = true ∧ r_dst r ≠ rt_self t) →
  let t' := mkRT (rt_self t) ((λ r, if drop r then r_clear r else r) <$> rt_slots t) in
  rt_ok t' ∧ rt_abs t' = filter (λ kr, drop (kr.2) = false) (rt_abs t).
Proof.
  intros Hok Hd t'.
  assert (rt_abs t' = filter (λ kr, drop (kr.2) = false) (rt_abs t)) as Habs.
  { unfold rt_abs, t'. simpl. apply slots_map_sweep; [apply Hok|..].
    - intros s Hs. by destruct (drop s).
    - intros s Hs. by destruct (drop s). }
  split; [|done]. split; unfold t'; simpl.
  - rewrite length_fmap. apply Hok.
  - apply slots_unique_fmap; [apply Hok|]. intros r. by destruct (drop r).
  - destruct (rt_self_route _ Hok) as (r & Hr & Hs). exists r. split; [|done].
    rewrite rt_get_abs in Hr |- *. fold t'. rewrite Habs.
    apply map_lookup_filter_Some. split; [done|]. simpl.
    destruct (drop r) eqn:E; [|done]. destruct (Hd _ E) as [_ Hne]. destruct Hne.
    rewrite <- rt_get_abs in Hr. by apply rt_get_Some in Hr as (_ & _ & _ & _ & ->).
  - intros i r. rewrite list_lookup_fmap. destruct (rt_slots t !! i) as [s|] eqn:Hs; [|done].
    simpl. destruct (drop s); intros [= <-]; [done|]. intros. by eapply Hok.
Qed.

Lemma r_expired_drops self now timeout r : r_expired self now timeout r = true →
  r_used r = true ∧ r_dst r ≠ self.
Proof.
  unfold r_expired. intros [[? ?%negb_true_iff]%andb_true_iff _]%andb_true_iff.
  split; [done|]. by apply nid_eqb_neq.
Qed.
Lemma r_via_drops self via r : r_via self via r = true → r_used r = true ∧ r_dst r ≠ self.
Proof.
  unfold r_via. intros [[? ?%negb_true_iff]%andb_true_iff _]%andb_true_iff.
  split; [done|]. by apply nid_eqb_neq.
Qed.

Lemma rt_prune_ok now timeout t : rt_ok t → rt_ok (rt_prune now timeout t).
Proof. intros Hok. apply rt_sweep_ok; [done|]. apply r_expired_drops. Qed.
Lemma drop_via_ok via t : rt_ok t → rt_ok (drop_via via t).
Proof. intros Hok. apply rt_sweep_ok; [done|]. apply r_via_drops. Qed.

Lemma drop_via_abs via t : rt_ok t →
  rt_abs (drop_via via t) = filter (λ kr, r_via (rt_self t) via (kr.2) = false) (rt_abs t).
Proof. intros Hok. apply rt_sweep_ok; [done|]. apply r_via_drops. Qed.
Lemma rt_prune_abs now timeout t : rt_ok t →
  rt_abs (rt_prune now timeout t) =
  filter (λ kr, r_expired (rt_self t) now timeout (kr.2) = false) (rt_abs t).
Proof. intros Hok. apply rt_sweep_ok; [done|]. apply r_expired_drops. Qed.

Lemma set_self_ok now t : rt_ok t → rt_ok (set_self (rt_self t) now t).
Proof.
  intros Hok. destruct (rt_self_route _ Hok) as (r & (i & Hf & Hi & Hu & Hd)%rt_get_Some & Hs).
  unfold set_self. rewrite Hf. rewrite (alter_insert _ _ _ _ Hi). rewrite Hu.
  by eapply rt_update_ok.
Qed.

Lemma set_self_abs now t : rt_ok t →
  rt_abs (set_self (rt_self t) now t) =
  <[rt_self t := mkRoute (rt_self t) (rt_self t) f0 0 now true]> (rt_abs t).
Proof.
  intros Hok. destruct (rt_self_route _ Hok) as (r & (i & Hf & Hi & Hu & Hd)%rt_get_Some & Hs).
  unfold set_self. rewrite Hf, (alter_insert _ _ _ _ Hi), Hu.
  unfold rt_abs. simpl. by apply slots_map_update.
Qed.

Lemma set_self_self me now t : rt_self (set_self me now t) = me.
Proof.
  unfold set_self. destruct (rt_find me (rt_slots t)); [done|].
  by destruct (rt_alloc me (rt_slots t)) as [[]|].
Qed.

(** The table of a freshly constructed router. *)
Lemma set_self_init_ok me now : rt_ok (set_self me now RoutingTable_init).
Proof.
  unfold set_self, RoutingTable_init. simpl.
  set (r := mkRoute me me f0 0 now true).
  change (replicate 64 Route_default) with (Route_default :: replicate 63 Route_default).
  simpl. replace (rt_find me (Route_default :: replicate 63 Route_default)) with (@None nat).
  2: { symmetry. apply find_index_None. intros i x Hx.
       change (Route_default :: replicate 63 Route_default) with (replicate 64 Route_default) in Hx.
       by apply lookup_replicate in Hx as [-> _]. }
  simpl. fold r. split; simpl.
  - done.
  - intros i j s t' Hi Hj Hs Ht _.
    destruct i as [|i], j as [|j]; simpl in *; try done.
    all: repeat match goal with H : replicate _ _ !! _ = Some _ |- _ =>
           apply lookup_replicate in H as [-> _] end; done.
  - exists r. unfold rt_get, rt_find. simpl. by rewrite nid_eqb_refl.
  - intros [|i] s; simpl; [by intros [= <-]|]. by intros [-> _]%lookup_replicate.
Qed.

Lemma offer_ok dst next_hop cost hops now t : rt_ok t → 0 <= hops →
  rt_ok (offer dst next_hop cost hops now t).1.
Proof.
  intros Hok Hh. unfold offer. destruct (nid_eqb_spec dst (rt_self t)) as [|Hself]; [done|].
  destruct ((MAX_HOPS <? hops) || fge cost COST_INF) eqn:Hunr.
  - destruct (rt_find dst (rt_slots t)) as [i|] eqn:Hf; [|done].
    pose proof Hf as (r & Hr & Hu & Hd)%slot_find_Some. rewrite Hr.
    destruct (nid_eqb _ _); [simpl|done].
    rewrite (alter_insert _ _ _ _ Hr).
    (* withdrawing one route is a sweep that clears just that slot *)
    split; simpl.
    + rewrite length_insert. apply Hok.
    + apply slots_unique_clear; [apply Hok|done].
    + destruct (rt_self_route _ Hok) as (s & Hs & Hself'). exists s. split; [|done].
      rewrite rt_get_abs in Hs |- *. unfold rt_abs in *. simpl.
      rewrite (slots_map_delete _ _ dst) by (apply Hok || done).
      by rewrite lookup_delete_ne.
    + intros j s [(<- & <- & _)|[_ Hs]]%list_lookup_insert_Some Hus; [done|by eapply Hok].
  - apply orb_false_iff in Hunr as [Hm%Z.ltb_ge Hc].
    destruct (rt_find dst (rt_slots t)) as [i|] eqn:Hf.
    + pose proof Hf as (r & Hr & Hu & Hd)%slot_find_Some. rewrite Hr.
      destruct (nid_eqb _ _); [|destruct (flt _ _); [|done]].
      all: simpl; rewrite (alter_insert _ _ _ _ Hr); eapply rt_update_ok; try done;
        unfold r_set; simpl; congruence.
    + unfold rt_alloc.
      destruct (find_index (λ r, negb (r_used r)) (rt_slots t)) as [j|] eqn:Hj; [|done]. simpl.
      pose proof (find_index_lt _ _ _ Hj) as Hlt.
      erewrite alter_insert by (by apply list_lookup_insert_eq).
      rewrite list_insert_insert_eq. apply rt_fresh_ok; try done.
      rewrite <- (rt_len _ Hok). done.
Qed.

Create HintDb rt.
#[export] Hint Resolve offer_ok set_self_ok set_self_init_ok drop_via_ok rt_prune_ok : rt.

Definition rt_example : RoutingTable :=
  (offer (nid_from_u32 3) (nid_from_u32 2) (f32_of_Z 5) 2 10
    (set_self (nid_from_u32 1) 0 RoutingTable_init)).1.

Lemma rt_example_ok : rt_ok rt_example.
Proof. by apply offer_ok; [apply set_self_init_ok|]. Qed.

(** A strictly better alternative takes over a known destination. *)
Example offer_refines_witness :
  rt_ok rt_example ∧
  let '(t', changed) := offer (nid_from_u32 3) (nid_from_u32 4) (f32_of_Z 1) 1 20 rt_example in
  (rt_abs t', changed) = spec_offer (rt_self rt_example) (rt_full rt_example)
     (nid_from_u32 3) (nid_from_u32 4) (f32_of_Z 1) 1 20 (rt_abs rt_example)
  ∧ rt_self t' = rt_self rt_example.
Proof. split; [apply rt_example_ok|]. apply offer_refines, rt_example_ok. Defined.

Example offer_example :
  rt_next_hop (nid_from_u32 3) rt_example = nid_from_u32 2 ∧
  rt_next_hop (nid_from_u32 3)
    (offer (nid_from_u32 3) (nid_from_u32 4) (f32_of_Z 1) 1 20 rt_example).1 = nid_from_u32 4 ∧
  rt_next_hop (nid_from_u32 3)
    (offer (nid_from_u32 3) (nid_from_u32 4) (f32_of_Z 6) 1 20 rt_example).1 = nid_from_u32 2.
Proof. by vm_compute. Qed.

(** ** Frame properties of [offer] used by the router *)

Lemma offer_other dst next_hop cost hops now t d : rt_ok t → d ≠ dst →
  rt_abs (offer dst next_hop cost hops now t).1 !! d = rt_abs t !! d.
Proof.
  intros Hok Hne. pose proof (offer_spec t dst next_hop cost hops now Hok) as H.
  destruct (offer dst next_hop cost hops now t) as [t' c]. destruct H as [H _]. simpl.
  apply (f_equal fst) in H. simpl in H. rewrite H. unfold spec_offer.
  repeat case_match; simpl; by rewrite ?lookup_insert_ne, ?lookup_delete_ne by done.
Qed.

(** A route of the new table is old, or is the one offered. *)
Lemma offer_origin dst next_hop cost hops now t d r : rt_ok t →
  rt_abs (offer dst next_hop cost hops now t).1 !! d = Some r →
  rt_abs t !! d = Some r ∨ (d = dst ∧ d ≠ rt_self t ∧ r_next_hop r = next_hop).
Proof.
  intros Hok. pose proof (offer_spec t dst next_hop cost hops now Hok) as H.
  destruct (offer dst next_hop cost hops now t) as [t' c]. destruct H as [H _]. simpl.
  apply (f_equal fst) in H. simpl in H. rewrite H. unfold spec_offer.
  case_bool_decide as Hself; simpl; [auto|].
  repeat case_match; simpl; auto;
    rewrite ?lookup_insert_Some, ?lookup_delete_Some; intros H'; destruct_or?;
    destruct_and?; simplify_eq; auto.
Qed.

Lemma offer_self dst next_hop cost hops now t : rt_ok t →
  rt_self (offer dst next_hop cost hops now t).1 = rt_self t.
Proof.
  intros Hok. pose proof (offer_spec t dst next_hop cost hops now Hok) as H.
  destruct (offer dst next_hop cost hops now t) as [t' c]. by destruct H.
Qed.
