(* ===== verification/Router.v ===== *)
(** lib/mesh/router.{h,cpp} and capabilities.h: the routing brain. *)
From S2P Require Import Prelude SlotTable Float32 MeshTypes LinkMetric NeighborTable RoutingTable.
From Stdlib Require Import SpecFloat.

Definition NEIGHBOR_TIMEOUT_MS : Z := 90000.
Definition ROUTE_TIMEOUT_MS : Z := 90000.
Definition MAX_BLOCKED : Z := 8.

(** capabilities.h *)
Definition CAP_SELECTIVE_ACK : Z := 1.
Definition CAP_SESSION_ADDR : Z := 2.
Definition CAP_DICT_COMPRESS1 : Z := 4.
Definition NODE_CAPS : Z := 0.

(** ** Announce

    The fixed arrays with their counts are lists; [n_reports], [n_routes] are
    their lengths. *)
Record Report := mkReport { rep_id : NodeId; rep_q : f32; rep_alias : Z }.
Record RouteAdv := mkAdv {
  adv_dst : NodeId; adv_next_hop : NodeId; adv_cost : f32; adv_hops : Z }.
Record Announce := mkAnnounce {
  an_origin : NodeId;
  an_reports : list Report;
  an_routes : list RouteAdv;
  an_caps : Z;
  an_has_caps : bool }.

Definition Announce_default : Announce := mkAnnounce nid_zero [] [] 0 true.

(** ** Router *)
Record Router := mkRouter {
  ro_my_id : NodeId;
  ro_neighbors : NeighborTable;
  ro_routes : RoutingTable;
  ro_blocked : list NodeId }.   (* blocked_[0 .. n_blocked_) *)

Definition Router_new (my_id : NodeId) : Router :=
  mkRouter my_id (set_alias_seed my_id NeighborTable_init)
    (set_self my_id 0 RoutingTable_init) [].

Definition is_blocked (id : NodeId) (r : Router) : bool :=
  match find_index (λ b, nid_eqb b id) (ro_blocked r) with Some _ => true | None => false end.

Definition block (id : NodeId) (r : Router) : Router * bool :=
  if is_zero id || nid_eqb id (ro_my_id r) then (r, false) else
  if is_blocked id r then (r, true) else
  if MAX_BLOCKED <=? zlen (ro_blocked r) then (r, false) else
  (mkRouter (ro_my_id r) (ro_neighbors r) (drop_via id (ro_routes r)) (ro_blocked r ++ [id]), true).

(** The last entry overwrites the removed one. *)
Definition unblock (id : NodeId) (r : Router) : Router :=
  match find_index (λ b, nid_eqb b id) (ro_blocked r) with
  | None => r
  | Some i =>
      mkRouter (ro_my_id r) (ro_neighbors r) (ro_routes r) (swap_remove i (ro_blocked r))
  end.

(** The report loop: the first report about us sets q_tx and the alias. *)
Fixpoint learn_reports (me from : NodeId) (reports : list Report) (t : NeighborTable)
    : NeighborTable :=
  match reports with
  | [] => t
  | p :: reports =>
      if nid_eqb (rep_id p) me
      then set_their_alias from (rep_alias p) (set_tx_report from (rep_q p) t)
      else learn_reports me from reports t
  end.

(** One iteration of the relaxation loop. *)
Definition relax (me from : NodeId) (link_cost : f32) (now_ms : Z) (t : RoutingTable)
    (adv : RouteAdv) : RoutingTable :=
  if nid_eqb (adv_dst adv) me then t else
  if nid_eqb (adv_next_hop adv) me then t else
  let cand_cost := fadd link_cost (adv_cost adv) in
  let cand_hops := u8 (adv_hops adv + 1) in
  (offer (adv_dst adv) from cand_cost cand_hops now_ms t).1.

Definition on_beacon (from : NodeId) (instant_q_rx : f32) (a : Announce) (now_ms : Z)
    (r : Router) : Router :=
  if nid_eqb from (ro_my_id r) then r else
  if is_blocked from r then r else
  let nt := (heard from instant_q_rx now_ms (ro_neighbors r)).1 in
  let nt := set_caps from (an_caps a) nt in
  let nt := learn_reports (ro_my_id r) from (an_reports a) nt in
  let rt := set_self (ro_my_id r) now_ms (ro_routes r) in
  let link_cost := tx_cost from nt in
  let rt := fold_left (relax (ro_my_id r) from link_cost now_ms) (an_routes a) rt in
  mkRouter (ro_my_id r) nt rt (ro_blocked r).

(** [build_announce(out)]: [has_caps] is left as [out] has it. *)
Definition build_announce (r : Router) (out : Announce) : Announce :=
  mkAnnounce (ro_my_id r)
    (take (Z.to_nat MAX_NEIGHBORS)
      ((λ n, mkReport (nb_id n) (nb_q_rx n) (nb_my_alias n)) <$>
        filter (λ n, nb_used n && negb (flt (nb_q_rx n) f0) = true) (nt_slots (ro_neighbors r))))
    (take (Z.to_nat MAX_ROUTES)
      ((λ x, mkAdv (r_dst x) (r_next_hop x) (r_cost x) (r_hops x)) <$>
        filter (λ x, r_used x = true) (rt_slots (ro_routes r))))
    NODE_CAPS (an_has_caps out).

Definition tick (now_ms neighbor_timeout_ms route_timeout_ms : Z) (r : Router) : Router :=
  let '(nt, removed, n) := nt_prune now_ms neighbor_timeout_ms MAX_NEIGHBORS (ro_neighbors r) in
  let rt := fold_left (λ t id, drop_via id t) (take (Z.to_nat n) removed) (ro_routes r) in
  mkRouter (ro_my_id r) nt (rt_prune now_ms route_timeout_ms rt) (ro_blocked r).

Definition next_hop (dst : NodeId) (r : Router) : NodeId := rt_next_hop dst (ro_routes r).
Definition blocked_at (i : nat) (r : Router) : NodeId :=
  match ro_blocked r !! i with Some id => id | None => nid_zero end.
Definition link_addr_for (dst : NodeId) (r : Router) : Z := their_alias_for dst (ro_neighbors r).
Definition ro_my_alias_for (dst : NodeId) (r : Router) : Z := my_alias_for dst (ro_neighbors r).
Definition ro_is_my_alias (a : Z) (r : Router) : bool := is_my_alias a (ro_neighbors r).
Definition link_sender (next_hop prev_hop : Z) (r : Router) : NodeId :=
  neighbor_by_link next_hop prev_hop (ro_neighbors r).
Definition neighbor_supports (dst : NodeId) (cap : Z) (r : Router) : bool :=
  supports dst cap (ro_neighbors r).

(** ** The router as a transition system *)

(** An announce as the wire decoder produces it: qualities are numbers in
    range, hop counts are bytes. *)
Definition announce_sane (a : Announce) : Prop :=
  Forall (λ p, ffinite (rep_q p) = true ∧ fsign_pos (rep_q p) = true) (an_reports a) ∧
  Forall (λ v, is_u8 (adv_hops v)) (an_routes a).

Inductive router_step : Router → Router → Prop :=
  | step_beacon r from q a now :
      in_q q → announce_sane a → router_step r (on_beacon from q a now r)
  | step_block r id : router_step r (block id r).1
  | step_unblock r id : router_step r (unblock id r)
  | step_tick r now nto rto : router_step r (tick now nto rto r).

Inductive router_reachable (me : NodeId) : Router → Prop :=
  | reach_init : router_reachable me (Router_new me)
  | reach_step r r' : router_reachable me r → router_step r r' → router_reachable me r'.

(** Every learned route leaves through someone else, and never through a
    blocked link. *)
Definition route_allowed (me : NodeId) (blocked : list NodeId) (d : NodeId) (x : Route) : Prop :=
  d = me ∨ (r_next_hop x ≠ me ∧ r_next_hop x ∉ blocked).

Record router_ok (me : NodeId) (r : Router) : Prop := {
  ok_id : ro_my_id r = me;
  ok_nt : nt_ok (ro_neighbors r);
  ok_rt : rt_ok (ro_routes r);
  ok_self : rt_self (ro_routes r) = me;
  ok_blocked_len : zlen (ro_blocked r) <= MAX_BLOCKED;
  ok_blocked_nodup : NoDup (ro_blocked r);
  ok_blocked_ids : ∀ id, id ∈ ro_blocked r → id ≠ me ∧ id ≠ nid_zero;
  ok_via : ∀ d x, rt_abs (ro_routes r) !! d = Some x → route_allowed me (ro_blocked r) d x }.

Lemma is_blocked_true id r : is_blocked id r = true ↔ id ∈ ro_blocked r.
Proof.
  unfold is_blocked. destruct (find_index _ (ro_blocked r)) as [i|] eqn:Hf.
  - apply find_index_lookup in Hf as (b & Hb & ->%nid_eqb_eq).
    split; [|done]. intros _. apply list_elem_of_lookup. eauto.
  - rewrite find_index_None in Hf. split; [done|].
    intros [i Hi]%list_elem_of_lookup. specialize (Hf i id Hi).
    by rewrite nid_eqb_refl in Hf.
Qed.

Lemma is_blocked_false id r : is_blocked id r = false ↔ id ∉ ro_blocked r.
Proof. by rewrite <- is_blocked_true, not_true_iff_false. Qed.

Lemma Router_new_ok me : router_ok me (Router_new me).
Proof.
  split; simpl.
  - done.
  - split; simpl; apply nt_init_ok.
  - apply set_self_init_ok.
  - reflexivity.
  - unfold zlen, MAX_BLOCKED. simpl. lia.
  - constructor.
  - by intros id ?%elem_of_nil.
  - intros d x Hd. left. rewrite <- rt_get_abs in Hd.
    apply rt_get_Some in Hd as (i & _ & Hi & Hu & <-). revert Hi Hu. unfold set_self.
    destruct (rt_find me _) as [j|] eqn:Hj.
    { exfalso. apply slot_find_Some in Hj as (s & [-> _]%lookup_replicate & ? & ?). done. }
    unfold rt_alloc, RoutingTable_init. simpl.
    change (replicate 64 Route_default) with (Route_default :: replicate 63 Route_default). simpl.
    destruct i as [|i]; simpl; [by intros [= <-]|].
    by intros [-> _]%lookup_replicate.
Qed.

Lemma learn_reports_ok me from reports t : nt_ok t →
  Forall (λ p, ffinite (rep_q p) = true ∧ fsign_pos (rep_q p) = true) reports →
  nt_ok (learn_reports me from reports t).
Proof.
  intros Hok. induction 1 as [|p reports [Hf Hs] _ IH]; simpl; [done|].
  destruct (nid_eqb _ _); [|done]. auto with nt.
Qed.

(** Relaxation keeps the table well-formed, and only ever adds routes whose
    next hop is the beacon's sender. *)
Lemma relax_fold_ok me from cost now advs t : rt_ok t → rt_self t = me →
  Forall (λ v, is_u8 (adv_hops v)) advs →
  let t' := fold_left (relax me from cost now) advs t in
  rt_ok t' ∧ rt_self t' = me ∧
  ∀ d x, rt_abs t' !! d = Some x →
    rt_abs t !! d = Some x ∨ (d ≠ me ∧ r_next_hop x = from).
Proof.
  intros Hok Hself Hadv. revert t Hok Hself.
  induction Hadv as [|v advs Hv _ IH]; intros t Hok Hself; simpl; [auto|].
  assert (rt_ok (relax me from cost now t v) ∧ rt_self (relax me from cost now t v) = me ∧
    ∀ d x, rt_abs (relax me from cost now t v) !! d = Some x →
      rt_abs t !! d = Some x ∨ (d ≠ me ∧ r_next_hop x = from)) as (Hok1 & Hself1 & Horig).
  { unfold relax. destruct (nid_eqb (adv_dst v) me); [auto|].
    destruct (nid_eqb (adv_next_hop v) me); [auto|].
    split; [apply offer_ok; [done|apply u8_range]|].
    split; [by rewrite offer_self|].
    intros d x [?|(-> & Hne & Hn)]%offer_origin; auto. right. by rewrite <- Hself. }
  destruct (IH _ Hok1 Hself1) as (Hok2 & Hself2 & Horig2).
  split; [done|]. split; [done|]. intros d x [Hx|?]%Horig2; auto.
Qed.

Lemma on_beacon_ok me from q a now r : router_ok me r → in_q q → announce_sane a →
  router_ok me (on_beacon from q a now r).
Proof.
  intros Hok Hq [Hrep Hadv]. unfold on_beacon.
  destruct (nid_eqb_spec from (ro_my_id r)) as [|Hfrom]; [done|].
  destruct (is_blocked from r) eqn:Hb; [done|]. apply is_blocked_false in Hb.
  destruct Hok as [Hid Hnt Hrt Hself Hbl Hbn Hbi Hvia]. rewrite Hid in *.
  destruct (in_q_finite q Hq) as [Hq1 Hq2].
  pose proof (set_self_ok now _ Hrt) as Hss.
  pose proof (set_self_abs now _ Hrt) as Hsa. rewrite Hself in Hss, Hsa.
  destruct (relax_fold_ok me from (tx_cost from (learn_reports me from (an_reports a)
    (set_caps from (an_caps a) (heard from q now (ro_neighbors r)).1))) now (an_routes a)
    (set_self me now (ro_routes r)) Hss (set_self_self _ _ _) Hadv) as (H1 & H2 & H3).
  split; simpl; auto.
  - apply learn_reports_ok; [auto with nt|done].
  - intros d x [Hx|[Hd Hn]]%H3.
    + rewrite Hsa in Hx. apply lookup_insert_Some in Hx as [[<- _]|[_ Hx]]; [by left|auto].
    + right. rewrite Hn. auto.
Qed.

Lemma block_ok me id r : router_ok me r → router_ok me (block id r).1.
Proof.
  intros Hok. unfold block.
  destruct (is_zero id || nid_eqb id (ro_my_id r)) eqn:Hz; [done|].
  apply orb_false_iff in Hz as [Hz Hme].
  apply nid_eqb_neq in Hz. apply nid_eqb_neq in Hme.
  destruct (is_blocked id r) eqn:Hb; [done|]. apply is_blocked_false in Hb.
  destruct (Z.leb_spec MAX_BLOCKED (zlen (ro_blocked r))); [done|].
  destruct Hok as [Hid Hnt Hrt Hself Hbl Hbn Hbi Hvia]. rewrite Hid in *. split; simpl; auto.
  - by apply drop_via_ok.
  - rewrite zlen_app. unfold zlen at 2. simpl. lia.
  - apply NoDup_app. split; [done|]. split; [|apply NoDup_singleton].
    intros x Hx ->%list_elem_of_singleton. done.
  - intros x [Hx| ->%list_elem_of_singleton]%elem_of_app; auto.
  - intros d x. rewrite drop_via_abs by done.
    intros [Hx Hv]%map_lookup_filter_Some. simpl in Hv.
    destruct (Hvia d x Hx) as [->|[Hn Hnb]]; [by left|].
    destruct (decide (d = me)) as [->|Hd]; [by left|right]. split; [done|].
    intros [?| Heq%list_elem_of_singleton]%elem_of_app; [done|].
    rewrite <- rt_get_abs in Hx. apply rt_get_Some in Hx as (_ & _ & _ & Hu & Hdst).
    unfold r_via in Hv. rewrite Hu, Hdst, Hself, Heq, nid_eqb_refl in Hv.
    rewrite (proj2 (nid_eqb_neq d me)) in Hv by done. done.
Qed.

(** [unblock] forgets exactly [id]. *)
Lemma unblock_blocked id r : NoDup (ro_blocked r) →
  NoDup (ro_blocked (unblock id r)) ∧
  (∀ x, x ∈ ro_blocked (unblock id r) ↔ x ∈ ro_blocked r ∧ x ≠ id) ∧
  zlen (ro_blocked (unblock id r)) <= zlen (ro_blocked r).
Proof.
  intros Hnd. unfold unblock. destruct (find_index _ (ro_blocked r)) as [i|] eqn:Hf.
  - apply find_index_lookup in Hf as (b & Hi & ->%nid_eqb_eq). simpl.
    pose proof (swap_remove_perm _ _ _ Hi) as Hp.
    assert (NoDup (id :: swap_remove i (ro_blocked r))) as [Hid Hnd']%NoDup_cons.
    { by apply (NoDup_Permutation_proper _ _ Hp). }
    split; [done|]. split.
    + intros x. rewrite (elem_of_Permutation_proper x _ _ Hp), elem_of_cons.
      split; [|by intros [[->|?] ?]]. intros Hx. split; [auto|]. by intros ->.
    + apply Permutation_length in Hp. simpl in Hp. unfold zlen. lia.
  - split; [done|]. split; [|done]. intros x. split; [|by intros [? _]]. intros Hx.
    split; [done|]. intros ->. rewrite find_index_None in Hf.
    apply list_elem_of_lookup in Hx as [i Hi]. specialize (Hf i id Hi).
    by rewrite nid_eqb_refl in Hf.
Qed.

Lemma unblock_ok me id r : router_ok me r → router_ok me (unblock id r).
Proof.
  intros [Hid Hnt Hrt Hself Hbl Hbn Hbi Hvia].
  destruct (unblock_blocked id r Hbn) as (H1 & H2 & H3).
  assert (ro_my_id (unblock id r) = ro_my_id r ∧ ro_neighbors (unblock id r) = ro_neighbors r ∧
    ro_routes (unblock id r) = ro_routes r) as (E1 & E2 & E3).
  { unfold unblock. by destruct (find_index _ _). }
  split; rewrite ?E1, ?E2, ?E3; auto; [lia|..].
  - intros x [Hx _]%H2. auto.
  - intros d x Hx. destruct (Hvia d x Hx) as [?|[? Hn]]; [by left|right].
    split; [done|]. by intros [? _]%H2.
Qed.

Lemma drop_via_fold ids t : rt_ok t →
  let t' := fold_left (λ t id, drop_via id t) ids t in
  rt_ok t' ∧ rt_self t' = rt_self t ∧
  ∀ d x, rt_abs t' !! d = Some x ↔
    rt_abs t !! d = Some x ∧ ∀ id, id ∈ ids → r_via (rt_self t) id x = false.
Proof.
  revert t. induction ids as [|id ids IH]; intros t Hok; simpl.
  - split; [done|]. split; [done|]. intros d x. split; [|by intros [? _]].
    intros Hx. split; [done|]. by intros id ?%elem_of_nil.
  - destruct (IH (drop_via id t) (drop_via_ok id t Hok)) as (H1 & H2 & H3).
    split; [done|]. split; [done|]. intros d x.
    rewrite H3, drop_via_abs, map_lookup_filter_Some by done. simpl.
    setoid_rewrite elem_of_cons. split.
    + intros [[Hx Hv] Hr]. split; [done|]. by intros y [->|?]; auto.
    + intros [Hx Hr]. repeat split; auto.
Qed.

Lemma tick_ok me now nto rto r : router_ok me r → router_ok me (tick now nto rto r).
Proof.
  intros [Hid Hnt Hrt Hself Hbl Hbn Hbi Hvia]. unfold tick. simpl.
  destruct (drop_via_fold (take (Z.to_nat (zlen (filter (λ n, nb_stale now nto n = true)
    (nt_slots (ro_neighbors r))))) (take (Z.to_nat MAX_NEIGHBORS) (nb_id <$>
    filter (λ n, nb_stale now nto n = true) (nt_slots (ro_neighbors r))))) _ Hrt) as (H1 & H2 & H3).
  split; simpl; auto.
  - apply (nt_prune_ok now nto MAX_NEIGHBORS _ Hnt).
  - by apply rt_prune_ok.
  - by rewrite H2.
  - intros d x. rewrite rt_prune_abs by done. intros [Hx _]%map_lookup_filter_Some.
    apply H3 in Hx as [Hx _]. auto.
Qed.

Create HintDb router.
#[export] Hint Resolve Router_new_ok on_beacon_ok block_ok unblock_ok tick_ok : router.

Lemma reachable_ok me r : router_reachable me r → router_ok me r.
Proof. induction 1 as [|r r' _ IH Hs]; [|destruct Hs]; auto with router. Qed.

(** ** Asymmetric routing: receive quality never steers routes

    [q_rx] (how well this node hears a neighbour) is reported to that neighbour
    and shown to the operator; routes are chosen by [q_tx] alone.  Two routers
    that agree on everything but the stored [q_rx] are related by [≡rx], and
    every operation respects the relation. *)

Definition erase_nb (n : Neighbor) : Neighbor :=
  mkNeighbor (nb_id n) f0 (nb_q_tx n) (nb_my_alias n) (nb_their_alias n) (nb_last_heard_ms n)
    (nb_caps n) (nb_used n).
Definition nt_rx_equiv (t1 t2 : NeighborTable) : Prop :=
  erase_nb <$> nt_slots t1 = erase_nb <$> nt_slots t2 ∧ nt_alias_base t1 = nt_alias_base t2.
Definition rx_equiv (r1 r2 : Router) : Prop :=
  ro_my_id r1 = ro_my_id r2 ∧ nt_rx_equiv (ro_neighbors r1) (ro_neighbors r2) ∧
  ro_routes r1 = ro_routes r2 ∧ ro_blocked r1 = ro_blocked r2.

#[export] Instance nt_rx_equiv_equivalence : Equivalence nt_rx_equiv.
Proof.
  split.
  - by split.
  - intros x y [??]. by split.
  - intros x y z [??] [??]. split; congruence.
Qed.
#[export] Instance rx_equiv_equivalence : Equivalence rx_equiv.
Proof.
  split.
  - by repeat split.
  - intros x y (A & B & C & D). split; [done|]. split; [by symmetry|]. done.
  - intros x y z (A & B & C & D) (A' & B' & C' & D'). split; [congruence|].
    split; [by rewrite B|]. split; congruence.
Qed.

Lemma find_index_erase (p : Neighbor → bool) l1 l2 :
  (∀ n m, erase_nb n = erase_nb m → p n = p m) →
  erase_nb <$> l1 = erase_nb <$> l2 → find_index p l1 = find_index p l2.
Proof.
  intros Hp. revert l2. induction l1 as [|n l1 IH]; intros [|m l2]; simpl; try done.
  intros [= ? ? ? ? ? ? ? Hl]. rewrite (Hp n m) by (unfold erase_nb; congruence).
  by rewrite (IH l2).
Qed.

Lemma lookup_erase (l1 l2 : list Neighbor) (i : nat) : erase_nb <$> l1 = erase_nb <$> l2 →
  erase_nb <$> l1 !! i = erase_nb <$> l2 !! i.
Proof. intros H. by rewrite <- !list_lookup_fmap, H. Qed.

Lemma alter_erase (f g : Neighbor → Neighbor) (l1 l2 : list Neighbor) (i : nat) :
  (∀ n m, erase_nb n = erase_nb m → erase_nb (f n) = erase_nb (g m)) →
  erase_nb <$> l1 = erase_nb <$> l2 → erase_nb <$> alter f i l1 = erase_nb <$> alter g i l2.
Proof.
  intros Hf. revert l2 i. induction l1 as [|n l1 IH]; intros [|m l2] [|i]; try done.
  - intros [= ? ? ? ? ? ? ? Hl]. simpl. f_equal; [|done]. apply Hf. unfold erase_nb; congruence.
  - intros [= ? ? ? ? ? ? ? Hl]. simpl. f_equal; [unfold erase_nb; congruence|]. by apply IH.
Qed.

Lemma alias_taken_erase (l1 l2 : list Neighbor) a : erase_nb <$> l1 = erase_nb <$> l2 →
  alias_taken l1 a = alias_taken l2 a.
Proof.
  revert l2. induction l1 as [|n l1 IH]; intros [|m l2]; simpl; try done.
  intros [= ? ? ? ? ? ? ? Hl]. unfold alias_taken in *. simpl.
  rewrite (IH l2) by done. congruence.
Qed.

Lemma alloc_alias_erase (l1 l2 : list Neighbor) base : erase_nb <$> l1 = erase_nb <$> l2 →
  alloc_alias l1 base = alloc_alias l2 base.
Proof.
  intros Hl. unfold alloc_alias. generalize 254%nat 0. intros n.
  induction n as [|n IH]; intros k; simpl; [done|].
  by rewrite (alias_taken_erase _ _ _ Hl), IH.
Qed.

(** [erase_tac]: a pointwise obligation about two slots equal up to [q_rx]. *)
Ltac erase_tac :=
  intros n m; unfold erase_nb, nb_set_q_rx, nb_set_their_alias, nb_set_caps, nb_set_q_tx; simpl;
  intros [= ? ? ? ? ? ? ?]; congruence.

Lemma nt_find_erase id t1 t2 : nt_rx_equiv t1 t2 → nt_find id t1 = nt_find id t2.
Proof. intros [H _]. apply find_index_erase; [erase_tac|done]. Qed.

Lemma nt_get_erase id t1 t2 : nt_rx_equiv t1 t2 →
  erase_nb <$> nt_get id t1 = erase_nb <$> nt_get id t2.
Proof.
  intros H. unfold nt_get. rewrite (nt_find_erase id t1 t2 H).
  destruct (nt_find id t2); simpl; [|done]. by apply lookup_erase, H.
Qed.

Lemma heard_erase id q1 q2 now t1 t2 : nt_rx_equiv t1 t2 →
  nt_rx_equiv (heard id q1 now t1).1 (heard id q2 now t2).1.
Proof.
  intros H. unfold heard. rewrite (nt_find_erase id t1 t2 H). destruct H as [H Hb].
  destruct (nt_find id t2) as [i|]; simpl.
  { split; [simpl; apply alter_erase; [erase_tac|done]|done]. }
  rewrite (find_index_erase _ (nt_slots t1) (nt_slots t2)) by (erase_tac || done).
  destruct (find_index _ (nt_slots t2)) as [i|]; simpl; [|done].
  assert (erase_nb <$> alter (λ n, mkNeighbor id Q_UNKNOWN Q_UNKNOWN (nb_my_alias n) ALIAS_NONE
      (nb_last_heard_ms n) (nb_caps n) true) i (nt_slots t1) =
    erase_nb <$> alter (λ n, mkNeighbor id Q_UNKNOWN Q_UNKNOWN (nb_my_alias n) ALIAS_NONE
      (nb_last_heard_ms n) (nb_caps n) true) i (nt_slots t2)) as H1
    by (apply alter_erase; [erase_tac|done]).
  split; [|done]. simpl. rewrite Hb, (alloc_alias_erase _ _ _ H1).
  apply alter_erase; [erase_tac|]. apply alter_erase; [erase_tac|done].
Qed.

Lemma nt_update_erase f id t1 t2 : nt_rx_equiv t1 t2 →
  (∀ n m, erase_nb n = erase_nb m → erase_nb (f n) = erase_nb (f m)) →
  nt_rx_equiv (nt_update f id t1) (nt_update f id t2).
Proof.
  intros H Hf. unfold nt_update. rewrite (nt_find_erase id t1 t2 H).
  destruct (nt_find id t2); [|done]. destruct H as [H Hb].
  split; [|done]. simpl. by apply alter_erase.
Qed.

#[export] Instance set_caps_rx id c : Proper (nt_rx_equiv ==> nt_rx_equiv) (set_caps id c).
Proof. intros t1 t2 H. apply nt_update_erase; [done|erase_tac]. Qed.
#[export] Instance set_their_alias_rx id a :
  Proper (nt_rx_equiv ==> nt_rx_equiv) (set_their_alias id a).
Proof. intros t1 t2 H. apply nt_update_erase; [done|erase_tac]. Qed.
#[export] Instance set_tx_report_rx id q :
  Proper (nt_rx_equiv ==> nt_rx_equiv) (set_tx_report id q).
Proof. intros t1 t2 H. apply nt_update_erase; [done|erase_tac]. Qed.
#[export] Instance learn_reports_rx me from reports :
  Proper (nt_rx_equiv ==> nt_rx_equiv) (learn_reports me from reports).
Proof.
  intros t1 t2 H. induction reports as [|p reports IH]; simpl; [done|].
  destruct (nid_eqb _ _); [|done]. by rewrite H.
Qed.
#[export] Instance tx_cost_rx id : Proper (nt_rx_equiv ==> eq) (tx_cost id).
Proof.
  intros t1 t2 H. unfold tx_cost. pose proof (nt_get_erase id t1 t2 H) as Hg.
  destruct (nt_get id t1) as [n|], (nt_get id t2) as [m|]; try done.
  simpl in Hg. injection Hg as ? Hq ? ? ? ? ?. by rewrite Hq.
Qed.

(** C40: directional metrics. However well or badly this node hears a
    neighbour, its routing decisions are the same: processing the same beacon
    with any two receive qualities, from states that differ only in the stored
    receive qualities, gives the same routing table (hence the same next hops)
    and states that still differ only there. *)
Theorem on_beacon_q_rx_irrelevant (r1 r2 : Router) (from : NodeId) (q1 q2 : f32) (a : Announce)
    (now : Z) (Hr : rx_equiv r1 r2) :
  rx_equiv (on_beacon from q1 a now r1) (on_beacon from q2 a now r2) ∧
  ∀ dst, next_hop dst (on_beacon from q1 a now r1) = next_hop dst (on_beacon from q2 a now r2).
Proof.
  assert (rx_equiv (on_beacon from q1 a now r1) (on_beacon from q2 a now r2)) as He.
  { pose proof Hr as (Hid & Hnt & Hrt & Hbl). unfold on_beacon, is_blocked. rewrite Hid, Hbl, Hrt.
    destruct (nid_eqb from _); [done|].
    destruct (find_index _ (ro_blocked r2)); [done|].
    pose proof (heard_erase from q1 q2 now _ _ Hnt) as Hh.
    assert (nt_rx_equiv
      (learn_reports (ro_my_id r2) from (an_reports a)
        (set_caps from (an_caps a) (heard from q1 now (ro_neighbors r1)).1))
      (learn_reports (ro_my_id r2) from (an_reports a)
        (set_caps from (an_caps a) (heard from q2 now (ro_neighbors r2)).1))) as Hn
      by (by rewrite Hh).
    split; [done|]. split; [exact Hn|]. split; [|done]. simpl. by rewrite Hn. }
  split; [done|]. intros dst. destruct He as (_ & _ & He & _). unfold next_hop. by rewrite He.
Qed.

Definition router_ex : Router :=
  on_beacon (nid_from_u32 2) (f32_lit 9 10)
    (mkAnnounce (nid_from_u32 2) [mkReport (nid_from_u32 1) (f32_lit 1 2) 77]
      [mkAdv (nid_from_u32 2) (nid_from_u32 2) f0 0; mkAdv (nid_from_u32 3) (nid_from_u32 3) (f32_of_Z 2) 1]
      0 true) 1000 (Router_new (nid_from_u32 1)).

Example on_beacon_q_rx_irrelevant_witness :
  rx_equiv router_ex router_ex ∧
  (rx_equiv (on_beacon (nid_from_u32 2) (f32_lit 1 10) Announce_default 2000 router_ex)
            (on_beacon (nid_from_u32 2) (f32_lit 9 10) Announce_default 2000 router_ex) ∧
   ∀ dst, next_hop dst (on_beacon (nid_from_u32 2) (f32_lit 1 10) Announce_default 2000 router_ex) =
          next_hop dst (on_beacon (nid_from_u32 2) (f32_lit 9 10) Announce_default 2000 router_ex)).
Proof. split; [done|]. by apply on_beacon_q_rx_irrelevant. Defined.

Example router_ex_routes :
  next_hop (nid_from_u32 3) router_ex = nid_from_u32 2 ∧
  link_addr_for (nid_from_u32 2) router_ex = 77.
Proof. by vm_compute. Qed.

Lemma router_ex_reachable : router_reachable (nid_from_u32 1) router_ex.
Proof.
  eapply reach_step; [apply reach_init|]. apply step_beacon; [done|].
  split; simpl; each; try done; zlia.
Qed.

(** ** What the router promises in every reachable state *)

Lemma next_hop_abs dst r :
  next_hop dst r = match rt_abs (ro_routes r) !! dst with Some x => r_next_hop x | None => nid_zero end.
Proof. unfold next_hop, rt_next_hop. by rewrite rt_get_abs. Qed.

(** C14: routing is sound in every state reachable by any interleaving of
    beacons, administrative blocks, unblocks and ticks: the next hop to this
    node is itself; the next hop to any other destination is unknown (zero), or
    a node that is neither this node nor administratively blocked, over a route
    whose hop count is within the ceiling and whose cost is below infinity;
    and no two neighbours share a link alias. *)
Theorem reachable_routing_sound (me : NodeId) (r : Router) (dst : NodeId)
    (Hr : router_reachable me r) :
  next_hop me r = me ∧
  (dst ≠ me →
    rt_get dst (ro_routes r) = None ∧ next_hop dst r = nid_zero ∨
    ∃ x, rt_get dst (ro_routes r) = Some x ∧ next_hop dst r = r_next_hop x ∧
      next_hop dst r ≠ me ∧ is_blocked (next_hop dst r) r = false ∧
      r_hops x <= MAX_HOPS ∧ fge (r_cost x) COST_INF = false) ∧
  slots_unique nb_used nb_my_alias (nt_slots (ro_neighbors r)).
Proof.
  pose proof (reachable_ok _ _ Hr) as Hok. split; [|split].
  - rewrite next_hop_abs, <- rt_get_abs. destruct (rt_self_route _ (ok_rt _ _ Hok)) as (x & Hx & Hn & _).
    rewrite (ok_self _ _ Hok) in *. by rewrite Hx.
  - intros Hne. unfold next_hop, rt_next_hop. destruct (rt_get dst (ro_routes r)) as [x|] eqn:Hx.
    + right. exists x. split; [done|]. split; [done|].
      pose proof Hx as Ha. rewrite rt_get_abs in Ha.
      destruct (ok_via _ _ Hok _ _ Ha) as [->|[Hnx Hb]]; [done|].
      apply rt_get_Some in Hx as (i & _ & Hi & Hu & _).
      destruct (rt_routes _ (ok_rt _ _ Hok) _ _ Hi Hu) as [[_ Hh] Hc].
      split; [done|]. split; [by apply is_blocked_false|]. done.
    + by left.
  - apply (nt_aliases _ (ok_nt _ _ Hok)).
Qed.

Example reachable_routing_sound_witness :
  router_reachable (nid_from_u32 1) router_ex ∧
  next_hop (nid_from_u32 1) router_ex = nid_from_u32 1.
Proof.
  split; [apply router_ex_reachable|].
  by apply (reachable_routing_sound (nid_from_u32 1) router_ex nid_zero), router_ex_reachable.
Defined.

(** [tick] removes exactly what has aged out. Afterwards a neighbour is
    in the table iff it was there and was heard within the neighbour timeout
    (mod 2^32 milliseconds); a learned route is there iff it was there, is
    within the route timeout, and does not lead through a neighbour just
    removed; the route to this node itself always survives. *)
Theorem tick_exact (me : NodeId) (r : Router) (now nto rto : Z) (d : NodeId) (x : Route)
    (Hok : router_ok me r) :
  slots_map nb_used nb_id (nt_slots (ro_neighbors (tick now nto rto r))) =
    filter (λ kn, nb_stale now nto (kn.2) = false) (slots_map nb_used nb_id (nt_slots (ro_neighbors r))) ∧
  (rt_get d (ro_routes (tick now nto rto r)) = Some x ↔
    rt_get d (ro_routes r) = Some x ∧
    (d = me ∨ u32 (now - r_updated_ms x) <= rto ∧
      ∀ n, nt_get (r_next_hop x) (ro_neighbors r) = Some n → u32 (now - nb_last_heard_ms n) <= nto)).
Proof.
  destruct Hok as [Hid Hnt Hrt Hself _ _ _ _].
  pose proof (nt_prune_map now nto MAX_NEIGHBORS _ Hnt) as Hmap.
  pose proof (nt_prune_removed now nto _ Hnt) as Hrem.
  unfold tick. destruct (nt_prune now nto MAX_NEIGHBORS (ro_neighbors r)) as [[nt removed] n].
  destruct Hrem as [Hn Hrem]. simpl in *. split; [done|].
  rewrite take_ge by (unfold zlen in Hn; lia).
  destruct (drop_via_fold removed _ Hrt) as (H1 & H2 & H3).
  rewrite !rt_get_abs, rt_prune_abs, map_lookup_filter_Some, H3, H2, Hself by done. simpl.
  split.
  - intros [[Hx Hvia] Hexp]. split; [done|].
    destruct (decide (d = me)) as [->|Hne]; [by left|right].
    pose proof Hx as (i & _ & _ & Hu & Hd)%(eq_trans (rt_get_abs _ _))%rt_get_Some.
    unfold r_expired in Hexp. rewrite Hu, Hd, (proj2 (nid_eqb_neq d me)) in Hexp by done.
    apply Z.ltb_ge in Hexp. split; [done|]. intros nb Hnb.
    destruct (nb_stale now nto nb) eqn:Hst.
    + specialize (Hvia (r_next_hop x)). unfold r_via in Hvia.
      rewrite Hu, Hd, (proj2 (nid_eqb_neq d me)), nid_eqb_refl in Hvia by done.
      discriminate Hvia. apply Hrem. eauto.
    + apply nt_get_Some in Hnb as (j & _ & _ & Hub & _). unfold nb_stale in Hst.
      rewrite Hub in Hst. by apply Z.ltb_ge in Hst.
  - intros [Hx Hc]. pose proof Hx as (i & _ & _ & Hu & Hd)%(eq_trans (rt_get_abs _ _))%rt_get_Some.
    split; [split; [done|]|].
    + intros id (nb & Hnb & Hst)%Hrem. unfold r_via. rewrite Hu, Hd.
      destruct Hc as [->|[_ Hc]]; [by rewrite nid_eqb_refl|].
      destruct (nid_eqb_spec (r_next_hop x) id) as [<-|]; [|by rewrite andb_false_r].
      specialize (Hc nb Hnb). unfold nb_stale in Hst. apply andb_true_iff in Hst as [_ Hst%Z.ltb_lt]. lia.
    + unfold r_expired. rewrite Hd. destruct Hc as [->|[Hc _]].
      * by rewrite nid_eqb_refl, andb_false_r.
      * rewrite (proj2 (Z.ltb_ge _ _)) by done. by rewrite andb_false_r.
Qed.

Example tick_exact_witness :
  router_ok (nid_from_u32 1) router_ex ∧
  rt_get (nid_from_u32 3) (ro_routes (tick 91001 NEIGHBOR_TIMEOUT_MS ROUTE_TIMEOUT_MS router_ex)) = None.
Proof.
  split; [apply reachable_ok, router_ex_reachable|].
  destruct (rt_get _ _) as [x|] eqn:Hx; [exfalso|done].
  apply (tick_exact (nid_from_u32 1) router_ex 91001 NEIGHBOR_TIMEOUT_MS ROUTE_TIMEOUT_MS
    (nid_from_u32 3) x (reachable_ok _ _ router_ex_reachable)) in Hx as [Hx [Hd|[Hc _]]].
  - by vm_compute in Hd.
  - vm_compute in Hx. injection Hx as <-. by vm_compute in Hc.
Defined.

(** An announce says everything the node knows and nothing else. The
    reports are exactly the neighbours with their receive quality and the alias
    this node assigned them; the advertised routes are exactly the routing
    table, the self-route included; neither overflows its fixed array. *)
Theorem build_announce_exact (me : NodeId) (r : Router) (out : Announce) (Hok : router_ok me r) :
  let a := build_announce r out in
  an_origin a = me ∧ an_caps a = NODE_CAPS ∧
  zlen (an_reports a) <= MAX_NEIGHBORS ∧ zlen (an_routes a) <= MAX_ROUTES ∧
  (∀ p, p ∈ an_reports a ↔ ∃ n, nt_get (rep_id p) (ro_neighbors r) = Some n ∧
     rep_q p = nb_q_rx n ∧ rep_alias p = nb_my_alias n) ∧
  (∀ v, v ∈ an_routes a ↔ ∃ x, rt_get (adv_dst v) (ro_routes r) = Some x ∧
     adv_next_hop v = r_next_hop x ∧ adv_cost v = r_cost x ∧ adv_hops v = r_hops x).
Proof.
  destruct Hok as [Hid Hnt Hrt _ _ _ _ _]. unfold build_announce. simpl.
  rewrite !take_ge.
  2: { rewrite length_fmap. etrans; [apply length_filter|]. by rewrite (rt_len _ Hrt). }
  2: { rewrite length_fmap. etrans; [apply length_filter|]. by rewrite (nt_len _ Hnt). }
  split; [done|]. split; [done|]. split; [|split; [|split]].
  - unfold zlen. rewrite length_fmap. etrans; [apply inj_le, length_filter|]. by rewrite (nt_len _ Hnt).
  - unfold zlen. rewrite length_fmap. etrans; [apply inj_le, length_filter|]. by rewrite (rt_len _ Hrt).
  - intros p. rewrite list_elem_of_fmap. split.
    + intros (n & -> & [[Hu _]%andb_true_iff [i Hi]%list_elem_of_lookup]%list_elem_of_filter).
      exists n. split; [|done]. by eapply nt_get_unique.
    + intros (n & (i & _ & Hi & Hu & Hn)%nt_get_Some & Hq & Ha). exists n.
      split; [destruct p; simpl in *; congruence|]. apply list_elem_of_filter.
      split; [|apply list_elem_of_lookup; eauto].
      rewrite Hu, in_q_not_neg; [done|]. by eapply nb_ok_q_rx, (nt_entries _ Hnt).
  - intros v. rewrite list_elem_of_fmap. split.
    + intros (x & -> & [Hu [i Hi]%list_elem_of_lookup]%list_elem_of_filter).
      exists x. split; [|done]. rewrite rt_get_abs. unfold rt_abs.
      apply slots_map_lookup_Some; [apply Hrt|eauto].
    + intros (x & (i & _ & Hi & Hu & Hn)%rt_get_Some & Ha & Hb & Hc). exists x.
      split; [destruct v; simpl in *; congruence|]. apply list_elem_of_filter.
      split; [done|apply list_elem_of_lookup; eauto].
Qed.

Example build_announce_exact_witness :
  router_ok (nid_from_u32 1) router_ex ∧
  mkAdv (nid_from_u32 3) (nid_from_u32 2) (fadd (fdiv f1 (f32_lit 1 2)) (f32_of_Z 2)) 2
    ∈ an_routes (build_announce router_ex Announce_default).
Proof.
  split; [apply reachable_ok, router_ex_reachable|].
  apply (build_announce_exact (nid_from_u32 1) router_ex Announce_default
    (reachable_ok _ _ router_ex_reachable)).
  eexists. split; [vm_compute; reflexivity|]. by vm_compute.
Defined.

(** The hop count of an advertisement is incremented in 8 bits before it meets
    the [MAX_HOPS] ceiling: hops = 255 wraps to 0 and the route is learned,
    while 254 is refused. *)
Lemma relax_hop_wrap :
  next_hop (nid_from_u32 9) (on_beacon (nid_from_u32 2) f1
    (mkAnnounce (nid_from_u32 2) [] [mkAdv (nid_from_u32 9) (nid_from_u32 8) f1 255] 0 true)
    2000 router_ex) = nid_from_u32 2 ∧
  next_hop (nid_from_u32 9) (on_beacon (nid_from_u32 2) f1
    (mkAnnounce (nid_from_u32 2) [] [mkAdv (nid_from_u32 9) (nid_from_u32 8) f1 254] 0 true)
    2000 router_ex) = nid_zero.
Proof. by vm_compute. Qed.
