(* ===== verification/Crypto.v ===== *)
(** The cryptographic primitives the firmware calls (vendored Monocypher).

    They are parameters of the model: a class of operations and, apart from
    them, a class of the documented laws the code relies on.  Nothing below
    assumes unforgeability: theorems about acceptance say exactly which bytes
    the check was run on. *)
From S2P Require Import Prelude.

Class Crypto := {
  (* crypto_ed25519_sign(sig, secret_key, msg, len) *)
  ed25519_sign : bytes → bytes → bytes;
  (* crypto_ed25519_check(sig, public_key, msg, len) == 0 *)
  ed25519_check : bytes → bytes → bytes → bool;
  (* the public half of a secret key (crypto_ed25519_key_pair) *)
  ed25519_public : bytes → bytes;
  (* crypto_blake2b(hash, hash_size, msg, len) *)
  blake2b : Z → bytes → bytes }.

Class CryptoLaws `{Crypto} := {
  sign_check sk msg : ed25519_check (ed25519_sign sk msg) (ed25519_public sk) msg = true;
  sign_len sk msg : zlen (ed25519_sign sk msg) = 64;
  sign_wf sk msg : wf_bytes (ed25519_sign sk msg);
  public_len sk : zlen (ed25519_public sk) = 32;
  public_wf sk : wf_bytes (ed25519_public sk);
  blake2b_len n msg : 1 <= n <= 64 → zlen (blake2b n msg) = n;
  blake2b_wf n msg : wf_bytes (blake2b n msg) }.

#[export] Hint Rewrite @sign_len @public_len : zlen.
#[export] Hint Resolve sign_wf public_wf blake2b_wf : wf.

(** A concrete instance, for the witnesses only: the "signature" is a padded
    checksum of the key and the message. *)
Definition toy_sum (l : bytes) : Z := fold_left (λ a x, u8 (a * 31 + x + 7)) l 1.
Definition toy_crypto : Crypto := {|
  ed25519_public sk := toy_sum sk :: replicate 31 0;
  ed25519_sign sk msg := toy_sum (toy_sum sk :: msg) :: replicate 63 0;
  ed25519_check sig pub msg :=
    match sig, pub with
    | s :: _, p :: _ => s =? toy_sum (p :: msg)
    | _, _ => false
    end;
  blake2b n msg := toy_sum msg :: replicate (Z.to_nat (n - 1)) 0 |}.

Lemma toy_sum_range l : is_u8 (toy_sum l).
Proof.
  unfold toy_sum. assert (is_u8 1) as H by zlia. revert H. generalize 1.
  induction l as [|x l IH]; intros a Ha; simpl; [done|]. apply IH, u8_range.
Qed.

Lemma toy_laws : @CryptoLaws toy_crypto.
Proof.
  assert (∀ n, Forall is_u8 (replicate n 0)) as Hz by (intros; apply Forall_replicate; zlia).
  split; simpl.
  - intros. apply Z.eqb_refl.
  - done.
  - intros. constructor; [apply toy_sum_range|apply Hz].
  - done.
  - intros. constructor; [apply toy_sum_range|apply Hz].
  - intros n msg Hn. rewrite zlen_cons, zlen_replicate. lia.
  - intros. constructor; [apply toy_sum_range|apply Hz].
Qed.
