(* ===== verification/AnnounceCodec.v ===== *)
(** lib/mesh/announce_codec.{h,cpp}: the wire form of an announce and its
    signed identity tail. *)
From S2P Require Import Prelude Reader Float32 MeshTypes LinkMetric NeighborTable RoutingTable Router Crypto.
From Stdlib Require Import SpecFloat.

Definition ANNOUNCE_REPORT_BYTES : Z := 18.
Definition ANNOUNCE_ROUTE_BYTES : Z := 35.
Definition ANNOUNCE_HDR_BYTES : Z := 2.
Definition ANNOUNCE_CAPS_BYTES : Z := 2.
Definition ANNOUNCE_HAS_CAPS : Z := 128.
Definition ANNOUNCE_SIG_TAIL : Z := 32 + 64.
Definition ANN_VIEW_BODY_MAX : Z := 256.

(** ** Quantisation *)

Definition q_to_byte (q : f32) : Z :=
  let q := if flt q f0 then f0 else q in
  let q := if fgt q f1 then f1 else q in
  u8 (f32_trunc (fadd (fmul q (f32_of_Z 255)) (f32_lit 1 2))).
Definition byte_to_q (b : Z) : f32 := fdiv (f32_of_Z b) (f32_of_Z 255).

Definition cost_to_u16 (cost : f32) : Z :=
  let cost := if flt cost f0 then f0 else cost in
  let v := fadd (fmul cost (f32_of_Z 16)) (f32_lit 1 2) in
  let v := if fgt v (f32_of_Z 65535) then f32_of_Z 65535 else v in
  u16 (f32_trunc v).
Definition u16_to_cost (v : Z) : f32 := fdiv (f32_of_Z v) (f32_of_Z 16).

(** ** Serialisation *)

Definition announce_hdr (has_caps : bool) : Z :=
  ANNOUNCE_HDR_BYTES + (if has_caps then ANNOUNCE_CAPS_BYTES else 0).
Definition report_bytes (p : Report) : bytes :=
  nid_write (rep_id p) ++ [q_to_byte (rep_q p)] ++ [rep_alias p].
Definition route_bytes (v : RouteAdv) : bytes :=
  nid_write (adv_dst v) ++ nid_write (adv_next_hop v) ++ put_u16 (cost_to_u16 (adv_cost v))
    ++ [adv_hops v].

(** The header's first byte: a 7-bit count under the capability flag. *)
Definition rep_byte (n : Z) (c : bool) : Z := u8 (Z.lor n (if c then ANNOUNCE_HAS_CAPS else 0)).

(** Header, then the entries. *)
Definition announce_body (has_caps : bool) (caps : Z) (reports : list Report)
    (routes : list RouteAdv) : bytes :=
  [rep_byte (zlen reports) has_caps; u8 (zlen routes)]
    ++ (if has_caps then put_u16 caps else [])
    ++ flat_map report_bytes reports ++ flat_map route_bytes routes.

(** The bytes written ([[]] when the return value is 0). *)
Definition announce_serialize (a : Announce) (cap : Z) : bytes :=
  let hdr := announce_hdr (an_has_caps a) in
  if cap <? hdr then [] else
  let reports := fits ANNOUNCE_REPORT_BYTES cap hdr (an_reports a) in
  let off := hdr + ANNOUNCE_REPORT_BYTES * zlen reports in
  let routes := fits ANNOUNCE_ROUTE_BYTES cap off (an_routes a) in
  announce_body (an_has_caps a) (an_caps a) reports routes.

Definition report_read (b : bytes) (off : Z) : res Report :=
  id ← nid_read b off; q ← rd b (off + 16); alias ← rd b (off + 17);
  Ok (mkReport id (byte_to_q q) alias).
Definition route_read (b : bytes) (off : Z) : res RouteAdv :=
  dst ← nid_read b off; next_hop ← nid_read b (off + 16); cost ← rd_u16 b (off + 32);
  hops ← rd b (off + 34); Ok (mkAdv dst next_hop (u16_to_cost cost) hops).

(** [Rej]: the code returns false, leaving [Announce{}]. *)
Definition announce_deserialize (buf : bytes) : res Announce :=
  let len := zlen buf in
  _ ← guard (ANNOUNCE_HDR_BYTES <=? len);
  rep_byte ← rd buf 0;
  let has_caps := negb (Z.land rep_byte ANNOUNCE_HAS_CAPS =? 0) in
  let n_reports := Z.land rep_byte 127 in
  n_routes ← rd buf 1;
  _ ← guard (negb ((MAX_NEIGHBORS <? n_reports) || (MAX_ROUTES <? n_routes)));
  let hdr := announce_hdr has_caps in
  let need := hdr + n_reports * ANNOUNCE_REPORT_BYTES + n_routes * ANNOUNCE_ROUTE_BYTES in
  _ ← guard (need <=? len);
  caps ← (if has_caps then rd_u16 buf 2 else Ok 0);
  reports ← parse_n report_read ANNOUNCE_REPORT_BYTES (Z.to_nat n_reports) buf hdr;
  reports ← into MAX_NEIGHBORS reports;
  routes ← parse_n route_read ANNOUNCE_ROUTE_BYTES (Z.to_nat n_routes) buf
    (hdr + n_reports * ANNOUNCE_REPORT_BYTES);
  routes ← into MAX_ROUTES routes;
  Ok (mkAnnounce nid_zero reports routes caps has_caps).

Definition announce_body_len (a : Announce) : Z :=
  u16 (announce_hdr (an_has_caps a) + zlen (an_reports a) * ANNOUNCE_REPORT_BYTES
       + zlen (an_routes a) * ANNOUNCE_ROUTE_BYTES).

(** ** Identity tail *)

(** "AGN-ANN-1" *)
Definition ANN_DOMAIN : bytes := [65; 71; 78; 45; 65; 78; 78; 45; 49].
Definition ann_view (pubkey body : bytes) : bytes := ANN_DOMAIN ++ pubkey ++ body.
(** The static buffer the view is built in. *)
Definition ANN_VIEW_SIZE : Z := zlen ANN_DOMAIN + 32 + ANN_VIEW_BODY_MAX.

Section identity.
Context `{Crypto}.

(** [None]: the tail is not written. *)
Definition announce_sign (body pubkey seckey : bytes) : option bytes :=
  if ANN_VIEW_BODY_MAX <? zlen body then None else
  Some (pubkey ++ ed25519_sign seckey (ann_view pubkey body)).

(** [Ok pubkey] on success. *)
Definition announce_verify (body tail : bytes) : res bytes :=
  if ANN_VIEW_BODY_MAX <? zlen body then Rej else
  pubkey ← rdn tail 0 32;
  sig ← rdn tail 32 64;
  view ← into ANN_VIEW_SIZE (ann_view pubkey body);
  if ed25519_check sig pubkey view then Ok pubkey else Rej.
End identity.

(** ** Quantisation facts *)

Fixpoint all_below (p : Z → bool) (n : nat) (k : Z) : bool :=
  match n with O => true | S n => p k && all_below p n (k + 1) end.

Lemma all_below_spec p n k v : all_below p n k = true → k <= v < k + Z.of_nat n → p v = true.
Proof.
  revert k. induction n as [|n IH]; intros k; simpl; [lia|].
  intros [Hk Hn]%andb_true_iff Hv. destruct (decide (v = k)) as [->|]; [done|].
  apply (IH (k + 1)); [done|lia].
Qed.

(** Every wire quality decodes to a finite non-negative number at most 1, and
    encodes back to the same byte. *)
Definition q_byte_good (b : Z) : bool :=
  (q_to_byte (byte_to_q b) =? b) && ffinite (byte_to_q b) && fsign_pos (byte_to_q b)
    && fle (byte_to_q b) f1.

Lemma q_byte_good_all b : is_u8 b → q_byte_good b = true.
Proof.
  intros Hb. apply (all_below_spec q_byte_good 256 0); [by vm_compute|]. unfold is_u8 in Hb. lia.
Qed.

Lemma q_to_byte_range q : is_u8 (q_to_byte q).
Proof. apply u8_range. Qed.
Lemma cost_to_u16_range c : is_u16 (cost_to_u16 c).
Proof. apply u16_range. Qed.

Lemma q_byte_good_spec b : is_u8 b →
  q_to_byte (byte_to_q b) = b ∧ ffinite (byte_to_q b) = true ∧ fsign_pos (byte_to_q b) = true ∧
  fle (byte_to_q b) f1 = true.
Proof.
  intros Hb. apply q_byte_good_all in Hb. unfold q_byte_good in Hb.
  by apply andb_true_iff in Hb as [[[?%Z.eqb_eq ?]%andb_true_iff ?]%andb_true_iff ?].
Qed.

Lemma rep_byte_pack n (c : bool) : 0 <= n < 128 →
  Z.land (rep_byte n c) 127 = n ∧ negb (Z.land (rep_byte n c) ANNOUNCE_HAS_CAPS =? 0) = c.
Proof.
  intros Hn.
  assert (eqb (negb (Z.land (rep_byte n c) ANNOUNCE_HAS_CAPS =? 0)) c
          && (Z.land (rep_byte n c) 127 =? n) = true) as [?%eqb_prop ?%Z.eqb_eq]%andb_true_iff; [|done].
  apply (all_below_spec (λ n, eqb (negb (Z.land (rep_byte n c) ANNOUNCE_HAS_CAPS =? 0)) c
    && (Z.land (rep_byte n c) 127 =? n)) 128 0); [by destruct c; vm_compute|lia].
Qed.

(** ** Untrusted input *)

Lemma report_read_safe b o : wf_bytes b → 0 <= o → o + 18 <= zlen b →
  safe (report_read b o) (λ p, wf_nid (rep_id p) ∧ is_u8 (rep_alias p) ∧
    ffinite (rep_q p) = true ∧ fsign_pos (rep_q p) = true ∧ fle (rep_q p) f1 = true).
Proof.
  intros Hb Ho Hl. apply safe_bind, safe_nid_read; [done|lia|lia|]. intros id Hid.
  repeat safe_step; try lia. simpl. pose proof (q_byte_good_spec v). tauto.
Qed.

Lemma route_read_safe b o : wf_bytes b → 0 <= o → o + 35 <= zlen b →
  safe (route_read b o) (λ v, wf_nid (adv_dst v) ∧ wf_nid (adv_next_hop v) ∧ is_u8 (adv_hops v)).
Proof.
  intros Hb Ho Hl. apply safe_bind, safe_nid_read; [done|lia|lia|]. intros d Hd.
  apply safe_bind, safe_nid_read; [done|lia|lia|]. intros n Hn.
  repeat safe_step; try lia. done.
Qed.

Definition report_wf (p : Report) : Prop := wf_nid (rep_id p) ∧ is_u8 (rep_alias p).
Definition route_wf (v : RouteAdv) : Prop :=
  wf_nid (adv_dst v) ∧ wf_nid (adv_next_hop v) ∧ is_u8 (adv_hops v).

Record announce_wf (a : Announce) : Prop := {
  aw_reports : Forall report_wf (an_reports a);
  aw_routes : Forall route_wf (an_routes a);
  aw_nrep : zlen (an_reports a) <= MAX_NEIGHBORS;
  aw_nroute : zlen (an_routes a) <= MAX_ROUTES;
  aw_caps : is_u16 (an_caps a) }.

(** What holds of every accepted announce. *)
Record announce_good (buf : bytes) (a : Announce) : Prop := {
  ag_sane : announce_sane a;
  ag_reports : zlen (an_reports a) <= MAX_NEIGHBORS;
  ag_routes : zlen (an_routes a) <= MAX_ROUTES;
  ag_caps : is_u16 (an_caps a);
  ag_q : Forall (λ p, fle (rep_q p) f1 = true) (an_reports a);
  ag_body : 0 <= announce_body_len a <= zlen buf;
  ag_wf : announce_wf a;
  ag_rep_ids : Forall (λ p, wf_nid (rep_id p)) (an_reports a);
  ag_route_ids : Forall (λ v, wf_nid (adv_dst v) ∧ wf_nid (adv_next_hop v)) (an_routes a) }.

Lemma announce_deserialize_good buf : wf_bytes buf → zlen buf < 65536 →
  safe (announce_deserialize buf) (announce_good buf).
Proof.
  intros Hb Hlen.   unfold announce_deserialize, ANNOUNCE_HDR_BYTES.
  safe_step. safe_step. apply Z.leb_le in H.
  safe_step. safe_step; [lia|]. set (n := Z.land v 127). set (c := negb _).
  safe_step. safe_step; [lia|]. safe_step. safe_step.
  apply negb_true_iff, orb_false_iff in H2 as [Hn%Z.ltb_ge Hr%Z.ltb_ge].
  safe_step. safe_step. apply Z.leb_le in H2.
  pose proof (land_127_range v H0) as Hnr. fold n in Hnr.
  assert (0 <= v0) as Hr0 by (unfold is_u8 in H1; lia).
  unfold ANNOUNCE_REPORT_BYTES, ANNOUNCE_ROUTE_BYTES, announce_hdr, ANNOUNCE_HDR_BYTES,
    ANNOUNCE_CAPS_BYTES in *.
  apply safe_bind. eapply (safe_mono _ is_u16).
  { destruct c; [apply safe_rd_u16; [done|lia|lia|auto]|simpl; zlia]. }
  intros caps Hcaps.
  apply safe_bind. eapply safe_parse_n; [lia|destruct c; lia|rewrite Z2Nat.id by lia; destruct c; lia|..].
  { intros o Ho Hl. by apply report_read_safe. }
  intros reports Hrep Hrl. rewrite Z2Nat.id in Hrl by lia. apply safe_bind, safe_into; [lia|].
  apply safe_bind. eapply safe_parse_n; [lia|destruct c; lia|rewrite Z2Nat.id by lia; destruct c; lia|..].
  { intros o Ho Hl. by apply route_read_safe. }
  intros routes Hrou Hrol. rewrite Z2Nat.id in Hrol by lia. apply safe_bind, safe_into; [lia|]. apply safe_ok.
  split; try done; simpl; try lia.
  - split; [eapply Forall_impl; [exact Hrep|tauto]|eapply Forall_impl; [exact Hrou|tauto]].
  - eapply Forall_impl; [exact Hrep|tauto].
  - unfold announce_body_len. simpl. rewrite u16_small; unfold announce_hdr, ANNOUNCE_HDR_BYTES, ANNOUNCE_CAPS_BYTES,
      ANNOUNCE_REPORT_BYTES, ANNOUNCE_ROUTE_BYTES, is_u16; destruct c; lia.
  - split; simpl; [eapply Forall_impl; [exact Hrep|unfold report_wf; tauto]|done|lia|lia|done].
  - eapply Forall_impl; [exact Hrep|tauto].
  - eapply Forall_impl; [exact Hrou|tauto].
Qed.

(** No radio input can make the announce parser misbehave. For
    every byte string, [announce_deserialize] either rejects it or reads only
    inside the buffer and yields an announce that fits the fixed arrays, whose
    qualities are finite numbers in [0, 1] and hop counts are bytes (so
    processing it keeps the router's invariant), and whose body length, which
    locates the signature tail, lies within the frame. *)
Theorem announce_deserialize_safe (buf : bytes) (Hb : wf_bytes buf) (Hlen : zlen buf < 65536) :
  safe (announce_deserialize buf) (λ a,
    announce_sane a ∧
    zlen (an_reports a) <= MAX_NEIGHBORS ∧ zlen (an_routes a) <= MAX_ROUTES ∧
    is_u16 (an_caps a) ∧ Forall (λ p, fle (rep_q p) f1 = true) (an_reports a) ∧
    announce_body_len a <= zlen buf).
Proof.
  eapply safe_mono; [by apply announce_deserialize_good|]. intros a []. split; [done|]. do 4 (split; [done|]). lia.
Qed.

Example announce_deserialize_safe_witness :
  wf_bytes [128; 0; 1; 0] ∧ zlen [128; 0; 1; 0] < 65536 ∧
  announce_deserialize [128; 0; 1; 0] = Ok (mkAnnounce nid_zero [] [] 1 true) ∧
  announce_deserialize [128; 0; 1; 0] ≠ Oob.
Proof.
  assert (wf_bytes [128; 0; 1; 0]) as Hw by (repeat constructor; zlia).
  split; [done|]. split; [done|]. split; [by vm_compute|].
  by eapply safe_not_oob, (announce_deserialize_safe [128; 0; 1; 0]).
Defined.

(** ** Round trip *)

Definition quant_report (p : Report) : Report :=
  mkReport (rep_id p) (byte_to_q (q_to_byte (rep_q p))) (rep_alias p).
Definition quant_route (v : RouteAdv) : RouteAdv :=
  mkAdv (adv_dst v) (adv_next_hop v) (u16_to_cost (cost_to_u16 (adv_cost v))) (adv_hops v).

(** What a frame of [cap] bytes carries of [a]: reports first, then as many
    routes as still fit, at wire precision; not the origin, which is in the
    network header. *)
Definition carried (a : Announce) (cap : Z) : Announce :=
  let room := cap - announce_hdr (an_has_caps a) in
  let n := room / ANNOUNCE_REPORT_BYTES in
  let reports := take (Z.to_nat n) (an_reports a) in
  let room := room - ANNOUNCE_REPORT_BYTES * zlen reports in
  mkAnnounce nid_zero (quant_report <$> reports)
    (quant_route <$> take (Z.to_nat (room / ANNOUNCE_ROUTE_BYTES)) (an_routes a))
    (if an_has_caps a then an_caps a else 0) (an_has_caps a).

Lemma zlen_report_bytes p : wf_nid (rep_id p) → zlen (report_bytes p) = 18.
Proof. intros [H _]. unfold report_bytes, nid_write. by rewrite !zlen_app, H. Qed.
Lemma zlen_route_bytes v : wf_nid (adv_dst v) → wf_nid (adv_next_hop v) →
  zlen (route_bytes v) = 35.
Proof. intros [H _] [H' _]. unfold route_bytes, nid_write. by rewrite !zlen_app, H, H'. Qed.

Lemma at_report_read b p o r : wf_nid (rep_id p) → at_ b o (report_bytes p ++ r) →
  report_read b o = Ok (quant_report p).
Proof.
  intros Hid. unfold report_bytes, report_read. rewrite <- !app_assoc. intros H.
  rewrite (at_nid_read _ _ _ _ Hid H). simpl.
  apply at_skip in H. rewrite zlen_nid_write in H by done.
  rewrite (at_rd _ _ _ _ H). simpl. apply at_next in H.
  replace (o + 16 + 1) with (o + 17) in H by lia. by rewrite (at_rd _ _ _ _ H).
Qed.

Lemma at_route_read b v o r : wf_nid (adv_dst v) → wf_nid (adv_next_hop v) →
  at_ b o (route_bytes v ++ r) → route_read b o = Ok (quant_route v).
Proof.
  intros Hd Hn. unfold route_bytes, route_read. rewrite <- !app_assoc. intros H.
  rewrite (at_nid_read _ _ _ _ Hd H). simpl.
  apply at_skip in H. rewrite zlen_nid_write in H by done.
  rewrite (at_nid_read _ _ _ _ Hn H). simpl.
  apply (at_move _ _ (o + 32)) in H; [|rewrite zlen_nid_write by done; lia].
  rewrite (at_rd_u16 _ _ _ _ H) by apply cost_to_u16_range. simpl.
  apply (at_move _ _ (o + 34)) in H; [|rewrite zlen_put_u16; lia].
  by rewrite (at_rd _ _ _ _ H).
Qed.

Lemma zlen_announce_body (c : bool) caps reports routes :
  Forall report_wf reports → Forall route_wf routes →
  zlen (announce_body c caps reports routes) =
  announce_hdr c + 18 * zlen reports + 35 * zlen routes.
Proof.
  intros Hrep Hrou. unfold announce_body, announce_hdr, ANNOUNCE_HDR_BYTES, ANNOUNCE_CAPS_BYTES.
  rewrite !zlen_app, !zlen_cons, !zlen_nil.
  rewrite (zlen_flat_map report_bytes 18).
  2: { eapply Forall_impl; [exact Hrep|]. intros p [? _]. by apply zlen_report_bytes. }
  rewrite (zlen_flat_map route_bytes 35).
  2: { eapply Forall_impl; [exact Hrou|]. intros v (? & ? & _). by apply zlen_route_bytes. }
  destruct c; cbv iota; rewrite ?zlen_put_u16, ?(zlen_nil (A:=Z)); lia.
Qed.

(** Reading a serialised body back, whatever follows it in the frame. *)
Lemma announce_body_read (c : bool) caps reports routes tail :
  Forall report_wf reports → Forall route_wf routes →
  zlen reports <= MAX_NEIGHBORS → zlen routes <= MAX_ROUTES → is_u16 caps →
  announce_deserialize (announce_body c caps reports routes ++ tail) =
  Ok (mkAnnounce nid_zero (quant_report <$> reports) (quant_route <$> routes)
        (if c then caps else 0) c).
Proof.
  intros Hrep Hrou Hn Hr Hcaps. unfold MAX_NEIGHBORS, MAX_ROUTES in *.
  pose proof (zlen_announce_body c caps reports routes Hrep Hrou) as Hlen0.
  pose proof (zlen_nonneg reports). pose proof (zlen_nonneg routes). pose proof (zlen_nonneg tail).
  destruct (rep_byte_pack (zlen reports) c) as [P1 P2]; [lia|].
  set (buf := _ ++ tail).
  assert (zlen buf = announce_hdr c + 18 * zlen reports + 35 * zlen routes + zlen tail) as Hlen
    by (unfold buf; rewrite zlen_app; lia).
  assert (at_ buf 0 (announce_body c caps reports routes ++ tail)) as Hat0 by apply at_start.
  assert (2 <= announce_hdr c) as Hh by (by destruct c).
  unfold announce_deserialize, guard, ANNOUNCE_HDR_BYTES, ANNOUNCE_REPORT_BYTES, ANNOUNCE_ROUTE_BYTES,
    MAX_NEIGHBORS, MAX_ROUTES in *.
  rewrite (proj2 (Z.leb_le 2 (zlen buf))) by lia. cbn [mbind res_bind].
  unfold announce_body in Hat0. rewrite <- !app_assoc in Hat0. simpl in Hat0.
  rewrite (at_rd _ _ _ _ Hat0). cbn [mbind res_bind]. rewrite P1, P2.
  apply at_next in Hat0. change (0 + 1) with 1 in Hat0. rewrite (at_rd _ _ _ _ Hat0). cbn [mbind res_bind].
  rewrite u8_small by zlia. rewrite !(proj2 (Z.ltb_ge _ _)) by lia. cbn [orb negb mbind res_bind].
  rewrite (proj2 (Z.leb_le _ (zlen buf))) by lia. cbn [mbind res_bind].
  apply at_next in Hat0. change (1 + 1) with 2 in Hat0.
  assert ((if c then rd_u16 buf 2 else Ok 0) = Ok (if c then caps else 0) ∧
    at_ buf (announce_hdr c) (flat_map report_bytes reports ++ flat_map route_bytes routes ++ tail))
    as [-> Hat].
  { destruct c; [|done]. split; [by rewrite (at_rd_u16 _ _ _ _ Hat0)|]. by eapply at_move. }
  cbn [mbind res_bind]. rewrite !to_nat_zlen.
  destruct (at_parse_n report_read report_bytes quant_report
    report_wf 18 reports buf (announce_hdr c)
    (flat_map route_bytes routes ++ tail)) as [-> Hat2]; auto.
  { intros p [? _]. by apply zlen_report_bytes. }
  { intros p o r [? _]. by apply at_report_read. }
  cbn [mbind res_bind]. rewrite (into_ok 32) by (unfold zlen in *; rewrite ?length_fmap; lia).
  cbn [mbind res_bind]. replace (zlen reports * 18) with (18 * zlen reports) by lia.
  destruct (at_parse_n route_read route_bytes quant_route
    route_wf 35 routes buf
    (announce_hdr c + 18 * zlen reports) tail) as [-> _]; auto.
  { intros v (? & ? & _). by apply zlen_route_bytes. }
  { intros v o r (? & ? & _). by apply at_route_read. }
  cbn [mbind res_bind]. by rewrite (into_ok 64) by (unfold zlen in *; rewrite ?length_fmap; lia).
Qed.

Lemma announce_carried (a : Announce) (cap : Z) (tail : bytes) (Ha : announce_wf a)
    (Hcap : announce_hdr (an_has_caps a) <= cap < 65536) :
  announce_deserialize (announce_serialize a cap ++ tail) = Ok (carried a cap) ∧
  announce_body_len (carried a cap) = zlen (announce_serialize a cap) ∧
  zlen (announce_serialize a cap) <= cap.
Proof.
  destruct Ha as [Hrep Hrou Hn Hr Hc].
  unfold announce_serialize, carried. rewrite (proj2 (Z.ltb_ge _ _)) by lia.
  rewrite !fits_take by done. set (h := announce_hdr _) in *.
  rewrite <- (fits_take ANNOUNCE_REPORT_BYTES cap h) by done.
  set (reports := fits _ cap h _).
  replace (cap - h - ANNOUNCE_REPORT_BYTES * zlen reports)
    with (cap - (h + ANNOUNCE_REPORT_BYTES * zlen reports)) by lia.
  rewrite <- (fits_take ANNOUNCE_ROUTE_BYTES) by done. set (routes := fits _ cap _ _).
  pose proof (fits_len ANNOUNCE_REPORT_BYTES cap h (an_reports a)) as L1.
  pose proof (fits_len ANNOUNCE_ROUTE_BYTES cap (h + ANNOUNCE_REPORT_BYTES * zlen reports) (an_routes a)) as L2.
  assert (h + ANNOUNCE_REPORT_BYTES * zlen reports <= cap) as B1 by (apply fits_bound; [done|lia]).
  assert (h + ANNOUNCE_REPORT_BYTES * zlen reports + ANNOUNCE_ROUTE_BYTES * zlen routes <= cap) as B2
    by (apply fits_bound; [done|lia]).
  fold reports in L1. fold routes in L2.
  assert (Forall report_wf reports) as Wr by (by apply Forall_fits).
  assert (Forall route_wf routes) as Wv by (by apply Forall_fits).
  pose proof (zlen_announce_body (an_has_caps a) (an_caps a) reports routes Wr Wv) as Hlen.
  fold h in Hlen.
  split; [|split].
  - apply announce_body_read; auto; lia.
  - rewrite Hlen. unfold announce_body_len. simpl. unfold zlen at 1 2. rewrite !length_fmap.
    fold (zlen reports) (zlen routes). fold h. unfold ANNOUNCE_REPORT_BYTES, ANNOUNCE_ROUTE_BYTES in *.
    rewrite u16_small; [lia|]. pose proof (zlen_nonneg reports). pose proof (zlen_nonneg routes).
    assert (0 <= h) by (unfold h; by destruct (an_has_caps a)). unfold is_u16. lia.
  - rewrite Hlen. unfold ANNOUNCE_REPORT_BYTES, ANNOUNCE_ROUTE_BYTES in *. lia.
Qed.

(** Announces survive the air. Encoding an announce into a frame
    of [cap] bytes and decoding it (with any signature tail behind it) gives
    exactly what fits, at wire precision: the first reports, then the first
    routes, with the ids, aliases and hop counts unchanged; the encoder never
    writes past [cap]; and [announce_body_len] finds where the tail starts. *)
Theorem announce_roundtrip (a : Announce) (cap : Z) (tail : bytes) (Ha : announce_wf a)
    (Hcap : announce_hdr (an_has_caps a) <= cap < 65536) :
  announce_deserialize (announce_serialize a cap ++ tail) = Ok (carried a cap) ∧
  announce_body_len (carried a cap) = zlen (announce_serialize a cap) ∧
  zlen (announce_serialize a cap) <= cap.
Proof. by apply announce_carried. Qed.

Definition announce_ex : Announce :=
  mkAnnounce nid_zero [mkReport (nid_from_u32 1) (f32_lit 1 2) 9]
    [mkAdv (nid_from_u32 3) (nid_from_u32 2) (f32_lit 9 4) 2;
     mkAdv (nid_from_u32 4) (nid_from_u32 2) (f32_lit 9 4) 2] 5 true.

Lemma announce_ex_wf : announce_wf announce_ex.
Proof.
  split; simpl; try zlia.
  - each. split; [apply wf_nid_u32|simpl; zlia].
  - each; (split; [apply wf_nid_u32|split; [apply wf_nid_u32|simpl; zlia]]).
  - by vm_compute.
  - by vm_compute.
Qed.

(** A 60-byte frame has room for the report and one of the two routes. *)
Example announce_roundtrip_witness :
  announce_wf announce_ex ∧ announce_hdr true <= 60 < 65536 ∧
  announce_deserialize (announce_serialize announce_ex 60 ++ [1; 2]) = Ok (carried announce_ex 60) ∧
  zlen (an_routes (carried announce_ex 60)) = 1.
Proof.
  split; [apply announce_ex_wf|]. split; [done|]. split; [|by vm_compute].
  apply (announce_roundtrip announce_ex 60); [apply announce_ex_wf|done].
Defined.

(** ** Signed identity *)

(** The signed view determines the key and the body. *)
Lemma ann_view_inj pk1 pk2 b1 b2 : zlen pk1 = 32 → zlen pk2 = 32 →
  ann_view pk1 b1 = ann_view pk2 b2 → pk1 = pk2 ∧ b1 = b2.
Proof.
  unfold zlen. intros H1 H2 H. apply app_inv_head in H.
  apply app_inj_1 in H; [done|lia].
Qed.

Lemma ann_view_fits pubkey body : zlen pubkey = 32 → zlen body <= ANN_VIEW_BODY_MAX →
  into ANN_VIEW_SIZE (ann_view pubkey body) = Ok (ann_view pubkey body).
Proof. intros Hp Hb. apply into_ok. unfold ann_view, ANN_VIEW_SIZE. rewrite !zlen_app. lia. Qed.

Lemma announce_verify_safe `{Crypto} body tail : wf_bytes tail → 96 <= zlen tail →
  safe (announce_verify body tail) (λ _, True).
Proof.
  intros Hw Hl. unfold announce_verify. destruct (Z.ltb_spec ANN_VIEW_BODY_MAX (zlen body)); [done|].
  do 4 (safe_step; try lia). rewrite ann_view_fits by lia. simpl. by case_match.
Qed.

Section identity_laws.
Context `{CryptoLaws}.

Lemma announce_verify_ok (body pk sig sk : bytes)
    (Hpk : zlen pk = 32) (Hsig : zlen sig = 64) :
  (∀ out, announce_verify body (pk ++ sig) = Ok out ↔
    out = pk ∧ zlen body <= ANN_VIEW_BODY_MAX ∧
    ed25519_check sig pk (ann_view pk body) = true) ∧
  (zlen body <= ANN_VIEW_BODY_MAX →
    ∃ tail, announce_sign body (ed25519_public sk) sk = Some tail ∧
      zlen tail = ANNOUNCE_SIG_TAIL ∧
      announce_verify body tail = Ok (ed25519_public sk)).
Proof.
  assert (∀ pk sig out, zlen pk = 32 → zlen sig = 64 →
    announce_verify body (pk ++ sig) = Ok out ↔
    out = pk ∧ zlen body <= ANN_VIEW_BODY_MAX ∧
    ed25519_check sig pk (ann_view pk body) = true) as Hv.
  { clear. intros pk sig out Hpk Hsig. unfold announce_verify.
    destruct (Z.ltb_spec ANN_VIEW_BODY_MAX (zlen body)); [split; [done|lia]|].
    pose proof (at_start (pk ++ sig)) as Hat.
    rewrite (at_rdn _ _ 32 _ _ Hat) by done. cbn [mbind res_bind].
    apply (at_move _ _ 32) in Hat; [|lia].
    rewrite <- (app_nil_r sig) in Hat at 2.
    rewrite (at_rdn _ _ 64 _ _ Hat) by done. cbn [mbind res_bind]. rewrite ann_view_fits by lia. cbn [mbind res_bind].
    destruct (ed25519_check _ _ _); split; try done; [by intros [= <-]|by intros (-> & _ & _)|by intros (_ & _ & ?)]. }
  split; [intros out; by apply Hv|]. intros Hl. unfold announce_sign.
  rewrite (proj2 (Z.ltb_ge _ _)) by done. eexists. split; [done|].
  split; [by rewrite zlen_app, public_len, sign_len|].
  apply Hv; [apply public_len|apply sign_len|]. split; [done|]. split; [done|]. apply sign_check.
Qed.

(** The identity tail binds key and body. [announce_verify]
    accepts a 96-byte tail exactly when the signature check passes for the
    tail's own public key over DOMAIN || key || this very body (at most 256
    bytes), and it returns that key; in particular what [announce_sign] wrote
    with a node's own key pair is accepted. *)
Theorem announce_verify_exact (body pk sig sk : bytes)
    (Hpk : zlen pk = 32) (Hsig : zlen sig = 64) :
  (∀ out, announce_verify body (pk ++ sig) = Ok out ↔
    out = pk ∧ zlen body <= ANN_VIEW_BODY_MAX ∧
    ed25519_check sig pk (ann_view pk body) = true) ∧
  (zlen body <= ANN_VIEW_BODY_MAX →
    ∃ tail, announce_sign body (ed25519_public sk) sk = Some tail ∧
      zlen tail = ANNOUNCE_SIG_TAIL ∧
      announce_verify body tail = Ok (ed25519_public sk)).
Proof. by apply announce_verify_ok. Qed.
End identity_laws.

Example announce_verify_exact_witness :
  zlen (replicate 32 1) = 32 ∧ zlen (replicate 64 2) = 64 ∧
  ∃ tail, @announce_sign toy_crypto [4; 5; 6] (@ed25519_public toy_crypto [9]) [9] = Some tail ∧
    zlen tail = ANNOUNCE_SIG_TAIL ∧
    @announce_verify toy_crypto [4; 5; 6] tail = Ok (@ed25519_public toy_crypto [9]).
Proof.
  split; [done|]. split; [done|].
  apply (@announce_verify_exact toy_crypto toy_laws [4; 5; 6] (replicate 32 1) (replicate 64 2) [9]);
    by vm_compute.
Defined.
