(* ===== verification/Forwarder.v ===== *)
(** lib/mesh/forwarder.{h,cpp}: the relay decision and its seen-cache. *)
From S2P Require Import Prelude SlotTable MeshTypes Router.

Record PacketRef := mkPacketRef { pr_src : NodeId; pr_dst : NodeId; pr_pkt_id : Z; pr_ttl : Z }.

Inductive Action := DELIVER | FORWARD | DROP_OWN | DROP_DUP | DROP_TTL | DROP_NO_ROUTE.
#[export] Instance Action_eq_dec : EqDecision Action.
Proof. solve_decision. Defined.

Record Decision := mkDecision { dc_action : Action; dc_next_hop : NodeId; dc_out_ttl : Z }.

Definition BCAST_ID : NodeId := NODE_ID_BROADCAST.
Definition SEEN_CACHE_SIZE : Z := 64.

Record SeenEntry := mkSeen { se_src : NodeId; se_pkt_id : Z; se_used : bool }.
Record Forwarder := mkForwarder { fw_me : NodeId; fw_seen : list SeenEntry; fw_head : Z }.

Definition Forwarder_new (me : NodeId) : Forwarder :=
  mkForwarder me (replicate 64 (mkSeen nid_zero 0 false)) 0.

Definition seen_match (src : NodeId) (pkt_id : Z) (e : SeenEntry) : bool :=
  se_used e && nid_eqb (se_src e) src && (se_pkt_id e =? pkt_id).

Definition seen_or_insert (src : NodeId) (pkt_id : Z) (f : Forwarder) : Forwarder * bool :=
  match find_index (seen_match src pkt_id) (fw_seen f) with
  | Some _ => (f, true)
  | None =>
      (mkForwarder (fw_me f)
         (<[Z.to_nat (fw_head f) := mkSeen src pkt_id true]> (fw_seen f))
         (u8 ((fw_head f + 1) mod SEEN_CACHE_SIZE)), false)
  end.

Definition mark_seen (src : NodeId) (pkt_id : Z) (f : Forwarder) : Forwarder :=
  (seen_or_insert src pkt_id f).1.

Definition decide_packet (p : PacketRef) (router : Router) (f : Forwarder) : Forwarder * Decision :=
  if nid_eqb (pr_src p) (fw_me f) then (f, mkDecision DROP_OWN nid_zero 0) else
  let '(f, dup) := seen_or_insert (pr_src p) (pr_pkt_id p) f in
  if dup then (f, mkDecision DROP_DUP nid_zero 0) else
  if nid_eqb (pr_dst p) (fw_me f) || nid_eqb (pr_dst p) BCAST_ID
  then (f, mkDecision DELIVER nid_zero 0) else
  if pr_ttl p <=? 1 then (f, mkDecision DROP_TTL nid_zero 0) else
  let nh := next_hop (pr_dst p) router in
  if is_zero nh then (f, mkDecision DROP_NO_ROUTE nid_zero 0) else
  (f, mkDecision FORWARD nh (u8 (pr_ttl p - 1))).

(** ** Specification: the window of the last 64 distinct keys *)

Abbreviation key := (NodeId * Z)%type.

(** Newest first. *)
Definition spec_seen (k : key) (w : list key) : list key * bool :=
  if bool_decide (k ∈ w) then (w, true) else (take 64 (k :: w), false).

(** The ring slot that holds the [i]-th newest key. *)
Definition ring_pos (head : Z) (i : nat) : nat := Z.to_nat ((head - 1 - Z.of_nat i) mod 64).

Record fw_repr (f : Forwarder) (w : list key) : Prop := {
  fr_len : length (fw_seen f) = 64%nat;
  fr_head : 0 <= fw_head f < 64;
  fr_win : (length w <= 64)%nat;
  fr_slots : ∀ i : nat, (i < 64)%nat →
    match w !! i with
    | Some (src, pkt_id) => fw_seen f !! ring_pos (fw_head f) i = Some (mkSeen src pkt_id true)
    | None => ∃ e, fw_seen f !! ring_pos (fw_head f) i = Some e ∧ se_used e = false
    end }.

Lemma ring_pos_surj head (j : nat) : 0 <= head < 64 → (j < 64)%nat →
  ∃ i, (i < 64)%nat ∧ ring_pos head i = j.
Proof.
  intros Hh Hj. exists (Z.to_nat ((head - 1 - Z.of_nat j) mod 64)). unfold ring_pos. split.
  - Z.div_mod_to_equations; lia.
  - rewrite Z2Nat.id by (Z.div_mod_to_equations; lia). Z.div_mod_to_equations; lia.
Qed.

Lemma fw_new_repr me : fw_repr (Forwarder_new me) [].
Proof.
  split; simpl; [done|lia|lia|]. intros i Hi.
  exists (mkSeen nid_zero 0 false). split; [|done].
  apply lookup_replicate. split; [done|]. unfold ring_pos. Z.div_mod_to_equations; lia.
Qed.

(** The scan finds exactly the keys of the window. *)
Lemma fw_find_iff f w src pkt_id : fw_repr f w →
  (∃ i, find_index (seen_match src pkt_id) (fw_seen f) = Some i) ↔ (src, pkt_id) ∈ w.
Proof.
  intros Hr. split.
  - intros [j Hj]. apply find_index_lookup in Hj as (e & He & Hm).
    pose proof (lookup_lt_Some _ _ _ He) as Hlt. rewrite (fr_len _ _ Hr) in Hlt.
    destruct (ring_pos_surj (fw_head f) j) as (i & Hi & <-); [apply Hr|done|].
    pose proof (fr_slots _ _ Hr i Hi) as Hs. apply andb_true_iff in Hm as [[Hu Hn]%andb_true_iff Hp].
    destruct (w !! i) as [[s q]|] eqn:Hw.
    + rewrite He in Hs. injection Hs as ->. simpl in *.
      apply nid_eqb_eq in Hn as ->. apply Z.eqb_eq in Hp as ->.
      apply list_elem_of_lookup. eauto.
    + destruct Hs as (e' & He' & ?). congruence.
  - intros [i Hi]%list_elem_of_lookup. pose proof (lookup_lt_Some _ _ _ Hi) as Hlt.
    pose proof (fr_slots _ _ Hr i) as Hs. rewrite Hi in Hs.
    destruct (find_index _ _) as [j|] eqn:Hf; [eauto|]. exfalso.
    rewrite find_index_None in Hf.
    specialize (Hf _ _ (Hs ltac:(pose proof (fr_win _ _ Hr); lia))).
    unfold seen_match in Hf. simpl in Hf. by rewrite nid_eqb_refl, Z.eqb_refl in Hf.
Qed.

Lemma seen_or_insert_spec f w src pkt_id : fw_repr f w →
  fw_repr (seen_or_insert src pkt_id f).1 (spec_seen (src, pkt_id) w).1 ∧
  (seen_or_insert src pkt_id f).2 = (spec_seen (src, pkt_id) w).2 ∧
  fw_me (seen_or_insert src pkt_id f).1 = fw_me f.
Proof.
  intros Hr. pose proof (fw_find_iff f w src pkt_id Hr) as Hiff.
  unfold seen_or_insert, spec_seen.
  destruct (find_index _ (fw_seen f)) as [j|].
  { rewrite bool_decide_eq_true_2 by (apply Hiff; eauto). done. }
  rewrite bool_decide_eq_false_2; [|intros Hin; apply Hiff in Hin as [? ?]; done].
  split; [|done]. destruct Hr as [Hlen Hh Hw Hs]. split; unfold SEEN_CACHE_SIZE.
  - cbn [fst fw_seen]. by rewrite length_insert.
  - cbn [fst fw_head]. zlia.
  - cbn [fst]. rewrite length_take. lia.
  - intros i Hi. cbn [fst fw_seen fw_head].
    rewrite (u8_small ((fw_head f + 1) mod 64)) by zlia.
    rewrite lookup_take_lt by done. destruct i as [|i].
    + cbn. replace (ring_pos _ 0) with (Z.to_nat (fw_head f))
        by (unfold ring_pos; f_equal; Z.div_mod_to_equations; lia).
      apply list_lookup_insert_eq. lia.
    + cbn [lookup list_lookup]. specialize (Hs i ltac:(lia)).
      replace (ring_pos ((fw_head f + 1) mod 64) (S i)) with (ring_pos (fw_head f) i)
        by (unfold ring_pos; f_equal; Z.div_mod_to_equations; lia).
      assert (Z.to_nat (fw_head f) ≠ ring_pos (fw_head f) i) as Hne
        by (unfold ring_pos; Z.div_mod_to_equations; lia).
      change (list_lookup i w) with (w !! i).
      destruct (w !! i) as [[s q]|]; by rewrite list_lookup_insert_ne.
Qed.

(** The ring of 64 slots is a sliding window. As long as the ring
    represents a window of keys (it represents the empty window at start-up),
    [seen_or_insert] answers "already seen" exactly when the key is in the
    window, and otherwise pushes it, evicting the oldest beyond 64. *)
Theorem seen_refines_window (f : Forwarder) (w : list key) (src : NodeId) (pkt_id : Z)
    (Hr : fw_repr f w) :
  let '(f', dup) := seen_or_insert src pkt_id f in
  let '(w', dup') := spec_seen (src, pkt_id) w in
  fw_repr f' w' ∧ dup = dup' ∧ fw_me f' = fw_me f.
Proof.
  pose proof (seen_or_insert_spec f w src pkt_id Hr) as H.
  by destruct (seen_or_insert src pkt_id f), (spec_seen (src, pkt_id) w).
Qed.

Example seen_refines_window_witness :
  fw_repr (Forwarder_new nid_zero) [] ∧
  (seen_or_insert (nid_from_u32 5) 1 (Forwarder_new nid_zero)).2 = false.
Proof.
  split; [apply fw_new_repr|].
  pose proof (seen_refines_window (Forwarder_new nid_zero) [] (nid_from_u32 5) 1 (fw_new_repr _)) as H.
  revert H. destruct (seen_or_insert _ _ _) as [f' dup]. simpl. by intros (_ & -> & _).
Defined.

(** ** Histories *)

(** What can happen to a node's forwarder: a packet arrives (decided with the
    routing table of that moment), or the node marks its own packet. *)
Inductive fw_event :=
  | EvDecide (p : PacketRef) (router : Router)
  | EvMark (src : NodeId) (pkt_id : Z).

Definition fw_step (f : Forwarder) (e : fw_event) : Forwarder :=
  match e with
  | EvDecide p router => (decide_packet p router f).1
  | EvMark src pkt_id => mark_seen src pkt_id f
  end.

Definition pr_key (p : PacketRef) : key := (pr_src p, pr_pkt_id p).

(** Every event pushes at most one key. *)
Lemma fw_step_window f w e : fw_repr f w →
  ∃ w', fw_repr (fw_step f e) w' ∧ fw_me (fw_step f e) = fw_me f ∧
    (w' = w ∨ ∃ k, (k ∉ w) ∧ w' = take 64 (k :: w)).
Proof.
  intros Hr.
  assert (∀ src pkt_id, ∃ w', fw_repr (seen_or_insert src pkt_id f).1 w' ∧
    fw_me (seen_or_insert src pkt_id f).1 = fw_me f ∧
    (w' = w ∨ ∃ k, (k ∉ w) ∧ w' = take 64 (k :: w))) as H.
  { intros src pkt_id. destruct (seen_or_insert_spec f w src pkt_id Hr) as (H1 & _ & H3).
    eexists. split; [exact H1|]. split; [done|]. unfold spec_seen.
    case_bool_decide; simpl; eauto. }
  destruct e as [p router|src pkt_id]; [|apply H]. simpl. unfold decide_packet.
  destruct (nid_eqb _ _); [simpl; eauto|].
  specialize (H (pr_src p) (pr_pkt_id p)).
  destruct (seen_or_insert _ _ _) as [f' dup].
  destruct dup; [exact H|]. repeat case_match; exact H.
Qed.

Lemma fw_run_window f w es : fw_repr f w →
  ∃ w', fw_repr (fold_left fw_step es f) w' ∧ fw_me (fold_left fw_step es f) = fw_me f ∧
    ∀ i k, w !! i = Some k → (i + length es < 64)%nat → k ∈ w'.
Proof.
  revert f w. induction es as [|e es IH]; intros f w Hr; simpl.
  { exists w. split; [done|]. split; [done|]. intros i k Hi _. apply list_elem_of_lookup. eauto. }
  destruct (fw_step_window f w e Hr) as (w1 & Hr1 & Hme1 & Hw).
  destruct (IH _ _ Hr1) as (w2 & Hr2 & Hme2 & Hk). exists w2.
  split; [done|]. split; [by rewrite Hme2|]. intros i k Hi Hlt.
  destruct Hw as [->|(k' & _ & ->)]; [apply (Hk i); [done|lia]|].
  apply (Hk (S i)); [|lia]. rewrite lookup_take_lt by lia. done.
Qed.

(** A processed packet's key is the newest of the window, or was in it. *)
Lemma decide_marks f w p router : fw_repr f w →
  dc_action (decide_packet p router f).2 ≠ DROP_OWN →
  dc_action (decide_packet p router f).2 ≠ DROP_DUP →
  ∃ w', fw_repr (decide_packet p router f).1 w' ∧ w' !! 0%nat = Some (pr_key p) ∧
    fw_me (decide_packet p router f).1 = fw_me f.
Proof.
  intros Hr. unfold decide_packet. destruct (nid_eqb _ _); [done|].
  destruct (seen_or_insert_spec f w (pr_src p) (pr_pkt_id p) Hr) as (H1 & H2 & H3).
  unfold spec_seen in *. case_bool_decide; simpl in H1, H2.
  - destruct (seen_or_insert _ _ _) as [f' dup]. simpl in *. by subst.
  - destruct (seen_or_insert _ _ _) as [f' dup]. simpl in *. subst dup.
    intros _ _. exists (pr_key p :: take 63 w).
    repeat case_match; done.
Qed.

Lemma decide_dup f w p router : fw_repr f w → pr_key p ∈ w →
  dc_action (decide_packet p router f).2 = DROP_OWN ∨
  dc_action (decide_packet p router f).2 = DROP_DUP.
Proof.
  intros Hr Hk. unfold decide_packet. destruct (nid_eqb _ _); [by left|]. right.
  destruct (seen_or_insert_spec f w (pr_src p) (pr_pkt_id p) Hr) as (_ & H2 & _).
  unfold spec_seen in H2. rewrite bool_decide_eq_true_2 in H2 by done.
  destruct (seen_or_insert _ _ _) as [f' dup]. simpl in *. by subst.
Qed.

(** No storm. Once a node has handled a packet (delivered it,
    forwarded it, or dropped it for its TTL or for lack of a route), any copy
    of it that arrives within the next 63 events is dropped, whatever path the
    copy took and however the routing table changed in between. *)
Theorem no_double_handling (f : Forwarder) (w : list key) (p q : PacketRef) (r1 r2 : Router)
    (es : list fw_event) (Hr : fw_repr f w) (Hkey : pr_key q = pr_key p)
    (Hown : dc_action (decide_packet p r1 f).2 ≠ DROP_OWN)
    (Hdup : dc_action (decide_packet p r1 f).2 ≠ DROP_DUP)
    (Hlen : (length es <= 63)%nat) :
  let f' := fold_left fw_step es (decide_packet p r1 f).1 in
  dc_action (decide_packet q r2 f').2 = DROP_OWN ∨ dc_action (decide_packet q r2 f').2 = DROP_DUP.
Proof.
  destruct (decide_marks f w p r1 Hr Hown Hdup) as (w1 & Hr1 & H0 & _).
  destruct (fw_run_window _ _ es Hr1) as (w2 & Hr2 & _ & Hk). cbv zeta.
  apply (decide_dup _ w2); [done|]. rewrite Hkey. apply (Hk 0%nat); [done|lia].
Qed.

Definition fw_ex : Forwarder := Forwarder_new (nid_from_u32 1).
Definition pkt_ex (ttl : Z) : PacketRef := mkPacketRef (nid_from_u32 7) (nid_from_u32 3) 42 ttl.

Example no_double_handling_witness :
  fw_repr fw_ex [] ∧
  decide_packet (pkt_ex 16) router_ex fw_ex =
    ((decide_packet (pkt_ex 16) router_ex fw_ex).1, mkDecision FORWARD (nid_from_u32 2) 15) ∧
  let f' := fold_left fw_step [EvMark (nid_from_u32 1) 9] (decide_packet (pkt_ex 16) router_ex fw_ex).1 in
  dc_action (decide_packet (pkt_ex 14) router_ex f').2 = DROP_OWN ∨
  dc_action (decide_packet (pkt_ex 14) router_ex f').2 = DROP_DUP.
Proof.
  split; [apply fw_new_repr|]. split; [by vm_compute|].
  apply (no_double_handling fw_ex [] (pkt_ex 16) (pkt_ex 14) router_ex router_ex
    [EvMark (nid_from_u32 1) 9] (fw_new_repr _)); [done| | |simpl; lia]; by vm_compute.
Defined.

(** ** Hop bound *)

(** [relayed p ns q]: [p], handled by the nodes [ns] in turn, each with its own
    forwarder and router and each deciding to forward, leaves the last as [q]. *)
Inductive relayed : PacketRef → list (Forwarder * Router) → PacketRef → Prop :=
  | relayed_nil p : relayed p [] p
  | relayed_cons p f r ns q nh ttl :
      (decide_packet p r f).2 = mkDecision FORWARD nh ttl →
      relayed (mkPacketRef (pr_src p) (pr_dst p) (pr_pkt_id p) ttl) ns q →
      relayed p ((f, r) :: ns) q.

Lemma decide_forward p r f nh ttl : (decide_packet p r f).2 = mkDecision FORWARD nh ttl →
  1 < pr_ttl p ∧ ttl = u8 (pr_ttl p - 1) ∧ nh = next_hop (pr_dst p) r ∧ nh ≠ nid_zero ∧
  pr_dst p ≠ fw_me f ∧ pr_dst p ≠ BCAST_ID ∧ pr_src p ≠ fw_me f.
Proof.
  unfold decide_packet. destruct (nid_eqb_spec (pr_src p) (fw_me f)); [done|].
  assert (fw_me (seen_or_insert (pr_src p) (pr_pkt_id p) f).1 = fw_me f) as Hme.
  { unfold seen_or_insert. by destruct (find_index _ _). }
  destruct (seen_or_insert _ _ _) as [f' dup]. simpl in Hme. rewrite Hme.
  destruct dup; [done|]. destruct (nid_eqb_spec (pr_dst p) (fw_me f)); [done|].
  destruct (nid_eqb_spec (pr_dst p) BCAST_ID); [done|]. simpl.
  destruct (Z.leb_spec (pr_ttl p) 1); [done|].
  unfold is_zero. destruct (nid_eqb_spec (next_hop (pr_dst p) r) nid_zero); [done|].
  simpl. intros [= <- <-]. done.
Qed.

(** C31: the TTL bounds every path. A packet that enters the mesh with
    a given 8-bit TTL is relayed at most TTL - 1 times, even through a routing
    loop and with every seen-cache forgetting it, and each relay hands it to a
    known next hop with a strictly smaller TTL. *)
Theorem relay_bounded (p q : PacketRef) (ns : list (Forwarder * Router))
    (Httl : is_u8 (pr_ttl p)) (Hrel : relayed p ns q) :
  pr_ttl q = pr_ttl p - zlen ns ∧ (ns = [] ∨ 1 <= pr_ttl q) ∧ pr_key q = pr_key p ∧
  pr_dst q = pr_dst p.
Proof.
  induction Hrel as [p|p f r ns q nh ttl Hd _ IH].
  { rewrite zlen_nil. split; [lia|]. auto. }
  apply decide_forward in Hd as (H1 & -> & _). simpl in IH.
  destruct IH as (H2 & H3 & H4 & H5); [zlia|]. rewrite zlen_cons, H2.
  assert (u8 (pr_ttl p - 1) = pr_ttl p - 1) as Hu by zlia. rewrite Hu in *.
  split; [lia|]. split; [|done]. right. destruct H3 as [-> |?]; [|lia]. rewrite zlen_nil. lia.
Qed.

Example relay_bounded_witness :
  is_u8 2 ∧ relayed (pkt_ex 2) [(fw_ex, router_ex)] (pkt_ex 1) ∧
  pr_ttl (pkt_ex 1) = pr_ttl (pkt_ex 2) - zlen [(fw_ex, router_ex)].
Proof.
  assert (relayed (pkt_ex 2) [(fw_ex, router_ex)] (pkt_ex 1)) as Hr.
  { eapply relayed_cons; [vm_compute; reflexivity|]. apply relayed_nil. }
  split; [zlia|]. split; [done|]. apply (relay_bounded (pkt_ex 2) (pkt_ex 1) _); [simpl; zlia|done].
Defined.
