(* ===== verification/LinkArq.v ===== *)
(** lib/mesh/link_arq.{h,cpp}: hop-by-hop acknowledgement and retry. *)
From S2P Require Import Prelude SlotTable MeshTypes.

Definition ARQ_MAX_PENDING : Z := 4.
Definition ARQ_MAX_RETRIES : Z := 5.
Definition ARQ_TIMEOUT_MS : Z := 5000.
Definition ARQ_FRAME_MAX : Z := 255.

(** [frame[0 .. len)] is the list [pd_frame]. *)
Record Pending := mkPending {
  pd_used : bool;
  pd_seq : Z;
  pd_next_hop : NodeId;
  pd_retries_left : Z;
  pd_next_tx_ms : Z;
  pd_timeout_ms : Z;
  pd_frame : bytes }.

Definition Pending_default : Pending := mkPending false 0 nid_zero 0 0 0 [].
Definition pd_clear (p : Pending) : Pending :=
  mkPending false (pd_seq p) (pd_next_hop p) (pd_retries_left p) (pd_next_tx_ms p)
    (pd_timeout_ms p) (pd_frame p).

Record LinkArq := mkArq {
  arq_slots : list Pending;
  arq_seq_ctr : Z;
  arq_acked : Z;
  arq_dropped : Z }.

Definition LinkArq_init : LinkArq := mkArq (replicate 4 Pending_default) 0 0 0.

(** [do { seq_ctr_++; } while (seq_ctr_ == 0);], with the loop bound as fuel:
    two rounds always suffice ([next_seq_total]). *)
Fixpoint next_seq_loop (fuel : nat) (c : Z) : option Z :=
  match fuel with
  | O => None
  | S fuel => let c := u8 (c + 1) in if c =? 0 then next_seq_loop fuel c else Some c
  end.

Definition next_seq (a : LinkArq) : option (LinkArq * Z) :=
  c ← next_seq_loop 2 (arq_seq_ctr a);
  Some (mkArq (arq_slots a) c (arq_acked a) (arq_dropped a), c).

Definition arq_track (link_seq : Z) (next_hop : NodeId) (frame : bytes)
    (now_ms timeout_ms max_retries : Z) (a : LinkArq) : LinkArq * bool :=
  if ARQ_FRAME_MAX <? zlen frame then (a, false) else
  match find_index (λ p, negb (pd_used p)) (arq_slots a) with
  | None => (a, false)
  | Some i =>
      (mkArq (<[i := mkPending true link_seq next_hop max_retries (u32 (now_ms + timeout_ms))
                       timeout_ms frame]> (arq_slots a))
         (arq_seq_ctr a) (arq_acked a) (arq_dropped a), true)
  end.

Definition on_ack (link_seq : Z) (a : LinkArq) : LinkArq * bool :=
  match find_index (λ p, pd_used p && (pd_seq p =? link_seq)) (arq_slots a) with
  | None => (a, false)
  | Some i =>
      (mkArq (alter pd_clear i (arq_slots a)) (arq_seq_ctr a) (u32 (arq_acked a + 1))
         (arq_dropped a), true)
  end.

(** The loop body of [tick] for one slot. *)
Inductive tick_out := Idle | Resend (frame : bytes) | GaveUp.

Definition tick_slot (now_ms : Z) (p : Pending) : Pending * tick_out :=
  if negb (pd_used p) then (p, Idle) else
  if i32 (now_ms - pd_next_tx_ms p) <? 0 then (p, Idle) else
  if pd_retries_left p =? 0 then (pd_clear p, GaveUp) else
  (mkPending true (pd_seq p) (pd_next_hop p) (u8 (pd_retries_left p - 1))
     (u32 (now_ms + pd_timeout_ms p)) (pd_timeout_ms p) (pd_frame p), Resend (pd_frame p)).

Definition gave_up (o : tick_out) : bool := match o with GaveUp => true | _ => false end.

(** The new state, the frames handed to the callback in order, and the number
    given up. *)
Definition arq_tick (now_ms : Z) (a : LinkArq) : LinkArq * list bytes * Z :=
  let outs := tick_slot now_ms <$> arq_slots a in
  let dropped_now := count_if gave_up (snd <$> outs) in
  (mkArq (fst <$> outs) (arq_seq_ctr a) (arq_acked a) (u32 (arq_dropped a + dropped_now)),
   omap (λ o, match o with Resend f => Some f | _ => None end) (snd <$> outs),
   dropped_now).

Definition pending_count (a : LinkArq) : Z := count_if pd_used (arq_slots a).

(** ** Sequence numbers *)

(** The counter cycles through 1..255: 0 is never issued. *)
Lemma next_seq_total c : is_u8 c → next_seq_loop 2 c = Some (c mod 255 + 1).
Proof.
  intros Hc. cbn [next_seq_loop].
  destruct (Z.eqb_spec (u8 (c + 1)) 0) as [E|E].
  - assert (c = 255) as -> by zlia. done.
  - f_equal. zlia.
Qed.

Fixpoint seq_iter (n : nat) (a : LinkArq) : option (LinkArq * Z) :=
  match n with
  | O => Some (a, arq_seq_ctr a)
  | S n => '(a, _) ← next_seq a; seq_iter n a
  end.

Lemma seq_iter_eq n a : 1 <= arq_seq_ctr a <= 255 →
  ∃ a', seq_iter n a = Some (a', (arq_seq_ctr a - 1 + Z.of_nat n) mod 255 + 1) ∧
    arq_slots a' = arq_slots a.
Proof.
  revert a. induction n as [|n IH]; intros a Ha; simpl.
  { exists a. split; [|done]. do 2 f_equal. Z.div_mod_to_equations; lia. }
  unfold next_seq. rewrite next_seq_total by zlia. simpl.
  destruct (IH (mkArq (arq_slots a) (arq_seq_ctr a mod 255 + 1) (arq_acked a) (arq_dropped a)))
    as (a' & -> & Hs); simpl; [Z.div_mod_to_equations; lia|].
  exists a'. split; [|done]. simpl. do 2 f_equal. Z.div_mod_to_equations; lia.
Qed.

(** Link sequence numbers. [next_seq] always returns, never returns
    the reserved value 0, and a number is not reused before the 254 others have
    been issued: the numbers returned by calls [i] < [j] with [j - i < 255]
    differ. *)
Theorem next_seq_fresh (a : LinkArq) (i j : nat) (Hctr : is_u8 (arq_seq_ctr a))
    (Hij : (0 < i < j)%nat) (Hwin : (j - i < 255)%nat) :
  ∃ ai aj si sj, seq_iter i a = Some (ai, si) ∧ seq_iter j a = Some (aj, sj) ∧
    1 <= si <= 255 ∧ 1 <= sj <= 255 ∧ si ≠ sj.
Proof.
  destruct i as [|i], j as [|j]; try lia. simpl. unfold next_seq.
  rewrite next_seq_total by done. simpl.
  set (a1 := mkArq _ _ _ _).
  destruct (seq_iter_eq i a1) as (ai & -> & _); [simpl; zlia|].
  destruct (seq_iter_eq j a1) as (aj & -> & _); [simpl; zlia|].
  do 4 eexists. split; [done|]. split; [done|]. Z.div_mod_to_equations; lia.
Qed.

Example next_seq_fresh_witness :
  is_u8 (arq_seq_ctr LinkArq_init) ∧
  ∃ ai aj si sj, seq_iter 3 LinkArq_init = Some (ai, si) ∧ seq_iter 200 LinkArq_init = Some (aj, sj) ∧
    1 <= si <= 255 ∧ 1 <= sj <= 255 ∧ si ≠ sj.
Proof. split; [simpl; zlia|]. apply next_seq_fresh; [simpl; zlia|lia|lia]. Defined.

(** ** Bounded retransmission *)

Fixpoint slot_run (times : list Z) (p : Pending) : Pending * list tick_out :=
  match times with
  | [] => (p, [])
  | t :: times =>
      let '(p, o) := tick_slot t p in
      let '(p, os) := slot_run times p in (p, o :: os)
  end.

Fixpoint arq_run (times : list Z) (a : LinkArq) : LinkArq :=
  match times with [] => a | t :: times => arq_run times (arq_tick t a).1.1 end.

Definition is_resend (o : tick_out) : bool := match o with Resend _ => true | _ => false end.

(** [tick] treats every slot on its own. *)
Lemma arq_run_slot times a i p : arq_slots a !! i = Some p →
  arq_slots (arq_run times a) !! i = Some (slot_run times p).1.
Proof.
  revert a p. induction times as [|t times IH]; intros a p Hi; simpl; [done|].
  rewrite (IH _ (tick_slot t p).1).
  - destruct (tick_slot t p) as [p' o]. simpl. by destruct (slot_run times p').
  - simpl. by rewrite !list_lookup_fmap, Hi.
Qed.

Lemma slot_run_unused times p : pd_used p = false →
  slot_run times p = (p, replicate (length times) Idle).
Proof.
  intros Hp. induction times as [|t times IH]; simpl; [done|].
  unfold tick_slot. rewrite Hp. simpl. by rewrite IH.
Qed.

(** However often [tick] runs: retransmissions are paid for by retries, and the
    frame that goes out is always the tracked one. *)
Lemma slot_run_budget times p : is_u8 (pd_retries_left p) →
  let '(p', os) := slot_run times p in
  (∀ f, Resend f ∈ os → f = pd_frame p) ∧
  count_if gave_up os <= 1 ∧
  count_if is_resend os + pd_retries_left p' = pd_retries_left p ∧
  (pd_used p = true → pd_used p' = (count_if gave_up os =? 0)) ∧ is_u8 (pd_retries_left p').
Proof.
  revert p. induction times as [|t times IH]; intros p Hp; simpl.
  { split; [by intros f ?%elem_of_nil|]. split; [lia|]. split; [lia|]. done. }
  unfold tick_slot. destruct (pd_used p) eqn:Hu; simpl.
  2: { rewrite slot_run_unused by done.
       assert (∀ n, count_if gave_up (replicate n Idle) = 0) as E1
         by (intros; apply count_if_zero; by intros x [-> _]%elem_of_replicate).
       assert (∀ n, count_if is_resend (replicate n Idle) = 0) as E2
         by (intros; apply count_if_zero; by intros x [-> _]%elem_of_replicate).
       simpl. rewrite E1, E2. split; [|split; [lia|split; [lia|done]]].
       intros f [?|[? _]%elem_of_replicate]%elem_of_cons; done. }
  destruct (i32 (t - pd_next_tx_ms p) <? 0).
  { specialize (IH p Hp). destruct (slot_run times p) as [p' os].
    destruct IH as (H1 & H2 & H3 & H4 & H5). simpl. split; [|auto].
    intros f [?|?]%elem_of_cons; [done|auto]. }
  destruct (Z.eqb_spec (pd_retries_left p) 0) as [Hz|Hz].
  { rewrite slot_run_unused by done. simpl.
    assert (count_if gave_up (replicate (length times) Idle) = 0) as E1
      by (apply count_if_zero; by intros x [-> _]%elem_of_replicate).
    assert (count_if is_resend (replicate (length times) Idle) = 0) as E2
      by (apply count_if_zero; by intros x [-> _]%elem_of_replicate).
    rewrite E1, E2. simpl. split; [|split; [lia|split; [lia|done]]].
    intros f [?|[? _]%elem_of_replicate]%elem_of_cons; done. }
  set (p1 := mkPending true _ _ _ _ _ _). specialize (IH p1 (u8_range _)).
  destruct (slot_run times p1) as [p' os]. destruct IH as (H1 & H2 & H3 & H4 & H5). simpl in *.
  split; [|split; [done|split]].
  - intros f [[=]|?]%elem_of_cons; auto.
  - rewrite <- (u8_small (pd_retries_left p)) by done.
    replace (u8 (pd_retries_left p)) with (u8 (pd_retries_left p - 1) + 1) by zlia. lia.
  - split; [|done]. intros _. by apply H4.
Qed.

(** When every tick comes at or after the deadline, the slot is done after one
    tick per retry plus one. *)
Inductive ticks_due (timeout : Z) : Z → list Z → Prop :=
  | due_nil d : ticks_due timeout d []
  | due_cons d t ts : due t d = true → ticks_due timeout (u32 (t + timeout)) ts →
      ticks_due timeout d (t :: ts).

Lemma slot_run_complete times p : pd_used p = true → is_u8 (pd_retries_left p) →
  ticks_due (pd_timeout_ms p) (pd_next_tx_ms p) times →
  zlen times = pd_retries_left p + 1 →
  (slot_run times p).2 = replicate (Z.to_nat (pd_retries_left p)) (Resend (pd_frame p)) ++ [GaveUp].
Proof.
  intros Hu Hr Hd. revert Hu Hr. remember (pd_timeout_ms p) as to eqn:Hto.
  remember (pd_next_tx_ms p) as d eqn:Hdl. revert p Hto Hdl.
  induction Hd as [d|d t ts Hdue Hd IH]; intros p Hto Hdl Hu Hr Hlen.
  { rewrite zlen_nil in Hlen. unfold is_u8 in Hr. lia. }
  rewrite zlen_cons in Hlen. cbn [slot_run]. unfold tick_slot. rewrite Hu. cbn [negb].
  unfold due in Hdue. rewrite <- Hdl. apply Z.leb_le in Hdue.
  rewrite (proj2 (Z.ltb_ge _ _)) by done.
  destruct (Z.eqb_spec (pd_retries_left p) 0) as [Hz|Hz].
  { rewrite Hz. destruct ts; [done|]. rewrite zlen_cons in Hlen.
    pose proof (zlen_nonneg ts). lia. }
  set (p1 := mkPending true _ _ _ _ _ _).
  assert (u8 (pd_retries_left p - 1) = pd_retries_left p - 1) as Hu8 by zlia.
  specialize (IH p1 Hto ltac:(by rewrite Hto) eq_refl (u8_range _)). cbn [pd_retries_left p1] in IH.
  rewrite Hu8 in IH. specialize (IH ltac:(lia)).
  destruct (slot_run ts p1) as [p' os]. cbn [snd] in *. rewrite IH.
  replace (Z.to_nat (pd_retries_left p)) with (S (Z.to_nat (pd_retries_left p - 1)))
    by (unfold is_u8 in Hr; lia).
  done.
Qed.

Lemma track_slot seq nh frame now timeout retries a a' :
  arq_track seq nh frame now timeout retries a = (a', true) →
  ∃ i, find_index (λ p, negb (pd_used p)) (arq_slots a) = Some i ∧
    arq_slots a' = <[i := mkPending true seq nh retries (u32 (now + timeout)) timeout frame]> (arq_slots a) ∧
    arq_slots a' !! i = Some (mkPending true seq nh retries (u32 (now + timeout)) timeout frame) ∧
    zlen frame <= ARQ_FRAME_MAX.
Proof.
  unfold arq_track. destruct (Z.ltb_spec ARQ_FRAME_MAX (zlen frame)); [done|].
  destruct (find_index _ _) as [i|] eqn:Hi; [|done]. intros [= <-]. exists i. simpl.
  split; [done|]. split; [done|]. split; [|done].
  apply list_lookup_insert_eq. by eapply find_index_lt.
Qed.

(** C32: retransmission is bounded and ends. A tracked frame whose ACK
    never comes is resent unchanged, at most [max_retries] times however often
    [tick] runs; and if [tick] is called once per timeout, then after exactly
    [max_retries] retransmissions and one more tick the frame is given up and
    its slot is free again. Nothing else is ever sent from the slot. *)
Theorem arq_lifecycle (a a' : LinkArq) (seq : Z) (nh : NodeId) (frame : bytes)
    (now timeout retries : Z) (times : list Z) (Hr : is_u8 retries)
    (Ht : arq_track seq nh frame now timeout retries a = (a', true)) :
  ∃ i p os, arq_slots (arq_run times a') !! i = Some p ∧
    slot_run times (mkPending true seq nh retries (u32 (now + timeout)) timeout frame) = (p, os) ∧
    (∀ f, Resend f ∈ os → f = frame) ∧
    count_if is_resend os <= retries ∧ count_if gave_up os <= 1 ∧
    (ticks_due timeout (u32 (now + timeout)) times → zlen times = retries + 1 →
      os = replicate (Z.to_nat retries) (Resend frame) ++ [GaveUp] ∧ pd_used p = false).
Proof.
  apply track_slot in Ht as (i & _ & _ & Hi & _).
  set (p0 := mkPending true seq nh retries _ _ _) in *.
  pose proof (arq_run_slot times a' i p0 Hi) as Hrun.
  pose proof (slot_run_budget times p0 Hr) as Hb.
  pose proof (slot_run_complete times p0 eq_refl Hr) as Hc.
  destruct (slot_run times p0) as [p os]. destruct Hb as (H1 & H2 & H3 & H4 & H5). simpl in *.
  exists i, p, os. split; [done|]. split; [done|]. split; [done|].
  split; [|split; [done|]].
  - unfold is_u8 in H5. lia.
  - intros Hd Hl. rewrite (Hc Hd Hl). split; [done|]. rewrite H4 by done. rewrite (Hc Hd Hl).
    apply Z.eqb_neq. clear. induction (Z.to_nat retries) as [|n IH]; simpl; lia.
Qed.

Example arq_lifecycle_witness :
  is_u8 2 ∧
  ∃ i p os, arq_slots (arq_run [5100; 10100; 15100]
      (arq_track 1 (nid_from_u32 2) [1; 2; 3] 100 ARQ_TIMEOUT_MS 2 LinkArq_init).1) !! i = Some p ∧
    os = [Resend [1; 2; 3]; Resend [1; 2; 3]; GaveUp] ∧ pd_used p = false.
Proof.
  split; [zlia|].
  destruct (arq_lifecycle LinkArq_init
    (arq_track 1 (nid_from_u32 2) [1; 2; 3] 100 ARQ_TIMEOUT_MS 2 LinkArq_init).1
    1 (nid_from_u32 2) [1; 2; 3] 100 ARQ_TIMEOUT_MS 2 [5100; 10100; 15100])
    as (i & p & os & H1 & _ & _ & _ & _ & H2).
  - zlia.
  - by vm_compute.
  - exists i, p, os. split; [done|]. apply H2; [|done].
    repeat (apply due_cons; [by vm_compute|]). apply due_nil.
Defined.

(** ** Accounting *)

Inductive arq_event :=
  | ArqTrack (seq : Z) (nh : NodeId) (frame : bytes) (now timeout retries : Z)
  | ArqAck (seq : Z)
  | ArqTick (now : Z).

(** The state after the event, and how many frames it started tracking. *)
Definition arq_step (a : LinkArq) (e : arq_event) : LinkArq * Z :=
  match e with
  | ArqTrack seq nh frame now timeout retries =>
      let '(a, ok) := arq_track seq nh frame now timeout retries a in (a, if ok then 1 else 0)
  | ArqAck seq => ((on_ack seq a).1, 0)
  | ArqTick now => ((arq_tick now a).1.1, 0)
  end.
Fixpoint arq_steps (es : list arq_event) (a : LinkArq) : LinkArq * Z :=
  match es with
  | [] => (a, 0)
  | e :: es => let '(a, n) := arq_step a e in let '(a, m) := arq_steps es a in (a, n + m)
  end.

Definition arq_total (a : LinkArq) : Z := pending_count a + arq_acked a + arq_dropped a.

Lemma count_tick now l :
  count_if pd_used (fst <$> (tick_slot now <$> l)) + count_if gave_up (snd <$> (tick_slot now <$> l))
  = count_if pd_used l.
Proof.
  induction l as [|p l IH]; [done|]. rewrite !fmap_cons. cbn [count_if].
  assert ((if pd_used (tick_slot now p).1 then 1 else 0)
    + (if gave_up (tick_slot now p).2 then 1 else 0) = if pd_used p then 1 else 0); [|lia].
  unfold tick_slot. destruct (pd_used p) eqn:Hu; simpl; [|by rewrite Hu].
  destruct (i32 _ <? 0); simpl; [by rewrite Hu|]. by destruct (pd_retries_left p =? 0).
Qed.

Lemma arq_step_total a e : let '(a', n) := arq_step a e in
  u32 (arq_total a') = u32 (arq_total a + n).
Proof.
  destruct e as [seq nh frame now timeout retries|seq|now]; simpl.
  - unfold arq_track. destruct (ARQ_FRAME_MAX <? zlen frame); [f_equal; lia|].
    destruct (find_index _ _) as [i|] eqn:Hi; [|f_equal; lia].
    apply find_index_lookup in Hi as (p & Hp & Hu%negb_true_iff).
    unfold arq_total, pending_count. simpl.
    rewrite (count_if_insert _ _ _ p) by done. rewrite Hu. simpl. f_equal; lia.
  - unfold on_ack. destruct (find_index _ _) as [i|] eqn:Hi; [|f_equal; simpl; lia].
    apply find_index_lookup in Hi as (p & Hp & [Hu _]%andb_true_iff).
    unfold arq_total, pending_count. simpl.
    rewrite (alter_insert _ _ _ _ Hp), (count_if_insert _ _ _ p) by done. rewrite Hu. simpl. zlia.
  - unfold arq_total, pending_count. simpl.
    pose proof (count_tick now (arq_slots a)). zlia.
Qed.

(** No frame vanishes. Over any sequence of tracked sends, ACKs
    (matched, duplicate or foreign) and ticks, every frame ever tracked is
    accounted for: it is still pending, or was counted as acknowledged, or was
    counted as dropped (the counters being 32-bit). *)
Theorem arq_accounting (es : list arq_event) (a : LinkArq) :
  let '(a', tracked) := arq_steps es a in
  u32 (arq_total a') = u32 (arq_total a + tracked).
Proof.
  revert a. induction es as [|e es IH]; intros a; simpl; [f_equal; lia|].
  pose proof (arq_step_total a e) as He. destruct (arq_step a e) as [a1 n].
  specialize (IH a1). destruct (arq_steps es a1) as [a2 m]. zlia.
Qed.
