(* ===== verification/Packet.v ===== *)
(** include/packet.h and lib/mesh/version_stats.h: the two stacked headers of a
    frame, and the foreign-version counter. *)
From S2P Require Import Prelude Reader MeshTypes.

Definition LINK_ADDR_NONE : Z := 0.
Definition LINK_ADDR_BROADCAST : Z := 255.
Definition PROTO_VERSION : Z := 2.

(** enum PacketType *)
Definition PKT_DATA : Z := 0.
Definition PKT_CONTROL : Z := 1.
Definition PKT_ACK : Z := 2.
Definition PKT_BEACON : Z := 3.
Definition PKT_LOC : Z := 4.
Definition PKT_TELEM : Z := 5.

Definition NET_FLAG_ACK_REQ : Z := 1.
Definition LINK_FLAG_ACK_REQ : Z := 1.
Definition LINK_FLAG_IS_ACK : Z := 2.

Record LinkHeader := mkLink { lh_prev_hop : Z; lh_next_hop : Z; lh_link_seq : Z; lh_flags : Z }.
Record NetHeader := mkNet {
  nh_ver_type : Z; nh_flags : Z; nh_ttl : Z; nh_dst : NodeId; nh_src : NodeId; nh_pkt_id : Z }.

Definition DEFAULT_TTL : Z := 16.
Definition MAX_PAYLOAD : Z := 255.
Definition HEADER_BYTES : Z := 41.

Record BeaconPayload := mkBeacon { bp_hw_class : Z; bp_batt_pct_plus1 : Z; bp_uptime_s : Z }.

Definition net_ver_type (t : Z) : Z := u8 (Z.lor (Z.shiftl PROTO_VERSION 4) (Z.land t 15)).
Definition net_type_of (ver_type : Z) : Z := Z.land ver_type 15.
Definition net_ver_of (ver_type : Z) : Z := u8 (Z.shiftr ver_type 4).

(** The packed structs as the bytes memcpy moves (little-endian, no padding). *)
Definition link_bytes (l : LinkHeader) : bytes :=
  [lh_prev_hop l; lh_next_hop l; lh_link_seq l; lh_flags l].
Definition net_bytes (n : NetHeader) : bytes :=
  [nh_ver_type n; nh_flags n; nh_ttl n] ++ nid_write (nh_dst n) ++ nid_write (nh_src n)
    ++ put_u16 (nh_pkt_id n).
Definition beacon_bytes (b : BeaconPayload) : bytes :=
  [bp_hw_class b; bp_batt_pct_plus1 b] ++ put_u16 (bp_uptime_s b).

Definition link_read (b : bytes) (i : Z) : res LinkHeader :=
  p ← rd b i; n ← rd b (i + 1); s ← rd b (i + 2); f ← rd b (i + 3); Ok (mkLink p n s f).
Definition net_read (b : bytes) (i : Z) : res NetHeader :=
  v ← rd b i; f ← rd b (i + 1); t ← rd b (i + 2);
  dst ← nid_read b (i + 3); src ← nid_read b (i + 19); id ← rd_u16 b (i + 35);
  Ok (mkNet v f t dst src id).
Definition beacon_read (b : bytes) (i : Z) : res BeaconPayload :=
  h ← rd b i; p ← rd b (i + 1); u ← rd_u16 b (i + 2); Ok (mkBeacon h p u).

(** ** VersionStats *)

Record VersionStats := mkVS { vs_drops : Z; vs_last_ver : Z }.
Definition VersionStats_init : VersionStats := mkVS 0 255.
Definition on_foreign (ver : Z) (s : VersionStats) : VersionStats := mkVS (u32 (vs_drops s + 1)) ver.
Definition vs_any (s : VersionStats) : bool := 0 <? vs_drops s.

(** ** Facts *)

Definition wf_link (l : LinkHeader) : Prop :=
  is_u8 (lh_prev_hop l) ∧ is_u8 (lh_next_hop l) ∧ is_u8 (lh_link_seq l) ∧ is_u8 (lh_flags l).
Definition wf_net (n : NetHeader) : Prop :=
  is_u8 (nh_ver_type n) ∧ is_u8 (nh_flags n) ∧ is_u8 (nh_ttl n) ∧
  wf_nid (nh_dst n) ∧ wf_nid (nh_src n) ∧ is_u16 (nh_pkt_id n).

Lemma net_ver_type_parts t : 0 <= t < 16 →
  net_type_of (net_ver_type t) = t ∧ net_ver_of (net_ver_type t) = PROTO_VERSION.
Proof.
  intros Ht. assert (t = 0 ∨ t = 1 ∨ t = 2 ∨ t = 3 ∨ t = 4 ∨ t = 5 ∨ t = 6 ∨ t = 7 ∨ t = 8 ∨
    t = 9 ∨ t = 10 ∨ t = 11 ∨ t = 12 ∨ t = 13 ∨ t = 14 ∨ t = 15) as Hc by lia.
  by repeat destruct Hc as [->|Hc]; [..|subst t].
Qed.

Lemma zlen_link_bytes l : zlen (link_bytes l) = 4.
Proof. done. Qed.
Lemma zlen_net_bytes n : wf_nid (nh_dst n) → wf_nid (nh_src n) → zlen (net_bytes n) = 37.
Proof. intros [H _] [H' _]. unfold net_bytes, nid_write. by rewrite !zlen_app, H, H'. Qed.

Lemma wf_link_bytes l : wf_link l → wf_bytes (link_bytes l).
Proof. intros (? & ? & ? & ?). by each. Qed.
Lemma wf_net_bytes n : wf_net n → wf_bytes (net_bytes n).
Proof.
  intros (? & ? & ? & ? & ? & ?). apply Forall_app. split; [by each|].
  apply Forall_app. split; [by apply wf_nid_write|].
  apply Forall_app. split; [by apply wf_nid_write|]. apply wf_put_u16.
Qed.

Lemma safe_link_read b i (Q : LinkHeader → Prop) : wf_bytes b → 0 <= i → i + 4 <= zlen b →
  (∀ l, wf_link l → Q l) → safe (link_read b i) Q.
Proof. intros Hb Hi Hl HQ. unfold link_read. repeat (safe_step; try lia). by apply HQ. Qed.

Lemma safe_net_read b i (Q : NetHeader → Prop) : wf_bytes b → 0 <= i → i + 37 <= zlen b →
  (∀ n, wf_net n → Q n) → safe (net_read b i) Q.
Proof.
  intros Hb Hi Hl HQ. unfold net_read. do 6 (safe_step; try lia).
  apply safe_bind, safe_nid_read; [done|lia|lia|intros ? ?].
  apply safe_bind, safe_nid_read; [done|lia|lia|intros ? ?].
  repeat (safe_step; try lia). by apply HQ.
Qed.

Lemma at_link_read b i l r : at_ b i (link_bytes l ++ r) → link_read b i = Ok l.
Proof.
  intros H. unfold link_read. simpl in H. rewrite (at_rd _ _ _ _ H). cbn [mbind res_bind].
  apply at_next in H. rewrite (at_rd _ _ _ _ H). cbn [mbind res_bind].
  apply at_next in H. replace (i + 1 + 1) with (i + 2) in H by lia.
  rewrite (at_rd _ _ _ _ H). cbn [mbind res_bind].
  apply at_next in H. replace (i + 2 + 1) with (i + 3) in H by lia.
  rewrite (at_rd _ _ _ _ H). by destruct l.
Qed.

Lemma at_net_read b i n r : wf_net n → at_ b i (net_bytes n ++ r) → net_read b i = Ok n.
Proof.
  intros (Hv & Hf & Ht & Hd & Hs & Hp) H. unfold net_read, net_bytes in *.
  rewrite <- !app_assoc in H. simpl in H.
  rewrite (at_rd _ _ _ _ H). cbn [mbind res_bind].
  apply at_next in H. rewrite (at_rd _ _ _ _ H). cbn [mbind res_bind].
  apply at_next in H. replace (i + 1 + 1) with (i + 2) in H by lia.
  rewrite (at_rd _ _ _ _ H). cbn [mbind res_bind].
  apply at_next in H. replace (i + 2 + 1) with (i + 3) in H by lia.
  rewrite (at_nid_read _ _ _ _ Hd H). cbn [mbind res_bind].
  apply (at_move _ _ (i + 19)) in H; [|rewrite zlen_nid_write by done; lia].
  rewrite (at_nid_read _ _ _ _ Hs H). cbn [mbind res_bind].
  apply (at_move _ _ (i + 35)) in H; [|rewrite zlen_nid_write by done; lia].
  rewrite (at_rd_u16 _ _ _ _ H) by done. by destruct n.
Qed.

(** Fields a beacon and a relay never change: the headers a frame is built from
    are the headers it is parsed into. *)
Lemma frame_headers_roundtrip l n payload : wf_net n →
  link_read (link_bytes l ++ net_bytes n ++ payload) 0 = Ok l ∧
  net_read (link_bytes l ++ net_bytes n ++ payload) 4 = Ok n.
Proof.
  intros Hn. pose proof (at_start (link_bytes l ++ net_bytes n ++ payload)) as H.
  split; [by eapply at_link_read|].
  eapply at_net_read; [done|]. eapply at_move; [exact H|done].
Qed.
