(* ===== verification/Kiss.v ===== *)
(** lib/mesh/kiss.h: KISS framing. *)
From S2P Require Import Prelude.

Definition KISS_FEND : Z := 192.
Definition KISS_FESC : Z := 219.
Definition KISS_TFEND : Z := 220.
Definition KISS_TFESC : Z := 221.
Definition KISS_CMD_DATA : Z := 0.
Definition KISS_CMD_RETURN : Z := 255.
Definition KISS_MAX_FRAME : Z := 1 + 800.

(** ** Encoder *)

(** The stuffing loop from output position [n] on. *)
Fixpoint kiss_stuff (l : bytes) (n cap : Z) : option bytes :=
  match l with
  | [] => Some []
  | b :: l =>
      if b =? KISS_FEND then
        if cap <? n + 3 then None else
        (λ r, KISS_FESC :: KISS_TFEND :: r) <$> kiss_stuff l (n + 2) cap
      else if b =? KISS_FESC then
        if cap <? n + 3 then None else
        (λ r, KISS_FESC :: KISS_TFESC :: r) <$> kiss_stuff l (n + 2) cap
      else
        if cap <? n + 2 then None else (λ r, b :: r) <$> kiss_stuff l (n + 1) cap
  end.

(** [None]: the code returns 0. *)
Definition kiss_encode (cmd : Z) (input : bytes) (cap : Z) : option bytes :=
  if cap <? 4 then None else
  (λ body, KISS_FEND :: body ++ [KISS_FEND]) <$> kiss_stuff (cmd :: input) 1 cap.

(** ** Decoder *)

Record KissDecoder := mkKiss {
  kd_buf : bytes;      (* all KISS_MAX_FRAME cells *)
  kd_n : Z;
  kd_ready : Z;
  kd_in : bool;
  kd_esc : bool }.

Definition KissDecoder_init : KissDecoder := mkKiss (replicate 801 0) 0 0 false false.

Definition kiss_feed (b : Z) (d : KissDecoder) : KissDecoder * bool :=
  if b =? KISS_FEND then
    if kd_in d && (0 <? kd_n d) then (mkKiss (kd_buf d) 0 (kd_n d) false false, true)
    else (mkKiss (kd_buf d) 0 (kd_ready d) true false, false)
  else if negb (kd_in d) then (d, false) else
  let push v esc :=
    if kd_n d <? KISS_MAX_FRAME
    then mkKiss (<[Z.to_nat (kd_n d) := v]> (kd_buf d)) (u16 (kd_n d + 1)) (kd_ready d) true esc
    else mkKiss (kd_buf d) 0 (kd_ready d) false esc in
  if kd_esc d then
    (push (if b =? KISS_TFEND then KISS_FEND else if b =? KISS_TFESC then KISS_FESC else b) false,
     false)
  else if b =? KISS_FESC then
    (mkKiss (kd_buf d) (kd_n d) (kd_ready d) (kd_in d) true, false)
  else (push b false, false).

Definition kiss_frame (d : KissDecoder) : bytes := take (Z.to_nat (kd_ready d)) (kd_buf d).

(** The receive loop: feed every byte, collecting each frame as it completes. *)
Fixpoint kiss_feed_all (l : bytes) (d : KissDecoder) : KissDecoder * list bytes :=
  match l with
  | [] => (d, [])
  | b :: l =>
      let '(d, ready) := kiss_feed b d in
      let '(d', fs) := kiss_feed_all l d in
      (d', if ready then kiss_frame d :: fs else fs)
  end.

(** ** Decoding inverts encoding *)

Record kd_ok (d : KissDecoder) : Prop := {
  kd_len : length (kd_buf d) = 801%nat;
  kd_bound : 0 <= kd_n d <= KISS_MAX_FRAME }.

(** Between frames: the next FEND opens one. *)
Definition kd_idle (d : KissDecoder) : Prop := kd_in d = false ∨ kd_n d = 0.

Lemma kiss_init_ok : kd_ok KissDecoder_init ∧ kd_idle KissDecoder_init.
Proof. split; [split; [done|unfold KISS_MAX_FRAME; simpl; lia]|by left]. Qed.

Lemma kiss_feed_ok b d : kd_ok d → kd_ok (kiss_feed b d).1.
Proof.
  intros [Hl Hn]. unfold kiss_feed, KISS_MAX_FRAME in *.
  repeat case_match; split; simpl; rewrite ?length_insert; unfold KISS_MAX_FRAME in *;
    repeat match goal with H : (_ <? _) = true |- _ => apply Z.ltb_lt in H end;
    try done; zlia.
Qed.

Lemma kiss_feed_all_app l k d :
  kiss_feed_all (l ++ k) d =
  let '(d1, f1) := kiss_feed_all l d in
  let '(d2, f2) := kiss_feed_all k d1 in (d2, f1 ++ f2).
Proof.
  revert d. induction l as [|b l IH]; intros d; simpl.
  { by destruct (kiss_feed_all k d). }
  destruct (kiss_feed b d) as [d' r]. rewrite IH.
  destruct (kiss_feed_all l d') as [d1 f1]. destruct (kiss_feed_all k d1) as [d2 f2].
  by destruct r.
Qed.

(** A decoder inside a frame whose first bytes are [acc]. *)
Definition kd_holds (acc : bytes) (d : KissDecoder) : Prop :=
  kd_ok d ∧ kd_in d = true ∧ kd_esc d = false ∧ kd_n d = zlen acc ∧
  take (length acc) (kd_buf d) = acc.

Lemma kd_push acc d v : kd_holds acc d → zlen acc < KISS_MAX_FRAME →
  kd_holds (acc ++ [v])
    (mkKiss (<[Z.to_nat (kd_n d) := v]> (kd_buf d)) (u16 (kd_n d + 1)) (kd_ready d) true false).
Proof.
  intros ([Hl Hb] & Hi & He & Hn & Ht) Hlt. unfold KISS_MAX_FRAME in *.
  pose proof (zlen_nonneg acc). split; [split; simpl|].
  - by rewrite length_insert.
  - unfold KISS_MAX_FRAME. zlia.
  - simpl. split; [done|]. split; [done|].
    rewrite Hn, to_nat_zlen, zlen_app, zlen_cons, zlen_nil. split; [zlia|].
    rewrite length_app. simpl. rewrite Nat.add_1_r, (take_S_r _ _ v).
    + by rewrite take_insert_ge, Ht by lia.
    + apply list_lookup_insert_eq. unfold zlen in Hlt. lia.
Qed.

(** One input byte, possibly stuffed, appended to the open frame. *)
Definition kd_pushed (v : Z) (d : KissDecoder) : KissDecoder :=
  mkKiss (<[Z.to_nat (kd_n d) := v]> (kd_buf d)) (u16 (kd_n d + 1)) (kd_ready d) true false.

Lemma kiss_feed_plain b d : kd_in d = true → kd_esc d = false → kd_n d < KISS_MAX_FRAME →
  b ≠ KISS_FEND → b ≠ KISS_FESC → kiss_feed b d = (kd_pushed b d, false).
Proof.
  intros Hi He Hn%Z.ltb_lt Hf%Z.eqb_neq Hs%Z.eqb_neq. unfold kiss_feed.
  by rewrite Hf, Hi, He, Hs, Hn.
Qed.

Lemma kiss_feed_escaped b v d fs r : kd_in d = true → kd_esc d = false → kd_n d < KISS_MAX_FRAME →
  (b = KISS_TFEND ∧ v = KISS_FEND ∨ b = KISS_TFESC ∧ v = KISS_FESC) →
  kiss_feed_all r (kd_pushed v d) = fs → kiss_feed_all (KISS_FESC :: b :: r) d = fs.
Proof.
  intros Hi He Hn%Z.ltb_lt Hb <-. cbn [kiss_feed_all].
  assert (kiss_feed KISS_FESC d = (mkKiss (kd_buf d) (kd_n d) (kd_ready d) true true, false)) as ->
    by (unfold kiss_feed; by rewrite Hi, He).
  assert (kiss_feed b (mkKiss (kd_buf d) (kd_n d) (kd_ready d) true true) = (kd_pushed v d, false)) as ->.
  { unfold kiss_feed. destruct Hb as [[-> ->]|[-> ->]]; cbn; by rewrite Hn. }
  by destruct (kiss_feed_all r (kd_pushed v d)).
Qed.

Lemma kiss_stuff_decode l n cap body acc d : kiss_stuff l n cap = Some body →
  kd_holds acc d → zlen acc + zlen l <= KISS_MAX_FRAME →
  ∃ d', kiss_feed_all body d = (d', []) ∧ kd_holds (acc ++ l) d'.
Proof.
  revert n body acc d. induction l as [|b l IH]; intros n body acc d; simpl.
  { intros [= <-] Hd _. exists d. by rewrite app_nil_r. }
  rewrite zlen_cons. intros Hs Hd Hlen. pose proof (zlen_nonneg l).
  assert (zlen acc < KISS_MAX_FRAME) as Hlt by lia.
  pose proof Hd as (Hok & Hi & He & Hn & _).
  pose proof (kd_push acc d b Hd Hlt) as Hp.
  replace (acc ++ b :: l) with ((acc ++ [b]) ++ l) by (by rewrite <- app_assoc).
  assert (zlen (acc ++ [b]) + zlen l <= KISS_MAX_FRAME) as Hl'
    by (rewrite zlen_app, zlen_cons, zlen_nil; lia).
  destruct (Z.eqb_spec b KISS_FEND) as [->|Hf]; [|destruct (Z.eqb_spec b KISS_FESC) as [->|Hs']].
  - destruct (cap <? n + 3); [done|].
    destruct (kiss_stuff l (n + 2) cap) as [r|] eqn:Hr; [|done]. injection Hs as <-.
    destruct (IH _ _ _ _ Hr Hp Hl') as (d' & Hd' & Hh). exists d'. split; [|done].
    eapply kiss_feed_escaped; [done|done|lia|by left|done].
  - destruct (cap <? n + 3); [done|].
    destruct (kiss_stuff l (n + 2) cap) as [r|] eqn:Hr; [|done]. injection Hs as <-.
    destruct (IH _ _ _ _ Hr Hp Hl') as (d' & Hd' & Hh). exists d'. split; [|done].
    eapply kiss_feed_escaped; [done|done|lia|by right|done].
  - destruct (cap <? n + 2); [done|].
    destruct (kiss_stuff l (n + 1) cap) as [r|] eqn:Hr; [|done]. injection Hs as <-.
    destruct (IH _ _ _ _ Hr Hp Hl') as (d' & Hd' & Hh). exists d'. split; [|done].
    cbn [kiss_feed_all]. rewrite kiss_feed_plain by (done || lia).
    unfold kd_pushed. by rewrite Hd'.
Qed.

(** Two output bytes per input byte, and the closing FEND, always suffice. *)
Lemma kiss_stuff_total l n cap : n + 2 * zlen l + 1 <= cap → is_Some (kiss_stuff l n cap).
Proof.
  revert n. induction l as [|b l IH]; intros n Hn; simpl; [eauto|]. rewrite zlen_cons in Hn.
  pose proof (zlen_nonneg l).
  destruct (b =? KISS_FEND); [|destruct (b =? KISS_FESC)];
    (case_match; bools; [lia|]; apply fmap_is_Some, IH; lia).
Qed.

(** What is written stays within the capacity. *)
Lemma kiss_stuff_fits l n cap body : kiss_stuff l n cap = Some body → n + 1 <= cap → n + zlen body + 1 <= cap.
Proof.
  revert n body. induction l as [|b l IH]; intros n body; simpl; [intros [= <-]; rewrite zlen_nil; lia|].
  destruct (b =? KISS_FEND); [|destruct (b =? KISS_FESC)];
    (case_match; [done|]; bools; intros (r & Hr & ->)%fmap_Some _; apply IH in Hr; [|lia]; rewrite !zlen_cons; lia).
Qed.
Lemma kiss_encode_fits cmd payload cap enc : kiss_encode cmd payload cap = Some enc → zlen enc <= cap.
Proof.
  unfold kiss_encode. destruct (Z.ltb_spec cap 4); [done|]. intros (body & Hb & ->)%fmap_Some.
  apply kiss_stuff_fits in Hb; [|lia]. rewrite zlen_cons, zlen_app, zlen_cons, zlen_nil. lia.
Qed.

Lemma kiss_frame_decode cmd payload cap enc d : kiss_encode cmd payload cap = Some enc →
  zlen payload <= 800 → kd_ok d → kd_idle d →
  ∃ d', kiss_feed_all enc d = (d', [cmd :: payload]) ∧ kd_ok d' ∧ kd_in d' = false ∧
    kd_ready d' = 1 + zlen payload ∧ kiss_frame d' = cmd :: payload.
Proof.
  unfold kiss_encode. destruct (cap <? 4); [done|].
  destruct (kiss_stuff (cmd :: payload) 1 cap) as [body|] eqn:Hb; [|done].
  intros [= <-] Hlen Hok Hidle.
  set (d0 := mkKiss (kd_buf d) 0 (kd_ready d) true false).
  assert (kiss_feed KISS_FEND d = (d0, false)) as Hopen.
  { unfold kiss_feed. simpl. destruct Hidle as [-> | ->]; simpl; [done|]. by rewrite andb_false_r. }
  assert (kd_holds [] d0) as H0.
  { split; [|done]. split; [apply Hok|]. simpl. unfold KISS_MAX_FRAME. lia. }
  destruct (kiss_stuff_decode _ _ _ _ _ _ Hb H0) as (d1 & Hd1 & Hok1 & Hi1 & He1 & Hn1 & Ht1).
  { rewrite zlen_cons, zlen_nil. unfold KISS_MAX_FRAME. lia. }
  exists (mkKiss (kd_buf d1) 0 (kd_n d1) false false).
  cbn [kiss_feed_all]. rewrite Hopen, kiss_feed_all_app, Hd1. cbn [kiss_feed_all].
  assert (kiss_feed KISS_FEND d1 = (mkKiss (kd_buf d1) 0 (kd_n d1) false false, true)) as ->.
  { unfold kiss_feed. simpl. rewrite Hi1, Hn1, (proj2 (Z.ltb_lt _ _)); [done|].
    simpl. rewrite zlen_cons. pose proof (zlen_nonneg payload). lia. }
  set (d2 := mkKiss _ _ _ _ _).
  assert (kiss_frame d2 = cmd :: payload) as Hfr.
  { unfold kiss_frame, d2. cbn [kd_ready kd_buf]. rewrite Hn1, to_nat_zlen.
    change ([] ++ cmd :: payload) with (cmd :: payload) in Ht1 |- *. by rewrite Ht1. }
  rewrite Hfr. split; [done|]. split; [split; [apply Hok1|]; simpl; unfold KISS_MAX_FRAME; lia|].
  split; [done|]. split; [|done]. simpl. rewrite Hn1. by rewrite zlen_app, zlen_cons, zlen_nil.
Qed.

(** Bytes outside frames are skipped. *)
Lemma kiss_noise l d : Forall (λ b, b ≠ KISS_FEND) l → kd_in d = false →
  kiss_feed_all l d = (d, []).
Proof.
  intros Hl Hi. induction Hl as [|b l Hb _ IH]; simpl; [done|].
  unfold kiss_feed. rewrite (proj2 (Z.eqb_neq _ _)) by done. rewrite Hi. simpl. by rewrite IH.
Qed.

(** KISS framing is transparent. Feeding the decoder, from its initial
    state, any console stream made of encoded frames (any command byte, any
    payload of at most 800 bytes, special values included) with arbitrary
    non-FEND text before, between and after them delivers exactly those frames
    in order, with no byte changed, lost or invented. *)
Theorem kiss_stream_roundtrip (chunks : list (bytes * (Z * bytes) * bytes)) (last : bytes)
    (Hchunks : Forall (λ '(noise, (cmd, payload), enc),
       Forall (λ b, b ≠ KISS_FEND) noise ∧ zlen payload <= 800 ∧
       ∃ cap, kiss_encode cmd payload cap = Some enc) chunks)
    (Hlast : Forall (λ b, b ≠ KISS_FEND) last) :
  (kiss_feed_all (flat_map (λ '(noise, _, enc), noise ++ enc) chunks ++ last) KissDecoder_init).2 =
  (λ '(_, (cmd, payload), _), cmd :: payload) <$> chunks.
Proof.
  assert (∀ d, kd_ok d → kd_in d = false →
    (kiss_feed_all (flat_map (λ '(noise, _, enc), noise ++ enc) chunks ++ last) d).2 =
    (λ '(_, (cmd, payload), _), cmd :: payload) <$> chunks) as H; [|by apply H].
  induction Hchunks as [|[[noise [cmd payload]] enc] chunks (Hn & Hl & cap & He) _ IH];
    intros d Hok Hi; simpl.
  { by rewrite kiss_noise. }
  rewrite <- !app_assoc, kiss_feed_all_app, kiss_noise, kiss_feed_all_app by done.
  destruct (kiss_frame_decode _ _ _ _ d He Hl Hok (or_introl Hi)) as (d' & -> & Hok' & Hi' & _).
  specialize (IH d' Hok' Hi'). destruct (kiss_feed_all _ d') as [d2 fs]. simpl in *. by rewrite IH.
Qed.

Example kiss_stream_roundtrip_witness :
  kiss_encode 0 [192; 219; 7] 20 = Some [192; 0; 219; 220; 219; 221; 7; 192] ∧
  (kiss_feed_all [65; 66; 192; 0; 219; 220; 219; 221; 7; 192; 10] KissDecoder_init).2 =
    [[0; 192; 219; 7]].
Proof.
  split; [done|].
  apply (kiss_stream_roundtrip [([65; 66], (0, [192; 219; 7]), [192; 0; 219; 220; 219; 221; 7; 192])] [10]).
  - each. split; [by each|]. split; [by vm_compute|]. by exists 20.
  - by each.
Defined.

(** The decoder wants a FEND of its own on each side: when two frames share
    one FEND, as KISS allows, the second is lost. *)
Lemma kiss_shared_fend :
  (kiss_feed_all [192; 0; 1; 192; 0; 2; 192] KissDecoder_init).2 = [[0; 1]].
Proof. by vm_compute. Qed.
