(* ===== verification/Sar.v ===== *)
(** lib/mesh/sar.{h,cpp}: segmentation and reassembly of payloads larger than
    one frame, and its NACK and DONE messages. *)
From S2P Require Import Prelude Reader SlotTable.

Definition SAR_HDR_BYTES : Z := 18.
Definition SAR_CHUNK : Z := 160.
Definition SAR_MAX_FILE : Z := 8192.
Definition SAR_MAX_FRAGS : Z := (SAR_MAX_FILE + SAR_CHUNK - 1) / SAR_CHUNK + 1.
Definition SAR_NACK_HDR : Z := 8.
Definition SAR_DONE_BYTES : Z := 6.

(** "SAR1", "SARN", "SARD" *)
Definition MAGIC : bytes := [83; 65; 82; 49].
Definition NMAGIC : bytes := [83; 65; 82; 78].
Definition DMAGIC : bytes := [83; 65; 82; 68].

(** ** CRC-32 *)

Definition crc_bit (crc : Z) : Z :=
  Z.lxor (Z.shiftr crc 1) (Z.land 3988292384 (u32 (- Z.land crc 1))).
Definition crc_byte (crc x : Z) : Z := Nat.iter 8 crc_bit (Z.lxor crc x).
Definition sar_crc32 (data : bytes) : Z :=
  Z.lxor (fold_left crc_byte data 4294967295) 4294967295.

Definition sar_frag_count (len : Z) : Z := u16 ((len + SAR_CHUNK - 1) / SAR_CHUNK).

(** ** Fragments *)

(** [memcmp(payload, magic, 4) == 0], after the length test. *)
Definition has_magic (magic payload : bytes) : bool := bool_decide (take 4 payload = magic).
Definition sar_is_fragment (payload : bytes) : bool :=
  (SAR_HDR_BYTES <=? zlen payload) && has_magic MAGIC payload.

(** [None]: the code returns 0. *)
Definition sar_build_fragment (blob : bytes) (xfer_id crc idx out_cap : Z) : option bytes :=
  let len := zlen blob in
  let count := sar_frag_count len in
  if count <=? idx then None else
  let off := u32 (idx * SAR_CHUNK) in
  let chunk := if u32 (len - off) <? SAR_CHUNK then u32 (len - off) else SAR_CHUNK in
  if out_cap <? SAR_HDR_BYTES + chunk then None else
  Some (MAGIC ++ put_u16 xfer_id ++ put_u16 idx ++ put_u16 count ++ put_u32 len ++ put_u32 crc
        ++ take (Z.to_nat chunk) (drop (Z.to_nat off) blob)).

(** A fragment that passed every header check. *)
Record Frag := mkFrag {
  fg_xfer : Z; fg_idx : Z; fg_count : Z; fg_tlen : Z; fg_tcrc : Z; fg_off : Z; fg_chunk : bytes }.

(** The checks at the head of [SarReassembler::add]. *)
Definition sar_parse (payload : bytes) : res Frag :=
  let len := zlen payload in
  _ ← guard (sar_is_fragment payload);
  xfer ← rd_u16 payload 4;
  idx ← rd_u16 payload 6;
  count ← rd_u16 payload 8;
  tlen ← rd_u32 payload 10;
  tcrc ← rd_u32 payload 14;
  _ ← guard (negb ((count =? 0) || (SAR_MAX_FRAGS <? count) || (SAR_MAX_FILE <? tlen)
                   || (count <=? idx)));
  _ ← guard (count =? sar_frag_count tlen);
  let off := u32 (idx * SAR_CHUNK) in
  let expect := u16 (if idx =? count - 1 then tlen - off else SAR_CHUNK) in
  let chunk := u16 (len - SAR_HDR_BYTES) in
  _ ← guard (chunk =? expect);
  data ← rdn payload SAR_HDR_BYTES chunk;
  Ok (mkFrag xfer idx count tlen tcrc off data).

(** ** Reassembler *)

Record SarReassembler := mkSar {
  sr_active : bool;
  sr_xfer_id : Z;
  sr_frag_count : Z;
  sr_total_len : Z;
  sr_total_crc : Z;
  sr_got_count : Z;
  sr_got : list bool;
  sr_buf : bytes }.

Definition no_frags : list bool := replicate (Z.to_nat SAR_MAX_FRAGS) false.

Definition SarReassembler_init : SarReassembler :=
  mkSar false 0 0 0 0 0 no_frags (replicate (Z.to_nat SAR_MAX_FILE) 0).

(** The tail of [add]: the bounds check, the copy, the bitmap. *)
Definition sar_store (f : Frag) (s : SarReassembler) : SarReassembler * bool :=
  if SAR_MAX_FILE <? fg_off f + zlen (fg_chunk f) then (s, false) else
  let i := Z.to_nat (fg_idx f) in
  let fresh := match sr_got s !! i with Some false => true | _ => false end in
  (mkSar (sr_active s) (sr_xfer_id s) (sr_frag_count s) (sr_total_len s) (sr_total_crc s)
     (if fresh then u16 (sr_got_count s + 1) else sr_got_count s)
     (<[i := true]> (sr_got s))
     (list_inserts (Z.to_nat (fg_off f)) (fg_chunk f) (sr_buf s)), true).

(** [add] after the header checks: a new transfer resets, a contradicting
    header is refused. *)
Definition sar_accept (f : Frag) (s : SarReassembler) : SarReassembler * bool :=
  if negb (sr_active s) || negb (fg_xfer f =? sr_xfer_id s) then
    sar_store f (mkSar true (fg_xfer f) (fg_count f) (fg_tlen f) (fg_tcrc f) 0 no_frags (sr_buf s))
  else if negb (fg_count f =? sr_frag_count s) || negb (fg_tlen f =? sr_total_len s)
          || negb (fg_tcrc f =? sr_total_crc s) then (s, false)
  else sar_store f s.

(** The cells a stored fragment is written to: [buf_], [got_]. *)
Definition sar_write (f : Frag) : res unit :=
  _ ← wr SAR_MAX_FILE (fg_off f) (zlen (fg_chunk f)); wr SAR_MAX_FRAGS (fg_idx f) 1.

Definition sar_add (payload : bytes) (s : SarReassembler) : res (SarReassembler * bool) :=
  match sar_parse payload with
  | Ok f =>
      let '(s, stored) := sar_accept f s in
      _ ← (if stored then sar_write f else Ok ());
      Ok (s, stored)
  | Rej => Ok (s, false)
  | Oob => Oob
  end.

Definition sar_complete (s : SarReassembler) : bool :=
  sr_active s && (sr_got_count s =? sr_frag_count s).
Definition sar_data (s : SarReassembler) : bytes := take (Z.to_nat (sr_total_len s)) (sr_buf s).
Definition sar_verify (s : SarReassembler) : bool :=
  sar_complete s && (sar_crc32 (sar_data s) =? sr_total_crc s).
Definition sar_reset (s : SarReassembler) : SarReassembler :=
  mkSar false (sr_xfer_id s) (sr_frag_count s) (sr_total_len s) (sr_total_crc s) 0
    (sr_got s) (sr_buf s).

(** The first [cap] indices below [frag_count_] that are not marked. *)
Definition sar_missing (cap : Z) (s : SarReassembler) : list Z :=
  if negb (sr_active s) then [] else
  take (Z.to_nat cap)
    (filter (λ i, sr_got s !! Z.to_nat i = Some false) (seqZ 0 (sr_frag_count s))).

(** ** NACK and DONE *)

Definition sar_is_nack (payload : bytes) : bool :=
  (SAR_NACK_HDR <=? zlen payload) && has_magic NMAGIC payload.

Definition sar_build_nack (xfer_id : Z) (missing : list Z) (out_cap : Z) : option bytes :=
  if out_cap <? SAR_NACK_HDR then None else
  let fit := u16 ((out_cap - SAR_NACK_HDR) / 2) in
  let n := if fit <? zlen missing then fit else zlen missing in
  Some (NMAGIC ++ put_u16 xfer_id ++ put_u16 n ++ flat_map put_u16 (take (Z.to_nat n) missing)).

(** The id and the indices written to [out] (at most [cap]). *)
Definition sar_parse_nack (payload : bytes) (cap : Z) : res (Z * list Z) :=
  _ ← guard (sar_is_nack payload);
  xfer ← rd_u16 payload 4;
  n ← rd_u16 payload 6;
  let n := if zlen payload <? SAR_NACK_HDR + n * 2
           then u16 ((zlen payload - SAR_NACK_HDR) / 2) else n in
  let n := if cap <? n then cap else n in
  l ← parse_n rd_u16 2 (Z.to_nat n) payload SAR_NACK_HDR;
  l ← into cap l;
  Ok (xfer, l).

Definition sar_is_done (payload : bytes) : bool :=
  (SAR_DONE_BYTES <=? zlen payload) && has_magic DMAGIC payload.
Definition sar_build_done (xfer_id out_cap : Z) : option bytes :=
  if out_cap <? SAR_DONE_BYTES then None else Some (DMAGIC ++ put_u16 xfer_id).
Definition sar_parse_done (payload : bytes) : res Z :=
  if negb (sar_is_done payload) then Ok 65535 else rd_u16 payload 4.

(** The check value of the CRC-32 standard, over "123456789". *)
Example sar_crc32_check : sar_crc32 [49; 50; 51; 52; 53; 54; 55; 56; 57] = 3421780262.
Proof. by vm_compute. Qed.

Lemma crc_bit_range c : is_u32 c → is_u32 (crc_bit c).
Proof.
  intros Hc. unfold crc_bit, is_u32 in *. apply (lxor_range _ _ 32); [lia| |].
  - rewrite shiftr_div by lia. zlia.
  - apply land_range; lia.
Qed.

Lemma sar_crc32_range data : wf_bytes data → is_u32 (sar_crc32 data).
Proof.
  intros Hd. unfold sar_crc32. apply (lxor_range _ _ 32); [lia| |lia].
  assert (is_u32 4294967295) as H by zlia. revert H. generalize 4294967295.
  induction Hd as [|x data Hx _ IH]; intros c Hc; simpl; [done|].
  apply IH. unfold crc_byte. simpl. repeat apply crc_bit_range.
  apply (lxor_range _ _ 32); unfold is_u32, is_u8 in *; lia.
Qed.

(** ** Untrusted input *)

Record frag_ok (f : Frag) : Prop := {
  fo_idx : 0 <= fg_idx f < fg_count f;
  fo_count : 1 <= fg_count f <= SAR_MAX_FRAGS;
  fo_tlen : 0 <= fg_tlen f <= SAR_MAX_FILE;
  fo_frags : fg_count f = sar_frag_count (fg_tlen f);
  fo_off : fg_off f = fg_idx f * SAR_CHUNK;
  fo_fit : fg_off f + zlen (fg_chunk f) <= fg_tlen f }.

Lemma sar_parse_safe payload : wf_bytes payload → zlen payload < 65536 →
  safe (sar_parse payload) (λ f, frag_ok f ∧ wf_bytes (fg_chunk f)).
Proof.
  intros Hb Hlen. unfold sar_parse, SAR_HDR_BYTES.
  safe_step. safe_step. assert (18 <= zlen payload) as Hl
    by (unfold sar_is_fragment, SAR_HDR_BYTES in H; bools; done).
  do 10 (safe_step; try lia).
  repeat (safe_step; try lia); bools; subst v1.
  - zlia.
  - unfold SAR_MAX_FRAGS, SAR_MAX_FILE, SAR_CHUNK in *. zlia.
  - split; [|done]. unfold sar_frag_count, SAR_MAX_FILE, SAR_CHUNK, SAR_MAX_FRAGS in *.
    change ((8192 + 160 - 1) / 160 + 1) with 53 in *.
    assert (u32 (v0 * 160) = v0 * 160) as Hoff by (apply u32_small; zlia).
    assert (u16 ((v2 + 160 - 1) / 160) = (v2 + 160 - 1) / 160) as Hc by (apply u16_small; zlia).
    rewrite Hoff, Hc in *.
    split; simpl; try done; try zlia.
    + unfold SAR_MAX_FRAGS, SAR_CHUNK, SAR_MAX_FILE. zlia.
    + unfold SAR_MAX_FILE. zlia.
    + destruct (Z.eqb_spec v0 ((v2 + 160 - 1) / 160 - 1)); zlia.
Qed.

(** A fragment that passed the checks is stored inside the arrays. *)
Lemma sar_write_ok f : frag_ok f → sar_write f = Ok ().
Proof.
  intros [Hi Hc Ht _ Ho Hf]. unfold sar_write. pose proof (zlen_nonneg (fg_chunk f)). unfold SAR_CHUNK in *.
  rewrite !wr_ok; [done|lia..].
Qed.
Lemma sar_add_parsed p f s : sar_parse p = Ok f → frag_ok f → sar_add p s = Ok (sar_accept f s).
Proof.
  intros Hp Hf. unfold sar_add. rewrite Hp. destruct (sar_accept f s) as [s' stored].
  destruct stored; [by rewrite sar_write_ok|done].
Qed.

(** ** Reassembly *)

(** Fragment [i] of [blob]: the last one is shorter. *)
Definition sar_chunk (blob : bytes) (i : Z) : bytes :=
  take 160 (drop (Z.to_nat (i * SAR_CHUNK)) blob).

Lemma frag_count_small len : 0 <= len <= SAR_MAX_FILE →
  sar_frag_count len = (len + 159) / 160 ∧ 0 <= sar_frag_count len <= 52.
Proof.
  unfold sar_frag_count, SAR_CHUNK, SAR_MAX_FILE. intros Hl.
  replace (len + 160 - 1) with (len + 159) by lia.
  assert (0 <= (len + 159) / 160 <= 52) by (Z.div_mod_to_equations; lia).
  rewrite u16_small by zlia. done.
Qed.

Lemma has_magic_app m r : length m = 4%nat → has_magic m (m ++ r) = true.
Proof. intros H. unfold has_magic. apply bool_decide_eq_true. rewrite <- H. apply take_app_length. Qed.

(** Header checks of what [sar_build_fragment] writes. *)
Lemma sar_build_parse blob xfer crc idx cap p : 1 <= zlen blob <= SAR_MAX_FILE →
  is_u16 xfer → is_u32 crc → 0 <= idx →
  sar_build_fragment blob xfer crc idx cap = Some p →
  idx < sar_frag_count (zlen blob) ∧ zlen p <= SAR_HDR_BYTES + SAR_CHUNK ∧ zlen p <= cap ∧
  sar_parse p = Ok (mkFrag xfer idx (sar_frag_count (zlen blob)) (zlen blob) crc
                      (idx * SAR_CHUNK) (sar_chunk blob idx)).
Proof.
  intros Hlen Hx Hc Hi. destruct (frag_count_small (zlen blob)) as [Hn Hn']; [lia|].
  unfold sar_build_fragment. set (n := sar_frag_count (zlen blob)) in *.
  destruct (Z.leb_spec n idx) as [|Hidx]; [done|].
  assert (u32 (idx * SAR_CHUNK) = idx * SAR_CHUNK) as Ho by (unfold SAR_CHUNK; zlia).
  rewrite Ho. unfold SAR_MAX_FILE in Hlen.
  assert (idx * 160 < zlen blob) as Hoff by (Z.div_mod_to_equations; lia).
  set (chunk := if _ <? SAR_CHUNK then _ else _).
  assert (chunk = Z.min 160 (zlen blob - idx * 160)) as Hch.
  { unfold chunk, SAR_CHUNK. rewrite u32_small by zlia. destruct (Z.ltb_spec (zlen blob - idx * 160) 160); lia. }
  clearbody chunk. assert (1 <= chunk <= 160) as Hcb by lia.
  destruct (Z.ltb_spec cap (SAR_HDR_BYTES + chunk)) as [|Hcap]; [done|].
  intros Hp0. apply (inj Some) in Hp0. subst p.
  assert (take (Z.to_nat chunk) (drop (Z.to_nat (idx * SAR_CHUNK)) blob) = sar_chunk blob idx) as Hdat.
  { unfold sar_chunk. destruct (decide (chunk = 160)) as [->|Hne]; [done|].
    rewrite !take_ge; [done| |]; rewrite length_drop; unfold SAR_CHUNK, zlen in *; lia. }
  rewrite Hdat.
  assert (zlen (sar_chunk blob idx) = chunk) as Hzc.
  { unfold sar_chunk, zlen. rewrite length_take, length_drop. unfold SAR_CHUNK, zlen in *. lia. }
  set (p := MAGIC ++ _).
  assert (zlen p = 18 + chunk) as Hp by (unfold p; rewrite !zlen_app, Hzc, !zlen_put_u16, !zlen_put_u32; change (zlen MAGIC) with 4; lia).
  split; [done|]. unfold SAR_HDR_BYTES, SAR_CHUNK in *. split; [lia|]. split; [lia|].
  assert (sar_is_fragment p = true) as Hfrag.
  { apply andb_true_iff. split; [apply Z.leb_le; unfold SAR_HDR_BYTES; lia|by apply has_magic_app]. }
  unfold sar_parse. rewrite Hfrag. unfold SAR_HDR_BYTES. cbn [guard mbind res_bind].
  assert (at_ p 0 (MAGIC ++ put_u16 xfer ++ put_u16 idx ++ put_u16 n ++ put_u32 (zlen blob)
    ++ put_u32 crc ++ sar_chunk blob idx)) as Hat by apply at_start.
  apply (at_move _ _ 4) in Hat; [|done]. rewrite (at_rd_u16 _ _ _ _ Hat) by done. cbn [mbind res_bind].
  apply (at_move _ _ 6) in Hat; [|done]. rewrite (at_rd_u16 _ _ _ _ Hat) by zlia. cbn [mbind res_bind].
  apply (at_move _ _ 8) in Hat; [|done]. rewrite (at_rd_u16 _ _ _ _ Hat) by zlia. cbn [mbind res_bind].
  apply (at_move _ _ 10) in Hat; [|done]. rewrite (at_rd_u32 _ _ _ _ Hat) by zlia. cbn [mbind res_bind].
  apply (at_move _ _ 14) in Hat; [|done]. rewrite (at_rd_u32 _ _ _ _ Hat) by zlia. cbn [mbind res_bind].
  apply (at_move _ _ 18) in Hat; [|done].
  change SAR_MAX_FRAGS with 53. unfold guard, SAR_MAX_FILE, SAR_CHUNK.
  rewrite (proj2 (Z.eqb_neq n 0)), (proj2 (Z.ltb_ge _ n)), (proj2 (Z.ltb_ge _ (zlen blob))),
    (proj2 (Z.leb_gt n idx)), Z.eqb_refl by lia. cbn [orb negb mbind res_bind].
  unfold SAR_CHUNK in Ho. rewrite Ho, Hp. replace (u16 (18 + chunk - 18)) with chunk by (rewrite u16_small; unfold is_u16; lia).
  replace (u16 (if idx =? n - 1 then zlen blob - idx * 160 else 160)) with chunk.
  2: { destruct (Z.eqb_spec idx (n - 1)); rewrite u16_small; Z.div_mod_to_equations; zlia. }
  rewrite Z.eqb_refl. cbn [mbind res_bind].
  rewrite <- (app_nil_r (sar_chunk blob idx)) in Hat.
  by rewrite (at_rdn _ _ _ _ _ Hat Hzc).
Qed.

Fixpoint sar_feed (ps : list bytes) (s : SarReassembler) : res SarReassembler :=
  match ps with
  | [] => Ok s
  | p :: ps => r ← sar_add p s; sar_feed ps (r.1)
  end.

Section reassembly.
Context (blob : bytes) (xfer crc : Z).
Context (Hlen : 1 <= zlen blob <= SAR_MAX_FILE).

Let n := sar_frag_count (zlen blob).

(** The receiver holds exactly the fragments of [blob] listed in [seen]. *)
Record holds (seen : list Z) (s : SarReassembler) : Prop := {
  ho_active : sr_active s = true;
  ho_xfer : sr_xfer_id s = xfer;
  ho_count : sr_frag_count s = n;
  ho_len : sr_total_len s = zlen blob;
  ho_crc : sr_total_crc s = crc;
  ho_seen : ∀ i, i ∈ seen → 0 <= i < n;
  ho_got : sr_got s = (λ i, bool_decide (i ∈ seen)) <$> seqZ 0 53;
  ho_got_count : sr_got_count s = count_if id (sr_got s);
  ho_buf : length (sr_buf s) = Z.to_nat SAR_MAX_FILE;
  ho_data : ∀ q x, Z.of_nat q / 160 ∈ seen → blob !! q = Some x → sr_buf s !! q = Some x }.

Lemma n_bounds : n = (zlen blob + 159) / 160 ∧ 1 <= n <= 52.
Proof.
  unfold n. destruct (frag_count_small (zlen blob)) as [-> H]; [lia|].
  split; [done|]. unfold SAR_MAX_FILE in Hlen. Z.div_mod_to_equations; lia.
Qed.

Let the_frag (i : Z) : Frag := mkFrag xfer i n (zlen blob) crc (i * SAR_CHUNK) (sar_chunk blob i).

Lemma sar_chunk_len i : 0 <= i < n →
  zlen (sar_chunk blob i) = Z.min 160 (zlen blob - i * 160) ∧ i * 160 < zlen blob.
Proof.
  intros Hi. destruct n_bounds as [Hn _]. rewrite Hn in Hi.
  assert (i * 160 < zlen blob) by (Z.div_mod_to_equations; lia). split; [|done].
  unfold sar_chunk, zlen, SAR_CHUNK in *. rewrite length_take, length_drop. lia.
Qed.

Lemma sar_chunk_lookup i (q : nat) x : 0 <= i → blob !! q = Some x → Z.of_nat q / 160 = i →
  sar_chunk blob i !! (q - Z.to_nat (i * SAR_CHUNK))%nat = Some x.
Proof.
  intros Hi Hx Hq. unfold sar_chunk, SAR_CHUNK.
  rewrite lookup_take_lt by (Z.div_mod_to_equations; lia). rewrite lookup_drop, <- Hx.
  f_equal. Z.div_mod_to_equations; lia.
Qed.

(** Writing chunk [i]: the new bytes are the blob's, the others unchanged. *)
Lemma write_chunk i buf (q : nat) x : 0 <= i < n → length buf = Z.to_nat SAR_MAX_FILE →
  blob !! q = Some x →
  list_inserts (Z.to_nat (i * SAR_CHUNK)) (sar_chunk blob i) buf !! q =
  if bool_decide (Z.of_nat q / 160 = i) then Some x else buf !! q.
Proof.
  intros Hi Hbuf Hx. destruct (sar_chunk_len i Hi) as [Hcl Hlt].
  pose proof (lookup_lt_Some _ _ _ Hx) as Hq. unfold zlen, SAR_MAX_FILE in *.
  case_bool_decide as Hd.
  - rewrite list_lookup_inserts; [by apply sar_chunk_lookup; [lia|..]| |].
    + unfold SAR_CHUNK. Z.div_mod_to_equations; lia.
    + rewrite Hbuf. lia.
  - destruct (decide (q < Z.to_nat (i * SAR_CHUNK))%nat) as [Hc|Hc].
    + by rewrite list_lookup_inserts_lt.
    + rewrite list_lookup_inserts_ge; [done|]. unfold SAR_CHUNK in *. Z.div_mod_to_equations; lia.
Qed.

Lemma got_lookup (seen : list Z) (k : nat) : (k < 53)%nat →
  ((λ j, bool_decide (j ∈ seen)) <$> seqZ 0 53) !! k = Some (bool_decide (Z.of_nat k ∈ seen)).
Proof. intros Hk. by rewrite list_lookup_fmap, lookup_seqZ_lt by lia. Qed.

Lemma got_insert (seen : list Z) (i : Z) : 0 <= i < 53 →
  <[Z.to_nat i := true]> ((λ j, bool_decide (j ∈ seen)) <$> seqZ 0 53) =
  (λ j, bool_decide (j ∈ i :: seen)) <$> seqZ 0 53.
Proof.
  intros Hi. apply list_eq. intros k. destruct (decide (k < 53)%nat) as [Hk|Hk].
  - rewrite (got_lookup (i :: seen)) by done. destruct (decide (k = Z.to_nat i)) as [->|Hne].
    + rewrite list_lookup_insert_eq by (rewrite length_fmap, length_seqZ; lia).
      f_equal. symmetry. apply bool_decide_eq_true. rewrite Z2Nat.id by lia. by left.
    + rewrite list_lookup_insert_ne, got_lookup by lia. f_equal.
      apply bool_decide_ext. rewrite elem_of_cons. split; [auto|]. intros [?|?]; [lia|done].
  - rewrite !lookup_ge_None_2; [done|..]; rewrite ?length_insert, length_fmap, length_seqZ; lia.
Qed.

(** Storing fragment [i] into a state of the same transfer. *)
Lemma accept_same seen s i : holds seen s → 0 <= i < n →
  (sar_accept (the_frag i) s).2 = true ∧ holds (i :: seen) (sar_accept (the_frag i) s).1.
Proof.
  intros Hs Hi. destruct n_bounds as [_ Hn]. destruct (sar_chunk_len i Hi) as [Hcl Hlt].
  unfold sar_accept, sar_store. simpl.
  rewrite (ho_active _ _ Hs), (ho_xfer _ _ Hs), (ho_count _ _ Hs), (ho_len _ _ Hs), (ho_crc _ _ Hs),
    !Z.eqb_refl. simpl.
  rewrite (proj2 (Z.ltb_ge _ _)) by (unfold SAR_CHUNK; lia). split; [done|].
  pose proof (ho_got _ _ Hs) as Hg. pose proof (ho_got_count _ _ Hs) as Hc.
  assert (sr_got s !! Z.to_nat i = Some (bool_decide (i ∈ seen))) as Hgi
    by (rewrite Hg, got_lookup, Z2Nat.id by lia; done).
  split; simpl; [done|done|done|done|done|..].
  - intros j [->|Hj]%elem_of_cons; [done|by apply Hs].
  - rewrite Hg, got_insert by lia. done.
  - rewrite (count_if_insert _ _ _ (bool_decide (i ∈ seen))) by done. rewrite Hgi.
    pose proof (count_if_bounds id (sr_got s)) as Hb.
    replace (zlen (sr_got s)) with 53 in Hb
      by (rewrite Hg; unfold zlen; by rewrite length_fmap, length_seqZ).
    destruct (bool_decide (i ∈ seen)); simpl; [lia|]. rewrite Hc, u16_small by zlia. lia.
  - rewrite length_inserts. apply Hs.
  - intros q x Hq Hx. rewrite (write_chunk i (sr_buf s) q x Hi (ho_buf _ _ Hs) Hx).
    destruct (decide (Z.of_nat q / 160 = i)) as [E|E];
      [by rewrite bool_decide_eq_true_2|rewrite bool_decide_eq_false_2 by done].
    apply elem_of_cons in Hq as [?|Hq]; [done|]. by apply (ho_data _ _ Hs).
Qed.

(** The first fragment of a transfer resets the receiver. *)
Lemma accept_first s i : 0 <= i < n → length (sr_buf s) = Z.to_nat SAR_MAX_FILE →
  sr_active s = false ∨ sr_xfer_id s ≠ xfer →
  (sar_accept (the_frag i) s).2 = true ∧ holds [i] (sar_accept (the_frag i) s).1.
Proof.
  intros Hi Hbuf Hnew.
  set (s0 := mkSar true xfer n (zlen blob) crc 0 no_frags (sr_buf s)).
  assert (sar_accept (the_frag i) s = sar_accept (the_frag i) s0) as ->.
  { unfold sar_accept. simpl. rewrite !Z.eqb_refl. simpl.
    destruct Hnew as [-> |Hne]; simpl; [done|].
    rewrite (proj2 (Z.eqb_neq xfer (sr_xfer_id s))) by congruence. by rewrite orb_true_r. }
  apply (accept_same [] s0 i); [|done]. split; try done.
  - by intros j ?%elem_of_nil.
  - by intros q x ?%elem_of_nil.
Qed.

(** What a receiver that holds [seen] reports. *)
Lemma holds_missing seen s cap : holds seen s → n <= cap →
  sar_missing cap s = filter (λ i, i ∉ seen) (seqZ 0 n).
Proof.
  intros Hs Hcap. destruct n_bounds as [_ Hn]. unfold sar_missing.
  rewrite (ho_active _ _ Hs), (ho_count _ _ Hs), (ho_got _ _ Hs). simpl negb. cbv iota.
  rewrite take_ge.
  2: { etrans; [apply length_filter|]. rewrite length_seqZ. lia. }
  apply filter_ext_in. intros i Hi%elem_of_seqZ.
  rewrite got_lookup, Z2Nat.id by lia. split.
  - intros [= Hf]. by apply bool_decide_eq_false in Hf.
  - intros Hf. by rewrite bool_decide_eq_false_2.
Qed.

Lemma holds_complete seen s : holds seen s →
  sar_complete s = true ↔ ∀ i, 0 <= i < n → i ∈ seen.
Proof.
  intros Hs. destruct n_bounds as [_ Hn]. unfold sar_complete.
  rewrite (ho_active _ _ Hs), (ho_got_count _ _ Hs), (ho_count _ _ Hs), (ho_got _ _ Hs).
  replace 53 with (n + (53 - n)) by lia.
  rewrite seqZ_app, fmap_app, count_if_app by lia.
  rewrite (count_if_zero id ((λ i, bool_decide (i ∈ seen)) <$> seqZ (0 + n) (53 - n))).
  2: { intros b (j & -> & Hj%elem_of_seqZ)%list_elem_of_fmap. apply bool_decide_eq_false.
       intros ?%(ho_seen _ _ Hs). lia. }
  rewrite Z.add_0_r. cbn [andb]. rewrite Z.eqb_eq.
  assert (zlen ((λ i, bool_decide (i ∈ seen)) <$> seqZ 0 n) = n) as Hz
    by (unfold zlen; rewrite length_fmap, length_seqZ; lia).
  rewrite <- Hz at 2. rewrite count_if_full. split.
  - intros Hall i Hi. apply (bool_decide_eq_true (i ∈ seen)), Hall.
    apply list_elem_of_fmap. exists i. by rewrite elem_of_seqZ.
  - intros Hall b (j & -> & Hj%elem_of_seqZ)%list_elem_of_fmap. apply bool_decide_eq_true, Hall. lia.
Qed.

Lemma holds_data seen s : holds seen s → (∀ i, 0 <= i < n → i ∈ seen) → sar_data s = blob.
Proof.
  intros Hs Hall. destruct n_bounds as [Hn _]. unfold sar_data. rewrite (ho_len _ _ Hs), to_nat_zlen.
  apply list_eq_same_length with (n := length blob); [done| |].
  - rewrite length_take, (ho_buf _ _ Hs). unfold zlen in Hlen. lia.
  - intros q x y Hq Hx Hy. rewrite lookup_take_lt in Hx by done.
    rewrite (ho_data _ _ Hs q y) in Hx; [congruence| |done].
    apply Hall. rewrite Hn. unfold zlen in *. Z.div_mod_to_equations; lia.
Qed.
End reassembly.

(** Fragment [i] as [sar_build_fragment] writes it. *)
Lemma built_frag_ok blob xfer crc i : 1 <= zlen blob <= SAR_MAX_FILE → 0 <= i < sar_frag_count (zlen blob) →
  frag_ok (mkFrag xfer i (sar_frag_count (zlen blob)) (zlen blob) crc (i * SAR_CHUNK) (sar_chunk blob i)).
Proof.
  intros Hl Hi. destruct (frag_count_small (zlen blob)) as [Hn Hb]; [lia|].
  split; cbn [fg_idx fg_count fg_tlen fg_off fg_chunk]; try done; [change SAR_MAX_FRAGS with 53; lia|lia|].
  unfold sar_chunk, zlen, SAR_CHUNK in *. rewrite length_take, length_drop. Z.div_mod_to_equations; lia.
Qed.

Lemma sar_feed_holds blob xfer crc cap seen idxs ps s :
  1 <= zlen blob <= SAR_MAX_FILE → is_u16 xfer → is_u32 crc →
  Forall2 (λ i p, 0 <= i ∧ sar_build_fragment blob xfer crc i cap = Some p) idxs ps →
  holds blob xfer crc seen s →
  ∃ s', sar_feed ps s = Ok s' ∧ holds blob xfer crc (rev idxs ++ seen) s'.
Proof.
  intros Hlen Hx Hc Hps. revert seen s.
  induction Hps as [|i p idxs ps [Hi Hp] _ IH]; intros seen s Hs; simpl; [eauto|].
  destruct (sar_build_parse _ _ _ _ _ _ Hlen Hx Hc Hi Hp) as (Hn & _ & _ & Hparse).
  rewrite (sar_add_parsed _ _ _ Hparse) by (by apply built_frag_ok). simpl.
  destruct (accept_same blob xfer crc Hlen seen s i Hs) as [_ H]; [lia|].
  rewrite <- app_assoc. apply (IH (i :: seen)). exact H.
Qed.

(** C39: segmentation and reassembly deliver the blob. Take any blob of 1 to
    8192 bytes and feed its fragments to a receiver that is idle or busy with
    another transfer, in any order, with any duplicates and any losses: no
    fragment is refused or read out of bounds; the NACK list is exactly the
    indices not yet received; the transfer is complete exactly when every index
    arrived at least once; and then the CRC verifies and the buffer holds the
    blob. *)
Theorem sar_reassembly (blob : bytes) (xfer cap : Z) (idxs : list Z) (ps : list bytes)
    (s : SarReassembler)
    (Hwf : wf_bytes blob) (Hlen : 1 <= zlen blob <= SAR_MAX_FILE) (Hx : is_u16 xfer)
    (Hbuf : length (sr_buf s) = Z.to_nat SAR_MAX_FILE)
    (Hnew : sr_active s = false ∨ sr_xfer_id s ≠ xfer)
    (Hne : idxs ≠ [])
    (Hps : Forall2 (λ i p, 0 <= i ∧
       sar_build_fragment blob xfer (sar_crc32 blob) i cap = Some p) idxs ps) :
  let n := sar_frag_count (zlen blob) in
  ∃ s', sar_feed ps s = Ok s' ∧
    sar_missing SAR_MAX_FRAGS s' = filter (λ i, i ∉ idxs) (seqZ 0 n) ∧
    (sar_complete s' = true ↔ ∀ i, 0 <= i < n → i ∈ idxs) ∧
    (sar_complete s' = true → sar_verify s' = true ∧ sar_data s' = blob).
Proof.
  destruct Hps as [|i p idxs ps [Hi Hp] Hps]; [done|].
  pose proof (sar_crc32_range blob Hwf) as Hc.
  destruct (sar_build_parse _ _ _ _ _ _ Hlen Hx Hc Hi Hp) as (Hn & _ & _ & Hparse).
  destruct (accept_first blob xfer (sar_crc32 blob) Hlen s i) as [_ H1]; [lia|done|done|].
  destruct (sar_feed_holds blob xfer (sar_crc32 blob) cap [i] idxs ps _ Hlen Hx Hc Hps H1)
    as (s' & Hf & Hh).
  exists s'. split; [cbn [sar_feed]; by rewrite (sar_add_parsed _ _ _ Hparse) by (by apply built_frag_ok)|].
  assert (∀ j, j ∈ rev idxs ++ [i] ↔ j ∈ i :: idxs) as Hiff.
  { intros j. rewrite !list_elem_of_In, in_app_iff, <- in_rev. simpl. tauto. }
  destruct (frag_count_small (zlen blob)) as [_ Hb]; [lia|].
  pose proof (holds_complete _ _ _ Hlen _ _ Hh) as Hcomp.
  split; [|split].
  - rewrite (holds_missing _ _ _ Hlen _ _ SAR_MAX_FRAGS Hh) by (change SAR_MAX_FRAGS with 53; lia).
    apply filter_ext_in. intros j _. by rewrite Hiff.
  - rewrite Hcomp. by setoid_rewrite Hiff.
  - intros Hc'. assert (sar_data s' = blob) as Hd
      by (eapply holds_data; [done|exact Hh|by apply Hcomp]).
    split; [|done]. unfold sar_verify. rewrite Hc', Hd, (ho_crc _ _ _ _ _ Hh). simpl. apply Z.eqb_refl.
Qed.

Definition blob_ex : bytes := replicate 161 7.

(** Out of order and with a duplicate. *)
Example sar_reassembly_witness :
  ∃ p0 p1 s', sar_build_fragment blob_ex 9 (sar_crc32 blob_ex) 0 214 = Some p0 ∧
    sar_build_fragment blob_ex 9 (sar_crc32 blob_ex) 1 214 = Some p1 ∧
    sar_feed [p1; p0; p1] SarReassembler_init = Ok s' ∧
    sar_verify s' = true ∧ sar_data s' = blob_ex.
Proof.
  destruct (sar_build_fragment blob_ex 9 (sar_crc32 blob_ex) 0 214) as [p0|] eqn:H0; [|by vm_compute in H0].
  destruct (sar_build_fragment blob_ex 9 (sar_crc32 blob_ex) 1 214) as [p1|] eqn:H1; [|by vm_compute in H1].
  destruct (sar_reassembly blob_ex 9 214 [1; 0; 1] [p1; p0; p1] SarReassembler_init)
    as (s' & Hf & _ & Hc & Hd).
  - apply Forall_replicate. zlia.
  - by vm_compute.
  - zlia.
  - by vm_compute.
  - by left.
  - done.
  - repeat constructor; by rewrite ?H0, ?H1.
  - exists p0, p1, s'. split; [done|]. split; [done|]. split; [done|]. apply Hd, Hc.
    assert (sar_frag_count (zlen blob_ex) = 2) as -> by by vm_compute.
    intros i Hi. assert (i = 0 ∨ i = 1) as [-> | ->] by lia; rewrite list_elem_of_In; simpl; auto.
Defined.

(** ** Adversarial input *)

(** What holds whatever fragments, forged ones included, have been fed. *)
Record sar_ok (s : SarReassembler) : Prop := {
  so_got_len : length (sr_got s) = 53%nat;
  so_buf_len : length (sr_buf s) = Z.to_nat SAR_MAX_FILE;
  so_count : sr_active s = true →
    sr_frag_count s = sar_frag_count (sr_total_len s) ∧ 0 <= sr_total_len s <= SAR_MAX_FILE ∧
    sr_got_count s = count_if id (sr_got s) ∧
    ∀ i : nat, sr_got s !! i = Some true → Z.of_nat i < sr_frag_count s }.

Lemma sar_init_ok : sar_ok SarReassembler_init.
Proof. split; [done| |done]. apply length_replicate. Qed.

Lemma sar_reset_ok s : sar_ok s → sar_ok (sar_reset s).
Proof. intros [? ? ?]. by split. Qed.

Lemma got_replicate_false (i : nat) n : replicate n false !! i = Some true → False.
Proof. by intros [? _]%lookup_replicate. Qed.

Lemma sar_accept_ok f s : frag_ok f → sar_ok s → sar_ok (sar_accept f s).1.
Proof.
  intros Hf Hs.
  assert (∀ s, sar_ok s → sr_active s = true → sr_frag_count s = fg_count f → sar_ok (sar_store f s).1) as Hst.
  { clear s Hs. intros s [H1 H2 H3] Ha Hc. unfold sar_store. destruct (_ <? _); [by split|].
    destruct (H3 Ha) as (E1 & E2 & E3 & E4). split; simpl.
    - by rewrite length_insert.
    - by rewrite length_inserts.
    - intros _. split; [done|]. split; [done|]. split.
      + pose proof (fo_idx _ Hf). pose proof (fo_count _ Hf) as Hfc. change SAR_MAX_FRAGS with 53 in Hfc.
        destruct (lookup_lt_is_Some_2 (sr_got s) (Z.to_nat (fg_idx f))) as [b Hb]; [lia|].
        rewrite Hb, (count_if_insert _ _ _ b) by done.
        pose proof (count_if_bounds id (sr_got s)) as Hcb. unfold zlen in Hcb. rewrite H1 in Hcb.
        destruct b; simpl; [lia|]. rewrite E3, u16_small by zlia. lia.
      + intros i [(<- & _ & _)|[_ Hi]]%list_lookup_insert_Some; [|auto].
        pose proof (fo_idx _ Hf). lia. }
  unfold sar_accept.
  destruct (negb (sr_active s) || negb (fg_xfer f =? sr_xfer_id s)) eqn:Hnew.
  - apply Hst; [|done|done]. split; cbn [sr_got sr_buf sr_active sr_frag_count sr_total_len sr_got_count]; [done|apply Hs|]. intros _.
    split; [apply Hf|]. split; [apply Hf|]. split.
    + symmetry. apply count_if_zero. by intros b [-> _]%elem_of_replicate.
    + by intros i ?%got_replicate_false.
  - destruct (negb (fg_count f =? _) || _ || _) eqn:Hd; [done|]. bools. apply Hst; [done|done|congruence].
Qed.

(** "Complete" is about the bitmap, not only the counter. *)
Lemma sar_complete_full s : sar_ok s → sar_complete s = true →
  (∀ i, 0 <= i < sr_frag_count s → sr_got s !! Z.to_nat i = Some true) ∧
  sar_missing SAR_MAX_FRAGS s = [].
Proof.
  intros Hs Hc. pose proof Hc as [Ha Hn%Z.eqb_eq]%andb_true_iff.
  assert (∀ i, 0 <= i < sr_frag_count s → sr_got s !! Z.to_nat i = Some true) as Hall.
  { destruct (so_count _ Hs Ha) as (E1 & E2 & E3 & E4).
    destruct (frag_count_small (sr_total_len s) E2) as [_ Hb]. rewrite <- E1 in Hb.
    pose proof (so_got_len _ Hs) as Hgl.
    rewrite Hn, <- (take_drop (Z.to_nat (sr_frag_count s)) (sr_got s)), count_if_app in E3.
    rewrite (count_if_zero id (drop _ _)) in E3.
    2: { intros b [j Hj]%list_elem_of_lookup. rewrite lookup_drop in Hj.
         destruct b; [|done]. apply E4 in Hj. lia. }
    assert (zlen (take (Z.to_nat (sr_frag_count s)) (sr_got s)) = sr_frag_count s) as Hz
      by (unfold zlen; rewrite length_take; lia).
    rewrite <- Hz, Z.add_0_r in E3 at 1. symmetry in E3. rewrite count_if_full in E3.
    intros i Hi. destruct (lookup_lt_is_Some_2 (sr_got s) (Z.to_nat i)) as [b Hb']; [lia|].
    rewrite Hb'. f_equal. apply E3. apply list_elem_of_lookup. exists (Z.to_nat i).
    by rewrite lookup_take_lt by lia. }
  split; [done|]. unfold sar_missing. rewrite Ha. simpl.
  assert (filter (λ i, sr_got s !! Z.to_nat i = Some false) (seqZ 0 (sr_frag_count s)) = []) as ->.
  { apply elem_of_nil_inv. intros i [Hg Hi%elem_of_seqZ]%list_elem_of_filter.
    by rewrite Hall in Hg by lia. }
  by rewrite take_nil.
Qed.

Lemma sar_parse_nack_good pay cap : wf_bytes pay → 0 <= cap →
  safe (sar_parse_nack pay cap) (λ r, is_u16 r.1 ∧ zlen r.2 <= cap ∧ Forall is_u16 r.2).
Proof.
  intros Hb Hcap. unfold sar_parse_nack, SAR_NACK_HDR.
  safe_step. safe_step. unfold sar_is_nack, SAR_NACK_HDR in H. bools.
  repeat (safe_step; try lia). set (m := if zlen pay <? _ then _ else _).
  assert (0 <= m ∧ 8 + m * 2 <= zlen pay) as Hm by (unfold m; destruct (Z.ltb_spec (zlen pay) (8 + v0 * 2)); zlia).
  set (k := if cap <? m then _ else _).
  assert (0 <= k <= cap ∧ 8 + k * 2 <= zlen pay) as Hk by (unfold k; destruct (Z.ltb_spec cap m); lia).
  apply (safe_parse_n rd_u16 is_u16 2); [lia|lia|lia| |].
  - intros o Ho Ho'. by apply safe_rd_u16.
  - intros l Hl Hz. apply safe_bind, safe_into; [lia|]. split; [done|]. simpl. split; [lia|done].
Qed.

(** No forged fragment can fool the reassembler. Whatever byte strings
    are fed, each is handled without reading or writing out of bounds, and
    "complete" really means complete: [got_count] never drifts from the
    received bitmap, so when [complete] holds, every fragment index of the
    declared length is present and nothing is missing. *)
Theorem sar_add_robust (s : SarReassembler) (payload : bytes) (Hs : sar_ok s)
    (Hp : wf_bytes payload) (Hlen : zlen payload < 65536) :
  ∃ s' b, sar_add payload s = Ok (s', b) ∧ sar_ok s' ∧
    (sar_complete s' = true →
      (∀ i, 0 <= i < sr_frag_count s' → sr_got s' !! Z.to_nat i = Some true) ∧
      sar_missing SAR_MAX_FRAGS s' = []).
Proof.
  pose proof (sar_parse_safe payload Hp Hlen) as Hsafe.
  destruct (sar_parse payload) as [f| |] eqn:Hpf; simpl in Hsafe; [|exists s, false; unfold sar_add; rewrite Hpf|done].
  - destruct Hsafe as [Hf _]. pose proof (sar_accept_ok f s Hf Hs) as Hok.
    rewrite (sar_add_parsed _ _ _ Hpf Hf). destruct (sar_accept f s) as [s' b]. exists s', b.
    split; [done|]. split; [done|]. by apply sar_complete_full.
  - split; [done|]. split; [done|]. by apply sar_complete_full.
Qed.

Example sar_add_robust_witness :
  sar_ok SarReassembler_init ∧
  ∃ s' b, sar_add [83; 65; 82; 49; 1; 0; 7; 0; 3; 0] SarReassembler_init = Ok (s', b) ∧ b = false.
Proof.
  split; [apply sar_init_ok|].
  destruct (sar_add_robust SarReassembler_init [83; 65; 82; 49; 1; 0; 7; 0; 3; 0] sar_init_ok)
    as (s' & b & H & _ & _).
  - each; zlia.
  - by vm_compute.
  - exists s', b. split; [done|]. vm_compute in H. by injection H as _ <-.
Defined.

(** ** NACK and DONE round trips *)

Lemma zlen_flat_put l : zlen (flat_map put_u16 l) = 2 * zlen l.
Proof. apply zlen_flat_map. by apply Forall_true. Qed.

Lemma nack_back xfer out_cap missing : is_u16 xfer → Forall is_u16 missing → zlen missing <= SAR_MAX_FRAGS →
  SAR_NACK_HDR <= out_cap < 65536 →
  let fit := take (Z.to_nat ((out_cap - SAR_NACK_HDR) / 2)) missing in
  ∃ nack, sar_build_nack xfer missing out_cap = Some nack ∧ zlen nack <= out_cap ∧ sar_is_nack nack = true ∧
    sar_parse_nack nack SAR_MAX_FRAGS = Ok (xfer, fit) ∧
    sar_is_done nack = false ∧ sar_is_fragment nack = false.
Proof.
  intros Hx Hm Hn Hcap. unfold SAR_NACK_HDR in *. change SAR_MAX_FRAGS with 53 in *.
  unfold sar_build_nack, SAR_NACK_HDR. rewrite (proj2 (Z.ltb_ge _ _)) by lia.
  assert (u16 ((out_cap - 8) / 2) = (out_cap - 8) / 2) as -> by zlia.
  set (k := if _ <? zlen missing then _ else _).
  assert (k = zlen (take (Z.to_nat ((out_cap - 8) / 2)) missing) ∧
    take (Z.to_nat k) missing = take (Z.to_nat ((out_cap - 8) / 2)) missing) as [Hk ->].
  { unfold k. assert (0 <= (out_cap - 8) / 2) by (apply Z.div_pos; lia).
    destruct (Z.ltb_spec ((out_cap - 8) / 2) (zlen missing)).
    - split; [|done]. rewrite zlen_take by lia. done.
    - rewrite !take_ge by (unfold zlen in *; lia). done. }
  clearbody k. set (l := take _ missing) in *.
  assert (Forall is_u16 l) as Hl by (by apply Forall_take).
  assert (0 <= k <= 53 ∧ 8 + 2 * k <= out_cap) as [Hkb Hkc].
  { rewrite Hk. unfold l, zlen in *. rewrite length_take. Z.div_mod_to_equations; lia. }
  eexists. split; [done|]. set (m := NMAGIC ++ _).
  assert (zlen m = 8 + 2 * k) as Hz.
  { unfold m. rewrite !zlen_app, zlen_flat_put, !zlen_put_u16, <- Hk. change (zlen NMAGIC) with 4. lia. }
  assert (sar_is_nack m = true) as Hnk.
  { apply andb_true_iff. split; [apply Z.leb_le; unfold SAR_NACK_HDR; lia|by apply has_magic_app]. }
  split; [lia|]. split; [done|].
  split; [|split; unfold sar_is_done, sar_is_fragment, has_magic; apply andb_false_r].
  assert (at_ m 0 (NMAGIC ++ put_u16 xfer ++ put_u16 k ++ flat_map put_u16 l)) as Hat by apply at_start.
  unfold sar_parse_nack, SAR_NACK_HDR. rewrite Hnk. cbn [guard mbind res_bind].
  apply (at_move _ _ 4) in Hat; [|done]. rewrite (at_rd_u16 _ _ _ _ Hat) by done. cbn [mbind res_bind].
  apply (at_move _ _ 6) in Hat; [|done]. rewrite (at_rd_u16 _ _ _ _ Hat) by zlia. cbn [mbind res_bind].
  apply (at_move _ _ 8) in Hat; [|done].
  rewrite (proj2 (Z.ltb_ge (zlen m) _)), (proj2 (Z.ltb_ge 53 _)) by lia.
  rewrite Hk, to_nat_zlen. rewrite <- (app_nil_r (flat_map _ _)) in Hat.
  destruct (at_parse_n rd_u16 put_u16 id is_u16 2 l m 8 []) as [-> _]; auto.
  { intros x o r Hxu Ho. by apply (at_rd_u16 _ _ _ _ Ho). }
  cbn [mbind res_bind]. rewrite list_fmap_id, into_ok by lia. done.
Qed.

Lemma done_back xfer out_cap : is_u16 xfer → SAR_DONE_BYTES <= out_cap →
  ∃ fin, sar_build_done xfer out_cap = Some fin ∧ fin = DMAGIC ++ put_u16 xfer ∧ sar_is_done fin = true ∧
    sar_parse_done fin = Ok xfer ∧ sar_is_nack fin = false ∧ sar_is_fragment fin = false.
Proof.
  intros Hx Hcap. unfold sar_build_done, SAR_DONE_BYTES in *. rewrite (proj2 (Z.ltb_ge _ _)) by lia.
  eexists. split; [done|]. set (m := DMAGIC ++ _).
  assert (sar_is_done m = true) as Hdn
    by (apply andb_true_iff; split; [done|by apply has_magic_app]).
  split; [done|]. split; [done|]. split; [|by split].
  unfold sar_parse_done. rewrite Hdn. cbn [negb].
  assert (at_ m 0 (DMAGIC ++ put_u16 xfer)) as Hat by apply at_start.
  apply (at_move _ _ 4) in Hat; [|done]. rewrite <- (app_nil_r (put_u16 _)) in Hat.
  by apply (at_rd_u16 _ _ _ _ Hat).
Qed.

(** the end-to-end feedback survives the air. A NACK built into a
    buffer of [out_cap] bytes is parsed back as the same transfer and the same
    missing indices (as many as fit), a DONE as the same transfer, neither is
    mistaken for the other or for a fragment, and neither overruns its buffer. *)
Theorem sar_feedback_roundtrip (xfer out_cap : Z) (missing : list Z)
    (Hx : is_u16 xfer) (Hm : Forall is_u16 missing) (Hn : zlen missing <= SAR_MAX_FRAGS)
    (Hcap : SAR_NACK_HDR <= out_cap < 65536) :
  let fit := take (Z.to_nat ((out_cap - SAR_NACK_HDR) / 2)) missing in
  (∃ nack, sar_build_nack xfer missing out_cap = Some nack ∧ zlen nack <= out_cap ∧
    sar_parse_nack nack SAR_MAX_FRAGS = Ok (xfer, fit) ∧
    sar_is_done nack = false ∧ sar_is_fragment nack = false) ∧
  (∃ fin, sar_build_done xfer out_cap = Some fin ∧ zlen fin <= out_cap ∧
    sar_parse_done fin = Ok xfer ∧ sar_is_nack fin = false ∧ sar_is_fragment fin = false).
Proof.
  split.
  - destruct (nack_back xfer out_cap missing Hx Hm Hn Hcap) as (m & H1 & H2 & _ & H3). by exists m.
  - unfold SAR_NACK_HDR in Hcap.
    destruct (done_back xfer out_cap Hx) as (m & H1 & -> & _ & H2 & H3); [unfold SAR_DONE_BYTES; lia|].
    eexists. split; [exact H1|]. split; [change (zlen _) with 6; lia|done].
Qed.

Example sar_feedback_roundtrip_witness :
  is_u16 7 ∧ ∃ nack, sar_build_nack 7 [3; 300; 5] 12 = Some nack ∧
    sar_parse_nack nack SAR_MAX_FRAGS = Ok (7, [3; 300]).
Proof.
  split; [zlia|].
  destruct (sar_feedback_roundtrip 7 12 [3; 300; 5]) as [(nack & H1 & _ & H2 & _) _].
  - zlia.
  - each; zlia.
  - by vm_compute.
  - by vm_compute.
  - by exists nack.
Defined.
