(* ===== verification/NodeTable.v ===== *)
(** lib/mesh/node_table.{h,cpp}: the interned node-id directory. *)
From S2P Require Import Prelude SlotTable MeshTypes Crypto.

Definition NODE_TABLE_CAP : Z := 64.

(** [nid_from_pubkey] *)
Definition nid_from_pubkey `{Crypto} (pubkey : bytes) : NodeId := mkNodeId (blake2b 16 pubkey).

(** The bits F_USED, F_VERIFIED, F_PINNED of [flags] are three booleans. *)
Record NdSlot := mkNd {
  nd_id : NodeId;
  nd_last_ms : Z;
  nd_used : bool;
  nd_verified : bool;
  nd_pinned : bool;
  nd_gen : Z;
  nd_pub : bytes }.

Definition NdSlot_default : NdSlot := mkNd nid_zero 0 false false false 0 (replicate 32 0).

Record NodeTable := mkND { nd_slots : list NdSlot; nd_last_evicted : bool }.
Definition NodeTable_init : NodeTable := mkND (replicate 64 NdSlot_default) false.

Definition nd_find (id : NodeId) (l : list NdSlot) : option nat :=
  find_index (λ s, nd_used s && nid_eqb (nd_id s) id) l.

(** The victim scan from slot [i] on; [best] is the victim so far and its [last_ms]. *)
Fixpoint nd_lru (i : nat) (l : list NdSlot) (best : option (nat * Z)) : option nat :=
  match l with
  | [] => fst <$> best
  | s :: l =>
      if nd_pinned s then nd_lru (S i) l best else
      let older := match best with None => true | Some (_, ms) => i32 (nd_last_ms s - ms) <? 0 end in
      nd_lru (S i) l (if older then Some (i, nd_last_ms s) else best)
  end.

Definition nd_evict (s : NdSlot) : NdSlot :=
  mkNd (nd_id s) (nd_last_ms s) false false false (u8 (nd_gen s + 1)) (nd_pub s).

(** The slot to use, with the table after a possible eviction. *)
Definition free_or_evict (t : NodeTable) : option (nat * NodeTable) :=
  match find_index (λ s, negb (nd_used s)) (nd_slots t) with
  | Some i => Some (i, t)
  | None =>
      match nd_lru 0 (nd_slots t) None with
      | Some v => Some (v, mkND (alter nd_evict v (nd_slots t)) true)
      | None => None
      end
  end.

Definition nd_occupy (id : NodeId) (s : NdSlot) : NdSlot :=
  mkNd id (nd_last_ms s) true false false (nd_gen s) (nd_pub s).
Definition nd_touch (now_ms : Z) (s : NdSlot) : NdSlot :=
  mkNd (nd_id s) now_ms (nd_used s) (nd_verified s) (nd_pinned s) (nd_gen s) (nd_pub s).

Definition intern (id : NodeId) (now_ms : Z) (t : NodeTable) : NodeTable * node_ref :=
  let t := mkND (nd_slots t) false in
  let finish i t :=
    let slots := alter (nd_touch now_ms) i (nd_slots t) in
    (mkND slots (nd_last_evicted t),
     mkRef (u8 (Z.of_nat i)) (match slots !! i with Some s => nd_gen s | None => 0 end)) in
  match nd_find id (nd_slots t) with
  | Some i => finish i t
  | None =>
      match free_or_evict t with
      | None => (t, NODE_REF_NONE)
      | Some (i, t) => finish i (mkND (alter (nd_occupy id) i (nd_slots t)) (nd_last_evicted t))
      end
  end.

(** The live slot behind a ref: the guard of [resolve], [verified],
    [mark_verified] and [pin]. *)
Definition nd_live (r : node_ref) (t : NodeTable) : option NdSlot :=
  if NODE_TABLE_CAP <=? ref_idx r then None else
  s ← nd_slots t !! Z.to_nat (ref_idx r);
  if negb (nd_used s) || negb (nd_gen s =? ref_gen r) then None else Some s.

Definition resolve (r : node_ref) (t : NodeTable) : option NodeId := nd_id <$> nd_live r t.
Definition nd_same (a b : node_ref) : bool := negb (ref_is_none a) && bool_decide (a = b).
Definition verified (r : node_ref) (t : NodeTable) : bool :=
  match nd_live r t with Some s => nd_verified s | None => false end.

Definition nd_update (f : NdSlot → NdSlot) (r : node_ref) (t : NodeTable) : NodeTable :=
  match nd_live r t with
  | Some _ => mkND (alter f (Z.to_nat (ref_idx r)) (nd_slots t)) (nd_last_evicted t)
  | None => t
  end.
Definition mark_verified (r : node_ref) (pub : bytes) : NodeTable → NodeTable :=
  nd_update (λ s, mkNd (nd_id s) (nd_last_ms s) (nd_used s) true (nd_pinned s) (nd_gen s) pub) r.
Definition pin (r : node_ref) (on : bool) : NodeTable → NodeTable :=
  nd_update (λ s, mkNd (nd_id s) (nd_last_ms s) (nd_used s) (nd_verified s) on (nd_gen s) (nd_pub s)) r.

(** The calls [for_each_verified] makes, in order. *)
Definition for_each_verified (t : NodeTable) : list (NodeId * bytes) :=
  (λ s, (nd_id s, nd_pub s)) <$> filter (λ s, nd_used s && nd_verified s = true) (nd_slots t).

(** ** Invariant *)

Record nd_ok (t : NodeTable) : Prop := {
  ndk_len : length (nd_slots t) = 64%nat;
  ndk_ids : slots_unique nd_used nd_id (nd_slots t);
  ndk_gen : ∀ i s, nd_slots t !! i = Some s → is_u8 (nd_gen s) }.

Lemma nd_init_ok : nd_ok NodeTable_init.
Proof.
  split; simpl; [done|by apply slots_unique_replicate|]. intros i s [-> _]%lookup_replicate.
  simpl. zlia.
Qed.

(** Any victim is an existing, unpinned slot. *)
Lemma nd_lru_spec k l best v : nd_lru k l best = Some v →
  (∃ ms, best = Some (v, ms)) ∨ ∃ i s, l !! i = Some s ∧ nd_pinned s = false ∧ v = (k + i)%nat.
Proof.
  revert k best. induction l as [|s l IH]; intros k best; simpl.
  { destruct best as [[b ms]|]; simpl; [|done]. intros [= ->]. left. eauto. }
  destruct (nd_pinned s) eqn:Hp.
  { intros [?|(i & x & Hi & Hx & ->)]%IH; [by left|]. right. exists (S i), x. split; [done|].
    split; [done|lia]. }
  intros [[ms Hm]|(i & x & Hi & Hx & ->)]%IH.
  - destruct (match best with None => true | Some (_, ms') => _ end).
    + injection Hm as <- _. right. exists O, s. split; [done|]. split; [done|lia].
    + left. eauto.
  - right. exists (S i), x. split; [done|]. split; [done|lia].
Qed.

Lemma nd_lru_None k l best : nd_lru k l best = None →
  best = None ∧ ∀ i s, l !! i = Some s → nd_pinned s = true.
Proof.
  revert k best. induction l as [|s l IH]; intros k best; simpl; [by destruct best|].
  destruct (nd_pinned s) eqn:Hp.
  - intros [-> Hl]%IH. split; [done|]. intros [|i] x; simpl; [by intros [= <-]|apply Hl].
  - intros [Hb _]%IH. destruct best as [[? ?]|]; [by destruct (_ <? _)|done].
Qed.

(** What [intern] does, in terms of slots: it touches the slot of [id], or
    takes over a slot (free, or evicted with its generation bumped). *)
Inductive intern_case (id : NodeId) (now : Z) (t : NodeTable) : NodeTable → node_ref → Prop :=
  | ic_hit i s : nd_slots t !! i = Some s → nd_used s = true → nd_id s = id →
      intern_case id now t
        (mkND (<[i := nd_touch now s]> (nd_slots t)) false) (mkRef (u8 (Z.of_nat i)) (nd_gen s))
  | ic_free i s : nd_find id (nd_slots t) = None → nd_slots t !! i = Some s → nd_used s = false →
      intern_case id now t
        (mkND (<[i := nd_touch now (nd_occupy id s)]> (nd_slots t)) false)
        (mkRef (u8 (Z.of_nat i)) (nd_gen s))
  | ic_evict i s : nd_find id (nd_slots t) = None → nd_slots t !! i = Some s →
      nd_pinned s = false → (∀ j x, nd_slots t !! j = Some x → nd_used x = true) →
      intern_case id now t
        (mkND (<[i := nd_touch now (nd_occupy id (nd_evict s))]> (nd_slots t)) true)
        (mkRef (u8 (Z.of_nat i)) (u8 (nd_gen s + 1)))
  | ic_full : nd_find id (nd_slots t) = None →
      (∀ j x, nd_slots t !! j = Some x → nd_used x = true ∧ nd_pinned x = true) →
      intern_case id now t (mkND (nd_slots t) false) NODE_REF_NONE.

Lemma intern_spec id now t : intern_case id now t (intern id now t).1 (intern id now t).2.
Proof.
  unfold intern. cbn [nd_slots].
  destruct (nd_find id (nd_slots t)) as [i|] eqn:Hf; cbn [fst snd].
  { pose proof Hf as (s & Hs & Hu & Hid)%slot_find_Some.
    rewrite (alter_insert _ _ _ _ Hs), list_lookup_insert_eq by (by eapply lookup_lt_Some).
    by apply (ic_hit id now t i s). }
  unfold free_or_evict. cbn [nd_slots].
  destruct (find_index (λ s, negb (nd_used s)) (nd_slots t)) as [i|] eqn:Hfree; cbn [fst snd nd_slots nd_last_evicted].
  { apply slot_free_Some in Hfree as (s & Hs & Hu). pose proof (lookup_lt_Some _ _ _ Hs).
    rewrite (alter_insert _ _ _ _ Hs).
    erewrite alter_insert by (by apply list_lookup_insert_eq).
    rewrite list_insert_insert_eq, list_lookup_insert_eq by done. by apply (ic_free id now t i s). }
  pose proof (proj1 (slot_free_None nd_used _) Hfree) as Hall.
  destruct (nd_lru 0 (nd_slots t) None) as [v|] eqn:Hv; cbn [fst snd nd_slots nd_last_evicted].
  - apply nd_lru_spec in Hv as [[ms [=]]|(i & s & Hs & Hp & ->)]. rewrite Nat.add_0_l.
    pose proof (lookup_lt_Some _ _ _ Hs).
    rewrite (alter_insert _ _ _ _ Hs).
    erewrite (alter_insert (nd_occupy id)) by (by apply list_lookup_insert_eq).
    rewrite list_insert_insert_eq.
    erewrite alter_insert by (by apply list_lookup_insert_eq).
    rewrite list_insert_insert_eq, list_lookup_insert_eq by done. by apply (ic_evict id now t i s).
  - apply nd_lru_None in Hv as [_ Hp]. apply ic_full; [done|]. eauto.
Qed.

Lemma intern_ok id now t : nd_ok t → nd_ok (intern id now t).1.
Proof.
  intros [Hlen Hids Hgen].
  destruct (intern_spec id now t) as [i s Hs Hu Hid|i s Hf Hs Hu|i s Hf Hs Hp Hall|Hf Hall];
    split; cbn [nd_slots]; rewrite ?length_insert; try done.
  - by eapply slots_unique_update.
  - intros j x [(<- & <- & _)|[_ Hx]]%list_lookup_insert_Some; simpl; eauto.
  - by apply slots_unique_fresh.
  - intros j x [(<- & <- & _)|[_ Hx]]%list_lookup_insert_Some; simpl; eauto.
  - by apply slots_unique_fresh.
  - intros j x [(<- & <- & _)|[_ Hx]]%list_lookup_insert_Some; simpl; eauto using u8_range.
Qed.

Lemma nd_live_Some r t s : nd_live r t = Some s →
  ref_idx r < NODE_TABLE_CAP ∧ nd_slots t !! Z.to_nat (ref_idx r) = Some s ∧ nd_used s = true ∧
  nd_gen s = ref_gen r.
Proof.
  unfold nd_live. destruct (Z.leb_spec NODE_TABLE_CAP (ref_idx r)); [done|].
  destruct (nd_slots t !! Z.to_nat (ref_idx r)) as [x|]; simpl; [|done].
  destruct (nd_used x) eqn:Hu; simpl; [|done].
  destruct (Z.eqb_spec (nd_gen x) (ref_gen r)); simpl; [|done]. intros [= <-]. done.
Qed.

Lemma nd_live_intro (r : node_ref) t s : ref_idx r < NODE_TABLE_CAP →
  nd_slots t !! Z.to_nat (ref_idx r) = Some s → nd_used s = true → nd_gen s = ref_gen r →
  nd_live r t = Some s.
Proof.
  intros Hi Hs Hu Hg. unfold nd_live. rewrite (proj2 (Z.leb_gt _ _)), Hs by done. simpl.
  by rewrite Hu, Hg, Z.eqb_refl.
Qed.

(** Interning. On a well-formed table, [intern] keeps it well-formed and
    returns a handle that resolves to exactly the id asked for; it returns the
    null handle only when the id is unknown and all 64 slots are pinned, and
    then changes no slot. A live, pinned entry is never displaced: its
    handles keep resolving to it. *)
Theorem intern_resolves (id : NodeId) (now : Z) (t : NodeTable) (Hok : nd_ok t) :
  let '(t', r) := intern id now t in
  nd_ok t' ∧
  (resolve r t' = Some id ∨
   r = NODE_REF_NONE ∧ nd_slots t' = nd_slots t ∧ nd_find id (nd_slots t) = None ∧
     ∀ i s, nd_slots t !! i = Some s → nd_used s = true ∧ nd_pinned s = true) ∧
  (∀ r' s, nd_live r' t = Some s → nd_pinned s = true → resolve r' t' = Some (nd_id s)).
Proof.
  pose proof (intern_ok id now t Hok) as Hok'. pose proof (intern_spec id now t) as Hcase.
  destruct (intern id now t) as [t' r]. cbn [fst snd] in *. split; [done|].
  assert (∀ i s, nd_slots t !! i = Some s → (i < 64)%nat) as Hlt.
  { intros i s Hs%lookup_lt_Some. by rewrite (ndk_len _ Hok) in Hs. }
  assert (∀ i s x ev, nd_slots t !! i = Some s → nd_used x = true →
    resolve (mkRef (u8 (Z.of_nat i)) (nd_gen x)) (mkND (<[i:=x]> (nd_slots t)) ev) = Some (nd_id x)) as Hres.
  { intros i s x ev Hs Hu. pose proof (Hlt _ _ Hs). unfold resolve.
    assert (u8 (Z.of_nat i) = Z.of_nat i) as -> by zlia.
    erewrite nd_live_intro; [done|unfold NODE_TABLE_CAP; simpl; lia| |done|done].
    simpl. rewrite Nat2Z.id. apply list_lookup_insert_eq. by eapply lookup_lt_Some. }
  assert (∀ i s x ev, nd_slots t !! i = Some s → nd_used x = true → nd_gen x = nd_gen s →
    nd_id x = nd_id s ∨ nd_used s = false → ∀ r' y, nd_live r' t = Some y →
    resolve r' (mkND (<[i:=x]> (nd_slots t)) ev) = Some (nd_id y)) as Hkeep.
  { intros i s x ev Hs Hu Hg Hc r' y (Hi & Hy & Hyu & Hyg)%nd_live_Some. unfold resolve.
    destruct (decide (i = Z.to_nat (ref_idx r'))) as [->|Hne].
    - rewrite Hs in Hy. injection Hy as <-. destruct Hc as [Hc|Hc]; [|congruence].
      erewrite nd_live_intro; [simpl; by rewrite Hc|done| |done|congruence].
      simpl. apply list_lookup_insert_eq. by eapply lookup_lt_Some.
    - erewrite nd_live_intro; [done|done| |done|done]. simpl. by rewrite list_lookup_insert_ne. }
  destruct Hcase as [i s Hs Hu Hid|i s Hf Hs Hu|i s Hf Hs Hp Hall|Hf Hall].
  - split; [left; rewrite <- Hid; apply (Hres i s (nd_touch now s)); [done|done]|].
    intros r' y Hy _. eapply (Hkeep i s); auto.
  - split; [left; by apply (Hres i s (nd_touch now (nd_occupy id s)))|].
    intros r' y Hy _. eapply (Hkeep i s); auto.
  - split; [left; by apply (Hres i s (nd_touch now (nd_occupy id (nd_evict s))))|].
    intros r' y (Hi & Hy & Hyu & Hyg)%nd_live_Some Hyp. unfold resolve.
    destruct (decide (i = Z.to_nat (ref_idx r'))) as [->|Hne]; [congruence|].
    erewrite nd_live_intro; [done|done| |done|done]. simpl. by rewrite list_lookup_insert_ne.
  - split; [by right|]. intros r' y Hy _. unfold resolve.
    apply nd_live_Some in Hy as (Hi & Hy & Hyu & Hyg). by erewrite nd_live_intro.
Qed.

Example intern_resolves_witness :
  nd_ok NodeTable_init ∧
  resolve (intern (nid_from_u32 5) 10 NodeTable_init).2 (intern (nid_from_u32 5) 10 NodeTable_init).1
    = Some (nid_from_u32 5).
Proof.
  split; [apply nd_init_ok|].
  pose proof (intern_resolves (nid_from_u32 5) 10 NodeTable_init nd_init_ok) as H.
  destruct (intern (nid_from_u32 5) 10 NodeTable_init) as [t r] eqn:E.
  destruct H as (_ & [H|(_ & _ & _ & H)] & _); [exact H|].
  destruct (H O NdSlot_default) as [[=] _]. by vm_compute.
Defined.

(** ** Handles over a history *)

Inductive nd_event :=
  | NdIntern (id : NodeId) (now : Z)
  | NdMark (r : node_ref) (pub : bytes)
  | NdPin (r : node_ref) (on : bool).

(** The table after the event, and the slot evicted by it, if any
    ([last_evicted_] and the returned index). *)
Definition nd_step (t : NodeTable) (e : nd_event) : NodeTable * option Z :=
  match e with
  | NdIntern id now =>
      let '(t', r) := intern id now t in
      (t', if nd_last_evicted t' then Some (ref_idx r) else None)
  | NdMark r pub => (mark_verified r pub t, None)
  | NdPin r on => (pin r on t, None)
  end.

(** Run a history, counting the evictions of slot [i]. *)
Fixpoint nd_run (i : Z) (es : list nd_event) (t : NodeTable) : NodeTable * Z :=
  match es with
  | [] => (t, 0)
  | e :: es =>
      let '(t, ev) := nd_step t e in
      let '(t', k) := nd_run i es t in
      (t', (if bool_decide (ev = Some i) then 1 else 0) + k)
  end.

Lemma nd_update_slot f r t i s : nd_slots t !! i = Some s →
  (∀ s, nd_id (f s) = nd_id s ∧ nd_gen (f s) = nd_gen s ∧ nd_used (f s) = nd_used s) →
  ∃ s', nd_slots (nd_update f r t) !! i = Some s' ∧ nd_id s' = nd_id s ∧ nd_gen s' = nd_gen s ∧
    nd_used s' = nd_used s.
Proof.
  intros Hs Hf. unfold nd_update. destruct (nd_live r t); [|eauto]. simpl.
  destruct (decide (Z.to_nat (ref_idx r) = i)) as [<-|Hne].
  - rewrite list_lookup_alter_eq, Hs. simpl. exists (f s). split; [done|]. apply Hf.
  - rewrite list_lookup_alter_ne by done. eauto.
Qed.

Lemma nd_update_ok f r t : nd_ok t →
  (∀ s, nd_id (f s) = nd_id s ∧ nd_gen (f s) = nd_gen s ∧ nd_used (f s) = nd_used s) →
  nd_ok (nd_update f r t).
Proof.
  intros Hok Hf. unfold nd_update. destruct (nd_live r t) as [s|] eqn:Hl; [|done].
  apply nd_live_Some in Hl as (_ & Hs & Hu & _). destruct (Hf s) as (E1 & E2 & E3).
  rewrite (alter_insert _ _ _ _ Hs). split; simpl.
  - rewrite length_insert. apply Hok.
  - eapply slots_unique_update; [apply Hok|done..].
  - intros j x [(<- & <- & _)|[_ Hx]]%list_lookup_insert_Some; [rewrite E2|]; by eapply Hok.
Qed.

Lemma nd_step_ok t e : nd_ok t → nd_ok (nd_step t e).1.
Proof.
  intros Hok. destruct e; simpl.
  - pose proof (intern_ok id now t Hok). by destruct (intern id now t).
  - by apply nd_update_ok.
  - by apply nd_update_ok.
Qed.

(** One event, seen from an occupied slot. *)
Lemma nd_step_slot t e i s : nd_ok t → nd_slots t !! i = Some s → nd_used s = true →
  ∃ s', nd_slots (nd_step t e).1 !! i = Some s' ∧ nd_used s' = true ∧
    (if bool_decide ((nd_step t e).2 = Some (Z.of_nat i)) then nd_gen s' = u8 (nd_gen s + 1)
     else nd_gen s' = nd_gen s ∧ nd_id s' = nd_id s).
Proof.
  intros Hok Hs Hu.
  assert (∀ i s, nd_slots t !! i = Some s → u8 (Z.of_nat i) = Z.of_nat i) as Hu8.
  { intros j x Hx%lookup_lt_Some. rewrite (ndk_len _ Hok) in Hx. zlia. }
  destruct e as [id now|r pub|r on]; simpl.
  - pose proof (intern_spec id now t) as Hc. destruct (intern id now t) as [t' r]. cbn [fst snd] in Hc.
    destruct Hc as [j x Hx Hxu Hid|j x Hf Hx Hxu|j x Hf Hx Hp Hall|Hf Hall];
      cbn [fst snd nd_slots nd_last_evicted ref_idx].
    + rewrite bool_decide_eq_false_2 by done. destruct (decide (j = i)) as [->|Hne].
      * rewrite list_lookup_insert_eq by (by eapply lookup_lt_Some).
        exists (nd_touch now x). replace x with s by congruence. done.
      * rewrite list_lookup_insert_ne by done. eauto.
    + rewrite bool_decide_eq_false_2 by done.
      assert (j ≠ i) by congruence. rewrite list_lookup_insert_ne by done. eauto.
    + rewrite (Hu8 _ _ Hx). destruct (decide (j = i)) as [->|Hne].
      * rewrite bool_decide_eq_true_2, list_lookup_insert_eq by (done || by eapply lookup_lt_Some).
        eexists. split; [done|]. replace x with s by congruence. done.
      * rewrite bool_decide_eq_false_2 by (intros [= ?]; lia).
        rewrite list_lookup_insert_ne by done. eauto.
    + rewrite bool_decide_eq_false_2 by done. eauto.
  - destruct (nd_update_slot (λ s, mkNd (nd_id s) (nd_last_ms s) (nd_used s) true (nd_pinned s)
      (nd_gen s) pub) r t i s Hs) as (s' & H1 & H2 & H3 & H4); [done|].
    exists s'. rewrite H2, H3, H4. done.
  - destruct (nd_update_slot (λ s, mkNd (nd_id s) (nd_last_ms s) (nd_used s) (nd_verified s) on
      (nd_gen s) (nd_pub s)) r t i s Hs) as (s' & H1 & H2 & H3 & H4); [done|].
    exists s'. rewrite H2, H3, H4. done.
Qed.

Lemma nd_run_slot i es t s : nd_ok t → 0 <= i → nd_slots t !! Z.to_nat i = Some s → nd_used s = true →
  ∃ s', nd_slots (nd_run i es t).1 !! Z.to_nat i = Some s' ∧ nd_used s' = true ∧
    0 <= (nd_run i es t).2 ∧ nd_gen s' = u8 (nd_gen s + (nd_run i es t).2) ∧
    ((nd_run i es t).2 = 0 → nd_id s' = nd_id s).
Proof.
  intros Hok Hi. revert t Hok s. induction es as [|e es IH]; intros t Hok s Hs Hu; simpl.
  { exists s. split; [done|]. split; [done|]. split; [lia|]. split; [|done].
    rewrite Z.add_0_r, u8_small; [done|]. by eapply ndk_gen. }
  destruct (nd_step_slot t e _ s Hok Hs Hu) as (s1 & Hs1 & Hu1 & Hc).
  rewrite Z2Nat.id in Hc by done.
  pose proof (nd_step_ok t e Hok) as Hok1. destruct (nd_step t e) as [t1 ev]. cbn [fst snd] in *.
  destruct (IH t1 Hok1 s1 Hs1 Hu1) as (s2 & Hs2 & Hu2 & Hk & Hg & Hid).
  destruct (nd_run i es t1) as [t2 k]. cbn [fst snd] in *.
  exists s2. split; [done|]. split; [done|]. case_bool_decide.
  - split; [lia|]. split; [rewrite Hg, Hc; zlia|]. lia.
  - destruct Hc as [Hc1 Hc2]. split; [lia|]. split; [rewrite Hg, Hc1; f_equal; lia|].
    intros ?. rewrite Hid by lia. done.
Qed.

(** A handle never names a different node, as long as its slot has been
    recycled fewer than 256 times: after any history of interning, pinning and
    verifying, a handle that was live still resolves to its node when its slot
    was never evicted, and is reported stale when it was evicted between 1 and
    255 times (the generation tag has 8 bits). *)
Theorem handle_never_aliases (t : NodeTable) (r : node_ref) (id : NodeId) (es : list nd_event)
    (Hok : nd_ok t) (Hidx : 0 <= ref_idx r) (Hr : resolve r t = Some id)
    (Hk : (nd_run (ref_idx r) es t).2 < 256) :
  resolve r (nd_run (ref_idx r) es t).1 =
  if (nd_run (ref_idx r) es t).2 =? 0 then Some id else None.
Proof.
  unfold resolve in *. destruct (nd_live r t) as [s|] eqn:Hl; [|done]. injection Hr as <-.
  apply nd_live_Some in Hl as (Hi & Hs & Hu & Hg).
  destruct (nd_run_slot _ es t s Hok Hidx Hs Hu) as (s' & Hs' & Hu' & Hk0 & Hg' & Hid).
  pose proof (ndk_gen _ Hok _ _ Hs) as Hgs.
  destruct (nd_run (ref_idx r) es t) as [t' k]. cbn [fst snd] in *.
  destruct (Z.eqb_spec k 0) as [->|Hne].
  - erewrite nd_live_intro; [simpl; by rewrite Hid|done|done|done|]. rewrite Hg'. zlia.
  - unfold nd_live. rewrite (proj2 (Z.leb_gt _ _)), Hs' by done. simpl. rewrite Hu'. simpl.
    rewrite (proj2 (Z.eqb_neq _ _)); [done|]. rewrite Hg'. zlia.
Qed.

(** A full table of 64 nodes in which all but slot 0 are pinned. *)
Definition nd_full : NodeTable :=
  let t := fold_left (λ t k, (intern (nid_from_u32 k) k t).1) (seqZ 1 64) NodeTable_init in
  fold_left (λ t k, pin (mkRef k 0) true t) (seqZ 1 63) t.

Lemma nd_full_ok : nd_ok nd_full.
Proof.
  unfold nd_full.
  assert (∀ l t, nd_ok t → nd_ok (fold_left (λ t k, pin (mkRef k 0) true t) l t)) as H1.
  { induction l as [|k l IH]; intros t Hok; simpl; [done|]. apply IH. by apply nd_update_ok. }
  assert (∀ l t, nd_ok t → nd_ok (fold_left (λ t k, (intern (nid_from_u32 k) k t).1) l t)) as H2.
  { induction l as [|k l IH]; intros t Hok; simpl; [done|]. apply IH. by apply intern_ok. }
  apply H1, H2, nd_init_ok.
Qed.

Example handle_never_aliases_witness :
  nd_ok nd_full ∧ resolve (mkRef 0 0) nd_full = Some (nid_from_u32 1) ∧
  resolve (mkRef 0 0) (nd_run 0 [NdIntern (nid_from_u32 100) 70] nd_full).1 = None.
Proof.
  split; [apply nd_full_ok|]. split; [by vm_compute|].
  assert ((nd_run 0 [NdIntern (nid_from_u32 100) 70] nd_full).2 = 1) as Hk by (by vm_compute).
  assert (resolve (mkRef 0 0) nd_full = Some (nid_from_u32 1)) as Hr by (by vm_compute).
  pose proof (handle_never_aliases nd_full (mkRef 0 0) (nid_from_u32 1)
    [NdIntern (nid_from_u32 100) 70] nd_full_ok) as H.
  cbn [ref_idx] in H. rewrite Hk in H. rewrite H; [done|lia|exact Hr|lia].
Defined.

(** The bound is sharp: after 256 evictions of the slot the old handle resolves
    again, to another node. *)
Lemma handle_aliases_after_256 :
  resolve (mkRef 0 0)
    (nd_run 0 ((λ k, NdIntern (nid_from_u32 k) k) <$> seqZ 100 256) nd_full).1 =
  Some (nid_from_u32 355).
Proof. by vm_compute. Qed.
