(* ===== verification/Telemetry.v ===== *)
(** lib/mesh/telemetry.{h,cpp}: battery floods, status queries and replies, and
    the battery cache. *)
From S2P Require Import Prelude Reader SlotTable MeshTypes.

Definition TELEM_BATT : Z := 1.
Definition TELEM_QUERY : Z := 2.
Definition TELEM_REPLY : Z := 3.
Definition TELEM_FW_MAX : Z := 12.
Definition TELEM_NAME_MAX : Z := 20.
Definition TELEM_NBR_MAX : Z := 16.
Definition TELEM_CACHE_CAP : Z := 16.
Definition TELEM_FLAG_MOBILE : Z := 1.
Definition TELEM_FLAG_BLE : Z := 2.

Record TelemNbr := mkTNbr { tn_id : NodeId; tn_q_rx : Z; tn_q_tx : Z; tn_snr : Z; tn_rssi : Z }.

(** The char arrays [fw], [name] are the strings they hold; [nbrs[0 .. n_nbrs)]
    is a list. *)
Record TelemMsg := mkTMsg {
  tm_kind : Z; tm_mv : Z; tm_pct_plus1 : Z; tm_target : NodeId; tm_uptime_min : Z;
  tm_power_dbm : Z; tm_sf : Z; tm_flags : Z; tm_fw : bytes; tm_name : bytes;
  tm_nbrs : list TelemNbr }.

(** ** Builders ([None]: the code returns 0) *)

Definition telem_build_batt (mv pct_plus1 cap : Z) : option bytes :=
  if cap <? 4 then None else Some ([TELEM_BATT] ++ put_u16 mv ++ [pct_plus1]).

Definition telem_build_query (target : NodeId) (cap : Z) : option bytes :=
  if (cap <? 17) || is_zero target then None else Some ([TELEM_QUERY] ++ nid_write target).

(** [while (s && s[n] && n < max) n++;] on a C string given with its NUL;
    [None] is the null pointer. *)
Fixpoint c_prefix (fuel : nat) (s : bytes) : bytes :=
  match fuel, s with
  | S fuel, c :: s => if c =? 0 then [] else c :: c_prefix fuel s
  | _, _ => []
  end.
Definition c_str_max (max : Z) (s : option bytes) : bytes :=
  match s with Some s => c_prefix (Z.to_nat max) s | None => [] end.

Definition tnbr_bytes (n : TelemNbr) : bytes :=
  nid_write (tn_id n) ++ [tn_q_rx n] ++ [tn_q_tx n] ++ [u8 (tn_snr n)] ++ put_u16 (u16 (tn_rssi n)).

Definition telem_build_reply (mv pct_plus1 uptime_min power_dbm sf flags : Z)
    (fw name : option bytes) (nbrs : list TelemNbr) (cap : Z) : option bytes :=
  let fw := c_str_max TELEM_FW_MAX fw in
  let name := c_str_max TELEM_NAME_MAX name in
  let nbrs := take (Z.to_nat TELEM_NBR_MAX) nbrs in
  let need := u16 (10 + zlen fw + 1 + zlen name + 1 + zlen nbrs * 21) in
  if cap <? need then None else
  Some ([TELEM_REPLY] ++ put_u16 mv ++ [pct_plus1] ++ put_u16 uptime_min ++ [u8 power_dbm]
    ++ [sf] ++ [flags] ++ [zlen fw] ++ fw ++ [zlen name] ++ name ++ [zlen nbrs]
    ++ flat_map tnbr_bytes nbrs).

(** ** Parser *)

Definition telem_default (kind : Z) : TelemMsg := mkTMsg kind 0 0 nid_zero 0 0 0 0 [] [] [].

Definition tnbr_read (msg : bytes) (p : Z) : res TelemNbr :=
  id ← nid_read msg p; q_rx ← rd msg (p + 16); q_tx ← rd msg (p + 17); snr ← rd msg (p + 18);
  rssi ← rd_u16 msg (p + 19);
  Ok (mkTNbr id q_rx q_tx (i8 snr) (i16 rssi)).

Definition telem_parse_reply (msg : bytes) : res TelemMsg :=
  let len := zlen msg in
  _ ← guard (11 <=? len);
  mv ← rd_u16 msg 1; pct_plus1 ← rd msg 3; uptime_min ← rd_u16 msg 4; power ← rd msg 6;
  sf ← rd msg 7; flags ← rd msg 8; fw_len ← rd msg 9;
  _ ← guard (negb ((TELEM_FW_MAX <? fw_len) || (len <? 10 + fw_len + 1)));
  fw ← rdn msg 10 fw_len;
  _ ← wr (TELEM_FW_MAX + 1) 0 (fw_len + 1);
  let p := 10 + fw_len in
  name_len ← rd msg p;
  _ ← guard (negb ((TELEM_NAME_MAX <? name_len) || (len <? p + 1 + name_len + 1)));
  name ← rdn msg (p + 1) name_len;
  _ ← wr (TELEM_NAME_MAX + 1) 0 (name_len + 1);
  let p := p + 1 + name_len in
  n ← rd msg p;
  _ ← guard (negb ((TELEM_NBR_MAX <? n) || (len <? p + 1 + n * 21)));
  nbrs ← parse_n tnbr_read 21 (Z.to_nat n) msg (p + 1);
  nbrs ← into TELEM_NBR_MAX nbrs;
  Ok (mkTMsg TELEM_REPLY mv pct_plus1 nid_zero uptime_min (i8 power) sf flags fw name nbrs).

Definition telem_parse (msg : bytes) : res TelemMsg :=
  let len := zlen msg in
  _ ← guard (1 <=? len);
  kind ← rd msg 0;
  if kind =? TELEM_BATT then
    _ ← guard (4 <=? len);
    mv ← rd_u16 msg 1; pct_plus1 ← rd msg 3;
    Ok (mkTMsg kind mv pct_plus1 nid_zero 0 0 0 0 [] [] [])
  else if kind =? TELEM_QUERY then
    _ ← guard (17 <=? len);
    target ← nid_read msg 1;
    _ ← guard (negb (is_zero target));
    Ok (mkTMsg kind 0 0 target 0 0 0 0 [] [] [])
  else if kind =? TELEM_REPLY then telem_parse_reply msg
  else Rej.

(** ** Battery cache *)

Record TelemEntry := mkTE { te_origin : NodeId; te_mv : Z; te_pct_plus1 : Z; te_ms : Z; te_used : bool }.
Definition TelemEntry_default : TelemEntry := mkTE nid_zero 0 0 0 false.
Abbreviation TelemCache := (list TelemEntry).
Definition TelemCache_init : TelemCache := replicate 16 TelemEntry_default.

(** [slot = &e_[0]; for (e : e_) if ((int32_t)(e.ms - slot->ms) < 0) slot = &e;] *)
Fixpoint stalest_from (i : nat) (l : list TelemEntry) (best : nat) (best_ms : Z) : nat :=
  match l with
  | [] => best
  | e :: l =>
      if i32 (te_ms e - best_ms) <? 0 then stalest_from (S i) l i (te_ms e)
      else stalest_from (S i) l best best_ms
  end.
Definition stalest (l : list TelemEntry) : nat :=
  match l with [] => O | e :: _ => stalest_from 0 l 0 (te_ms e) end.

Definition te_slot (origin : NodeId) (c : TelemCache) : nat :=
  match find_index (λ e, te_used e && nid_eqb (te_origin e) origin) c with
  | Some i => i
  | None =>
      match find_index (λ e, negb (te_used e)) c with
      | Some i => i
      | None => stalest c
      end
  end.

Definition telem_upsert (origin : NodeId) (mv pct_plus1 now_ms : Z) (c : TelemCache) : TelemCache :=
  <[te_slot origin c := mkTE origin mv pct_plus1 now_ms true]> c.

(** [(origin, mv, pct_plus1, age_ms)] *)
Definition telem_snapshot (cap now_ms : Z) (c : TelemCache) : list (NodeId * Z * Z * Z) :=
  take (Z.to_nat cap)
    ((λ e, (te_origin e, te_mv e, te_pct_plus1 e, u32 (now_ms - te_ms e))) <$>
      filter (λ e, te_used e = true) c).

(** ** Untrusted input *)

Definition wf_tnbr (n : TelemNbr) : Prop :=
  wf_nid (tn_id n) ∧ is_u8 (tn_q_rx n) ∧ is_u8 (tn_q_tx n) ∧ is_i8 (tn_snr n) ∧ is_i16 (tn_rssi n).

Lemma tnbr_read_safe b o : wf_bytes b → 0 <= o → o + 21 <= zlen b → safe (tnbr_read b o) wf_tnbr.
Proof.
  intros Hb Ho Hl. apply safe_bind, safe_nid_read; [done|lia|lia|intros id Hid].
  repeat (safe_step; try lia). unfold wf_tnbr. simpl.
  auto 6 using i8_range, i16_range.
Qed.

Record tmsg_ok (m : TelemMsg) : Prop := {
  tmo_kind : tm_kind m = TELEM_BATT ∨ tm_kind m = TELEM_QUERY ∨ tm_kind m = TELEM_REPLY;
  tmo_mv : is_u16 (tm_mv m);
  tmo_pct : is_u8 (tm_pct_plus1 m);
  tmo_target : wf_nid (tm_target m) ∧ (tm_kind m = TELEM_QUERY → tm_target m ≠ nid_zero);
  tmo_uptime : is_u16 (tm_uptime_min m);
  tmo_power : is_i8 (tm_power_dbm m);
  tmo_fw : zlen (tm_fw m) <= TELEM_FW_MAX;
  tmo_name : zlen (tm_name m) <= TELEM_NAME_MAX;
  tmo_strs : wf_bytes (tm_fw m) ∧ wf_bytes (tm_name m);
  tmo_nbrs : Forall wf_tnbr (tm_nbrs m) ∧ zlen (tm_nbrs m) <= TELEM_NBR_MAX;
  tmo_none : tm_kind m ≠ TELEM_REPLY → tm_nbrs m = [] }.

(** Shared by the receive path. *)
Lemma telem_parse_good msg : wf_bytes msg → safe (telem_parse msg) tmsg_ok.
Proof.
  intros Hb.
  unfold telem_parse. safe_step. safe_step. apply Z.leb_le in H. safe_step. safe_step; [lia|].
  destruct (Z.eqb_spec v TELEM_BATT) as [->|Hk1]; [|destruct (Z.eqb_spec v TELEM_QUERY) as [->|Hk2];
    [|destruct (Z.eqb_spec v TELEM_REPLY) as [->|Hk3]; [|done]]].
  - repeat (safe_step; bools; try lia). split; simpl; auto using wf_nid_zero; try zlia.
    all: unfold zlen; simpl; unfold TELEM_FW_MAX, TELEM_NAME_MAX, TELEM_NBR_MAX; try by auto with lia.
    split; constructor.
  - safe_step. safe_step. bools. safe_step. apply safe_nid_read; [done|lia|lia|intros id Hid].
    repeat (safe_step; bools; try lia). split; simpl; auto; try zlia.
    + split; [done|]. intros _. by apply nid_eqb_neq.
    + unfold zlen; simpl; unfold TELEM_FW_MAX. lia.
    + unfold zlen; simpl; unfold TELEM_NAME_MAX. lia.
    + split; constructor.
    + split; [done|]. unfold zlen; simpl; unfold TELEM_NBR_MAX. lia.
  - unfold telem_parse_reply. repeat (safe_step; bools; unfold is_u8 in *; try lia).
    eapply safe_parse_n; [lia|lia|rewrite Z2Nat.id by lia; lia|..].
    { intros o Ho Hl. by apply tnbr_read_safe. }
    intros nbrs Hn Hnl. apply safe_bind, safe_into; [lia|]. apply safe_ok. split; simpl; auto using wf_nid_zero, i8_range.
    + lia.
    + lia.
    + split; [done|]. rewrite Z2Nat.id in Hnl by lia. lia.
    + done.
Qed.

(** no radio input can break the telemetry parser. For every byte string,
    [telem_parse] rejects it or reads only inside it, and what it accepts fits
    the fixed fields: strings within their arrays, at most 16 neighbours, every
    integer in its width, and a query always names a non-zero target. *)
Theorem telem_parse_safe (msg : bytes) (Hb : wf_bytes msg) : safe (telem_parse msg) tmsg_ok.
Proof. by apply telem_parse_good. Qed.

Example telem_parse_safe_witness :
  wf_bytes [3; 1; 2; 3; 4; 5; 6; 7; 8; 200; 1; 2] ∧
  telem_parse [3; 1; 2; 3; 4; 5; 6; 7; 8; 200; 1; 2] ≠ Oob.
Proof.
  assert (wf_bytes [3; 1; 2; 3; 4; 5; 6; 7; 8; 200; 1; 2]) as Hw by (each; zlia).
  split; [done|]. by eapply safe_not_oob, telem_parse_safe.
Defined.

(** ** Round trips *)

Lemma c_prefix_spec fuel s : wf_bytes s →
  wf_bytes (c_prefix fuel s) ∧ (length (c_prefix fuel s) <= fuel)%nat ∧ (0 ∉ c_prefix fuel s).
Proof.
  revert s. induction fuel as [|fuel IH]; intros s Hs; simpl.
  { split; [constructor|]. split; [lia|]. by intros ?%elem_of_nil. }
  destruct Hs as [|c s Hc Hs]; [split; [constructor|]; split; [simpl; lia|]; by intros ?%elem_of_nil|].
  destruct (Z.eqb_spec c 0); [split; [constructor|]; split; [simpl; lia|]; by intros ?%elem_of_nil|].
  destruct (IH s Hs) as (H1 & H2 & H3). split; [by constructor|]. split; [simpl; lia|].
  intros [?|?]%elem_of_cons; [congruence|done].
Qed.

Lemma c_str_max_len max s : 0 <= max → (∀ b, s = Some b → wf_bytes b) →
  wf_bytes (c_str_max max s) ∧ zlen (c_str_max max s) <= max.
Proof.
  intros Hm Hs. destruct s as [s|]; simpl; [|split; [constructor|done]].
  destruct (c_prefix_spec (Z.to_nat max) s (Hs _ eq_refl)) as (H1 & H2 & _).
  split; [done|]. unfold zlen. lia.
Qed.

Lemma at_tnbr_read b n o r : wf_tnbr n → at_ b o (tnbr_bytes n ++ r) → tnbr_read b o = Ok n.
Proof.
  intros (Hid & H1 & H2 & H3 & H4) H. unfold tnbr_read, tnbr_bytes in *. rewrite <- !app_assoc in H.
  rewrite (at_nid_read _ _ _ _ Hid H). cbn [mbind res_bind].
  apply (at_move _ _ (o + 16)) in H; [|rewrite zlen_nid_write by done; lia].
  rewrite (at_rd _ _ _ _ H). cbn [mbind res_bind].
  apply (at_move _ _ (o + 17)) in H; [|rewrite zlen_cons, zlen_nil; lia].
  rewrite (at_rd _ _ _ _ H). cbn [mbind res_bind].
  apply (at_move _ _ (o + 18)) in H; [|rewrite zlen_cons, zlen_nil; lia].
  rewrite (at_rd _ _ _ _ H). cbn [mbind res_bind].
  apply (at_move _ _ (o + 19)) in H; [|rewrite zlen_cons, zlen_nil; lia].
  rewrite (at_rd_u16 _ _ _ _ H) by apply u16_range. cbn [mbind res_bind].
  rewrite i8_u8, i16_u16 by done. by destruct n.
Qed.

Lemma zlen_tnbr_bytes n : wf_tnbr n → zlen (tnbr_bytes n) = 21.
Proof. intros ([H _] & _). unfold tnbr_bytes, nid_write. by rewrite !zlen_app, H. Qed.

(** Step over the field just read. *)
Ltac at_field H j :=
  apply (at_move _ _ j) in H; [|rewrite ?zlen_put_u16, ?zlen_cons, ?(zlen_nil (A:=Z)); lia].

(** The reply's fields, in order. *)
Lemma telem_reply_read mv pct up pw sf flags fw name nbrs :
  is_u16 mv → is_u8 pct → is_u16 up → is_i8 pw →
  zlen fw <= TELEM_FW_MAX → zlen name <= TELEM_NAME_MAX →
  Forall wf_tnbr nbrs → zlen nbrs <= TELEM_NBR_MAX →
  telem_parse ([TELEM_REPLY] ++ put_u16 mv ++ [pct] ++ put_u16 up ++ [u8 pw]
    ++ [sf] ++ [flags] ++ [zlen fw] ++ fw ++ [zlen name] ++ name ++ [zlen nbrs]
    ++ flat_map tnbr_bytes nbrs) =
  Ok (mkTMsg TELEM_REPLY mv pct nid_zero up pw sf flags fw name nbrs).
Proof.
  intros Hmv Hpct Hup Hpw Hfw Hname Hn Hnl. set (msg := _ ++ _).
  assert (zlen (flat_map tnbr_bytes nbrs) = 21 * zlen nbrs) as Hz.
  { apply zlen_flat_map. eapply Forall_impl; [exact Hn|]. apply zlen_tnbr_bytes. }
  assert (zlen msg = 10 + zlen fw + 1 + zlen name + 1 + 21 * zlen nbrs) as Hlen.
  { unfold msg. rewrite !zlen_app, Hz, !zlen_put_u16, !zlen_cons, !(zlen_nil (A:=Z)). lia. }
  pose proof (zlen_nonneg fw). pose proof (zlen_nonneg name). pose proof (zlen_nonneg nbrs).
  assert (at_ msg 0 ([TELEM_REPLY] ++ put_u16 mv ++ [pct] ++ put_u16 up ++ [u8 pw]
    ++ [sf] ++ [flags] ++ [zlen fw] ++ fw ++ [zlen name] ++ name ++ [zlen nbrs]
    ++ flat_map tnbr_bytes nbrs)) as Hat by apply at_start.
  clearbody msg. unfold telem_parse, telem_parse_reply, guard.
  rewrite (proj2 (Z.leb_le 1 (zlen msg))), (proj2 (Z.leb_le 11 (zlen msg))) by lia.
  cbn [mbind res_bind]. rewrite (at_rd _ _ _ _ Hat). cbn [mbind res_bind].
  change (TELEM_REPLY =? TELEM_BATT) with false. change (TELEM_REPLY =? TELEM_QUERY) with false.
  rewrite Z.eqb_refl. cbv iota.
  at_field Hat 1. rewrite (at_rd_u16 _ _ _ _ Hat) by done. cbn [mbind res_bind].
  at_field Hat 3. rewrite (at_rd _ _ _ _ Hat). cbn [mbind res_bind].
  at_field Hat 4. rewrite (at_rd_u16 _ _ _ _ Hat) by done. cbn [mbind res_bind].
  at_field Hat 6. rewrite (at_rd _ _ _ _ Hat). cbn [mbind res_bind].
  at_field Hat 7. rewrite (at_rd _ _ _ _ Hat). cbn [mbind res_bind].
  at_field Hat 8. rewrite (at_rd _ _ _ _ Hat). cbn [mbind res_bind].
  at_field Hat 9. rewrite (at_rd _ _ _ _ Hat). cbn [mbind res_bind].
  rewrite !(proj2 (Z.ltb_ge _ _)) by lia. cbn [orb negb mbind res_bind].
  at_field Hat 10. rewrite (at_rdn _ _ _ _ _ Hat) by done. cbn [mbind res_bind]. rewrite wr_ok by lia. cbn [mbind res_bind].
  at_field Hat (10 + zlen fw). rewrite (at_rd _ _ _ _ Hat). cbn [mbind res_bind].
  rewrite !(proj2 (Z.ltb_ge _ _)) by lia. cbn [orb negb mbind res_bind].
  at_field Hat (10 + zlen fw + 1). rewrite (at_rdn _ _ _ _ _ Hat) by done. cbn [mbind res_bind].
  rewrite wr_ok by lia. cbn [mbind res_bind].
  at_field Hat (10 + zlen fw + 1 + zlen name). rewrite (at_rd _ _ _ _ Hat). cbn [mbind res_bind].
  rewrite !(proj2 (Z.ltb_ge _ _)) by lia. cbn [orb negb mbind res_bind].
  at_field Hat (10 + zlen fw + 1 + zlen name + 1).
  rewrite to_nat_zlen. rewrite <- (app_nil_r (flat_map _ _)) in Hat.
  destruct (at_parse_n tnbr_read tnbr_bytes id wf_tnbr 21 nbrs msg _ [] zlen_tnbr_bytes
    ltac:(intros x o r Hx Ho; by apply (at_tnbr_read _ _ _ _ Hx Ho)) Hn Hat) as [-> _].
  cbn [mbind res_bind]. rewrite list_fmap_id, into_ok by lia. cbn [mbind res_bind]. by rewrite i8_u8.
Qed.

(** A reply is built exactly when it fits, and its size. *)
Lemma telem_build_reply_eq mv pct up pw sf flags fw name nbrs cap :
  (∀ b, fw = Some b → wf_bytes b) → (∀ b, name = Some b → wf_bytes b) → Forall wf_tnbr nbrs →
  let f := c_str_max TELEM_FW_MAX fw in
  let n := c_str_max TELEM_NAME_MAX name in
  let l := take (Z.to_nat TELEM_NBR_MAX) nbrs in
  let msg := [TELEM_REPLY] ++ put_u16 mv ++ [pct] ++ put_u16 up ++ [u8 pw]
    ++ [sf] ++ [flags] ++ [zlen f] ++ f ++ [zlen n] ++ n ++ [zlen l] ++ flat_map tnbr_bytes l in
  zlen msg = 12 + zlen f + zlen n + 21 * zlen l ∧
  telem_build_reply mv pct up pw sf flags fw name nbrs cap = if cap <? zlen msg then None else Some msg.
Proof.
  intros Hfw Hname Hn f n l msg.
  destruct (c_str_max_len TELEM_FW_MAX fw) as [_ Hfl]; [done|done|].
  destruct (c_str_max_len TELEM_NAME_MAX name) as [_ Hnl]; [done|done|]. fold f in Hfl. fold n in Hnl.
  assert (Forall wf_tnbr l) as Hl by (by apply Forall_take).
  assert (zlen l <= TELEM_NBR_MAX) as Hll by (unfold l, zlen; rewrite length_take; unfold TELEM_NBR_MAX; lia).
  assert (zlen (flat_map tnbr_bytes l) = 21 * zlen l) as Hz.
  { apply zlen_flat_map. eapply Forall_impl; [exact Hl|]. apply zlen_tnbr_bytes. }
  assert (zlen msg = 12 + zlen f + zlen n + 21 * zlen l) as Hm.
  { unfold msg. rewrite !zlen_app, Hz, !zlen_put_u16, !zlen_cons, !(zlen_nil (A:=Z)). lia. }
  split; [done|]. unfold telem_build_reply. fold f n l. rewrite Hm.
  pose proof (zlen_nonneg f). pose proof (zlen_nonneg n). pose proof (zlen_nonneg l).
  unfold TELEM_FW_MAX, TELEM_NAME_MAX, TELEM_NBR_MAX in *.
  rewrite u16_small by (unfold is_u16; lia).
  by replace (10 + zlen f + 1 + zlen n + 1 + zlen l * 21) with (12 + zlen f + zlen n + 21 * zlen l) by lia.
Qed.

(** telemetry survives the air. A battery report, a query and a status
    reply that the builders accept are parsed back field for field (the
    strings cut to 12 and 20 characters, the neighbours to the first 16, signed
    fields with their sign), and a reply is built exactly when it fits. *)
Theorem telem_roundtrip (mv pct up pw sf flags cap : Z) (fw name : option bytes)
    (nbrs : list TelemNbr) (target : NodeId)
    (Hmv : is_u16 mv) (Hpct : is_u8 pct) (Hup : is_u16 up) (Hpw : is_i8 pw)
    (Hfw : ∀ b, fw = Some b → wf_bytes b) (Hname : ∀ b, name = Some b → wf_bytes b)
    (Hn : Forall wf_tnbr nbrs) (Ht : wf_nid target) (Ht0 : target ≠ nid_zero) :
  (∀ m, telem_build_batt mv pct cap = Some m →
     telem_parse m = Ok (mkTMsg TELEM_BATT mv pct nid_zero 0 0 0 0 [] [] [])) ∧
  (∀ m, telem_build_query target cap = Some m →
     telem_parse m = Ok (mkTMsg TELEM_QUERY 0 0 target 0 0 0 0 [] [] [])) ∧
  (∀ m, telem_build_reply mv pct up pw sf flags fw name nbrs cap = Some m →
     zlen m <= cap ∧
     telem_parse m = Ok (mkTMsg TELEM_REPLY mv pct nid_zero up pw sf flags
       (c_str_max TELEM_FW_MAX fw) (c_str_max TELEM_NAME_MAX name) (take 16 nbrs))).
Proof.
  split; [|split].
  - unfold telem_build_batt. destruct (cap <? 4); [done|]. intros m [= <-].
    unfold telem_parse, guard. simpl.
    change (rd_u16 _ 1) with (Ok (A:=Z) (le16 (u8 mv) (u8 (Z.shiftr mv 8)))). simpl.
    by rewrite le16_put_u16.
  - unfold telem_build_query. destruct (_ || _); [done|]. intros m [= <-].
    set (m := TELEM_QUERY :: _).
    assert (at_ m 1 (nid_write target ++ [])) as Hat
      by (rewrite app_nil_r; apply (at_next m 0 TELEM_QUERY), at_start).
    assert (zlen m = 17) as Hl by (unfold m; rewrite zlen_cons, zlen_nid_write; done).
    unfold telem_parse, guard. rewrite Hl. cbn [Z.leb mbind res_bind].
    change (rd m 0) with (Ok (A:=Z) TELEM_QUERY). cbn [mbind res_bind].
    change (TELEM_QUERY =? TELEM_BATT) with false. rewrite Z.eqb_refl.
    rewrite (at_nid_read _ _ _ _ Ht Hat). cbn [mbind res_bind]. unfold is_zero.
    by rewrite (proj2 (nid_eqb_neq target nid_zero)).
  - intros m Hm. destruct (telem_build_reply_eq mv pct up pw sf flags fw name nbrs cap Hfw Hname Hn) as [Hz He].
    rewrite He in Hm. set (msg := [TELEM_REPLY] ++ _) in *. destruct (Z.ltb_spec cap (zlen msg)); [done|].
    apply (inj Some) in Hm. subst m. split; [done|]. change (Z.to_nat TELEM_NBR_MAX) with 16%nat in msg.
    destruct (c_str_max_len TELEM_FW_MAX fw) as [_ Hfl]; [done|done|].
    destruct (c_str_max_len TELEM_NAME_MAX name) as [_ Hnl]; [done|done|].
    apply telem_reply_read; try done; [by apply Forall_take|].
    unfold zlen. rewrite length_take. unfold TELEM_NBR_MAX. lia.
Qed.

Definition tnbr_ex : TelemNbr := mkTNbr (nid_from_u32 9) 80 70 (-5) (-101).

Example telem_roundtrip_witness :
  wf_tnbr tnbr_ex ∧
  ∃ m, telem_build_reply 4100 88 60 (-9) 11 1 (Some [50; 46; 49; 0]) None [tnbr_ex] 214 = Some m ∧
    telem_parse m = Ok (mkTMsg TELEM_REPLY 4100 88 nid_zero 60 (-9) 11 1 [50; 46; 49] [] [tnbr_ex]).
Proof.
  assert (wf_tnbr tnbr_ex) as Hw
    by (unfold wf_tnbr; simpl; split; [apply wf_nid_u32|repeat split; zlia]).
  split; [done|].
  destruct (telem_build_reply 4100 88 60 (-9) 11 1 (Some [50; 46; 49; 0]) None [tnbr_ex] 214)
    as [m|] eqn:Hm; [|by vm_compute in Hm].
  exists m. split; [done|].
  apply (telem_roundtrip 4100 88 60 (-9) 11 1 214 (Some [50; 46; 49; 0]) None [tnbr_ex] (nid_from_u32 9));
    try zlia; try done.
  - intros b [= <-]. each; zlia.
  - by each.
  - apply wf_nid_u32.
Defined.

(** ** The battery cache as a finite map *)

Record telem_ok (c : TelemCache) : Prop := {
  tco_len : length c = 16%nat;
  tco_keys : slots_unique te_used te_origin c }.

Definition telem_map (c : TelemCache) : gmap NodeId TelemEntry := slots_map te_used te_origin c.

Lemma telem_init_ok : telem_ok TelemCache_init.
Proof. split; [done|by apply slots_unique_replicate]. Qed.

Lemma stalest_from_lt i l best ms : (best < i + length l)%nat →
  (stalest_from i l best ms < i + length l)%nat.
Proof.
  revert i best ms. induction l as [|e l IH]; intros i best ms Hb; simpl in *; [done|].
  rewrite <- Nat.add_succ_comm in *. destruct (_ <? 0); apply IH; lia.
Qed.

Lemma stalest_lt c : (0 < length c)%nat → (stalest c < length c)%nat.
Proof. destruct c as [|e c]; [simpl; lia|]. intros _. apply (stalest_from_lt 0). simpl. lia. Qed.

(** The scan finds the oldest entry, provided no entry is older than 2^31 ms. *)
Lemma stalest_from_max now i l best ms e0 (pre : list TelemEntry) :
  (∀ e, e ∈ pre ++ l → u32 (now - te_ms e) < 2147483648) →
  length pre = i → pre !! best = Some e0 → te_ms e0 = ms →
  (∀ e, e ∈ pre → u32 (now - te_ms e) <= u32 (now - ms)) →
  ∃ e', (pre ++ l) !! stalest_from i l best ms = Some e' ∧
    ∀ e, e ∈ pre ++ l → u32 (now - te_ms e) <= u32 (now - te_ms e').
Proof.
  revert i best ms e0 pre. induction l as [|x l IH]; intros i best ms e0 pre Hage Hlen Hb Hms Hmax.
  { simpl. rewrite app_nil_r. exists e0. split; [done|]. by rewrite Hms. }
  assert (u32 (now - te_ms x) < 2147483648) as Hx
    by (apply Hage, elem_of_app; right; by left).
  assert (u32 (now - ms) < 2147483648) as Hm
    by (rewrite <- Hms; apply Hage, elem_of_app; left; apply list_elem_of_lookup; eauto).
  rewrite (cons_middle x pre l), app_assoc in *. simpl stalest_from.
  destruct (Z.ltb_spec (i32 (te_ms x - ms)) 0) as [Hlt|Hge].
  - apply (IH (S i) i (te_ms x) x); [done|rewrite length_app; simpl; lia| |done|].
    + rewrite lookup_app_r by lia. by rewrite Hlen, Nat.sub_diag.
    + intros e [He| ->%list_elem_of_singleton]%elem_of_app; [|done].
      specialize (Hmax e He). clear -Hmax Hlt Hx Hm. zlia.
  - apply (IH (S i) best ms e0); [done|rewrite length_app; simpl; lia| |done|].
    + rewrite lookup_app_l; [done|]. by eapply lookup_lt_Some.
    + intros e [He| ->%list_elem_of_singleton]%elem_of_app; [auto|]. clear -Hge Hx Hm. zlia.
Qed.

(** The battery cache remembers the newest reports. [upsert] always
    records the report under its origin. It forgets another origin only when
    all 16 slots hold other origins, then exactly one, and the one forgotten is
    the oldest report (ages counted mod 2^32 ms, for reports younger than
    2^31 ms); every other entry is untouched. *)
Lemma telem_upsert_spec (c : TelemCache) (origin : NodeId) (mv pct now : Z) (Hok : telem_ok c) :
  let e := mkTE origin mv pct now true in
  let c' := telem_upsert origin mv pct now c in
  telem_ok c' ∧
  (telem_map c' = <[origin := e]> (telem_map c) ∨
   ∃ old, telem_map c !! te_origin old = Some old ∧ telem_map c !! origin = None ∧
     (∀ x, x ∈ c → te_used x = true) ∧
     telem_map c' = <[origin := e]> (delete (te_origin old) (telem_map c)) ∧
     ((∀ x, x ∈ c → u32 (now - te_ms x) < 2147483648) →
      ∀ x, x ∈ c → u32 (now - te_ms x) <= u32 (now - te_ms old))).
Proof.
  destruct Hok as [Hlen Hkeys]. unfold telem_upsert, te_slot.
  set (e := mkTE origin mv pct now true). cbv zeta.
  destruct (find_index (λ e, te_used e && nid_eqb (te_origin e) origin) c) as [i|] eqn:Hf.
  { pose proof Hf as (s & Hs & Hu & Hk)%slot_find_Some. split; [split|left].
    - by rewrite length_insert.
    - by eapply slots_unique_update.
    - by apply slots_map_update. }
  destruct (find_index (λ e, negb (te_used e)) c) as [i|] eqn:Hfree.
  { split; [split|left].
    - by rewrite length_insert.
    - by apply slots_unique_fresh.
    - by apply slots_map_fresh. }
  pose proof (proj1 (slot_free_None te_used c) Hfree) as Hall.
  destruct (lookup_lt_is_Some_2 c (stalest c)) as [old Hold]; [apply stalest_lt; lia|].
  split; [split|right].
  - by rewrite length_insert.
  - by apply slots_unique_fresh.
  - exists old. split; [|split; [|split; [|split]]].
    + apply slots_map_lookup_Some; [done|]. eauto.
    + apply eq_None_not_Some. intros [x (i & Hi & Hu & Hk)%slots_map_lookup_Some]; [|done].
      by apply (proj1 (slot_find_None te_used te_origin origin c) Hf i x Hi Hu).
    + intros x [i Hi]%list_elem_of_lookup. eauto.
    + by apply slots_map_replace; eauto.
    + intros Hage. destruct c as [|e0 c]; [done|].
      assert (stalest (e0 :: c) = stalest_from 1 c 0 (te_ms e0)) as Hst
        by (simpl; by rewrite Z.sub_diag).
      destruct (stalest_from_max now 1 c 0 (te_ms e0) e0 [e0] Hage) as (e' & He' & Hmax);
        [done|done|done|by intros x ->%list_elem_of_singleton|].
      rewrite <- Hst in He'. simpl app in *. rewrite Hold in He'. by injection He' as <-.
Qed.

