(* ===== verification/Control.v ===== *)
(** lib/mesh/control.{h,cpp}: the signed control plane's codec and checks. *)
From S2P Require Import Prelude Reader MeshTypes Crypto.

(** enum CtrlCmd *)
Definition CTRL_POWER : Z := 1.
Definition CTRL_CONFIRM : Z := 2.
Definition CTRL_BLOCK : Z := 3.
Definition CTRL_UNBLOCK : Z := 4.
Definition CTRL_BLE : Z := 5.
Definition CTRL_RETUNE : Z := 6.

Inductive CtrlVerdict := CTRL_OK | CTRL_MALFORMED | CTRL_BAD_SIG | CTRL_REPLAY.
#[export] Instance CtrlVerdict_eq_dec : EqDecision CtrlVerdict.
Proof. solve_decision. Defined.

Definition CTRL_VER : Z := 2.
Definition CTRL_MSG_BYTES : Z := 23 + 64.
Definition CTRL_BLK_BYTES : Z := 39 + 64.
Definition CTRL_RETUNE_CFG : Z := 13.
Definition CTRL_RTN_BYTES : Z := 22 + CTRL_RETUNE_CFG + 64.
Definition CTRL_MAX_BYTES : Z := CTRL_BLK_BYTES.
Definition CTRL_ACK_BYTES : Z := 24.

Record CtrlMsg := mkCtrl {
  ct_cmd : Z; ct_target : NodeId; ct_arg : Z; ct_aux : NodeId; ct_counter : Z; ct_cfg : bytes }.
Definition CtrlMsg_default : CtrlMsg := mkCtrl 0 nid_zero 0 nid_zero 0 (replicate 13 0).
Record CtrlAck := mkAck {
  ak_cmd : Z; ak_origin : NodeId; ak_applied : Z; ak_provisional : Z; ak_counter : Z }.

(** "AGN-CTRL-1" *)
Definition DOMAIN : bytes := [65; 71; 78; 45; 67; 84; 82; 76; 45; 49].

Definition unsigned_len (cmd : Z) : Z :=
  if (cmd =? CTRL_BLOCK) || (cmd =? CTRL_UNBLOCK) then 39 else
  if cmd =? CTRL_RETUNE then 22 + CTRL_RETUNE_CFG else 23.
Definition known_cmd (cmd : Z) : bool :=
  (cmd =? CTRL_POWER) || (cmd =? CTRL_CONFIRM) || (cmd =? CTRL_BLOCK) || (cmd =? CTRL_UNBLOCK)
  || (cmd =? CTRL_BLE) || (cmd =? CTRL_RETUNE).

Definition signed_view (unsigned_part : bytes) : bytes := DOMAIN ++ unsigned_part.
Definition DOMAIN_VIEW_MAX : Z := zlen DOMAIN + 39.

Section control.
Context `{Crypto}.

(** The unsigned part is written into [out], then signed in place. *)
Definition ctrl_seal (seckey unsigned_part : bytes) : bytes :=
  unsigned_part ++ ed25519_sign seckey (signed_view unsigned_part).

(** Builders ([None]: the code returns 0). *)
Definition ctrl_build (cmd : Z) (target : NodeId) (arg counter : Z) (seckey : bytes) (cap : Z)
    : option bytes :=
  if (cap <? CTRL_MSG_BYTES) || is_zero target then None else
  if negb (cmd =? CTRL_POWER) && negb (cmd =? CTRL_CONFIRM) && negb (cmd =? CTRL_BLE) then None else
  Some (ctrl_seal seckey
          ([CTRL_VER] ++ [cmd] ++ nid_write target ++ [u8 arg] ++ put_u32 counter)).

Definition ctrl_build_block (cmd : Z) (target victim : NodeId) (ttl_min counter : Z)
    (seckey : bytes) (cap : Z) : option bytes :=
  if (cap <? CTRL_BLK_BYTES) || is_zero target || is_zero victim then None else
  if negb (cmd =? CTRL_BLOCK) && negb (cmd =? CTRL_UNBLOCK) then None else
  Some (ctrl_seal seckey
          ([CTRL_VER] ++ [cmd] ++ nid_write target ++ [u8 ttl_min] ++ nid_write victim
           ++ put_u32 counter)).

Definition ctrl_build_retune (target : NodeId) (cfg : bytes) (counter : Z) (seckey : bytes)
    (cap : Z) : option bytes :=
  if (cap <? CTRL_RTN_BYTES) || is_zero target then None else
  Some (ctrl_seal seckey
          ([CTRL_VER] ++ [CTRL_RETUNE] ++ nid_write target ++ cfg ++ put_u32 counter)).

(** The verdict, with the command filled in on CTRL_OK. Only [Oob] and [Ok]
    occur. *)
Definition ctrl_verify (msg pubkey : bytes) (min_counter : Z) (out : CtrlMsg)
    : res (CtrlVerdict * option CtrlMsg) :=
  let len := zlen msg in
  if len <? CTRL_MSG_BYTES then Ok (CTRL_MALFORMED, None) else
  ver ← rd msg 0;
  if negb (ver =? CTRL_VER) then Ok (CTRL_MALFORMED, None) else
  cmd ← rd msg 1;
  if negb (known_cmd cmd) then Ok (CTRL_MALFORMED, None) else
  let ulen := unsigned_len cmd in
  if len <? u16 (ulen + 64) then Ok (CTRL_MALFORMED, None) else
  unsigned_part ← rdn msg 0 ulen;
  sig ← rdn msg ulen 64;
  view ← into DOMAIN_VIEW_MAX (signed_view unsigned_part);
  if negb (ed25519_check sig pubkey view)
  then Ok (CTRL_BAD_SIG, None) else
  counter ← rd_u32 msg (ulen - 4);
  if counter <=? min_counter then Ok (CTRL_REPLAY, None) else
  target ← nid_read msg 2;
  if cmd =? CTRL_RETUNE then
    cfg ← rdn msg 18 CTRL_RETUNE_CFG;
    Ok (CTRL_OK, Some (mkCtrl cmd target (ct_arg out) (ct_aux out) counter cfg))
  else
    arg ← rd msg 18;
    aux ← (if (cmd =? CTRL_BLOCK) || (cmd =? CTRL_UNBLOCK) then nid_read msg 19 else Ok nid_zero);
    Ok (CTRL_OK, Some (mkCtrl cmd target (i8 arg) aux counter (ct_cfg out))).
End control.

(** ** Acknowledgements (unsigned) *)

Definition ctrl_is_ack (msg : bytes) : res bool :=
  if zlen msg <? CTRL_ACK_BYTES then Ok false else
  ver ← rd msg 0;
  if negb (ver =? CTRL_VER) then Ok false else
  c ← rd msg 1; Ok (negb (Z.land c 128 =? 0)).

Definition ctrl_build_ack (cmd : Z) (origin : NodeId) (applied provisional counter cap : Z)
    : option bytes :=
  if cap <? CTRL_ACK_BYTES then None else
  Some ([CTRL_VER] ++ [u8 (Z.lor cmd 128)] ++ nid_write origin ++ [u8 applied] ++ [provisional]
        ++ put_u32 counter).

Definition ctrl_parse_ack (msg : bytes) : res CtrlAck :=
  is_ack ← ctrl_is_ack msg;
  _ ← guard is_ack;
  cmd ← rd msg 1; origin ← nid_read msg 2; applied ← rd msg 18; provisional ← rd msg 19;
  counter ← rd_u32 msg 20;
  Ok (mkAck (Z.land cmd 127) origin (i8 applied) provisional counter).

(** ** Facts *)

Lemma unsigned_len_cases cmd : known_cmd cmd = true →
  unsigned_len cmd = 23 ∧ (cmd = CTRL_POWER ∨ cmd = CTRL_CONFIRM ∨ cmd = CTRL_BLE) ∨
  unsigned_len cmd = 39 ∧ (cmd = CTRL_BLOCK ∨ cmd = CTRL_UNBLOCK) ∨
  unsigned_len cmd = 35 ∧ cmd = CTRL_RETUNE.
Proof.
  unfold known_cmd. intros Hk.
  repeat (apply orb_true_iff in Hk as [Hk|Hk]); apply Z.eqb_eq in Hk; subst; vm_compute; auto 8.
Qed.

(** No bytes signed for a command are ever the bytes signed for an announce. *)
Lemma domains_disjoint pk body unsigned_part :
  signed_view unsigned_part ≠ ([65; 71; 78; 45; 65; 78; 78; 45; 49] ++ pk ++ body).
Proof. done. Qed.

(** Parsing a byte string in two halves. *)
Lemma rdn_split b n m : 0 <= n → 0 <= m → n + m <= zlen b →
  rdn b 0 n = Ok (take (Z.to_nat n) b) ∧ rdn b n m = Ok (take (Z.to_nat m) (drop (Z.to_nat n) b)).
Proof.
  intros Hn Hm Hl. unfold rdn. rewrite !(proj2 (Z.leb_le _ _)) by lia. simpl. done.
Qed.

(** The bytes a command's signature covers (after the domain tag). *)
Definition ctrl_head (m : CtrlMsg) : bytes :=
  [CTRL_VER] ++ [ct_cmd m] ++ nid_write (ct_target m) ++
  (if ct_cmd m =? CTRL_RETUNE then ct_cfg m else
   [u8 (ct_arg m)] ++
   (if (ct_cmd m =? CTRL_BLOCK) || (ct_cmd m =? CTRL_UNBLOCK) then nid_write (ct_aux m) else [])).
Definition ctrl_unsigned (m : CtrlMsg) : bytes := ctrl_head m ++ put_u32 (ct_counter m).

Section control_laws.
Context `{Crypto}.

Lemma ctrl_verify_spec msg pubkey floor out : wf_bytes msg → zlen msg < 65536 →
  safe (ctrl_verify msg pubkey floor out) (λ r,
    match r with
    | (CTRL_OK, Some m) =>
        let ulen := unsigned_len (ct_cmd m) in
        known_cmd (ct_cmd m) = true ∧ ulen + 64 <= zlen msg ∧
        seg msg 0 ulen = ctrl_unsigned m ∧
        ed25519_check (seg msg ulen 64) pubkey (signed_view (ctrl_unsigned m)) = true ∧
        floor < ct_counter m
    | (CTRL_OK, None) => False
    | (_, o) => o = None
    end).
Proof.
  intros Hb Hl. unfold ctrl_verify.
  destruct (Z.ltb_spec (zlen msg) CTRL_MSG_BYTES) as [|H87]; [done|].
  unfold CTRL_MSG_BYTES in H87.
  apply safe_bind. eapply safe_eq; [by apply safe_rd with (Q := is_u8); [done|lia|]|].
  intros ver Hver _. destruct (Z.eqb_spec ver CTRL_VER) as [->|]; [|done]. cbn [negb].
  apply safe_bind. eapply safe_eq; [by apply safe_rd with (Q := is_u8); [done|lia|]|].
  intros cmd Hcmd _. destruct (known_cmd cmd) eqn:Hk; [|done]. cbn [negb].
  pose proof (unsigned_len_cases cmd Hk) as Hcases. set (ulen := unsigned_len cmd) in *.
  assert (23 <= ulen <= 39) as Hub by lia.
  rewrite u16_small by zlia. destruct (Z.ltb_spec (zlen msg) (ulen + 64)) as [|Hlen]; [done|].
  apply safe_bind. eapply safe_eq;
    [by apply safe_rdn with (Q := λ _, True); [done|lia|lia|lia|]|].
  intros up Hup _. apply rdn_seg in Hup as [Hup Hupl].
  apply safe_bind. eapply safe_eq;
    [by apply safe_rdn with (Q := λ _, True); [done|lia|lia|lia|]|].
  intros sig Hsig _. apply rdn_seg in Hsig as [Hsig _].
  apply safe_bind, safe_into; [unfold signed_view, DOMAIN_VIEW_MAX; rewrite zlen_app; lia|].
  destruct (ed25519_check sig pubkey (signed_view up)) eqn:Hchk; [|done]. cbn [negb].
  apply safe_bind. eapply safe_eq;
    [by apply safe_rd_u32 with (Q := is_u32); [done|lia|lia|]|].
  intros counter Hctr _. apply rd_u32_seg in Hctr; [|done|lia].
  destruct (Z.leb_spec counter floor) as [|Hfl]; [done|].
  apply safe_bind. eapply safe_eq;
    [by apply safe_nid_read with (Q := wf_nid); [done|lia|lia|]|].
  intros target Htgt _. apply nid_read_seg in Htgt.
  apply rd_seg in Hver, Hcmd.
  assert (seg msg 0 18 = [CTRL_VER] ++ [cmd] ++ nid_write target) as Hhead.
  { change 18 with (1 + (1 + 16)). rewrite !seg_split by lia. change (0 + 1) with 1.
    change (1 + 1) with 2. by rewrite Hver, Hcmd, Htgt. }
  rewrite <- Hup, <- Hsig in Hchk. clear Hver Hcmd Htgt.
  assert (seg msg 0 ulen = seg msg 0 18 ++ seg msg 18 (ulen - 22) ++ seg msg (ulen - 4) 4) as Hcut.
  { replace ulen with (18 + ((ulen - 22) + 4)) at 1 by lia. rewrite !seg_split by lia.
    repeat f_equal; lia. }
  destruct (Z.eqb_spec cmd CTRL_RETUNE) as [->|Hnr].
  - assert (ulen = 35) as Hu by (destruct Hcases as [[_ H']|[[_ H']|[? _]]]; [..|done];
      repeat destruct H' as [H'|H']; discriminate H').
    apply safe_bind. eapply safe_eq;
      [by apply safe_rdn with (Q := λ _, True); [done|lia|unfold CTRL_RETUNE_CFG; lia|unfold CTRL_RETUNE_CFG; lia|]|].
    intros cfg Hcfg _. apply rdn_seg in Hcfg as [Hcfg _]. apply safe_ok. cbn [ct_cmd ct_counter].
    assert (seg msg 0 ulen = ctrl_unsigned (mkCtrl CTRL_RETUNE target (ct_arg out) (ct_aux out) counter cfg)) as Hseg.
    { rewrite Hcut, Hhead, Hctr, Hu. change (35 - 22) with CTRL_RETUNE_CFG.
      rewrite Hcfg. unfold ctrl_unsigned, ctrl_head. cbn [ct_cmd ct_target ct_cfg ct_counter].
      rewrite Z.eqb_refl. by rewrite <- !app_assoc. }
    rewrite <- Hseg. auto.
  - apply safe_bind. eapply safe_eq; [by apply safe_rd with (Q := is_u8); [done|lia|]|].
    intros arg Harg Hargu. apply rd_seg in Harg.
    set (blk := (cmd =? CTRL_BLOCK) || (cmd =? CTRL_UNBLOCK)).
    assert (ulen = if blk then 39 else 23) as Hu.
    { unfold ulen, unsigned_len. fold blk. destruct blk; [done|].
      by rewrite (proj2 (Z.eqb_neq cmd CTRL_RETUNE)). }
    apply safe_bind. eapply (safe_eq _ (λ _, True)).
    { destruct blk; [|done]. by apply safe_nid_read; [done|lia|lia|]. }
    intros aux Haux _. apply safe_ok. cbn [ct_cmd ct_counter].
    assert (seg msg 0 ulen = ctrl_unsigned (mkCtrl cmd target (i8 arg) aux counter (ct_cfg out))) as Hseg.
    { rewrite Hcut, Hhead, Hctr. unfold ctrl_unsigned, ctrl_head. cbn [ct_cmd ct_target ct_arg ct_aux ct_counter].
      rewrite (proj2 (Z.eqb_neq cmd CTRL_RETUNE)) by done. fold blk. rewrite u8_i8 by done.
      rewrite <- !app_assoc. do 3 f_equal. rewrite Hu. destruct blk.
      - apply nid_read_seg in Haux. change (39 - 22) with (1 + 16). rewrite seg_split by lia.
        change (18 + 1) with 19. by rewrite Harg, Haux.
      - change (23 - 22) with 1. by rewrite Harg. }
    rewrite <- Hseg. auto.
Qed.

(** The id an accepted command carries besides its target is a whole one. *)
Lemma ctrl_verify_aux msg pubkey floor out m : wf_bytes msg → wf_nid (ct_aux out) →
  ctrl_verify msg pubkey floor out = Ok (CTRL_OK, Some m) → wf_nid (ct_aux m).
Proof.
  intros Hb Ho. unfold ctrl_verify.
  destruct (_ <? _); [done|].
  destruct (rd msg 0) as [ver| |]; simpl; [|done..]. destruct (negb _); [done|].
  destruct (rd msg 1) as [cmd| |]; simpl; [|done..]. destruct (negb _); [done|]. destruct (_ <? _); [done|].
  destruct (rdn msg 0 _) as [up| |]; simpl; [|done..]. destruct (rdn msg _ 64) as [sig| |]; simpl; [|done..].
  destruct (into _ _) as [view| |]; simpl; [|done..]. destruct (negb _); [done|]. destruct (rd_u32 msg _) as [ctr| |]; simpl; [|done..]. destruct (_ <=? _); [done|].
  destruct (nid_read msg 2) as [tgt| |]; simpl; [|done..]. destruct (cmd =? CTRL_RETUNE).
  { destruct (rdn msg 18 _); simpl; [|done..]. by intros [= <-]. }
  destruct (rd msg 18); simpl; [|done..]. destruct (_ || _); simpl.
  - destruct (nid_read msg 19) as [id| |] eqn:Hr; simpl; [|done..]. intros [= <-]. by eapply nid_read_wf.
  - intros [= <-]. apply wf_nid_zero.
Qed.

Lemma ctrl_verify_no_rej msg pubkey floor out : ctrl_verify msg pubkey floor out ≠ Rej.
Proof.
  unfold ctrl_verify. destruct (_ <? _); [done|].
  apply bind_ne_rej; [auto with no_rej|intros ver]. destruct (negb _); [done|].
  apply bind_ne_rej; [auto with no_rej|intros cmd]. destruct (negb _); [done|].
  destruct (_ <? _); [done|].
  apply bind_ne_rej; [auto with no_rej|intros up].
  apply bind_ne_rej; [auto with no_rej|intros sig]. apply bind_ne_rej; [auto with no_rej|intros view]. destruct (negb _); [done|].
  apply bind_ne_rej; [auto with no_rej|intros counter]. destruct (_ <=? _); [done|].
  apply bind_ne_rej; [auto with no_rej|intros target].
  destruct (cmd =? CTRL_RETUNE).
  - by apply bind_ne_rej; [auto with no_rej|intros cfg].
  - apply bind_ne_rej; [auto with no_rej|intros arg].
    apply bind_ne_rej; [destruct (_ || _); [apply nid_read_ne_rej|done]|by intros aux].
Qed.

(** A command as the builders make it. *)
Record ctrl_wf (m : CtrlMsg) : Prop := {
  cw_cmd : known_cmd (ct_cmd m) = true;
  cw_target : wf_nid (ct_target m);
  cw_arg : is_i8 (ct_arg m);
  cw_aux : wf_nid (ct_aux m);
  cw_counter : is_u32 (ct_counter m);
  cw_cfg : zlen (ct_cfg m) = CTRL_RETUNE_CFG }.

(** The fields [ctrl_verify] fills for this command, over [out]. *)
Definition ctrl_filled (m out : CtrlMsg) : CtrlMsg :=
  if ct_cmd m =? CTRL_RETUNE
  then mkCtrl (ct_cmd m) (ct_target m) (ct_arg out) (ct_aux out) (ct_counter m) (ct_cfg m)
  else mkCtrl (ct_cmd m) (ct_target m) (ct_arg m)
         (if (ct_cmd m =? CTRL_BLOCK) || (ct_cmd m =? CTRL_UNBLOCK) then ct_aux m else nid_zero)
         (ct_counter m) (ct_cfg out).

Lemma zlen_ctrl_unsigned m : ctrl_wf m → zlen (ctrl_unsigned m) = unsigned_len (ct_cmd m).
Proof.
  intros Hm. unfold ctrl_unsigned, ctrl_head, unsigned_len.
  rewrite !zlen_app, zlen_nid_write, zlen_put_u32, !zlen_cons, !(zlen_nil (A:=Z)) by apply Hm.
  destruct (Z.eqb_spec (ct_cmd m) CTRL_RETUNE) as [->|].
  - rewrite (cw_cfg _ Hm). unfold CTRL_RETUNE_CFG. done.
  - rewrite !zlen_app, !zlen_cons, !(zlen_nil (A:=Z)).
    destruct (_ || _); [rewrite zlen_nid_write by apply Hm; lia|by rewrite (zlen_nil (A:=Z))].
Qed.

Lemma ctrl_verify_eval m sig extra pubkey floor out : ctrl_wf m → zlen sig = 64 →
  ctrl_verify (ctrl_unsigned m ++ sig ++ extra) pubkey floor out =
  Ok (if negb (ed25519_check sig pubkey (signed_view (ctrl_unsigned m))) then (CTRL_BAD_SIG, None)
      else if ct_counter m <=? floor then (CTRL_REPLAY, None)
      else (CTRL_OK, Some (ctrl_filled m out))).
Proof.
  intros Hm Hsig. pose proof (zlen_ctrl_unsigned m Hm) as Hul.
  pose proof (unsigned_len_cases _ (cw_cmd _ Hm)) as Hcases.
  assert (23 <= unsigned_len (ct_cmd m) <= 39) as Hub by lia.
  set (msg := ctrl_unsigned m ++ sig ++ extra).
  assert (unsigned_len (ct_cmd m) + 64 <= zlen msg) as Hlen.
  { unfold msg. rewrite !zlen_app, Hul, Hsig. pose proof (zlen_nonneg extra). lia. }
  pose proof (at_start msg) as Hat. unfold msg in Hat at 2.
  pose proof Hat as Hbody. pose proof Hat as Hsg. apply (at_move _ _ (unsigned_len (ct_cmd m))) in Hsg; [|lia].
  assert (at_ msg (unsigned_len (ct_cmd m) - 4) (put_u32 (ct_counter m) ++ sig ++ extra)) as Hctr.
  { unfold ctrl_unsigned in Hat. rewrite <- app_assoc in Hat. eapply at_move; [exact Hat|].
    unfold ctrl_unsigned in Hul. rewrite zlen_app, zlen_put_u32 in Hul. lia. }
  unfold ctrl_unsigned, ctrl_head in Hat. rewrite <- !app_assoc in Hat.
  unfold ctrl_verify, CTRL_MSG_BYTES. rewrite (proj2 (Z.ltb_ge _ _)) by lia.
  rewrite (at_rd _ _ _ _ Hat). cbn [mbind res_bind]. rewrite Z.eqb_refl. cbn [negb].
  apply (at_move _ _ 1) in Hat; [|done]. rewrite (at_rd _ _ _ _ Hat). cbn [mbind res_bind].
  rewrite (cw_cmd _ Hm). cbn [negb]. rewrite u16_small by zlia.
  rewrite (proj2 (Z.ltb_ge _ _)) by lia.
  rewrite (at_rdn _ _ _ _ _ Hbody Hul). cbn [mbind res_bind].
  rewrite (at_rdn _ _ _ _ _ Hsg Hsig). cbn [mbind res_bind].
  rewrite into_ok by (unfold signed_view, DOMAIN_VIEW_MAX; rewrite zlen_app, Hul; lia). cbn [mbind res_bind].
  destruct (ed25519_check _ _ _); cbn [negb]; [|done].
  rewrite (at_rd_u32 _ _ _ _ Hctr) by apply Hm. cbn [mbind res_bind].
  destruct (ct_counter m <=? floor); [done|].
  apply (at_move _ _ 2) in Hat; [|done].
  rewrite (at_nid_read _ _ _ _ (cw_target _ Hm) Hat). cbn [mbind res_bind].
  apply (at_move _ _ 18) in Hat; [|rewrite zlen_nid_write by apply Hm; done].
  unfold ctrl_filled. destruct (ct_cmd m =? CTRL_RETUNE).
  - by rewrite (at_rdn _ _ _ _ _ Hat (cw_cfg _ Hm)).
  - rewrite <- app_assoc in Hat. rewrite (at_rd _ _ _ _ Hat). cbn [mbind res_bind].
    apply (at_move _ _ 19) in Hat; [|done]. rewrite i8_u8 by apply Hm.
    destruct (_ || _); [|done]. by rewrite (at_nid_read _ _ _ _ (cw_aux _ Hm) Hat).
Qed.

(** Only what the controller signed can take effect. On any byte string,
    [ctrl_verify] reads only inside it, and if it answers CTRL_OK then every
    field of the command it returns lies in the prefix covered by a signature
    that checks against the controller's key under the control domain tag,
    and the signed counter is strictly above the replay floor. Any other
    verdict returns no command. *)
Theorem ctrl_verify_sound (msg pubkey : bytes) (floor : Z) (out : CtrlMsg)
    (Hb : wf_bytes msg) (Hl : zlen msg < 65536) :
  ∃ v o, ctrl_verify msg pubkey floor out = Ok (v, o) ∧
    (v ≠ CTRL_OK → o = None) ∧
    (v = CTRL_OK → ∃ m, o = Some m ∧
      take (Z.to_nat (unsigned_len (ct_cmd m))) msg = ctrl_unsigned m ∧
      ed25519_check (seg msg (unsigned_len (ct_cmd m)) 64) pubkey
        (DOMAIN ++ ctrl_unsigned m) = true ∧
      known_cmd (ct_cmd m) = true ∧ floor < ct_counter m).
Proof.
  pose proof (ctrl_verify_spec msg pubkey floor out Hb Hl) as Hs.
  pose proof (ctrl_verify_no_rej msg pubkey floor out) as Hr.
  destruct (ctrl_verify msg pubkey floor out) as [[v o]| |]; [|done|done].
  exists v, o. split; [done|].
  destruct v; simpl in Hs; split; try done; intros _.
  destruct o as [m|]; [|done]. destruct Hs as (H1 & H2 & H3 & H4 & H5). eauto 10.
Qed.
End control_laws.

Section control_roundtrip.
Context `{CryptoLaws}.

Lemma ctrl_seal_verify m sk floor out : ctrl_wf m →
  ctrl_verify (ctrl_seal sk (ctrl_unsigned m)) (ed25519_public sk) floor out =
  Ok (if ct_counter m <=? floor then (CTRL_REPLAY, None) else (CTRL_OK, Some (ctrl_filled m out))).
Proof.
  intros Hm. unfold ctrl_seal. set (sig := ed25519_sign _ _).
  rewrite <- (app_nil_r sig). rewrite ctrl_verify_eval by (done || apply sign_len).
  unfold sig. by rewrite sign_check.
Qed.

(** A command signed by the controller is accepted exactly when it is
    fresh. Whatever the builders emit verifies under the matching public key
    as CTRL_OK, with the same command, target, argument, victim or PHY blob
    and counter, when its counter is above the node's floor, and as
    CTRL_REPLAY otherwise; the message never exceeds the caller's buffer. *)
Theorem ctrl_roundtrip (sk : bytes) (target victim : NodeId) (arg counter floor cap cmd : Z)
    (cfg msg : bytes)
    (Ht : wf_nid target) (Hv : wf_nid victim) (Harg : is_i8 arg) (Hc : is_u32 counter)
    (Hcfg : zlen cfg = CTRL_RETUNE_CFG) :
  let accepted m :=
    ctrl_verify msg (ed25519_public sk) floor CtrlMsg_default =
      Ok (if counter <=? floor then (CTRL_REPLAY, None) else (CTRL_OK, Some m))
    ∧ zlen msg <= cap in
  (ctrl_build cmd target arg counter sk cap = Some msg →
     accepted (mkCtrl cmd target arg nid_zero counter (replicate 13 0))) ∧
  (ctrl_build_block cmd target victim arg counter sk cap = Some msg →
     accepted (mkCtrl cmd target arg victim counter (replicate 13 0))) ∧
  (ctrl_build_retune target cfg counter sk cap = Some msg →
     accepted (mkCtrl CTRL_RETUNE target 0 nid_zero counter cfg)).
Proof.
  cbv zeta.
  assert (∀ m, ctrl_wf m → zlen (ctrl_seal sk (ctrl_unsigned m)) = unsigned_len (ct_cmd m) + 64) as Hlen.
  { intros m Hm. unfold ctrl_seal. by rewrite zlen_app, sign_len, zlen_ctrl_unsigned. }
  split; [|split].
  - unfold ctrl_build, CTRL_MSG_BYTES.
    destruct (Z.ltb_spec cap (23 + 64)); [done|]. destruct (is_zero target); [done|]. simpl orb.
    destruct (negb _ && _ && _) eqn:Hcmd; [done|]. intros Hm%(inj Some).
    set (m := mkCtrl cmd target arg nid_zero counter (replicate 13 0)).
    assert ((cmd = CTRL_POWER ∨ cmd = CTRL_CONFIRM ∨ cmd = CTRL_BLE)) as Hcases.
    { rewrite !andb_false_iff, !negb_false_iff, !Z.eqb_eq in Hcmd. tauto. }
    assert (ctrl_wf m) as Hwf.
    { split; simpl; auto using wf_nid_zero. by destruct Hcases as [->|[->| ->]]. }
    assert (msg = ctrl_seal sk (ctrl_unsigned m)) as ->.
    { rewrite <- Hm. f_equal. unfold ctrl_unsigned, ctrl_head. simpl.
      by destruct Hcases as [->|[->| ->]]; simpl; rewrite <- app_assoc. }
    rewrite ctrl_seal_verify by done. rewrite (Hlen m Hwf).
    unfold ctrl_filled. by destruct Hcases as [->|[->| ->]].
  - unfold ctrl_build_block, CTRL_BLK_BYTES.
    destruct (Z.ltb_spec cap (39 + 64)); [done|]. destruct (is_zero target); [done|].
    destruct (is_zero victim); [done|]. simpl orb. cbv iota.
    destruct (negb _ && _) eqn:Hcmd; [done|]. intros Hm%(inj Some).
    set (m := mkCtrl cmd target arg victim counter (replicate 13 0)).
    assert ((cmd = CTRL_BLOCK ∨ cmd = CTRL_UNBLOCK)) as Hcases.
    { rewrite !andb_false_iff, !negb_false_iff, !Z.eqb_eq in Hcmd. tauto. }
    assert (ctrl_wf m) as Hwf.
    { split; simpl; auto. by destruct Hcases as [->| ->]. }
    assert (msg = ctrl_seal sk (ctrl_unsigned m)) as ->.
    { rewrite <- Hm. f_equal. unfold ctrl_unsigned, ctrl_head. simpl.
      by destruct Hcases as [->| ->]; simpl; rewrite <- !app_assoc. }
    rewrite ctrl_seal_verify by done. rewrite (Hlen m Hwf).
    unfold ctrl_filled. by destruct Hcases as [->| ->].
  - unfold ctrl_build_retune, CTRL_RTN_BYTES.
    destruct (Z.ltb_spec cap (22 + CTRL_RETUNE_CFG + 64)); [done|].
    destruct (is_zero target); [done|]. simpl orb. intros Hm%(inj Some).
    set (m := mkCtrl CTRL_RETUNE target 0 nid_zero counter cfg).
    assert (ctrl_wf m) as Hwf by (split; simpl; auto using wf_nid_zero; zlia).
    assert (msg = ctrl_seal sk (ctrl_unsigned m)) as ->.
    { rewrite <- Hm. f_equal. unfold ctrl_unsigned, ctrl_head. simpl. by rewrite <- app_assoc. }
    rewrite ctrl_seal_verify by done. by rewrite (Hlen m Hwf).
Qed.
End control_roundtrip.

Definition ctrl_msg_ex : bytes :=
  match @ctrl_build toy_crypto CTRL_POWER (nid_from_u32 5) (-3) 7 [1; 2; 3] 87 with
  | Some m => m | None => [] end.

Example ctrl_verify_sound_witness :
  zlen ctrl_msg_ex < 65536 ∧
  ∃ v o, @ctrl_verify toy_crypto ctrl_msg_ex (@ed25519_public toy_crypto [1; 2; 3]) 6 CtrlMsg_default
    = Ok (v, o) ∧ v = CTRL_OK.
Proof.
  split; [by vm_compute|].
  destruct (@ctrl_verify_sound toy_crypto ctrl_msg_ex (@ed25519_public toy_crypto [1; 2; 3]) 6
    CtrlMsg_default) as (v & o & Hv & _).
  - apply (bool_decide_unpack _). by vm_compute.
  - by vm_compute.
  - exists v, o. split; [done|]. vm_compute in Hv. by injection Hv as <- _.
Defined.

Example ctrl_roundtrip_witness :
  wf_nid (nid_from_u32 5) ∧
  @ctrl_build toy_crypto CTRL_POWER (nid_from_u32 5) (-3) 7 [1; 2; 3] 87 = Some ctrl_msg_ex ∧
  @ctrl_verify toy_crypto ctrl_msg_ex (@ed25519_public toy_crypto [1; 2; 3]) 7 CtrlMsg_default
    = Ok (CTRL_REPLAY, None).
Proof.
  split; [apply wf_nid_u32|]. split; [by vm_compute|].
  destruct (@ctrl_roundtrip toy_crypto toy_laws [1; 2; 3] (nid_from_u32 5) (nid_from_u32 6) (-3) 7 7 87
    CTRL_POWER (replicate 13 0) ctrl_msg_ex) as (Hp & _ & _); try zlia; try apply wf_nid_u32; [done|].
  apply Hp. by vm_compute.
Defined.

(** Any byte string: an ACK's fields are within their widths. *)
Lemma ctrl_parse_ack_good msg : wf_bytes msg →
  safe (ctrl_parse_ack msg) (λ a, 0 <= ak_cmd a < 128 ∧ wf_nid (ak_origin a) ∧
    is_i8 (ak_applied a) ∧ is_u8 (ak_provisional a) ∧ is_u32 (ak_counter a)).
Proof.
  intros Hb. unfold ctrl_parse_ack, ctrl_is_ack, CTRL_ACK_BYTES.
  destruct (Z.ltb_spec (zlen msg) 24); [done|].
  repeat (safe_step; try case_match; bools; unfold CTRL_ACK_BYTES in *; try lia; try done).
  all: apply safe_nid_read; [done|lia|lia|intros id Hid].
  all: repeat (safe_step; try case_match; bools; try lia; try done).
  all: simpl; split; [|split; [done|split; [apply i8_range|done]]].
  all: by apply land_127_range.
Qed.

(** An ACK is read back as built, and is never taken for a command. *)
Lemma ctrl_ack_roundtrip cmd origin applied provisional counter cap msg : wf_nid origin →
  0 <= cmd < 128 → is_i8 applied → is_u32 counter →
  ctrl_build_ack cmd origin applied provisional counter cap = Some msg →
  ctrl_parse_ack msg = Ok (mkAck cmd origin applied provisional counter) ∧ zlen msg <= cap.
Proof.
  intros Ho Hc Ha Hn. unfold ctrl_build_ack, CTRL_ACK_BYTES.
  destruct (Z.ltb_spec cap 24); [done|]. intros <-%(inj Some).
  set (c := u8 (Z.lor cmd 128)). set (msg := _ ++ _).
  assert (c = cmd + 128) as Hcv.
  { unfold c. change 128 with (Z.shiftl 1 7) at 1. rewrite lor_shiftl_add by (cbn; lia).
    cbn. apply u8_small. zlia. }
  assert (zlen msg = 24) as Hl.
  { unfold msg. by rewrite !zlen_app, zlen_nid_write, zlen_put_u32. }
  assert (negb (Z.land c 128 =? 0) = true ∧ Z.land c 127 = cmd) as [Hhi Hlo].
  { rewrite Hcv. assert (negb (Z.land (cmd + 128) 128 =? 0) && (Z.land (cmd + 128) 127 =? cmd) = true)
      as [??%Z.eqb_eq]%andb_true_iff; [|done].
    assert (Z.land (cmd + 128) 127 = cmd) as ->.
    { change 127 with (Z.ones 7). rewrite Z.land_ones by lia. change (2 ^ 7) with 128.
      Z.div_mod_to_equations; lia. }
    rewrite Z.eqb_refl, andb_true_r. apply negb_true_iff, Z.eqb_neq. intros E.
    apply (f_equal (λ z, Z.testbit z 7)) in E. rewrite Z.land_spec, Z.bits_0 in E.
    change (Z.testbit 128 7) with true in E. rewrite andb_true_r, Z.testbit_eqb in E by lia.
    apply Z.eqb_neq in E. apply E. change (2 ^ 7) with 128. Z.div_mod_to_equations; lia. }
  pose proof (at_start msg) as Hat. unfold msg in Hat at 2. rewrite <- ?app_assoc in Hat.
  split; [|lia]. clearbody msg. unfold ctrl_parse_ack, ctrl_is_ack, CTRL_ACK_BYTES. rewrite Hl.
  cbn [Z.ltb Z.compare Pos.compare Pos.compare_cont]. rewrite (at_rd _ _ _ _ Hat). cbn [mbind res_bind].
  rewrite Z.eqb_refl. cbn [negb]. apply (at_move _ _ 1) in Hat; [|done].
  rewrite (at_rd _ _ _ _ Hat). cbn [mbind res_bind]. rewrite Hhi. cbn [guard mbind res_bind].
  apply (at_move _ _ 2) in Hat; [|done].
  rewrite (at_nid_read _ _ _ _ Ho Hat). cbn [mbind res_bind].
  apply (at_move _ _ 18) in Hat; [|by rewrite zlen_nid_write].
  rewrite (at_rd _ _ _ _ Hat). cbn [mbind res_bind]. apply (at_move _ _ 19) in Hat; [|done].
  rewrite (at_rd _ _ _ _ Hat). cbn [mbind res_bind]. apply (at_move _ _ 20) in Hat; [|done].
  rewrite <- (app_nil_r (put_u32 _)) in Hat.
  rewrite (at_rd_u32 _ _ _ _ Hat) by done. cbn [mbind res_bind]. by rewrite Hlo, i8_u8.
Qed.
