(* ===== verification/LocatorDir.v ===== *)
(** lib/mesh/locator_dir.{h,cpp}: the identity-to-locator directory: messages,
    the binding cache, and the resolver of in-flight queries. *)
From S2P Require Import Prelude Reader SlotTable MeshTypes.

Definition LOC_ID_MAX : Z := 16.
Definition LOC_DIR_CAP : Z := 32.
Definition LOC_MAX_PENDING : Z := 8.
Definition LOC_REGISTER : Z := 1.
Definition LOC_QUERY : Z := 2.
Definition LOC_REPLY : Z := 3.

(** [id[0 .. id_len)] is the list [lm_id]. *)
Record LocMsg := mkLoc {
  lm_kind : Z; lm_qid : Z; lm_epoch : Z; lm_seq : Z; lm_ttl_s : Z; lm_loc : NodeId; lm_id : bytes }.

(** ** Codec *)

Definition loc_id_bad (id : bytes) : bool := (zlen id =? 0) || (LOC_ID_MAX <? zlen id).

Definition loc_build_register (epoch seq ttl_s : Z) (id : bytes) (cap : Z) : option bytes :=
  if loc_id_bad id then None else
  if cap <? u16 (1 + 2 + 2 + 2 + 1 + zlen id) then None else
  Some ([LOC_REGISTER] ++ put_u16 epoch ++ put_u16 seq ++ put_u16 ttl_s ++ [zlen id] ++ id).

Definition loc_build_query (qid : Z) (id : bytes) (cap : Z) : option bytes :=
  if loc_id_bad id then None else
  if cap <? u16 (1 + 2 + 1 + zlen id) then None else
  Some ([LOC_QUERY] ++ put_u16 qid ++ [zlen id] ++ id).

Definition loc_build_reply (qid epoch seq ttl_s : Z) (loc : NodeId) (id : bytes) (cap : Z)
    : option bytes :=
  if loc_id_bad id then None else
  if cap <? u16 (1 + 2 + 2 + 2 + 2 + 16 + 1 + zlen id) then None else
  Some ([LOC_REPLY] ++ put_u16 qid ++ put_u16 epoch ++ put_u16 seq ++ put_u16 ttl_s
        ++ nid_write loc ++ [zlen id] ++ id).

(** The [read_id] lambda: a length byte and an id that ends the message. *)
Definition loc_read_id (msg : bytes) (p : Z) : res bytes :=
  _ ← guard (negb (zlen msg <? u16 p + 1));
  il ← rd msg p;
  _ ← guard (negb ((il =? 0) || (LOC_ID_MAX <? il)));
  _ ← guard (u16 (p + 1 + il) =? zlen msg);
  id ← rdn msg (p + 1) il;
  into LOC_ID_MAX id.

Definition loc_parse (msg : bytes) : res LocMsg :=
  let len := zlen msg in
  _ ← guard (2 <=? len);
  kind ← rd msg 0;
  if kind =? LOC_REGISTER then
    _ ← guard (1 + 2 + 2 + 2 + 1 + 1 <=? len);
    epoch ← rd_u16 msg 1; seq ← rd_u16 msg 3; ttl_s ← rd_u16 msg 5;
    id ← loc_read_id msg 7;
    Ok (mkLoc kind 0 epoch seq ttl_s nid_zero id)
  else if kind =? LOC_QUERY then
    _ ← guard (1 + 2 + 1 + 1 <=? len);
    qid ← rd_u16 msg 1;
    id ← loc_read_id msg 3;
    Ok (mkLoc kind qid 0 0 0 nid_zero id)
  else if kind =? LOC_REPLY then
    _ ← guard (1 + 2 + 2 + 2 + 2 + 16 + 1 + 1 <=? len);
    qid ← rd_u16 msg 1; epoch ← rd_u16 msg 3; seq ← rd_u16 msg 5; ttl_s ← rd_u16 msg 7;
    loc ← nid_read msg 9;
    id ← loc_read_id msg 25;
    Ok (mkLoc kind qid epoch seq ttl_s loc id)
  else Rej.

Definition loc_seq_newer (a b : Z) : bool := 0 <? i16 (a - b).

(** ** Binding cache *)

Record LocEntry := mkLE {
  le_id : bytes;
  le_used : bool;
  le_loc : NodeId;
  le_epoch : Z;
  le_seq : Z;
  le_expiry_ms : Z;
  le_touched : Z }.
Definition LocEntry_default : LocEntry := mkLE [] false nid_zero 0 0 0 0.

Record LocatorDir := mkLD { ld_e : list LocEntry; ld_clock : Z }.
Definition LocatorDir_init : LocatorDir := mkLD (replicate 32 LocEntry_default) 0.

Definition le_expired (now : Z) (e : LocEntry) : bool := 0 <=? i32 (now - le_expiry_ms e).
Definition le_clear (e : LocEntry) : LocEntry :=
  mkLE (le_id e) false (le_loc e) (le_epoch e) (le_seq e) (le_expiry_ms e) (le_touched e).
Definition le_touch (clock : Z) (e : LocEntry) : LocEntry :=
  mkLE (le_id e) (le_used e) (le_loc e) (le_epoch e) (le_seq e) (le_expiry_ms e) clock.

(** [id_len] equal and [memcmp] zero. *)
Definition ld_find (id : bytes) (l : list LocEntry) : option nat :=
  find_index (λ e, le_used e && bool_decide (le_id e = id)) l.

(** The scan of [alloc_slot]: the first free slot ends it; otherwise the last
    expired one, otherwise the first with the smallest LRU stamp. *)
Fixpoint ld_scan (i : nat) (l : list LocEntry) (now : Z) (expired : option nat)
    (lru : option (nat * Z)) : option nat :=
  match l with
  | [] => match expired with Some i => Some i | None => fst <$> lru end
  | e :: l =>
      if negb (le_used e) then Some i else
      ld_scan (S i) l now (if le_expired now e then Some i else expired)
        (match lru with
         | None => Some (i, le_touched e)
         | Some (_, t) => if le_touched e <? t then Some (i, le_touched e) else lru
         end)
  end.
Definition alloc_slot (now : Z) (l : list LocEntry) : option nat := ld_scan 0 l now None None.

Definition loc_upsert (id : bytes) (loc : NodeId) (epoch seq ttl_s now_ms : Z) (d : LocatorDir)
    : LocatorDir * bool :=
  if loc_id_bad id then (d, false) else
  let clock := u32 (ld_clock d + 1) in
  let entry := mkLE id true loc epoch seq (u32 (now_ms + u32 (ttl_s * 1000))) clock in
  match ld_find id (ld_e d) with
  | Some i =>
      match ld_e d !! i with
      | None => (d, false)
      | Some e =>
          if le_expired now_ms e || ((epoch =? le_epoch e) && loc_seq_newer seq (le_seq e))
             || negb (epoch =? le_epoch e)
          then (mkLD (<[i := entry]> (ld_e d)) clock, true) else (d, false)
      end
  | None =>
      match alloc_slot now_ms (ld_e d) with
      | Some i => (mkLD (<[i := entry]> (ld_e d)) clock, true)
      | None => (d, false)
      end
  end.

Definition loc_lookup (id : bytes) (now_ms : Z) (d : LocatorDir) : LocatorDir * option NodeId :=
  match ld_find id (ld_e d) with
  | None => (d, None)
  | Some i =>
      match ld_e d !! i with
      | None => (d, None)
      | Some e =>
          if le_expired now_ms e then (mkLD (alter le_clear i (ld_e d)) (ld_clock d), None) else
          let clock := u32 (ld_clock d + 1) in
          (mkLD (alter (le_touch clock) i (ld_e d)) clock, Some (le_loc e))
      end
  end.

(** [(loc, epoch, seq, ttl_s)] *)
Definition lookup_full (id : bytes) (now_ms : Z) (d : LocatorDir)
    : LocatorDir * option (NodeId * Z * Z * Z) :=
  match ld_find id (ld_e d) with
  | None => (d, None)
  | Some i =>
      match ld_e d !! i with
      | None => (d, None)
      | Some e =>
          let rem_ms := i32 (le_expiry_ms e - now_ms) in
          if rem_ms <=? 0 then (mkLD (alter le_clear i (ld_e d)) (ld_clock d), None) else
          let clock := u32 (ld_clock d + 1) in
          let s := u32 rem_ms / 1000 in
          (mkLD (alter (le_touch clock) i (ld_e d)) clock,
           Some (le_loc e, le_epoch e, le_seq e,
                 if s =? 0 then 1 else if 65535 <? s then 65535 else s))
      end
  end.

Definition loc_remove (id : bytes) (d : LocatorDir) : LocatorDir * bool :=
  match ld_find id (ld_e d) with
  | None => (d, false)
  | Some i => (mkLD (alter le_clear i (ld_e d)) (ld_clock d), true)
  end.

Definition ld_size (now_ms : Z) (d : LocatorDir) : Z :=
  count_if (λ e, le_used e && negb (le_expired now_ms e)) (ld_e d).

Definition loc_snapshot (cap now_ms : Z) (d : LocatorDir) : list (bytes * NodeId * Z) :=
  take (Z.to_nat cap)
    ((λ e, let rem := i32 (le_expiry_ms e - now_ms) in
           (le_id e, le_loc e, if rem <=? 0 then 0 else u16 (u32 rem / 1000))) <$>
      filter (λ e, le_used e && negb (le_expired now_ms e) = true) (ld_e d)).

(** ** Resolver *)

Record LocP := mkLP { lp_used : bool; lp_id : bytes; lp_qid : Z; lp_deadline_ms : Z }.
Definition LocP_default : LocP := mkLP false [] 0 0.
Record LocatorResolver := mkLR { lr_p : list LocP; lr_next_qid : Z }.
Definition LocatorResolver_init : LocatorResolver := mkLR (replicate 8 LocP_default) 1.

Definition lp_clear (p : LocP) : LocP := mkLP false (lp_id p) (lp_qid p) (lp_deadline_ms p).
Definition lp_live (now : Z) (p : LocP) : bool :=
  lp_used p && (i32 (now - lp_deadline_ms p) <? 0).
Definition lr_match (id : bytes) (now : Z) (p : LocP) : bool :=
  lp_live now p && bool_decide (lp_id p = id).

(** First free slot, else the last timed-out one. *)
Fixpoint lr_scan (i : nat) (l : list LocP) (now : Z) (slot : option nat) : option nat :=
  match l with
  | [] => slot
  | p :: l =>
      if negb (lp_used p) then Some i else
      lr_scan (S i) l now (if 0 <=? i32 (now - lp_deadline_ms p) then Some i else slot)
  end.

Definition loc_begin (id : bytes) (now_ms timeout_ms : Z) (r : LocatorResolver)
    : LocatorResolver * Z :=
  if loc_id_bad id then (r, 0) else
  match (i ← find_index (lr_match id now_ms) (lr_p r); lr_p r !! i) with
  | Some p => (r, lp_qid p)
  | None =>
      match lr_scan 0 (lr_p r) now_ms None with
      | None => (r, 0)
      | Some i =>
          let qid := lr_next_qid r in
          let next := u16 (qid + 1) in
          (mkLR (<[i := mkLP true id qid (u32 (now_ms + timeout_ms))]> (lr_p r))
             (if next =? 0 then 1 else next), qid)
      end
  end.

Definition on_reply (qid : Z) (r : LocatorResolver) : LocatorResolver * bool :=
  match find_index (λ p, lp_used p && (lp_qid p =? qid)) (lr_p r) with
  | Some i => (mkLR (alter lp_clear i (lr_p r)) (lr_next_qid r), true)
  | None => (r, false)
  end.

Definition loc_pending (id : bytes) (now_ms : Z) (r : LocatorResolver) : bool :=
  match find_index (lr_match id now_ms) (lr_p r) with Some _ => true | None => false end.

Definition loc_tick (now_ms : Z) (r : LocatorResolver) : LocatorResolver * Z :=
  let out p := lp_used p && (0 <=? i32 (now_ms - lp_deadline_ms p)) in
  (mkLR ((λ p, if out p then lp_clear p else p) <$> lr_p r) (lr_next_qid r),
   count_if out (lr_p r)).

(** ** The codec is exact *)

Definition loc_build (m : LocMsg) (cap : Z) : option bytes :=
  if lm_kind m =? LOC_REGISTER then
    loc_build_register (lm_epoch m) (lm_seq m) (lm_ttl_s m) (lm_id m) cap
  else if lm_kind m =? LOC_QUERY then loc_build_query (lm_qid m) (lm_id m) cap
  else if lm_kind m =? LOC_REPLY then
    loc_build_reply (lm_qid m) (lm_epoch m) (lm_seq m) (lm_ttl_s m) (lm_loc m) (lm_id m) cap
  else None.

(** The message a builder of the given kind is called for. *)
Definition loc_wf (m : LocMsg) : Prop :=
  (lm_kind m = LOC_REGISTER ∧ lm_qid m = 0 ∧ is_u16 (lm_epoch m) ∧ is_u16 (lm_seq m)
     ∧ is_u16 (lm_ttl_s m) ∧ lm_loc m = nid_zero ∨
   lm_kind m = LOC_QUERY ∧ is_u16 (lm_qid m) ∧ lm_epoch m = 0 ∧ lm_seq m = 0
     ∧ lm_ttl_s m = 0 ∧ lm_loc m = nid_zero ∨
   lm_kind m = LOC_REPLY ∧ is_u16 (lm_qid m) ∧ is_u16 (lm_epoch m) ∧ is_u16 (lm_seq m)
     ∧ is_u16 (lm_ttl_s m) ∧ wf_nid (lm_loc m)) ∧
  1 <= zlen (lm_id m) <= LOC_ID_MAX ∧ wf_bytes (lm_id m).

Lemma loc_id_bad_false id : loc_id_bad id = false ↔ 1 <= zlen id <= LOC_ID_MAX.
Proof.
  unfold loc_id_bad. pose proof (zlen_nonneg id).
  rewrite orb_false_iff, Z.eqb_neq, Z.ltb_ge. lia.
Qed.

(** The trailing id: accepted iff it is the rest of the message. *)
Lemma loc_read_id_spec msg p : wf_bytes msg → 0 <= p → p + 1 <= zlen msg < 65536 →
  safe (loc_read_id msg p) (λ id, 1 <= zlen id <= LOC_ID_MAX ∧ wf_bytes id ∧
    zlen msg = p + 1 + zlen id ∧ seg msg p (zlen msg - p) = [zlen id] ++ id).
Proof.
  intros Hb Hp Hl. unfold loc_read_id, LOC_ID_MAX. safe_step. safe_step. safe_step.
  eapply safe_eq; [by apply safe_rd with (Q := is_u8); [done|lia|]|]. intros il Hil Hu.
  safe_step. safe_step. safe_step. safe_step. bools. rewrite u16_small in H1 by zlia. apply safe_bind.
  eapply safe_eq; [apply safe_rdn with (Q := wf_bytes); [done|lia|zlia|lia|done]|].
  intros id Hid Hw. apply rdn_seg in Hid as [Hid Hlen]. apply safe_into; [lia|]. apply rd_seg in Hil.
  assert (0 <= il) by zlia. split; [lia|]. split; [done|]. split; [lia|].
  rewrite <- H1. replace (p + 1 + il - p) with (1 + il) by lia.
  by rewrite seg_split, Hil, Hid, Hlen by lia.
Qed.

Lemma at_loc_read_id msg p id : 1 <= zlen id <= LOC_ID_MAX → zlen msg < 65536 →
  at_ msg p ([zlen id] ++ id) → loc_read_id msg p = Ok id.
Proof.
  intros Hid Hl Hat. pose proof (at_zlen _ _ _ Hat) as Hz. destruct (Hat) as [Hp _].
  rewrite zlen_app, zlen_cons, (zlen_nil (A:=Z)) in Hz.
  unfold loc_read_id, LOC_ID_MAX, guard in *. rewrite !u16_small by zlia.
  rewrite (proj2 (Z.ltb_ge _ _)) by lia. cbn [negb mbind res_bind].
  rewrite (at_rd _ _ _ _ Hat). cbn [mbind res_bind].
  rewrite (proj2 (Z.eqb_neq (zlen id) 0)), (proj2 (Z.ltb_ge 16 (zlen id))) by lia.
  cbn [orb negb mbind res_bind].
  rewrite u16_small by zlia. rewrite (proj2 (Z.eqb_eq (p + 1 + zlen id) (zlen msg))) by lia. cbn [mbind res_bind].
  apply (at_move _ _ (p + 1)) in Hat; [|done].
  rewrite <- (app_nil_r id) in Hat at 1. rewrite (at_rdn _ _ _ _ _ Hat) by done. cbn [mbind res_bind]. apply into_ok. lia.
Qed.

(** [loc_len m]: the size of [m] on the wire. *)
Definition loc_len (m : LocMsg) : Z :=
  (if lm_kind m =? LOC_REGISTER then 8 else if lm_kind m =? LOC_QUERY then 4 else 26) + zlen (lm_id m).

(** The builders' output, when it fits. *)
Definition loc_encode (m : LocMsg) : bytes :=
  [lm_kind m] ++
  (if lm_kind m =? LOC_REGISTER then
     put_u16 (lm_epoch m) ++ put_u16 (lm_seq m) ++ put_u16 (lm_ttl_s m)
   else if lm_kind m =? LOC_QUERY then put_u16 (lm_qid m)
   else put_u16 (lm_qid m) ++ put_u16 (lm_epoch m) ++ put_u16 (lm_seq m) ++ put_u16 (lm_ttl_s m)
        ++ nid_write (lm_loc m))
  ++ [zlen (lm_id m)] ++ lm_id m.

Lemma loc_build_encode m cap : loc_wf m →
  loc_build m cap = if cap <? loc_len m then None else Some (loc_encode m).
Proof.
  intros [Hk [Hid _]]. unfold loc_build, loc_len, loc_encode.
  unfold loc_build_register, loc_build_query, loc_build_reply.
  rewrite (proj2 (loc_id_bad_false _) Hid). unfold LOC_ID_MAX in Hid.
  destruct Hk as [[-> _]|[[-> _]|[-> _]]]; simpl;
    (rewrite u16_small by zlia); rewrite <- ?app_assoc; simpl; f_equal; f_equal; lia.
Qed.

Lemma zlen_loc_encode m : loc_wf m → zlen (loc_encode m) = loc_len m.
Proof.
  intros [Hk _]. unfold loc_encode, loc_len.
  destruct Hk as [(-> & _)|[(-> & _)|(-> & _ & _ & _ & _ & Hl)]]; simpl;
    rewrite ?zlen_app, ?zlen_cons, ?zlen_app, ?zlen_put_u16, ?zlen_nid_write, ?zlen_cons by done; lia.
Qed.

Lemma loc_parse_encode m : loc_wf m → loc_parse (loc_encode m) = Ok m.
Proof.
  intros Hm. pose proof (zlen_loc_encode m Hm) as Hlen. destruct Hm as [Hk [Hid Hw]].
  pose proof (at_start (loc_encode m)) as Hat. unfold loc_encode in Hat at 2.
  set (msg := loc_encode m) in *. clearbody msg. unfold loc_len, LOC_ID_MAX in *.
  destruct m as [k qid epoch seq ttl loc id]. cbn [lm_kind lm_qid lm_epoch lm_seq lm_ttl_s lm_loc lm_id] in *.
  unfold loc_parse, guard.
  destruct Hk as [(-> & -> & He & Hs & Ht & ->)|[(-> & Hq & -> & -> & -> & ->)|(-> & Hq & He & Hs & Ht & Hloc)]];
    simpl (_ =? _) in *; cbv iota in *; rewrite <- ?app_assoc in Hat;
    rewrite (proj2 (Z.leb_le 2 (zlen msg))) by lia; cbn [mbind res_bind];
    rewrite (at_rd _ _ _ _ Hat); cbn [mbind res_bind]; simpl (_ =? _); cbv iota;
    rewrite (proj2 (Z.leb_le _ (zlen msg))) by lia; cbn [mbind res_bind];
    apply (at_move _ _ 1) in Hat; try done.
  - rewrite (at_rd_u16 _ _ _ _ Hat) by done. cbn [mbind res_bind].
    apply (at_move _ _ 3) in Hat; [|done]. rewrite (at_rd_u16 _ _ _ _ Hat) by done. cbn [mbind res_bind].
    apply (at_move _ _ 5) in Hat; [|done]. rewrite (at_rd_u16 _ _ _ _ Hat) by done. cbn [mbind res_bind].
    apply (at_move _ _ 7) in Hat; [|done]. by rewrite (at_loc_read_id _ _ _ Hid) by (done || lia).
  - rewrite (at_rd_u16 _ _ _ _ Hat) by done. cbn [mbind res_bind].
    apply (at_move _ _ 3) in Hat; [|done]. by rewrite (at_loc_read_id _ _ _ Hid) by (done || lia).
  - rewrite (at_rd_u16 _ _ _ _ Hat) by done. cbn [mbind res_bind].
    apply (at_move _ _ 3) in Hat; [|done]. rewrite (at_rd_u16 _ _ _ _ Hat) by done. cbn [mbind res_bind].
    apply (at_move _ _ 5) in Hat; [|done]. rewrite (at_rd_u16 _ _ _ _ Hat) by done. cbn [mbind res_bind].
    apply (at_move _ _ 7) in Hat; [|done]. rewrite (at_rd_u16 _ _ _ _ Hat) by done. cbn [mbind res_bind].
    apply (at_move _ _ 9) in Hat; [|done]. rewrite (at_nid_read _ _ _ _ Hloc Hat). cbn [mbind res_bind].
    apply (at_move _ _ 25) in Hat; [|by rewrite zlen_nid_write].
    by rewrite (at_loc_read_id _ _ _ Hid) by (done || lia).
Qed.

Lemma loc_parse_spec msg : wf_bytes msg → zlen msg < 65536 →
  safe (loc_parse msg) (λ m, loc_wf m ∧ loc_encode m = msg).
Proof.
  intros Hb Hl. unfold loc_parse. safe_step. safe_step. bools.
  apply safe_bind. eapply safe_eq; [by apply safe_rd with (Q := is_u8); [done|lia|]|].
  intros kind Hkind _. apply rd_seg in Hkind.
  (* one little-endian field at [i] *)
  assert (∀ i (Q : Z → Prop), 0 <= i → i + 2 <= zlen msg →
    (∀ v, is_u16 v → seg msg i 2 = put_u16 v → Q v) → safe (rd_u16 msg i) Q) as Hf16.
  { intros i Q Hi Hi2 HQ. eapply safe_eq; [by apply safe_rd_u16 with (Q := is_u16)|].
    intros v Hv Hvu. apply HQ; [done|by apply rd_u16_seg]. }
  apply (safe_mono _ (λ m, loc_wf m ∧ loc_encode m = seg msg 0 (zlen msg)));
    [|intros m [? ->]; by rewrite <- seg_whole].
  destruct (Z.eqb_spec kind LOC_REGISTER) as [->|Hk1].
  { safe_step. safe_step. bools.
    apply safe_bind, Hf16; [lia|lia|intros epoch He Hes].
    apply safe_bind, Hf16; [lia|lia|intros seq Hs Hss].
    apply safe_bind, Hf16; [lia|lia|intros ttl Ht Hts].
    apply safe_bind. eapply safe_mono; [apply loc_read_id_spec; [done|lia|lia]|].
    intros id (Hid & Hw & Hlen & Hseg). apply safe_ok. split.
    - split; [|done]. left. repeat split; try apply He; try apply Hs; apply Ht.
    - unfold loc_encode. cbn [lm_kind lm_qid lm_epoch lm_seq lm_ttl_s lm_loc lm_id].
      rewrite Z.eqb_refl, <- Hkind, <- Hes, <- Hss, <- Hts, <- Hseg.
      replace (zlen msg) with (1 + (2 + (2 + (2 + (zlen msg - 7))))) at 2 by lia.
      rewrite !seg_split by lia. by rewrite <- ?app_assoc. }
  destruct (Z.eqb_spec kind LOC_QUERY) as [->|Hk2].
  { safe_step. safe_step. bools.
    apply safe_bind, Hf16; [lia|lia|intros qid Hq Hqs].
    apply safe_bind. eapply safe_mono; [apply loc_read_id_spec; [done|lia|lia]|].
    intros id (Hid & Hw & Hlen & Hseg). apply safe_ok. split.
    - split; [|done]. right. left. repeat split; apply Hq.
    - unfold loc_encode. cbn [lm_kind lm_qid lm_epoch lm_seq lm_ttl_s lm_loc lm_id].
      simpl (_ =? _). cbv iota. rewrite <- Hkind, <- Hqs, <- Hseg.
      replace (zlen msg) with (1 + (2 + (zlen msg - 3))) at 2 by lia.
      rewrite !seg_split by lia. by rewrite <- ?app_assoc. }
  destruct (Z.eqb_spec kind LOC_REPLY) as [->|Hk3]; [|done].
  safe_step. safe_step. bools.
  apply safe_bind, Hf16; [lia|lia|intros qid Hq Hqs].
  apply safe_bind, Hf16; [lia|lia|intros epoch He Hes].
  apply safe_bind, Hf16; [lia|lia|intros seq Hs Hss].
  apply safe_bind, Hf16; [lia|lia|intros ttl Ht Hts].
  apply safe_bind. eapply safe_eq; [by apply safe_nid_read with (Q := wf_nid); [done|lia|lia|]|].
  intros loc Hloc Hlw.
  apply safe_bind. eapply safe_mono; [apply loc_read_id_spec; [done|lia|lia]|].
  intros id (Hid & Hw & Hlen & Hseg). apply safe_ok. split.
  - split; [|done]. right. right. repeat split; try apply Hq; try apply He; try apply Hs;
      try apply Ht; apply Hlw.
  - unfold loc_encode. cbn [lm_kind lm_qid lm_epoch lm_seq lm_ttl_s lm_loc lm_id].
    simpl (_ =? _). cbv iota.
    pose proof (nid_read_seg _ _ _ Hloc) as Hls.
    rewrite <- Hkind, <- Hqs, <- Hes, <- Hss, <- Hts, <- Hls, <- Hseg.
    replace (zlen msg) with (1 + (2 + (2 + (2 + (2 + (16 + (zlen msg - 25))))))) at 2 by lia.
    rewrite !seg_split by lia. by rewrite <- !app_assoc.
Qed.

(** The locator codec is exact. [loc_parse] accepts a byte string as
    message [m] if and only if it is, byte for byte, what the builder of [m]'s
    kind writes for [m]: no trailing junk, no truncation, no out-of-range id,
    no two encodings of one message; and it never reads outside the buffer. *)
Theorem loc_codec_exact (msg : bytes) (m : LocMsg) (Hb : wf_bytes msg) (Hl : zlen msg < 65536) :
  loc_parse msg ≠ Oob ∧
  (loc_parse msg = Ok m ↔ loc_wf m ∧ loc_build m (zlen msg) = Some msg).
Proof.
  pose proof (loc_parse_spec msg Hb Hl) as Hs. split; [by eapply safe_not_oob|].
  split.
  - intros Hp. rewrite Hp in Hs. destruct Hs as [Hm He]. split; [done|].
    rewrite loc_build_encode, He, <- (zlen_loc_encode m Hm), He by done.
    by rewrite (proj2 (Z.ltb_ge _ _)) by lia.
  - intros [Hm He]. rewrite loc_build_encode in He by done.
    destruct (_ <? _); [done|]. injection He as <-. by apply loc_parse_encode.
Qed.

Definition loc_ex : LocMsg := mkLoc LOC_REPLY 7 1 2 300 (nid_from_u32 9) [1; 2; 3; 4; 5; 6; 7; 8].

Example loc_codec_exact_witness :
  ∃ msg, loc_build loc_ex 34 = Some msg ∧ zlen msg = 34 ∧ loc_parse msg = Ok loc_ex.
Proof.
  destruct (loc_build loc_ex 34) as [msg|] eqn:E; [|by vm_compute in E].
  exists msg. split; [done|].
  assert (zlen msg = 34 ∧ bool_decide (wf_bytes msg) = true) as [Hl Hw]
    by (vm_compute in E; injection E as <-; by vm_compute).
  split; [done|]. apply (loc_codec_exact msg loc_ex).
  - by apply bool_decide_eq_true in Hw.
  - lia.
  - split; [|by rewrite Hl].
    split; [|split; [by vm_compute|simpl; each; zlia]]. right. right. simpl.
    split; [done|]. repeat (split; [zlia|]). apply wf_nid_u32.
Defined.

(** ** The binding cache as a finite map *)

Record ld_ok (d : LocatorDir) : Prop := {
  ldo_len : length (ld_e d) = 32%nat;
  ldo_keys : slots_unique le_used le_id (ld_e d) }.

Definition ld_map (d : LocatorDir) : gmap bytes LocEntry := slots_map le_used le_id (ld_e d).

Lemma ld_init_ok : ld_ok LocatorDir_init.
Proof. split; [done|by apply slots_unique_replicate]. Qed.

Lemma ld_find_map id d : ld_map d !! id =
  match ld_find id (ld_e d) with Some i => ld_e d !! i | None => None end.
Proof. apply slots_map_lookup. Qed.

(** Which slot [alloc_slot] picks. *)
Definition slot_choice (now : Z) (l : list LocEntry) (e : LocEntry) : Prop :=
  le_used e = false ∨
  (∀ x, x ∈ l → le_used x = true) ∧
  (le_expired now e = true ∨
   (∀ x, x ∈ l → le_expired now x = false ∧ le_touched e <= le_touched x)).

Lemma ld_scan_spec now pre l ex lru :
  (∀ x, x ∈ pre → le_used x = true) →
  match ex with
  | Some i => ∃ e, pre !! i = Some e ∧ le_expired now e = true
  | None => ∀ x, x ∈ pre → le_expired now x = false
  end →
  match lru with
  | Some (i, t) => ∃ e, pre !! i = Some e ∧ le_touched e = t ∧ ∀ x, x ∈ pre → t <= le_touched x
  | None => pre = []
  end →
  pre ++ l ≠ [] →
  ∃ i e, ld_scan (length pre) l now ex lru = Some i ∧ (pre ++ l) !! i = Some e ∧
    slot_choice now (pre ++ l) e ∧ (le_used e = false → find_index (λ x, negb (le_used x)) (pre ++ l) = Some i).
Proof.
  revert pre ex lru. induction l as [|x l IH]; intros pre ex lru Hused Hex Hlru Hne; simpl.
  { rewrite app_nil_r in *. destruct ex as [i|].
    - destruct Hex as (e & He & Hx). exists i, e. split; [done|]. split; [done|].
      split; [right; auto|]. rewrite Hused; [done|]. apply list_elem_of_lookup. eauto.
    - destruct lru as [[i t]|]; [|done]. destruct Hlru as (e & He & <- & Hmin).
      exists i, e. split; [done|]. split; [done|]. split; [right; auto|].
      rewrite Hused; [done|]. apply list_elem_of_lookup. eauto. }
  destruct (le_used x) eqn:Hu; simpl.
  2: { exists (length pre), x. split; [done|].
       split; [by rewrite lookup_app_r, Nat.sub_diag|]. split; [by left|]. intros _.
       clear -Hused Hu. induction pre as [|y pre IH]; simpl; [by rewrite Hu|].
       rewrite (Hused y) by (by left). simpl. rewrite IH; [done|]. intros z Hz. apply Hused. by right. }
  rewrite (cons_middle x pre l), app_assoc in *.
  replace (S (length pre)) with (length (pre ++ [x])) by (rewrite length_app; simpl; lia).
  assert (∀ i e, pre !! i = Some e → (pre ++ [x]) !! i = Some e) as Hpre
    by (intros i e Hi; rewrite lookup_app_l; [done|by eapply lookup_lt_Some]).
  assert ((pre ++ [x]) !! length pre = Some x) as Hlast
    by (by rewrite lookup_app_r, Nat.sub_diag).
  apply IH; [| | |by destruct pre].
  - intros y [?| ->%list_elem_of_singleton]%elem_of_app; auto.
  - destruct (le_expired now x) eqn:Hx; [eauto|]. destruct ex as [i|].
    + destruct Hex as (e & He & ?). eauto.
    + intros y [?| ->%list_elem_of_singleton]%elem_of_app; auto.
  - destruct lru as [[i t]|].
    + destruct Hlru as (e & He & Ht & Hmin). destruct (Z.ltb_spec (le_touched x) t).
      * exists x. split; [done|]. split; [done|].
        intros y [Hy| ->%list_elem_of_singleton]%elem_of_app; [|done]. specialize (Hmin y Hy). lia.
      * exists e. split; [auto|]. split; [done|].
        intros y [Hy| ->%list_elem_of_singleton]%elem_of_app; [auto|done].
    + subst pre. exists x. split; [done|]. split; [done|].
      intros y ->%list_elem_of_singleton. done.
Qed.

Lemma alloc_slot_spec now d : ld_ok d →
  ∃ i e, alloc_slot now (ld_e d) = Some i ∧ ld_e d !! i = Some e ∧ slot_choice now (ld_e d) e ∧
    (le_used e = false → find_index (λ x, negb (le_used x)) (ld_e d) = Some i).
Proof.
  intros Hok. apply (ld_scan_spec now [] (ld_e d) None None).
  - by intros x ?%elem_of_nil.
  - by intros x ?%elem_of_nil.
  - done.
  - simpl. intros E. pose proof (ldo_len _ Hok) as H. by rewrite E in H.
Qed.

(** When a registration is accepted over an existing binding. *)
Definition loc_accepts (old : option LocEntry) (epoch seq now : Z) : bool :=
  match old with
  | None => true
  | Some e => le_expired now e || ((epoch =? le_epoch e) && loc_seq_newer seq (le_seq e))
              || negb (epoch =? le_epoch e)
  end.

(** The whole case analysis of [loc_upsert], shared with the locator service. *)
Lemma loc_upsert_cases (d : LocatorDir) (id : bytes) (loc : NodeId) (epoch seq ttl now : Z)
    (Hok : ld_ok d) (Hid : 1 <= zlen id <= LOC_ID_MAX) :
  let '(d', ok) := loc_upsert id loc epoch seq ttl now d in
  ok = loc_accepts (ld_map d !! id) epoch seq now ∧
  ld_ok d' ∧ (ok = false → d' = d) ∧
  (ok = true → ∃ e m, le_loc e = loc ∧ le_epoch e = epoch ∧ le_seq e = seq ∧
    le_expiry_ms e = u32 (now + u32 (ttl * 1000)) ∧
    ld_map d' = <[id := e]> m ∧
    (m = ld_map d ∨
     ∃ old, ld_map d !! le_id old = Some old ∧ ld_map d !! id = None ∧
       m = delete (le_id old) (ld_map d) ∧ slot_choice now (ld_e d) old ∧ le_used old = true)).
Proof.
  unfold loc_upsert. rewrite (proj2 (loc_id_bad_false id) Hid), ld_find_map.
  set (e' := mkLE id true loc epoch seq _ _).
  destruct (ld_find id (ld_e d)) as [i|] eqn:Hf.
  - pose proof Hf as (e & He & Hu & Hk)%slot_find_Some. rewrite He. unfold loc_accepts.
    destruct (_ || _ || _); [|done]. split; [done|]. split; [split; simpl|].
    { rewrite length_insert. apply Hok. }
    { eapply slots_unique_update; [apply Hok|done..]. }
    split; [done|]. intros _. exists e', (ld_map d). repeat (split; [done|]).
    split; [|by left]. by apply slots_map_update.
  - destruct (alloc_slot_spec now d Hok) as (i & e & -> & Hi & Hc & Hfree). split; [done|].
    split; [split; simpl|].
    { rewrite length_insert. apply Hok. }
    { apply slots_unique_fresh; [apply Hok|done]. }
    split; [done|]. intros _. exists e'. destruct (le_used e) eqn:Hu.
    + exists (delete (le_id e) (ld_map d)). repeat (split; [done|]). split.
      * apply (slots_map_replace le_used le_id (ld_e d) i e e'); [apply Hok|done..].
      * right. exists e. split; [apply slots_map_lookup_Some; [apply Hok|eauto]|].
        done.
    + exists (ld_map d). repeat (split; [done|]). split; [|by left].
      apply slots_map_fresh; [done|by apply Hfree|done|done].
Qed.

(** The directory orders registrations and never loses a live binding
    without need. [upsert] accepts a binding exactly when the id is unknown, or
    its binding has expired, or the sequence number is strictly newer within
    the same epoch, or the epoch changed; a rejected one changes nothing. An
    accepted one is stored under its id; every other id keeps its binding,
    except that with all 32 slots taken by other ids one binding makes room: an
    expired one if there is any, otherwise the least recently used. *)
Theorem loc_upsert_spec (d : LocatorDir) (id : bytes) (loc : NodeId) (epoch seq ttl now : Z)
    (Hok : ld_ok d) (Hid : 1 <= zlen id <= LOC_ID_MAX) :
  let '(d', ok) := loc_upsert id loc epoch seq ttl now d in
  ok = loc_accepts (ld_map d !! id) epoch seq now ∧
  ld_ok d' ∧ (ok = false → d' = d) ∧
  (ok = true → ∃ e m, le_loc e = loc ∧ le_epoch e = epoch ∧ le_seq e = seq ∧
    le_expiry_ms e = u32 (now + u32 (ttl * 1000)) ∧
    ld_map d' = <[id := e]> m ∧
    (m = ld_map d ∨
     ∃ old, ld_map d !! le_id old = Some old ∧ ld_map d !! id = None ∧
       m = delete (le_id old) (ld_map d) ∧ slot_choice now (ld_e d) old ∧ le_used old = true)).
Proof. by apply loc_upsert_cases. Qed.

Definition ld_ex : LocatorDir :=
  (loc_upsert [1; 2; 3] (nid_from_u32 5) 1 10 60 0 LocatorDir_init).1.
Lemma ld_ex_ok : ld_ok ld_ex.
Proof.
  split; [by vm_compute|]. unfold ld_ex. apply slots_unique_fresh; [apply ld_init_ok|].
  by vm_compute.
Qed.

(** A stale sequence number is refused; a new epoch is taken. *)
Example loc_upsert_spec_witness :
  ld_ok ld_ex ∧
  (loc_upsert [1; 2; 3] (nid_from_u32 6) 1 9 60 1000 ld_ex).2 = false ∧
  (loc_upsert [1; 2; 3] (nid_from_u32 6) 2 1 60 1000 ld_ex).2 = true.
Proof.
  split; [apply ld_ex_ok|].
  pose proof (loc_upsert_spec ld_ex [1; 2; 3] (nid_from_u32 6) 1 9 60 1000 ld_ex_ok) as H1.
  pose proof (loc_upsert_spec ld_ex [1; 2; 3] (nid_from_u32 6) 2 1 60 1000 ld_ex_ok) as H2.
  destruct (loc_upsert [1; 2; 3] (nid_from_u32 6) 1 9 60 1000 ld_ex) as [d1 ok1].
  destruct (loc_upsert [1; 2; 3] (nid_from_u32 6) 2 1 60 1000 ld_ex) as [d2 ok2].
  split.
  - destruct H1 as [-> _]; by vm_compute.
  - destruct H2 as [-> _]; by vm_compute.
Defined.

(** Lookups answer from the live bindings only; an expired one is dropped. *)
Lemma loc_lookup_spec d id now : ld_ok d →
  let '(d', r) := loc_lookup id now d in
  ld_ok d' ∧
  (∀ loc, r = Some loc ↔ ∃ e, ld_map d !! id = Some e ∧ le_expired now e = false ∧ le_loc e = loc) ∧
  (∀ k, k ≠ id → ld_map d' !! k = ld_map d !! k) ∧
  (r = None → ld_map d' !! id = None).
Proof.
  intros Hok. unfold loc_lookup. destruct (ld_find id (ld_e d)) as [i|] eqn:Hf.
  - pose proof Hf as (e & He & Hu & Hk)%slot_find_Some. rewrite He.
    assert (ld_map d !! id = Some e) as Hm by (by rewrite ld_find_map, Hf).
    destruct (le_expired now e) eqn:Hx.
    + assert (ld_map (mkLD (<[i:=le_clear e]> (ld_e d)) (ld_clock d)) = delete id (ld_map d)) as Hd
        by (apply slots_map_delete; [apply Hok|done|done]).
      rewrite (alter_insert _ _ _ _ He). split; [split; simpl|].
      * rewrite length_insert. apply Hok.
      * apply slots_unique_clear; [apply Hok|done].
      * rewrite Hd, Hm. split; [|split].
        -- intros loc. split; [done|]. intros (e' & [= <-] & ? & _). congruence.
        -- intros k Hne. by rewrite lookup_delete_ne.
        -- intros _. by rewrite lookup_delete_eq.
    + set (e' := le_touch (u32 (ld_clock d + 1)) e).
      assert (ld_map (mkLD (<[i:=e']> (ld_e d)) (u32 (ld_clock d + 1))) = <[id:=e']> (ld_map d)) as Hd
        by (by apply slots_map_update).
      rewrite (alter_insert _ _ _ _ He). fold e'. split; [split; simpl|].
      * rewrite length_insert. apply Hok.
      * eapply slots_unique_update; [apply Hok|done..].
      * rewrite Hd, Hm. split; [|split; [|done]].
        -- intros loc. split; [intros [= <-]; eauto|]. by intros (e0 & [= <-] & _ & <-).
        -- intros k Hne. by rewrite lookup_insert_ne.
  - rewrite ld_find_map, Hf. split; [done|]. split; [|done].
    intros loc. split; [done|]. by intros (e & ? & _).
Qed.

Lemma loc_remove_spec d id : ld_ok d →
  ld_ok (loc_remove id d).1 ∧ ld_map (loc_remove id d).1 = delete id (ld_map d) ∧
  (loc_remove id d).2 = bool_decide (is_Some (ld_map d !! id)).
Proof.
  intros Hok. unfold loc_remove. rewrite ld_find_map. destruct (ld_find id (ld_e d)) as [i|] eqn:Hf; simpl.
  - pose proof Hf as (e & He & Hu & Hk)%slot_find_Some. rewrite He, (alter_insert _ _ _ _ He).
    split; [split; simpl|split; [|done]].
    + rewrite length_insert. apply Hok.
    + apply slots_unique_clear; [apply Hok|done].
    + apply slots_map_delete; [apply Hok|done|done].
  - split; [done|]. split; [|done]. symmetry. apply delete_id. by rewrite ld_find_map, Hf.
Qed.

(** ** The resolver *)

Record lr_ok (r : LocatorResolver) : Prop := {
  lro_len : length (lr_p r) = 8%nat;
  lro_next : 1 <= lr_next_qid r < 65536;
  lro_qids : ∀ i p, lr_p r !! i = Some p → lp_used p = true → 1 <= lp_qid p < 65536 }.

Lemma lr_init_ok : lr_ok LocatorResolver_init.
Proof. split; [done|simpl; lia|]. by intros i p [-> _]%lookup_replicate. Qed.

Lemma lr_scan_spec k l now slot i : lr_scan k l now slot = Some i →
  slot = Some i ∨ ∃ j p, l !! j = Some p ∧ lp_live now p = false ∧ i = (k + j)%nat.
Proof.
  revert k slot. induction l as [|p l IH]; intros k slot; simpl; [auto|].
  destruct (lp_used p) eqn:Hu; simpl.
  - intros [H|(j & q & Hj & Hq & ->)]%IH.
    + destruct (Z.leb_spec 0 (i32 (now - lp_deadline_ms p))); [|auto].
      injection H as <-. right. exists O, p. split; [done|]. split; [|lia].
      unfold lp_live. rewrite Hu. simpl. apply Z.ltb_ge. lia.
    + right. exists (S j), q. split; [done|]. split; [done|lia].
  - intros [= <-]. right. exists O, p. split; [done|]. split; [|lia]. unfold lp_live. by rewrite Hu.
Qed.

Lemma lr_scan_None k l now slot : lr_scan k l now slot = None →
  slot = None ∧ ∀ p, p ∈ l → lp_live now p = true.
Proof.
  revert k slot. induction l as [|p l IH]; intros k slot; simpl.
  { intros ->. split; [done|]. by intros p ?%elem_of_nil. }
  destruct (lp_used p) eqn:Hu; simpl; [|done]. intros [Hs Hl]%IH.
  destruct (Z.leb_spec 0 (i32 (now - lp_deadline_ms p))); [done|]. split; [done|].
  intros q [->|Hq]%elem_of_cons; [|auto]. unfold lp_live. rewrite Hu. simpl. by apply Z.ltb_lt.
Qed.

(** The whole case analysis of [loc_begin], shared with the locator service. *)
Lemma loc_begin_cases (r : LocatorResolver) (id : bytes) (now timeout : Z)
    (Hok : lr_ok r) (Hid : 1 <= zlen id <= LOC_ID_MAX) (Hto : 1 <= timeout < 65536) :
  let '(r', qid) := loc_begin id now timeout r in
  lr_ok r' ∧
  (if loc_pending id now r
   then r' = r ∧ ∃ i p, lr_p r !! i = Some p ∧ lp_qid p = qid ∧ lp_id p = id ∧ lp_live now p = true
   else if bool_decide (qid = 0) then r' = r ∧ ∀ p, p ∈ lr_p r → lp_live now p = true
   else ∃ i, lr_p r' !! i = Some (mkLP true id qid (u32 (now + timeout))) ∧
     1 <= qid < 65536 ∧ loc_pending id now r' = true ∧
     ∀ j p, lr_p r !! j = Some p → lp_live now p = true → lr_p r' !! j = Some p).
Proof.
  unfold loc_begin, loc_pending. rewrite (proj2 (loc_id_bad_false id) Hid).
  destruct (find_index (lr_match id now) (lr_p r)) as [i|] eqn:Hf; simpl.
  { apply find_index_lookup in Hf as (p & Hp & [Hl Hi]%andb_true_iff). rewrite Hp.
    split; [done|]. split; [done|]. exists i, p. by apply bool_decide_eq_true in Hi. }
  destruct (lr_scan 0 (lr_p r) now None) as [i|] eqn:Hs.
  2: { split; [done|]. split; [done|]. by apply lr_scan_None in Hs as [_ ?]. }
  apply lr_scan_spec in Hs as [[=]|(j & p & Hj & Hdead & ->)]. rewrite Nat.add_0_l.
  pose proof (lookup_lt_Some _ _ _ Hj) as Hlt. pose proof (lro_next _ Hok) as Hnext.
  set (p' := mkLP true id (lr_next_qid r) (u32 (now + timeout))).
  split.
  - split; simpl.
    + rewrite length_insert. apply Hok.
    + destruct (Z.eqb_spec (u16 (lr_next_qid r + 1)) 0); zlia.
    + intros k q [(<- & <- & _)|[_ Hq]]%list_lookup_insert_Some Hu; [done|by eapply Hok].
  - rewrite bool_decide_eq_false_2 by lia. exists j. simpl.
    split; [by apply list_lookup_insert_eq|]. split; [done|]. split.
    + destruct (find_index _ (<[j:=p']> (lr_p r))) as [k|] eqn:Hk; [done|exfalso].
      rewrite find_index_None in Hk. specialize (Hk j p' (list_lookup_insert_eq _ _ _ Hlt)).
      unfold lr_match, lp_live in Hk. simpl in Hk. rewrite bool_decide_eq_true_2, andb_true_r in Hk by done.
      apply Z.ltb_ge in Hk. zlia.
    + intros k q Hq Hql. rewrite list_lookup_insert_ne; [done|]. intros <-. congruence.
Qed.

(** At most one query per identity is in flight. For a valid id, [begin]
    returns the query id of the pending resolution, sending nothing new and
    changing nothing, if there is one that has not timed out; otherwise it
    starts one under a non-zero query id (pending until [timeout] ms later)
    without disturbing any live resolution; it returns 0 only when all 8 slots
    are live. A reply clears exactly a resolution with its query id. *)
Theorem loc_resolver_single_query (r : LocatorResolver) (id : bytes) (now timeout : Z)
    (Hok : lr_ok r) (Hid : 1 <= zlen id <= LOC_ID_MAX) (Hto : 1 <= timeout < 65536) :
  let '(r', qid) := loc_begin id now timeout r in
  lr_ok r' ∧
  (if loc_pending id now r
   then r' = r ∧ ∃ i p, lr_p r !! i = Some p ∧ lp_qid p = qid ∧ lp_id p = id ∧ lp_live now p = true
   else if bool_decide (qid = 0) then r' = r ∧ ∀ p, p ∈ lr_p r → lp_live now p = true
   else ∃ i, lr_p r' !! i = Some (mkLP true id qid (u32 (now + timeout))) ∧
     1 <= qid < 65536 ∧ loc_pending id now r' = true ∧
     ∀ j p, lr_p r !! j = Some p → lp_live now p = true → lr_p r' !! j = Some p).
Proof. by apply loc_begin_cases. Qed.

Example loc_resolver_single_query_witness :
  lr_ok LocatorResolver_init ∧
  let '(r, qid) := loc_begin [1; 2] 100 4000 LocatorResolver_init in
  lr_ok r ∧ qid = 1 ∧ loc_begin [1; 2] 4099 4000 r = (r, 1) ∧ (loc_begin [1; 2] 4100 4000 r).2 = 2.
Proof.
  split; [apply lr_init_ok|].
  pose proof (loc_resolver_single_query LocatorResolver_init [1; 2] 100 4000 lr_init_ok) as H.
  destruct (loc_begin [1; 2] 100 4000 LocatorResolver_init) as [r qid] eqn:E.
  destruct H as [Hok _]; [done|done|]. vm_compute in E. injection E as <- <-.
  split; [done|]. by vm_compute.
Defined.

(** ** Preservation, for every argument *)

Lemma loc_upsert_ok id loc epoch seq ttl now d : ld_ok d → ld_ok (loc_upsert id loc epoch seq ttl now d).1.
Proof.
  intros Hok. destruct (loc_id_bad id) eqn:Hid; [by unfold loc_upsert; rewrite Hid|].
  apply loc_id_bad_false in Hid. pose proof (loc_upsert_cases d id loc epoch seq ttl now Hok Hid) as H.
  by destruct (loc_upsert id loc epoch seq ttl now d), H as (_ & ? & _).
Qed.

Lemma loc_begin_ok id now timeout r : lr_ok r → 1 <= timeout < 65536 → lr_ok (loc_begin id now timeout r).1.
Proof.
  intros Hok Ht. destruct (loc_id_bad id) eqn:Hid; [by unfold loc_begin; rewrite Hid|].
  apply loc_id_bad_false in Hid. pose proof (loc_begin_cases r id now timeout Hok Hid Ht) as H.
  by destruct (loc_begin id now timeout r), H as (? & _).
Qed.

Lemma lr_sweep_ok (f : LocP → LocP) r : lr_ok r →
  (∀ p, lp_used (f p) = true → lp_used p = true) → (∀ p, lp_qid (f p) = lp_qid p) →
  lr_ok (mkLR (f <$> lr_p r) (lr_next_qid r)).
Proof.
  intros [Hl Hn Hq] Hu Hi. split; simpl; [by rewrite length_fmap|done|].
  intros i p Hp. rewrite list_lookup_fmap in Hp. destruct (lr_p r !! i) as [p0|] eqn:H0; [|done].
  simpl in Hp. injection Hp as <-. rewrite Hi. eauto.
Qed.
Lemma loc_tick_ok now r : lr_ok r → lr_ok (loc_tick now r).1.
Proof.
  intros Hok. apply (lr_sweep_ok (λ p, if lp_used p && (0 <=? i32 (now - lp_deadline_ms p)) then lp_clear p else p) r Hok).
  - intros p. by case_match.
  - intros p. by case_match.
Qed.
Lemma on_reply_ok qid r : lr_ok r → lr_ok (on_reply qid r).1.
Proof.
  intros [Hl Hn Hq]. unfold on_reply. destruct (find_index _ (lr_p r)) as [i|] eqn:Hf; [|by split].
  apply find_index_lookup in Hf as (x & Hx & _). rewrite (alter_insert _ _ _ _ Hx).
  split; simpl; [by rewrite length_insert|done|].
  intros j p [(<- & <- & _)|[_ Hp]]%list_lookup_insert_Some Hu; [done|eauto].
Qed.

(** [lookup_full]: the live binding with its remaining lifetime. *)
Lemma lookup_full_spec d id now : ld_ok d →
  let '(d', r) := lookup_full id now d in
  ld_ok d' ∧
  (∀ loc epoch seq ttl, r = Some (loc, epoch, seq, ttl) → 1 <= ttl < 65536 ∧
    ∃ e, ld_map d !! id = Some e ∧ 0 < i32 (le_expiry_ms e - now) ∧
      le_loc e = loc ∧ le_epoch e = epoch ∧ le_seq e = seq) ∧
  (r = None → ld_map d' !! id = None) ∧
  (∀ e, ld_map d' !! id = Some e → ∃ e0, ld_map d !! id = Some e0 ∧ le_loc e = le_loc e0 ∧
    le_epoch e = le_epoch e0 ∧ le_seq e = le_seq e0 ∧ le_expiry_ms e = le_expiry_ms e0).
Proof.
  intros Hok. unfold lookup_full. destruct (ld_find id (ld_e d)) as [i|] eqn:Hf.
  2: { rewrite ld_find_map, Hf. split; [done|]. split; [done|]. by split. }
  pose proof Hf as (e & He & Hu & Hk)%slot_find_Some. rewrite He.
  assert (ld_map d !! id = Some e) as Hm by (by rewrite ld_find_map, Hf).
  rewrite !(alter_insert _ _ _ _ He). destruct (Z.leb_spec (i32 (le_expiry_ms e - now)) 0) as [Hx|Hx].
  - assert (ld_map (mkLD (<[i:=le_clear e]> (ld_e d)) (ld_clock d)) = delete id (ld_map d)) as Hd
      by (apply slots_map_delete; [apply Hok|done|done]).
    rewrite Hd, lookup_delete_eq. split; [split; simpl|by split].
    + rewrite length_insert. apply Hok.
    + apply slots_unique_clear; [apply Hok|done].
  - set (e' := le_touch (u32 (ld_clock d + 1)) e).
    assert (ld_map (mkLD (<[i:=e']> (ld_e d)) (u32 (ld_clock d + 1))) = <[id:=e']> (ld_map d)) as Hd
      by (by apply slots_map_update).
    rewrite Hd, lookup_insert_eq. split; [split; simpl|split; [|split; [done|]]].
    + rewrite length_insert. apply Hok.
    + eapply slots_unique_update; [apply Hok|done..].
    + intros loc epoch seq ttl [= <- <- <- Ht]. split; [|by eauto 8]. subst ttl. repeat case_match; zlia.
    + intros e0 [= <-]. by eauto 8.
Qed.

(** Every stored locator is a node id, every stored id fits its array. *)
Definition le_wf (e : LocEntry) : Prop := wf_nid (le_loc e) ∧ zlen (le_id e) <= LOC_ID_MAX.
Definition ld_wf (d : LocatorDir) : Prop := Forall le_wf (ld_e d).

Lemma ld_alter_wf (f : LocEntry → LocEntry) i l : Forall le_wf l →
  (∀ e, le_loc (f e) = le_loc e ∧ le_id (f e) = le_id e) → Forall le_wf (alter f i l).
Proof.
  intros Hl Hf. apply Forall_lookup. intros j e Hj. destruct (decide (i = j)) as [->|Hne].
  - rewrite list_lookup_alter_eq in Hj. destruct (l !! j) as [e0|] eqn:H0; [|done].
    simpl in Hj. injection Hj as <-. unfold le_wf. destruct (Hf e0) as [-> ->]. exact (Forall_lookup_1 _ _ _ _ Hl H0).
  - rewrite list_lookup_alter_ne in Hj by done. exact (Forall_lookup_1 _ _ _ _ Hl Hj).
Qed.
Lemma loc_upsert_wf id loc epoch seq ttl now d : ld_wf d → wf_nid loc →
  ld_wf (loc_upsert id loc epoch seq ttl now d).1.
Proof.
  intros Hd Hl. unfold loc_upsert. destruct (loc_id_bad id) eqn:Hb; [done|].
  assert (zlen id <= LOC_ID_MAX) by (unfold loc_id_bad in Hb; lia).
  repeat case_match; try done; unfold ld_wf; by apply Forall_insert.
Qed.
Lemma loc_lookup_wf id now d : ld_wf d → ld_wf (loc_lookup id now d).1.
Proof. intros Hd. unfold loc_lookup. repeat case_match; try done; by apply ld_alter_wf. Qed.
Lemma lookup_full_wf id now d : ld_wf d →
  ld_wf (lookup_full id now d).1 ∧
  ∀ loc epoch seq ttl, (lookup_full id now d).2 = Some (loc, epoch, seq, ttl) → wf_nid loc.
Proof.
  intros Hd. unfold lookup_full. destruct (ld_find id (ld_e d)) as [i|]; [|done].
  destruct (ld_e d !! i) as [e|] eqn:He; [|done]. case_match; cbn [fst snd].
  - split; [by apply ld_alter_wf|done].
  - split; [by apply ld_alter_wf|]. intros loc epoch seq ttl [= <- _ _ _]. apply (Forall_lookup_1 _ _ _ _ Hd He).
Qed.
