(* ===== verification/RadioHal.v ===== *)
(** include/radio_hal.h and src/radio_hal.cpp: the never-blocking radio, with
    listen-before-talk.

    The RadioLib driver is not under src/: what each driver call returns is an
    argument ([ChipEnv]), and the calls made are an output ([ChipOp]).  The
    board's front-end and supply pins are not modelled.  [isr] runs between
    handlers. *)
From S2P Require Import Prelude Update Float32.
From Stdlib Require Import SpecFloat.

Definition RADIO_MAX_FRAME : Z := 255.
Definition CAD_MAX_TRIES : Z := 4.
Definition LORA_MAX_TX_POWER_DBM : Z := 22.

Definition PHY_FREQ_MHZ : f32 := f32_lit 906625 1000.
Definition PHY_BW_KHZ : f32 := f32_lit 625 10.
Definition PHY_SF : Z := 7.
Definition PHY_CODING_RATE : Z := 5.
Definition PHY_SYNC_WORD : Z := 77.
Definition PHY_PREAMBLE_SYMS : Z := 16.
Definition PHY_TX_POWER_DBM : Z := 22.

Record RadioCfg := mkCfg {
  rc_freq_hz : Z;
  rc_bw_hz : Z;
  rc_sf : Z;
  rc_cr : Z;
  rc_power_dbm : Z;
  rc_sync : Z;
  rc_preamble : Z }.

#[export] Instance rc_power_dbm_upd : Update rc_power_dbm := λ f r, mkCfg (rc_freq_hz r)
  (rc_bw_hz r) (rc_sf r) (rc_cr r) (f (rc_power_dbm r)) (rc_sync r) (rc_preamble r).

(** [lroundf]: to nearest, halves away from zero. *)
Definition lroundf (x : f32) : Z :=
  match x with
  | S754_finite s m e =>
      let v := if 0 <=? e then Z.pos m * 2 ^ e else (Z.pos m + 2 ^ (- e - 1)) / 2 ^ (- e) in
      if s then - v else v
  | _ => 0
  end.

Definition radio_default_config : RadioCfg :=
  mkCfg (u32 (lroundf (fmul PHY_FREQ_MHZ (f32_of_Z 1000000))))
    (u32 (lroundf (fmul PHY_BW_KHZ (f32_of_Z 1000))))
    PHY_SF PHY_CODING_RATE PHY_TX_POWER_DBM PHY_SYNC_WORD PHY_PREAMBLE_SYMS.

(** What the driver answers during one handler. Status 0 is RADIOLIB_ERR_NONE. *)
Record ChipEnv := mkChipEnv {
  ce_scan : Z;                 (* startChannelScan() *)
  ce_tx : Z;                   (* startTransmit(buf, len) *)
  ce_detected : bool;          (* getChannelScanResult() == RADIOLIB_LORA_DETECTED *)
  ce_len : Z;                  (* getPacketLength() *)
  ce_data : Z → Z * bytes;     (* readData(buf, len): status, the len bytes *)
  ce_rssi : f32;               (* getRSSI() *)
  ce_snr : f32;                (* getSNR() *)
  ce_random : Z;               (* random(0, 80) *)
  ce_set : nat → Z }.          (* the i-th setter of begin() / apply_config() *)

Inductive ChipOp :=
  | Begin (freq_mhz bw_khz : f32) (sf cr sync power preamble : Z) (tcxo : f32)
  | SetCRC (on : bool)
  | SetDio2AsRfSwitch (on : bool)
  | SetFrequency (mhz : f32)
  | SetBandwidth (khz : f32)
  | SetSpreadingFactor (sf : Z)
  | SetCodingRate (cr : Z)
  | SetSyncWord (sync : Z)
  | SetOutputPower (dbm : Z)
  | SetPreambleLength (n : Z)
  | StartReceive
  | StartChannelScan
  | StartTransmit (frame : bytes) (status : Z)   (* what the driver answered *)
  | FinishTransmit.

Inductive State := RX | TX | CAD.
#[export] Instance State_eq_dec : EqDecision State.
Proof. solve_decision. Defined.

(** [pend_buf_[0 .. pend_len_)] is the list [rh_pend]. *)
Record RadioHal := mkHal {
  rh_cfg : RadioCfg;
  rh_state : State;
  rh_pend : bytes;
  rh_cad_tries : Z;
  rh_next_cad_ms : Z;
  rh_cad_enabled : bool;
  rh_cad_busy_count : Z;
  rh_cad_forced_count : Z;
  rh_last_rssi : f32;
  rh_last_snr : f32;
  rh_rx_count : Z;
  rh_tx_count : Z;
  rh_rx_err_count : Z;
  rh_dio1 : bool }.

#[export] Instance rh_cfg_upd : Update rh_cfg := λ f r, mkHal (f (rh_cfg r)) (rh_state r)
  (rh_pend r) (rh_cad_tries r) (rh_next_cad_ms r) (rh_cad_enabled r) (rh_cad_busy_count r)
  (rh_cad_forced_count r) (rh_last_rssi r) (rh_last_snr r) (rh_rx_count r) (rh_tx_count r)
  (rh_rx_err_count r) (rh_dio1 r).
#[export] Instance rh_state_upd : Update rh_state := λ f r, mkHal (rh_cfg r) (f (rh_state r))
  (rh_pend r) (rh_cad_tries r) (rh_next_cad_ms r) (rh_cad_enabled r) (rh_cad_busy_count r)
  (rh_cad_forced_count r) (rh_last_rssi r) (rh_last_snr r) (rh_rx_count r) (rh_tx_count r)
  (rh_rx_err_count r) (rh_dio1 r).
#[export] Instance rh_pend_upd : Update rh_pend := λ f r, mkHal (rh_cfg r) (rh_state r) (f
  (rh_pend r)) (rh_cad_tries r) (rh_next_cad_ms r) (rh_cad_enabled r) (rh_cad_busy_count r)
  (rh_cad_forced_count r) (rh_last_rssi r) (rh_last_snr r) (rh_rx_count r) (rh_tx_count r)
  (rh_rx_err_count r) (rh_dio1 r).
#[export] Instance rh_cad_tries_upd : Update rh_cad_tries := λ f r, mkHal (rh_cfg r) (rh_state
  r) (rh_pend r) (f (rh_cad_tries r)) (rh_next_cad_ms r) (rh_cad_enabled r) (rh_cad_busy_count
  r) (rh_cad_forced_count r) (rh_last_rssi r) (rh_last_snr r) (rh_rx_count r) (rh_tx_count r)
  (rh_rx_err_count r) (rh_dio1 r).
#[export] Instance rh_next_cad_ms_upd : Update rh_next_cad_ms := λ f r, mkHal (rh_cfg r)
  (rh_state r) (rh_pend r) (rh_cad_tries r) (f (rh_next_cad_ms r)) (rh_cad_enabled r)
  (rh_cad_busy_count r) (rh_cad_forced_count r) (rh_last_rssi r) (rh_last_snr r) (rh_rx_count r)
  (rh_tx_count r) (rh_rx_err_count r) (rh_dio1 r).
#[export] Instance rh_cad_enabled_upd : Update rh_cad_enabled := λ f r, mkHal (rh_cfg r)
  (rh_state r) (rh_pend r) (rh_cad_tries r) (rh_next_cad_ms r) (f (rh_cad_enabled r))
  (rh_cad_busy_count r) (rh_cad_forced_count r) (rh_last_rssi r) (rh_last_snr r) (rh_rx_count r)
  (rh_tx_count r) (rh_rx_err_count r) (rh_dio1 r).
#[export] Instance rh_cad_busy_count_upd : Update rh_cad_busy_count := λ f r, mkHal (rh_cfg r)
  (rh_state r) (rh_pend r) (rh_cad_tries r) (rh_next_cad_ms r) (rh_cad_enabled r) (f
  (rh_cad_busy_count r)) (rh_cad_forced_count r) (rh_last_rssi r) (rh_last_snr r) (rh_rx_count
  r) (rh_tx_count r) (rh_rx_err_count r) (rh_dio1 r).
#[export] Instance rh_cad_forced_count_upd : Update rh_cad_forced_count := λ f r, mkHal (rh_cfg
  r) (rh_state r) (rh_pend r) (rh_cad_tries r) (rh_next_cad_ms r) (rh_cad_enabled r)
  (rh_cad_busy_count r) (f (rh_cad_forced_count r)) (rh_last_rssi r) (rh_last_snr r)
  (rh_rx_count r) (rh_tx_count r) (rh_rx_err_count r) (rh_dio1 r).
#[export] Instance rh_last_rssi_upd : Update rh_last_rssi := λ f r, mkHal (rh_cfg r) (rh_state
  r) (rh_pend r) (rh_cad_tries r) (rh_next_cad_ms r) (rh_cad_enabled r) (rh_cad_busy_count r)
  (rh_cad_forced_count r) (f (rh_last_rssi r)) (rh_last_snr r) (rh_rx_count r) (rh_tx_count r)
  (rh_rx_err_count r) (rh_dio1 r).
#[export] Instance rh_last_snr_upd : Update rh_last_snr := λ f r, mkHal (rh_cfg r) (rh_state r)
  (rh_pend r) (rh_cad_tries r) (rh_next_cad_ms r) (rh_cad_enabled r) (rh_cad_busy_count r)
  (rh_cad_forced_count r) (rh_last_rssi r) (f (rh_last_snr r)) (rh_rx_count r) (rh_tx_count r)
  (rh_rx_err_count r) (rh_dio1 r).
#[export] Instance rh_rx_count_upd : Update rh_rx_count := λ f r, mkHal (rh_cfg r) (rh_state r)
  (rh_pend r) (rh_cad_tries r) (rh_next_cad_ms r) (rh_cad_enabled r) (rh_cad_busy_count r)
  (rh_cad_forced_count r) (rh_last_rssi r) (rh_last_snr r) (f (rh_rx_count r)) (rh_tx_count r)
  (rh_rx_err_count r) (rh_dio1 r).
#[export] Instance rh_tx_count_upd : Update rh_tx_count := λ f r, mkHal (rh_cfg r) (rh_state r)
  (rh_pend r) (rh_cad_tries r) (rh_next_cad_ms r) (rh_cad_enabled r) (rh_cad_busy_count r)
  (rh_cad_forced_count r) (rh_last_rssi r) (rh_last_snr r) (rh_rx_count r) (f (rh_tx_count r))
  (rh_rx_err_count r) (rh_dio1 r).
#[export] Instance rh_rx_err_count_upd : Update rh_rx_err_count := λ f r, mkHal (rh_cfg r)
  (rh_state r) (rh_pend r) (rh_cad_tries r) (rh_next_cad_ms r) (rh_cad_enabled r)
  (rh_cad_busy_count r) (rh_cad_forced_count r) (rh_last_rssi r) (rh_last_snr r) (rh_rx_count r)
  (rh_tx_count r) (f (rh_rx_err_count r)) (rh_dio1 r).
#[export] Instance rh_dio1_upd : Update rh_dio1 := λ f r, mkHal (rh_cfg r) (rh_state r) (rh_pend
  r) (rh_cad_tries r) (rh_next_cad_ms r) (rh_cad_enabled r) (rh_cad_busy_count r)
  (rh_cad_forced_count r) (rh_last_rssi r) (rh_last_snr r) (rh_rx_count r) (rh_tx_count r)
  (rh_rx_err_count r) (f (rh_dio1 r)).

Definition RadioHal_new : RadioHal :=
  mkHal radio_default_config RX [] 0 0 true 0 0 f0 f0 0 0 0 false.

Definition busy (h : RadioHal) : bool :=
  negb (bool_decide (rh_state h = RX)) || (0 <? zlen (rh_pend h)).
Definition set_cad (on : bool) (h : RadioHal) : RadioHal := h <| rh_cad_enabled := on |>.

(** DIO1 handler. *)
Definition isr (h : RadioHal) : RadioHal := h <| rh_dio1 := true |>.

Definition arm_rx (h : RadioHal) : RadioHal * list ChipOp := (h <| rh_state := RX |>, [StartReceive]).

Definition start_pending_tx (e : ChipEnv) (h : RadioHal) : RadioHal * list ChipOp :=
  let op := StartTransmit (rh_pend h) (ce_tx e) in
  let h := h <| rh_pend := [] |> in
  if negb (ce_tx e =? 0) then let '(h, ops) := arm_rx h in (h, op :: ops)
  else (h <| rh_state := TX |>, [op]).

Definition start_cad (e : ChipEnv) (h : RadioHal) : RadioHal * list ChipOp :=
  let h := h <| rh_state := CAD |> in
  if negb (ce_scan e =? 0)
  then let '(h, ops) := start_pending_tx e h in (h, StartChannelScan :: ops)
  else (h, [StartChannelScan]).

Definition send (e : ChipEnv) (buf : bytes) (h : RadioHal) : RadioHal * list ChipOp * bool :=
  if negb (bool_decide (rh_state h = RX)) || (0 <? zlen (rh_pend h)) then (h, [], false) else
  if (zlen buf =? 0) || (RADIO_MAX_FRAME <? zlen buf) then (h, [], false) else
  if rh_dio1 h then (h, [], false) else
  let h := h <| rh_pend := buf |> <| rh_cad_tries := 0 |> in
  let '(h, ops) := if rh_cad_enabled h then start_cad e h else start_pending_tx e h in
  (h, ops, true).

Definition clamp_power (p : Z) : Z := if LORA_MAX_TX_POWER_DBM <? p then LORA_MAX_TX_POWER_DBM else p.
Definition mhz (c : RadioCfg) : f32 := fdiv (f32_of_Z (rc_freq_hz c)) (f32_of_Z 1000000).
Definition khz (c : RadioCfg) : f32 := fdiv (f32_of_Z (rc_bw_hz c)) (f32_of_Z 1000).

(** [if ((st = op) != RADIOLIB_ERR_NONE) return st;] over a list of driver
    calls: the calls made, and the first error or 0. *)
Fixpoint checked (ops : list ChipOp) (i : nat) (st : nat → Z) : list ChipOp * Z :=
  match ops with
  | [] => ([], 0)
  | op :: ops =>
      if negb (st i =? 0) then ([op], st i)
      else let '(done, r) := checked ops (S i) st in (op :: done, r)
  end.

Definition apply_config (e : ChipEnv) (c : RadioCfg) (h : RadioHal) : RadioHal * list ChipOp * Z :=
  let power := clamp_power (rc_power_dbm c) in
  let '(ops, st) := checked
    [SetFrequency (mhz c); SetBandwidth (khz c); SetSpreadingFactor (rc_sf c);
     SetCodingRate (rc_cr c); SetSyncWord (rc_sync c); SetOutputPower power;
     SetPreambleLength (rc_preamble c)] 0 (ce_set e) in
  if negb (st =? 0) then (h, ops, st) else
  let '(h, ops') := arm_rx (h <| rh_cfg := c |>) in (h, ops ++ ops', 0).

(** The SX1262 build. [spi_failed] is the test for
    RADIOLIB_ERR_SPI_CMD_FAILED / _INVALID; [tcxo] is LORA_TCXO_VOLTAGE. *)
Definition begin_ (e : ChipEnv) (spi_failed : Z → bool) (tcxo : f32) (c : RadioCfg) (h : RadioHal)
    : RadioHal * list ChipOp * Z :=
  let h := h <| rh_cfg := c |> in
  let bring_up v := Begin (mhz c) (khz c) (rc_sf c) (rc_cr c) (rc_sync c)
                      (clamp_power (rc_power_dbm c)) (rc_preamble c) v in
  let '(ops0, st) := if spi_failed (ce_set e 0) then ([bring_up tcxo; bring_up f0], ce_set e 1)
                     else ([bring_up tcxo], ce_set e 0) in
  if negb (st =? 0) then (h, ops0, st) else
  let '(ops1, st) := checked [SetCRC true; SetDio2AsRfSwitch true] 2 (ce_set e) in
  if negb (st =? 0) then (h, ops0 ++ ops1, st) else
  let '(h, ops2) := arm_rx h in (h, ops0 ++ ops1 ++ ops2, 0).

(** [poll] up to the receive callback: the callback may itself reconfigure the
    radio, so what follows it is [poll_end]. *)
Inductive Polled :=
  | Nothing                                     (* return false *)
  | Serviced                                    (* TX done, or a scan verdict *)
  | Received (buf : bytes) (rssi snr : f32)     (* on_rx_(buf, len, ...) is due *)
  | BadFrame.

Definition poll_begin (e : ChipEnv) (now : Z) (h : RadioHal) : RadioHal * list ChipOp * Polled :=
  let '(h, ops) :=
    if bool_decide (rh_state h = RX) && (0 <? zlen (rh_pend h)) && negb (rh_dio1 h)
       && due now (rh_next_cad_ms h)
    then start_cad e h else (h, []) in
  if negb (rh_dio1 h) then (h, ops, Nothing) else
  let h := h <| rh_dio1 := false |> in
  match rh_state h with
  | TX =>
      let '(h, ops) := arm_rx (h <| rh_tx_count ::= λ n, u32 (n + 1) |>) in
      (h, FinishTransmit :: ops, Serviced)
  | CAD =>
      if ce_detected e && (rh_cad_tries h + 1 <? CAD_MAX_TRIES) then
        let h := h <| rh_cad_busy_count ::= λ n, u32 (n + 1) |>
                   <| rh_cad_tries ::= λ n, u8 (n + 1) |> in
        let h := h <| rh_next_cad_ms :=
          u32 (now + Z.shiftl (20 + ce_random e) (rh_cad_tries h - 1)) |> in
        let '(h, ops) := arm_rx h in (h, ops, Serviced)
      else
        let h := if ce_detected e
          then h <| rh_cad_busy_count ::= λ n, u32 (n + 1) |>
                 <| rh_cad_forced_count ::= λ n, u32 (n + 1) |>
          else h in
        let '(h, ops) := start_pending_tx e h in (h, ops, Serviced)
  | RX =>
      let len := if RADIO_MAX_FRAME <? ce_len e then RADIO_MAX_FRAME else ce_len e in
      let '(st, buf) := ce_data e len in
      if st =? 0 then
        (h <| rh_last_rssi := ce_rssi e |> <| rh_last_snr := ce_snr e |>
           <| rh_rx_count ::= λ n, u32 (n + 1) |>, [], Received buf (ce_rssi e) (ce_snr e))
      else (h <| rh_rx_err_count ::= λ n, u32 (n + 1) |>, [], BadFrame)
  end.

Definition poll_end (p : Polled) (h : RadioHal) : RadioHal * list ChipOp :=
  match p with
  | Received _ _ _ | BadFrame => arm_rx h
  | Nothing | Serviced => (h, [])
  end.

(** Note that [poll_begin] computes [ops] before the flag test, and that the
    re-scan cannot happen with the flag set. *)
Definition poll (e : ChipEnv) (now : Z) (h : RadioHal) : RadioHal * list ChipOp * Polled :=
  let '(h, ops, p) := poll_begin e now h in
  let '(h, ops') := poll_end p h in (h, ops ++ ops', p).

(** ** The radio as a transition system *)

Inductive hal_event :=
  | EvIsr
  | EvSend (e : ChipEnv) (buf : bytes)
  | EvPoll (e : ChipEnv) (now : Z)
  | EvApply (e : ChipEnv) (c : RadioCfg)
  | EvSetCad (on : bool).

(** The new state, the driver calls, and the frame accepted by [send]. *)
Definition hal_step (ev : hal_event) (h : RadioHal) : RadioHal * list ChipOp * list bytes :=
  match ev with
  | EvIsr => (isr h, [], [])
  | EvSend e buf => let '(h, ops, ok) := send e buf h in (h, ops, if ok then [buf] else [])
  | EvPoll e now => let '(h, ops, _) := poll e now h in (h, ops, [])
  | EvApply e c => let '(h, ops, _) := apply_config e c h in (h, ops, [])
  | EvSetCad on => (set_cad on h, [], [])
  end.

Fixpoint hal_run (evs : list hal_event) (h : RadioHal) : RadioHal * list ChipOp * list bytes :=
  match evs with
  | [] => (h, [], [])
  | ev :: evs =>
      let '(h, ops, acc) := hal_step ev h in
      let '(h, ops', acc') := hal_run evs h in (h, ops ++ ops', acc ++ acc')
  end.

(** The frames handed to the chip, and those it took: the others are dropped. *)
Definition handed (ops : list ChipOp) : list bytes :=
  omap (λ op, match op with StartTransmit f _ => Some f | _ => None end) ops.
Definition started (ops : list ChipOp) : list bytes :=
  omap (λ op, match op with StartTransmit f st => if st =? 0 then Some f else None | _ => None end) ops.
(** The driver takes whatever frame this event hands it. *)
Definition tx_works (ev : hal_event) : Prop :=
  match ev with EvSend e _ | EvPoll e _ => ce_tx e = 0 | _ => True end.

(** The pending slot as a list of at most one frame. *)
Definition pending (h : RadioHal) : list bytes := match rh_pend h with [] => [] | f => [f] end.

Record hal_ok (h : RadioHal) : Prop := {
  ho_tx : rh_state h = TX → rh_pend h = [];
  ho_cad : rh_state h = CAD → rh_pend h ≠ [];
  ho_tries : 0 <= rh_cad_tries h < CAD_MAX_TRIES;
  ho_len : zlen (rh_pend h) <= RADIO_MAX_FRAME }.

Lemma hal_new_ok : hal_ok RadioHal_new.
Proof. split; simpl; [done|done|unfold CAD_MAX_TRIES; lia|done]. Qed.

Lemma handed_app k l : handed (k ++ l) = handed k ++ handed l.
Proof. apply omap_app. Qed.
Lemma pending_cons h : rh_pend h ≠ [] → pending h = [rh_pend h].
Proof. unfold pending. by destruct (rh_pend h). Qed.
Lemma pending_nil h : rh_pend h = [] → pending h = [].
Proof. unfold pending. by intros ->. Qed.
Lemma pending_eq h h' : rh_pend h = rh_pend h' → pending h = pending h'.
Proof. unfold pending. by intros ->. Qed.

Lemma zlen_pos_iff {A} (l : list A) : (0 <? zlen l) = true ↔ l ≠ [].
Proof. rewrite Z.ltb_lt. destruct l; [done|]. rewrite zlen_cons. pose proof (zlen_nonneg l). split; [done|lia]. Qed.

(** What handing over the pending frame does. *)
Lemma start_pending_tx_spec e h : rh_pend h ≠ [] →
  let '(h', ops) := start_pending_tx e h in
  handed ops = [rh_pend h] ∧ rh_pend h' = [] ∧ rh_state h' ≠ CAD ∧ rh_cad_tries h' = rh_cad_tries h ∧
  rh_dio1 h' = rh_dio1 h.
Proof. intros Hp. unfold start_pending_tx. destruct (ce_tx e =? 0); simpl; auto 6. Qed.

(** Scanning keeps the frame, or hands it over when the scan cannot start. *)
Lemma start_cad_spec e h : rh_pend h ≠ [] →
  let '(h', ops) := start_cad e h in
  rh_cad_tries h' = rh_cad_tries h ∧ rh_dio1 h' = rh_dio1 h ∧
  (rh_pend h' = rh_pend h ∧ rh_state h' = CAD ∧ handed ops = [] ∨
   rh_pend h' = [] ∧ rh_state h' ≠ CAD ∧ handed ops = [rh_pend h]).
Proof.
  intros Hp. unfold start_cad.
  destruct (ce_scan e =? 0); cbn [negb]; [simpl; auto 6|].
  pose proof (start_pending_tx_spec e (h <| rh_state := CAD |>) Hp) as H.
  destruct (start_pending_tx e _) as [h' ops]. simpl in H. destruct H as (Ha & Hp' & Hs & Ht & Hd).
  simpl. auto 7.
Qed.

(** One handler: the invariant is kept, and frames move from [send] through the
    pending slot to the chip. *)
Definition hal_moves (h h' : RadioHal) (ops : list ChipOp) (acc : list bytes) : Prop :=
  hal_ok h' ∧ handed ops ++ pending h' = pending h ++ acc.

Lemma start_cad_moves e h : hal_ok h → rh_pend h ≠ [] →
  hal_moves h (start_cad e h).1 (start_cad e h).2 [].
Proof.
  intros [Htx Hcad Ht Hl] Hp. pose proof (start_cad_spec e h Hp) as H.
  destruct (start_cad e h) as [h' ops]. destruct H as (Htr & _ & [(Hp' & Hs & Ha)|(Hp' & Hs & Ha)]);
    (split; [split|]); simpl.
  all: rewrite ?Hs, ?Hp', ?Htr, ?Ha, ?app_nil_r; try done.
  - by apply pending_eq.
  - by rewrite (pending_nil h'), pending_cons.
Qed.

Lemma start_pending_tx_moves e h : hal_ok h → rh_pend h ≠ [] →
  hal_moves h (start_pending_tx e h).1 (start_pending_tx e h).2 [].
Proof.
  intros [Htx Hcad Ht Hl] Hp. pose proof (start_pending_tx_spec e h Hp) as H.
  destruct (start_pending_tx e h) as [h' ops]. destruct H as (Ha & Hp' & Hs & Htr & _).
  split; [split|]; simpl; rewrite ?Hp', ?Htr, ?Ha; try done.
  by rewrite (pending_nil h'), pending_cons.
Qed.

Lemma send_moves e buf h : hal_ok h →
  let '(h', ops, ok) := send e buf h in
  hal_moves h h' ops (if ok then [buf] else []) ∧ (ok = false → h' = h ∧ ops = []).
Proof.
  intros Hok. unfold send.
  destruct (negb (bool_decide (rh_state h = RX)) || (0 <? zlen (rh_pend h))) eqn:E1.
  { split; [split|]; [done|by rewrite app_nil_r|done]. }
  destruct ((zlen buf =? 0) || (RADIO_MAX_FRAME <? zlen buf)) eqn:E2.
  { split; [split|]; [done|by rewrite app_nil_r|done]. }
  destruct (rh_dio1 h). { split; [split|]; [done|by rewrite app_nil_r|done]. }
  bools. rename select (bool_decide _ = true) into Hs. apply bool_decide_eq_true in Hs.
  assert (rh_pend h = []) as Hp by (destruct (rh_pend h); [done|rewrite zlen_cons in *; pose proof (zlen_nonneg l); lia]).
  assert (buf ≠ []) as Hb by (by intros ->).
  set (h1 := h <| rh_pend := buf |> <| rh_cad_tries := 0 |>).
  assert (hal_ok h1) as Hok1. { split; simpl; [by rewrite Hs|done|unfold CAD_MAX_TRIES; lia|done]. }
  assert (pending h1 = [buf]) as Hp1 by (by apply pending_cons).
  pose proof (start_cad_moves e h1 Hok1 Hb) as Hc. pose proof (start_pending_tx_moves e h1 Hok1 Hb) as Ht.
  unfold hal_moves in *. rewrite Hp1 in *. rewrite (pending_nil h Hp). simpl.
  destruct (rh_cad_enabled h); [destruct (start_cad e h1)|destruct (start_pending_tx e h1)]; simpl in *; done.
Qed.

Lemma poll_moves e now h : hal_ok h →
  let '(h', ops, _) := poll e now h in hal_moves h h' ops [].
Proof.
  intros Hok. unfold poll, poll_begin.
  destruct (bool_decide (rh_state h = RX) && (0 <? zlen (rh_pend h)) && negb (rh_dio1 h) && _) eqn:E.
  { bools. pose proof (start_cad_moves e h Hok) as Hm. pose proof (start_cad_spec e h) as Hs.
    destruct (start_cad e h) as [h' ops]. simpl in Hm.
    rename select (0 < _) into Hl. apply Z.ltb_lt, zlen_pos_iff in Hl.
    specialize (Hs Hl). destruct Hs as (_ & Hd & _). rewrite Hd.
    rename select (rh_dio1 h = false) into Hf. rewrite Hf. simpl. rewrite app_nil_r. auto. }
  clear E. destruct (rh_dio1 h); simpl; [|by split; [|rewrite app_nil_r]].
  destruct Hok as [Htx Hcad Ht Hl], (rh_state h) eqn:Hst.
  - assert (∀ h' : RadioHal, rh_pend h' = rh_pend h → rh_cad_tries h' = rh_cad_tries h →
      hal_moves h (h' <| rh_state := RX |>) [StartReceive] []) as Harm.
    { intros h' Hp Htr. split; [split|]; simpl; rewrite ?Hp, ?Htr; try done.
      rewrite app_nil_r. by apply pending_eq. }
    destruct (ce_data e _) as [st buf]. destruct (st =? 0); simpl; by apply Harm.
  - split; [split|]; simpl; try done. rewrite app_nil_r. by apply pending_eq.
  - specialize (Hcad eq_refl). destruct (ce_detected e && (rh_cad_tries h + 1 <? CAD_MAX_TRIES)) eqn:E.
    + bools. split; [split|]; simpl; try done; [zlia|]. rewrite app_nil_r. by apply pending_eq.
    + set (h1 := if ce_detected e then _ else _).
      assert (rh_pend h1 = rh_pend h ∧ rh_cad_tries h1 = rh_cad_tries h) as [Hp Htr]
        by (unfold h1; by destruct (ce_detected e)).
      pose proof (start_pending_tx_spec e h1) as H. rewrite Hp in H. specialize (H Hcad).
      destruct (start_pending_tx e h1) as [h' ops]. destruct H as (Ha & Hp' & Hs' & Htr' & _).
      split; [split|]; simpl; rewrite ?app_nil_r, ?Ha, ?Hp', ?Htr', ?Htr; try done.
      by rewrite (pending_nil h'), pending_cons.
Qed.

Lemma checked_handed ops i st : handed ops = [] → handed (checked ops i st).1 = [].
Proof.
  revert i. induction ops as [|op ops IH]; intros i Ha; simpl; [done|].
  assert (handed [op] = [] ∧ handed ops = []) as [H1 H2]
    by (apply app_nil; by rewrite <- handed_app).
  destruct (st i =? 0); simpl; [|exact H1]. specialize (IH (S i) H2).
  destruct (checked ops (S i) st) as [l r]. change (handed ([op] ++ l) = []).
  rewrite handed_app, H1. exact IH.
Qed.

(** A failed reconfiguration changes nothing; a successful one leaves exactly
    the new parameters in force. *)
Lemma apply_config_spec e c h :
  let '(h', ops, st) := apply_config e c h in
  handed ops = [] ∧ rh_pend h' = rh_pend h ∧ rh_cad_tries h' = rh_cad_tries h ∧ rh_dio1 h' = rh_dio1 h ∧
  (st ≠ 0 ∧ h' = h ∨ st = 0 ∧ h' = h <| rh_cfg := c |> <| rh_state := RX |>).
Proof.
  unfold apply_config. set (l := [SetFrequency _; _; _; _; _; _; _]).
  pose proof (checked_handed l 0 (ce_set e) eq_refl) as Ha.
  destruct (checked l 0 (ce_set e)) as [ops st]. simpl in Ha.
  destruct (Z.eqb_spec st 0); cbn [negb]; simpl; [rewrite handed_app, Ha|]; auto 8.
Qed.

Lemma hal_step_moves ev h : hal_ok h →
  let '(h', ops, acc) := hal_step ev h in hal_moves h h' ops acc.
Proof.
  intros Hok. destruct ev as [|e buf|e now|e c|on]; simpl.
  - split; [by destruct Hok|by rewrite app_nil_r].
  - pose proof (send_moves e buf h Hok) as H. destruct (send e buf h) as [[h' ops] ok]. apply H.
  - pose proof (poll_moves e now h Hok) as H. by destruct (poll e now h) as [[h' ops] p].
  - pose proof (apply_config_spec e c h) as H. destruct (apply_config e c h) as [[h' ops] st].
    destruct H as (Ha & Hp & Ht & _ & H). unfold hal_moves. rewrite Ha, app_nil_r.
    split; [|by apply pending_eq]. destruct Hok, H as [(_ & ->)|(_ & ->)]; by split.
  - split; [by destruct Hok|by rewrite app_nil_r].
Qed.

Lemma hal_run_moves evs h : hal_ok h →
  let '(h', ops, acc) := hal_run evs h in hal_moves h h' ops acc.
Proof.
  revert h. induction evs as [|ev evs IH]; intros h Hok; simpl.
  { split; [done|by rewrite app_nil_r]. }
  pose proof (hal_step_moves ev h Hok) as H1. destruct (hal_step ev h) as [[h1 ops1] acc1].
  destruct H1 as [Hok1 H1]. specialize (IH h1 Hok1).
  destruct (hal_run evs h1) as [[h2 ops2] acc2]. destruct IH as [Hok2 H2]. split; [done|].
  by rewrite handed_app, <- app_assoc, H2, app_assoc, H1, app_assoc.
Qed.

(** *** What the chip takes *)

Lemma started_sublist ops : started ops `sublist_of` handed ops.
Proof.
  induction ops as [|op ops IH]; [done|]. unfold started, handed. cbn [omap list_omap].
  destruct op; try exact IH. destruct (status =? 0); [by apply sublist_skip|by apply sublist_cons].
Qed.
Lemma started_app k l : started (k ++ l) = started k ++ started l.
Proof. apply omap_app. Qed.
Lemma started_none ops : handed ops = [] → started ops = [].
Proof. intros Hh. apply sublist_nil_r. rewrite <- Hh. apply started_sublist. Qed.

Lemma start_pending_tx_started e h : ce_tx e = 0 →
  started (start_pending_tx e h).2 = handed (start_pending_tx e h).2.
Proof. intros He. unfold start_pending_tx. by rewrite He. Qed.
Lemma start_cad_started e h : ce_tx e = 0 → started (start_cad e h).2 = handed (start_cad e h).2.
Proof.
  intros He. unfold start_cad. set (h1 := h <| rh_state := CAD |>). destruct (negb (ce_scan e =? 0)); [|done].
  pose proof (start_pending_tx_started e h1 He) as Ht. by destruct (start_pending_tx e h1).
Qed.
Lemma poll_started e now h : ce_tx e = 0 → started (poll e now h).1.2 = handed (poll e now h).1.2.
Proof.
  intros He. assert (started (poll_begin e now h).1.2 = handed (poll_begin e now h).1.2) as Hb.
  { unfold poll_begin. set (c := if _ && _ then start_cad e h else (h, [])).
    assert (started c.2 = handed c.2) as Hc by (unfold c; case_match; [by apply start_cad_started|done]).
    destruct c as [h1 ops1]. simpl in Hc. destruct (rh_dio1 h1); simpl; [|done]. destruct (rh_state h1); simpl.
    - by destruct (ce_data e _) as [[] ?].
    - done.
    - destruct (ce_detected e && _); [done|]. set (h2 := if ce_detected e then _ else _).
      pose proof (start_pending_tx_started e h2 He) as Ht. by destruct (start_pending_tx e h2). }
  unfold poll. destruct (poll_begin e now h) as [[h1 ops1] p]. simpl in Hb.
  assert (handed (poll_end p h1).2 = []) as Hn by by destruct p.
  destruct (poll_end p h1) as [h2 ops2]. simpl in *. by rewrite started_app, handed_app, Hb, Hn, (started_none _ Hn).
Qed.
Lemma hal_step_started ev h : tx_works ev → started (hal_step ev h).1.2 = handed (hal_step ev h).1.2.
Proof.
  intros Hev. destruct ev as [|e buf|e now|e c|on]; simpl in *; try done.
  - unfold send. repeat case_match; simplify_eq; try done.
    + pose proof (start_cad_started e (h <| rh_pend := buf |> <| rh_cad_tries := 0 |>) Hev) as Hs. by destruct (start_cad e _); simplify_eq.
    + pose proof (start_pending_tx_started e (h <| rh_pend := buf |> <| rh_cad_tries := 0 |>) Hev) as Hs.
      by destruct (start_pending_tx e _); simplify_eq.
  - pose proof (poll_started e now h Hev) as Hs. by destruct (poll e now h) as [[h' ops] p].
  - pose proof (apply_config_spec e c h) as Ha. destruct (apply_config e c h) as [[h' ops] st].
    destruct Ha as (Ha & _). simpl. by rewrite Ha, (started_none _ Ha).
Qed.
Lemma hal_run_started evs h : Forall tx_works evs → started (hal_run evs h).1.2 = handed (hal_run evs h).1.2.
Proof.
  intros Hevs. revert h. induction Hevs as [|ev evs Hev _ IH]; intros h; [done|]. cbn [hal_run].
  pose proof (hal_step_started ev h Hev) as Hs. destruct (hal_step ev h) as [[h1 ops1] acc1].
  specialize (IH h1). destruct (hal_run evs h1) as [[h2 ops2] acc2]. simpl in *.
  by rewrite started_app, handed_app, Hs, IH.
Qed.

(** C16: the radio hands every frame on exactly once. Over any
    interleaving of interrupts, sends, polls and reconfigurations, the frames
    handed to the chip, followed by the one still pending, are exactly the frame
    that was pending at the start followed by those [send] accepted, in order.
    The chip may refuse a frame, and the radio then drops it: the transmissions
    that start are some of those frames, in order and none twice, and all of
    them if the driver reports no error. A [send] that returns false has no
    effect at all. *)
Theorem hal_exactly_once (evs : list hal_event) (h : RadioHal) (e : ChipEnv) (buf : bytes)
    (Hok : hal_ok h) :
  let '(h', ops, accepted) := hal_run evs h in
  hal_ok h' ∧ handed ops ++ pending h' = pending h ++ accepted ∧
  started ops `sublist_of` pending h ++ accepted ∧
  (Forall tx_works evs → started ops ++ pending h' = pending h ++ accepted) ∧
  (let '(h'', ops'', ok) := send e buf h' in ok = false → h'' = h' ∧ ops'' = []).
Proof.
  pose proof (hal_run_moves evs h Hok) as H. pose proof (hal_run_started evs h) as Hst.
  destruct (hal_run evs h) as [[h' ops] acc]. destruct H as [Hok' Heq]. simpl in Hst.
  split; [done|]. split; [done|]. split; [|split].
  - rewrite <- Heq. trans (handed ops); [apply started_sublist|by apply sublist_inserts_r].
  - intros Hw. by rewrite Hst.
  - pose proof (send_moves e buf h' Hok') as Hs. destruct (send e buf h') as [[h'' ops''] ok]. apply Hs.
Qed.

(** Driver answers for the examples: the channel is busy, then free. *)
Definition env_busy : ChipEnv := mkChipEnv 0 0 true 0 (λ _, (0, [])) f0 f0 7 (λ _, 0).
Definition env_free : ChipEnv := mkChipEnv 0 0 false 0 (λ _, (0, [])) f0 f0 7 (λ _, 0).
(** A chip that refuses the scan and the frame. *)
Definition env_refuse : ChipEnv := mkChipEnv (-1) (-1) false 0 (λ _, (0, [])) f0 f0 7 (λ _, 0).

Example hal_exactly_once_witness :
  hal_ok RadioHal_new ∧
  hal_run [EvSend env_busy [1; 2]; EvIsr; EvPoll env_busy 5; EvSend env_busy [3]; EvPoll env_free 40;
           EvIsr; EvPoll env_free 42; EvIsr; EvPoll env_free 50; EvSend env_free [4]] RadioHal_new =
    (RadioHal_new <| rh_state := CAD |> <| rh_pend := [4] |> <| rh_cad_tries := 0 |>
       <| rh_next_cad_ms := 32 |> <| rh_cad_busy_count := 1 |> <| rh_tx_count := 1 |>,
     [StartChannelScan; StartReceive; StartChannelScan; StartTransmit [1; 2] 0; FinishTransmit;
      StartReceive; StartChannelScan],
     [[1; 2]; [4]]) ∧
  (hal_run [EvSend env_refuse [7]] RadioHal_new).1.2 = [StartChannelScan; StartTransmit [7] (-1); StartReceive] ∧
  let '(h', ops, accepted) :=
    hal_run [EvSend env_busy [1; 2]; EvIsr; EvPoll env_busy 5] RadioHal_new in
  hal_ok h' ∧ handed ops ++ pending h' = pending RadioHal_new ++ accepted ∧
  started ops `sublist_of` pending RadioHal_new ++ accepted ∧
  (Forall tx_works [EvSend env_busy [1; 2]; EvIsr; EvPoll env_busy 5] →
     started ops ++ pending h' = pending RadioHal_new ++ accepted) ∧
  (let '(h'', ops'', ok) := send env_free [3] h' in ok = false → h'' = h' ∧ ops'' = []).
Proof. split; [apply hal_new_ok|]. do 2 (split; [by vm_compute|]). apply hal_exactly_once, hal_new_ok. Defined.

(** A poll that consumes a scan verdict. *)
Definition is_verdict (ev : hal_event) (h : RadioHal) : bool :=
  match ev with
  | EvPoll _ _ => bool_decide (rh_state h = CAD) && rh_dio1 h
  | _ => false
  end.
Fixpoint verdicts (evs : list hal_event) (h : RadioHal) : Z :=
  match evs with
  | [] => 0
  | ev :: evs => Z.b2z (is_verdict ev h) + verdicts evs (hal_step ev h).1.1
  end.

(** While a frame waits, a step either hands it over or counts the busy verdict. *)
Lemma waiting_step ev h : hal_ok h → rh_pend h ≠ [] →
  let '(h', ops, _) := hal_step ev h in
  rh_pend h ∈ handed ops ∨
  rh_pend h' = rh_pend h ∧ rh_cad_tries h' = rh_cad_tries h + Z.b2z (is_verdict ev h).
Proof.
  intros Hok Hp. pose proof Hp as Hl. apply zlen_pos_iff in Hl.
  assert (∀ x : bytes, x ∈ [x]) as Hin by (intros; by apply list_elem_of_singleton).
  destruct ev as [|e buf|e now|e c|on]; simpl.
  - right. split; [done|lia].
  - unfold send. rewrite Hl, orb_true_r. right. split; [done|simpl; lia].
  - unfold poll, poll_begin.
    destruct (bool_decide (rh_state h = RX) && (0 <? zlen (rh_pend h)) && negb (rh_dio1 h) && _) eqn:E.
    { bools. pose proof (start_cad_spec e h Hp) as Hs. destruct (start_cad e h) as [h' ops].
      destruct Hs as (Ht & Hd & Hs). rename select (rh_dio1 h = false) into Hf.
      rewrite Hd, Hf, andb_false_r. simpl. rewrite app_nil_r.
      destruct Hs as [(-> & _)|(_ & _ & ->)]; [right|left; apply Hin]. split; [done|lia]. }
    clear E. destruct (rh_dio1 h); simpl; [|right; rewrite andb_false_r; split; [done|simpl; lia]].
    rewrite andb_true_r. destruct (rh_state h) eqn:Hst.
    + destruct (ce_data e _) as [st buf]. destruct (st =? 0); simpl; right; (split; [done|lia]).
    + by rewrite (ho_tx _ Hok Hst) in Hp.
    + destruct (ce_detected e && (rh_cad_tries h + 1 <? CAD_MAX_TRIES)) eqn:E.
      * right. simpl. bools. pose proof (ho_tries _ Hok). split; [done|].
        unfold CAD_MAX_TRIES in *. zlia.
      * set (h1 := if ce_detected e then _ else _).
        assert (rh_pend h1 = rh_pend h) as Hp1 by (unfold h1; by destruct (ce_detected e)).
        pose proof (start_pending_tx_spec e h1) as H. rewrite Hp1 in H. specialize (H Hp).
        destruct (start_pending_tx e h1) as [h' ops]. destruct H as (Ha & _).
        left. rewrite app_nil_r, Ha. apply Hin.
  - pose proof (apply_config_spec e c h) as H. destruct (apply_config e c h) as [[h' ops] st].
    destruct H as (_ & -> & -> & _). right. split; [done|lia].
  - right. split; [done|lia].
Qed.

(** Listen-before-talk cannot starve a frame. However events interleave,
    once the scans that reported their verdict since the frame was accepted
    number CAD_MAX_TRIES, the waiting frame has been handed to the chip — even if
    every verdict was "busy". *)
Theorem csma_bounded (evs : list hal_event) (h : RadioHal) (Hok : hal_ok h) (Hp : rh_pend h ≠ [])
    (Hv : CAD_MAX_TRIES <= rh_cad_tries h + verdicts evs h) :
  rh_pend h ∈ handed (hal_run evs h).1.2.
Proof.
  revert h Hok Hp Hv. induction evs as [|ev evs IH]; intros h Hok Hp Hv.
  { simpl in Hv. pose proof (ho_tries _ Hok). lia. }
  simpl in *. pose proof (waiting_step ev h Hok Hp) as Hw. pose proof (hal_step_moves ev h Hok) as Hm.
  destruct (hal_step ev h) as [[h1 ops1] acc1]. destruct Hm as [Hok1 _]. simpl in Hv.
  specialize (IH h1 Hok1). destruct (hal_run evs h1) as [[h2 ops2] acc2]. simpl in *.
  rewrite handed_app. apply elem_of_app. destruct Hw as [?|[Hp1 Ht]]; [by left|right].
  rewrite <- Hp1. apply IH; [by rewrite Hp1|lia].
Qed.

Definition waiting_ex : RadioHal := (send env_busy [9; 9] RadioHal_new).1.1.
Definition busy_round (now : Z) : list hal_event := [EvIsr; EvPoll env_busy now; EvPoll env_busy (now + 1000)].

Example csma_bounded_witness :
  rh_pend waiting_ex = [9; 9] ∧
  verdicts (busy_round 0 ++ busy_round 2000 ++ busy_round 4000 ++ busy_round 6000) waiting_ex = 4 ∧
  rh_pend waiting_ex ∈
    handed (hal_run (busy_round 0 ++ busy_round 2000 ++ busy_round 4000 ++ busy_round 6000) waiting_ex).1.2.
Proof.
  split; [done|]. split; [by vm_compute|]. apply csma_bounded.
  - pose proof (send_moves env_busy [9; 9] RadioHal_new hal_new_ok) as H. by apply H.
  - done.
  - by vm_compute.
Defined.

(** The compile-time default is computed in binary32: the product is rounded to
    a multiple of 64 Hz, 24 Hz above the documented 906.625 MHz. *)
Lemma radio_default_freq : rc_freq_hz radio_default_config = 906625024 ∧
  rc_bw_hz radio_default_config = 62500.
Proof. by vm_compute. Qed.
