(* ===== verification/TxQueue.v ===== *)
(** src/main.cpp, the outbound queue: a ring of six frames drained to the radio.

    A ring of [cap] slots with a head and a count is a FIFO; the lemmas on rings
    are shared with the tunnel's ingest queue. *)
From S2P Require Import Prelude Update SlotTable RadioHal.

(** ** Rings *)

(** The ring holds [l]: its [i]-th element from the head is the [i]-th of [l]. *)
Record ring_repr {A} (cap head : Z) (slots : list A) (l : list A) : Prop := {
  rr_slots : zlen slots = cap;
  rr_head : 0 <= head < cap;
  rr_len : zlen l <= cap;
  rr_at : ∀ (i : nat) x, l !! i = Some x → slots !! Z.to_nat ((head + Z.of_nat i) mod cap) = Some x }.

Lemma ring_mod cap head i : 0 <= head < cap → 0 <= i <= cap →
  (head + i) mod cap = if head + i <? cap then head + i else head + i - cap.
Proof.
  intros Hh Hi. destruct (Z.ltb_spec (head + i) cap); [apply Z.mod_small; lia|].
  symmetry. apply Z.mod_unique with 1; lia.
Qed.

Lemma ring_empty {A} cap head (slots : list A) : zlen slots = cap → 0 <= head < cap →
  ring_repr cap head slots [].
Proof. intros Hs Hh. split; [done|done|rewrite (zlen_nil (A:=A)); lia|done]. Qed.

Lemma ring_push {A} cap head (slots l : list A) x : ring_repr cap head slots l → zlen l < cap →
  ring_repr cap head (<[Z.to_nat ((head + zlen l) mod cap) := x]> slots) (l ++ [x]).
Proof.
  intros [Hs Hh Hl Hat] Hlt. split.
  - unfold zlen in *. by rewrite length_insert.
  - done.
  - rewrite zlen_app, zlen_cons, (zlen_nil (A:=A)). lia.
  - intros i y [Hy|[Hi Hy]]%lookup_app_Some.
    + rewrite list_lookup_insert_ne; [by apply Hat|]. apply lookup_lt_Some in Hy.
      unfold zlen in *. rewrite !ring_mod by lia. repeat case_match; bools; lia.
    + destruct (i - length l)%nat as [|k] eqn:Ek; [|done]. simpl in Hy. injection Hy as <-.
      replace (Z.of_nat i) with (zlen l) by (unfold zlen; lia).
      apply list_lookup_insert_eq. unfold zlen in *. rewrite ring_mod by lia. case_match; bools; lia.
Qed.

Lemma ring_pop {A} cap head (slots : list A) x l : ring_repr cap head slots (x :: l) →
  slots !! Z.to_nat head = Some x ∧ ring_repr cap ((head + 1) mod cap) slots l.
Proof.
  intros [Hs Hh Hl Hat]. split.
  - specialize (Hat 0%nat x eq_refl). rewrite Z.add_0_r, Z.mod_small in Hat by done. done.
  - split; [done|apply Z.mod_pos_bound; lia|rewrite zlen_cons in Hl; lia|].
    intros i y Hy. specialize (Hat (S i) y Hy).
    rewrite Z.add_mod_idemp_l by lia. by replace (head + 1 + Z.of_nat i) with (head + Z.of_nat (S i)) by lia.
Qed.

(** ** The queue *)

Definition TXQ_DEPTH : Z := 6.
(** sizeof(TxItem::frame) = 1 + MAX_PAYLOAD *)
Definition TX_FRAME_MAX : Z := 256.

Record TxQ := mkTxQ { tx_items : list bytes; tx_head : Z; tx_tail : Z; tx_count : Z }.
Definition TxQ_init : TxQ := mkTxQ (replicate 6 []) 0 0 0.

Definition txq_push (frame : bytes) (q : TxQ) : TxQ * bool :=
  if (TXQ_DEPTH <=? tx_count q) || (TX_FRAME_MAX <? zlen frame) then (q, false) else
  (mkTxQ (<[Z.to_nat (tx_tail q) := frame]> (tx_items q)) (tx_head q)
     (u8 ((tx_tail q + 1) mod TXQ_DEPTH)) (u8 (tx_count q + 1)), true).

Definition txq_pop (q : TxQ) : TxQ :=
  mkTxQ (tx_items q) (u8 ((tx_head q + 1) mod TXQ_DEPTH)) (tx_tail q) (u8 (tx_count q - 1)).
Definition txq_pump (e : ChipEnv) (h : RadioHal) (q : TxQ) : TxQ * RadioHal * list ChipOp :=
  if (tx_count q =? 0) || busy h then (q, h, []) else
  let frame := default [] (tx_items q !! Z.to_nat (tx_head q)) in
  let '(h, ops, ok) := send e frame h in (if ok then txq_pop q else q, h, ops).

(** ** Specification: a FIFO of at most six frames *)

Record txq_repr (q : TxQ) (l : list bytes) : Prop := {
  tr_ring : ring_repr TXQ_DEPTH (tx_head q) (tx_items q) l;
  tr_count : tx_count q = zlen l;
  tr_tail : tx_tail q = (tx_head q + zlen l) mod TXQ_DEPTH }.

Lemma txq_init_repr : txq_repr TxQ_init [].
Proof. split; [|done|done]. apply ring_empty; unfold TXQ_DEPTH; simpl; [done|lia]. Qed.

Definition spec_push (frame : bytes) (l : list bytes) : list bytes * bool :=
  if (zlen l <? TXQ_DEPTH) && (zlen frame <=? TX_FRAME_MAX) then (l ++ [frame], true) else (l, false).

Lemma txq_push_repr q l frame : txq_repr q l →
  txq_repr (txq_push frame q).1 (spec_push frame l).1 ∧ (txq_push frame q).2 = (spec_push frame l).2.
Proof.
  intros Hq. destruct (Hq) as [Hr Hc Ht]. unfold txq_push, spec_push. rewrite Hc.
  rewrite (Z.leb_antisym (zlen l) TXQ_DEPTH), (Z.ltb_antisym (zlen frame) TX_FRAME_MAX).
  destruct (zlen l <? TXQ_DEPTH) eqn:E1; simpl; [|by split].
  destruct (zlen frame <=? TX_FRAME_MAX); simpl; [|by split]. bools.
  pose proof (rr_head _ _ _ _ Hr) as Hh. pose proof (zlen_nonneg l) as Hnn. unfold TXQ_DEPTH in *.
  split; [|done]. split; simpl.
  - rewrite Ht. by apply ring_push.
  - rewrite zlen_app, zlen_cons, (zlen_nil (A:=bytes)), u8_small by zlia. lia.
  - rewrite Ht, zlen_app, zlen_cons, (zlen_nil (A:=bytes)), u8_small by zlia.
    rewrite Z.add_mod_idemp_l by lia. f_equal. lia.
Qed.

(** What the pump does, in terms of the list. *)
Lemma txq_pump_eq e h q l : txq_repr q l →
  txq_pump e h q =
    match l with
    | [] => (q, h, [])
    | f :: _ =>
        if busy h then (q, h, []) else
        let '(h', ops, ok) := send e f h in (if ok then txq_pop q else q, h', ops)
    end.
Proof.
  intros [Hr Hc Ht]. unfold txq_pump. rewrite Hc. destruct l as [|f l]; [done|].
  rewrite zlen_cons, (proj2 (Z.eqb_neq (1 + zlen l) 0)) by (pose proof (zlen_nonneg l); lia).
  destruct (ring_pop _ _ _ _ _ Hr) as [-> _]. done.
Qed.

Lemma txq_pop_repr q f l : txq_repr q (f :: l) → txq_repr (txq_pop q) l.
Proof.
  intros [Hr Hc Ht]. destruct (ring_pop _ _ _ _ _ Hr) as [_ Hr'].
  pose proof (rr_head _ _ _ _ Hr) as Hh. pose proof (rr_len _ _ _ _ Hr) as Hlen.
  pose proof (zlen_nonneg l) as Hnn. rewrite zlen_cons in Hc, Hlen, Ht. unfold TXQ_DEPTH in *.
  split; simpl; unfold TXQ_DEPTH.
  - by rewrite u8_small by zlia.
  - rewrite Hc, u8_small by zlia. lia.
  - rewrite Ht, u8_small by zlia. rewrite Z.add_mod_idemp_l by lia. f_equal. lia.
Qed.

(** The pump moves the oldest frame to the radio, or nothing. *)
Lemma txq_pump_repr e h q l : txq_repr q l →
  let '(q', h', ops) := txq_pump e h q in
  (txq_repr q' l ∧ (h', ops) = (h, [])) ∨
  ∃ f l', l = f :: l' ∧ txq_repr q' l' ∧ send e f h = (h', ops, true).
Proof.
  intros Hq. rewrite (txq_pump_eq e h q l Hq). destruct l as [|f l]; [by left|].
  destruct (busy h) eqn:Hb; [by left|]. destruct (send e f h) as [[h' ops] ok] eqn:Es. destruct ok.
  - right. exists f, l. eauto using txq_pop_repr.
  - left. split; [done|]. unfold send in Es. repeat case_match; simplify_eq; done.
Qed.

(** ** Queue and radio together *)

Inductive tx_event :=
  | TxPush (frame : bytes)
  | TxPump (e : ChipEnv)
  | TxIsr
  | TxPoll (e : ChipEnv) (now : Z)
  | TxApply (e : ChipEnv) (c : RadioCfg).

(** The new state, the driver calls, the frames the queue accepted. *)
Definition tx_step (ev : tx_event) (s : TxQ * RadioHal) : TxQ * RadioHal * list ChipOp * list bytes :=
  let '(q, h) := s in
  match ev with
  | TxPush f => let '(q, ok) := txq_push f q in (q, h, [], if ok then [f] else [])
  | TxPump e => let '(q, h, ops) := txq_pump e h q in (q, h, ops, [])
  | TxIsr => (q, isr h, [], [])
  | TxPoll e now => let '(h, ops, _) := poll e now h in (q, h, ops, [])
  | TxApply e c => let '(h, ops, _) := apply_config e c h in (q, h, ops, [])
  end.

Fixpoint tx_run (evs : list tx_event) (s : TxQ * RadioHal) : TxQ * RadioHal * list ChipOp * list bytes :=
  match evs with
  | [] => (s.1, s.2, [], [])
  | ev :: evs =>
      let '(q, h, ops, acc) := tx_step ev s in
      let '(q, h, ops', acc') := tx_run evs (q, h) in (q, h, ops ++ ops', acc ++ acc')
  end.

Lemma tx_step_fifo ev q h l : txq_repr q l → hal_ok h →
  let '(q', h', ops, acc) := tx_step ev (q, h) in
  hal_ok h' ∧ ∃ l', txq_repr q' l' ∧ handed ops ++ pending h' ++ l' = pending h ++ l ++ acc.
Proof.
  intros Hq Hh. destruct ev as [f|e| |e now|e c]; simpl.
  - pose proof (txq_push_repr q l f Hq) as [Hq' Hok].
    destruct (txq_push f q) as [q' ok]. simpl in *. subst ok. split; [done|].
    exists (spec_push f l).1. split; [done|]. unfold spec_push.
    case_match; simpl; by rewrite ?app_nil_r.
  - pose proof (txq_pump_repr e h q l Hq) as H. destruct (txq_pump e h q) as [[q' h'] ops].
    destruct H as [[Hq' [= -> ->]]|(f & l' & -> & Hq' & Hs)].
    + split; [done|]. exists l. by rewrite app_nil_r.
    + pose proof (send_moves e f h Hh) as H. rewrite Hs in H. destruct H as [[Hh' Heq] _].
      split; [done|]. exists l'. split; [done|]. rewrite app_nil_r, app_assoc, Heq, <- app_assoc. done.
  - split; [by destruct Hh|]. exists l. by rewrite app_nil_r.
  - pose proof (poll_moves e now h Hh) as H. destruct (poll e now h) as [[h' ops] p].
    destruct H as [Hh' Heq]. split; [done|]. exists l. split; [done|].
    by rewrite app_assoc, Heq, !app_nil_r.
  - pose proof (hal_step_moves (EvApply e c) h Hh) as H. simpl in H.
    destruct (apply_config e c h) as [[h' ops] st]. destruct H as [Hh' Heq].
    split; [done|]. exists l. split; [done|]. by rewrite app_assoc, Heq, !app_nil_r.
Qed.

(** C17: queue and radio form one FIFO. Whatever the interleaving of
    pushes, pumps, interrupts, polls and retunes, the frames handed to the chip,
    then the radio's pending frame, then the ring's contents, are exactly what
    was in flight before followed by what [txq_push] accepted, in order: no
    source can overtake, duplicate or overwrite another's frame. *)
Theorem tx_fifo (evs : list tx_event) (q : TxQ) (h : RadioHal) (l : list bytes)
    (Hq : txq_repr q l) (Hh : hal_ok h) :
  let '(q', h', ops, accepted) := tx_run evs (q, h) in
  hal_ok h' ∧ ∃ l', txq_repr q' l' ∧ handed ops ++ pending h' ++ l' = pending h ++ l ++ accepted.
Proof.
  revert q h l Hq Hh. induction evs as [|ev evs IH]; intros q h l Hq Hh; cbn [tx_run].
  { split; [done|]. exists l. split; [done|]. by rewrite app_nil_r. }
  pose proof (tx_step_fifo ev q h l Hq Hh) as H.
  destruct (tx_step ev (q, h)) as [[[q1 h1] ops1] acc1]. destruct H as (Hh1 & l1 & Hq1 & Heq1).
  specialize (IH q1 h1 l1 Hq1 Hh1).
  destruct (tx_run evs (q1, h1)) as [[[q2 h2] ops2] acc2]. destruct IH as (Hh2 & l2 & Hq2 & Heq2).
  split; [done|]. exists l2. split; [done|].
  rewrite handed_app, <- app_assoc, Heq2.
  rewrite (app_assoc l acc1), (app_assoc (pending h)), <- Heq1, <- !app_assoc. done.
Qed.

Example tx_fifo_witness :
  txq_repr TxQ_init [] ∧ hal_ok RadioHal_new ∧
  let evs := [TxPush [1]; TxPush [2]; TxPump env_free; TxPush [3]; TxIsr; TxPoll env_free 5; TxPump env_free;
              TxIsr; TxPoll env_free 9; TxPump env_free] in
  handed (tx_run evs (TxQ_init, RadioHal_new)).1.2 = [[1]] ∧
  pending (tx_run evs (TxQ_init, RadioHal_new)).1.1.2 = [[2]] ∧
  (let '(q', h', ops, accepted) := tx_run evs (TxQ_init, RadioHal_new) in
   hal_ok h' ∧ ∃ l', txq_repr q' l' ∧
     handed ops ++ pending h' ++ l' = pending RadioHal_new ++ [] ++ accepted).
Proof.
  split; [apply txq_init_repr|]. split; [apply hal_new_ok|]. intros evs.
  split; [by vm_compute|]. split; [by vm_compute|]. apply tx_fifo; [apply txq_init_repr|apply hal_new_ok].
Defined.

(** An idle radio takes the head frame, provided the radio can carry it. A
    256-byte frame, which the queue would accept, would block it for ever: the
    firmware never builds one. *)
Lemma txq_pump_progress e h q f l : txq_repr q (f :: l) → 1 <= zlen f <= RADIO_MAX_FRAME →
  rh_state h = RX → rh_pend h = [] → rh_dio1 h = false →
  txq_repr (txq_pump e h q).1.1 l.
Proof.
  intros Hq Hf Hs Hp Hd. rewrite (txq_pump_eq e h q _ Hq).
  unfold busy, send. rewrite Hs, Hp, Hd. simpl.
  rewrite (proj2 (Z.eqb_neq (zlen f) 0)), (proj2 (Z.ltb_ge RADIO_MAX_FRAME (zlen f))) by lia. simpl.
  destruct (if rh_cad_enabled h then _ else _). by eapply txq_pop_repr.
Qed.

(** ... and that frame would stay at the head for ever. *)
Lemma txq_oversize_stuck e h q f l : txq_repr q (f :: l) → RADIO_MAX_FRAME < zlen f →
  (txq_pump e h q).1.1 = q.
Proof.
  intros Hq Hf. rewrite (txq_pump_eq e h q _ Hq). destruct (busy h) eqn:Hb; [done|].
  unfold send. unfold busy in Hb. rewrite Hb, (proj2 (Z.ltb_lt RADIO_MAX_FRAME (zlen f))), orb_true_r by done.
  done.
Qed.
