(* ===== verification/Cadence.v ===== *)
(** src/main.cpp: the node's timing and battery arithmetic. *)
From S2P Require Import Prelude.

(** ** Battery gauge *)

Definition BATT_CURVE : list (Z * Z) :=
  [(3300, 0); (3450, 5); (3680, 10); (3740, 20); (3770, 30); (3790, 40);
   (3820, 50); (3870, 60); (3920, 70); (3980, 80); (4060, 90); (4200, 100)].

(** The loop over the points from the second on; [(m0, p0)] is C[i-1]. *)
Fixpoint batt_segment (m0 p0 : Z) (points : list (Z * Z)) (mv : Z) : Z :=
  match points with
  | [] => 100
  | (m1, p1) :: points =>
      if mv <? m1 then u8 (p0 + u32 (u32 (p1 - p0) * (mv - m0)) / (m1 - m0))
      else batt_segment m1 p1 points mv
  end.
Definition batt_pct (mv : Z) : Z :=
  match BATT_CURVE with
  | [] => 100
  | (m0, p0) :: points => if mv <=? m0 then 0 else batt_segment m0 p0 points mv
  end.

(** ** Beacon cadence *)

Definition beacon_auto_ms (sf : Z) : Z :=
  match sf with
  | 12 => 140000
  | 11 => 75000
  | 10 => 40000
  | 9 => 25000
  | 8 => 15000
  | _ => 10000
  end.
Definition beacon_period_ms (net_beacon_cfg sf : Z) : Z :=
  if negb (net_beacon_cfg =? 0) then net_beacon_cfg else beacon_auto_ms sf.
Definition beacon_jitter_ms (cfg sf : Z) : Z := beacon_period_ms cfg sf / 4.
Definition neighbor_timeout_ms (cfg sf : Z) : Z :=
  let t := u32 (beacon_period_ms cfg sf * 9) in if t <? 90000 then 90000 else t.
Definition route_timeout_ms (cfg sf : Z) : Z := neighbor_timeout_ms cfg sf.

(** [random_ 0 jitter] stands for the core's random(0, jitter). *)
Definition schedule_next_beacon (random_ : Z → Z → Z) (now cfg sf : Z) : Z :=
  u32 (now + beacon_period_ms cfg sf + u32 (random_ 0 (beacon_jitter_ms cfg sf))).

(** ** Facts *)

(** Along a curve that rises, interpolation stays between its points. *)
Fixpoint rising (m0 p0 : Z) (points : list (Z * Z)) : Prop :=
  match points with
  | [] => p0 = 100
  | (m1, p1) :: points => m0 < m1 < 65536 ∧ p0 < p1 <= 100 ∧ rising m1 p1 points
  end.

Lemma interp_bounds m0 p0 m1 p1 mv : 0 <= p0 → m0 < m1 < 65536 → p0 < p1 <= 100 → 0 <= m0 <= mv → mv < m1 →
  u8 (p0 + u32 (u32 (p1 - p0) * (mv - m0)) / (m1 - m0)) = p0 + (p1 - p0) * (mv - m0) / (m1 - m0) ∧
  p0 <= p0 + (p1 - p0) * (mv - m0) / (m1 - m0) < p1.
Proof.
  intros H0 Hm Hp Hmv Hlt. rewrite (u32_small (p1 - p0)) by zlia.
  assert (0 <= (p1 - p0) * (mv - m0) < (p1 - p0) * (m1 - m0)) as Hprod by nia.
  assert (0 <= (p1 - p0) * (mv - m0) / (m1 - m0) < p1 - p0) as Hq.
  { split; [apply Z.div_pos; lia|]. apply Z.div_lt_upper_bound; lia. }
  rewrite (u32_small ((p1 - p0) * (mv - m0))) by (unfold is_u32; nia).
  rewrite u8_small by zlia. lia.
Qed.

Lemma batt_segment_range m0 p0 points mv : rising m0 p0 points → 0 <= p0 → 0 <= m0 <= mv →
  p0 <= batt_segment m0 p0 points mv <= 100.
Proof.
  revert m0 p0. induction points as [|[m1 p1] points IH]; intros m0 p0 Hr H0 Hm; simpl in *; [lia|].
  destruct Hr as (Hm1 & Hp1 & Hr). destruct (Z.ltb_spec mv m1).
  - destruct (interp_bounds m0 p0 m1 p1 mv) as [-> ?]; lia.
  - pose proof (IH m1 p1 Hr). lia.
Qed.

Lemma batt_segment_mono m0 p0 points mv mv' : rising m0 p0 points → 0 <= p0 → 0 <= m0 <= mv → mv <= mv' →
  batt_segment m0 p0 points mv <= batt_segment m0 p0 points mv'.
Proof.
  revert m0 p0. induction points as [|[m1 p1] points IH]; intros m0 p0 Hr H0 Hm Hle; simpl in *; [lia|].
  destruct Hr as (Hm1 & Hp1 & Hr). destruct (Z.ltb_spec mv m1), (Z.ltb_spec mv' m1); try lia.
  - destruct (interp_bounds m0 p0 m1 p1 mv) as [-> _]; try lia.
    destruct (interp_bounds m0 p0 m1 p1 mv') as [-> _]; try lia.
    apply Z.add_le_mono_l, Z.div_le_mono; nia.
  - destruct (interp_bounds m0 p0 m1 p1 mv) as [-> ?]; try lia.
    pose proof (batt_segment_range m1 p1 points mv' Hr). lia.
  - apply IH; [done|lia..].
Qed.

Lemma batt_curve_rising : rising 3300 0 (tail BATT_CURVE).
Proof. by vm_compute. Qed.

(** The gauge is sane: for every millivolt reading the percentage
    is between 0 and 100, it never falls when the voltage rises, and it is exact
    on the points of the curve. *)
Theorem batt_pct_monotone (mv mv' : Z) (Hmv : 0 <= mv) (Hle : mv <= mv') :
  0 <= batt_pct mv <= batt_pct mv' ∧ batt_pct mv' <= 100 ∧
  (∀ m p, (m, p) ∈ BATT_CURVE → batt_pct m = p).
Proof.
  assert (∀ v, batt_pct v = if v <=? 3300 then 0 else batt_segment 3300 0 (tail BATT_CURVE) v) as Heq by done.
  pose proof batt_curve_rising as Hr. split; [|split].
  - rewrite !Heq. destruct (Z.leb_spec mv 3300), (Z.leb_spec mv' 3300); try lia.
    + pose proof (batt_segment_range 3300 0 _ mv' Hr). lia.
    + pose proof (batt_segment_range 3300 0 _ mv Hr).
      pose proof (batt_segment_mono 3300 0 _ mv mv' Hr). lia.
  - rewrite Heq. destruct (Z.leb_spec mv' 3300); [lia|].
    pose proof (batt_segment_range 3300 0 _ mv' Hr). lia.
  - assert (Forall (λ mp, batt_pct mp.1 = mp.2) BATT_CURVE) as Hall by (each; by vm_compute).
    intros m p Hin. rewrite Forall_forall in Hall. by apply (Hall (m, p)).
Qed.

Example batt_pct_monotone_witness :
  0 <= 3700 ∧ 3700 <= 3900 ∧ batt_pct 3700 = 13 ∧ batt_pct 3900 = 66 ∧
  0 <= batt_pct 3700 <= batt_pct 3900 ∧ batt_pct 3900 <= 100 ∧
  (∀ m p, (m, p) ∈ BATT_CURVE → batt_pct m = p).
Proof.
  split; [lia|]. split; [lia|]. split; [done|]. split; [done|]. apply batt_pct_monotone; lia.
Defined.

(** The period settings the firmware can be in: automatic, or the 5..600 s the
    console accepts. *)
Definition period_ok (cfg : Z) : Prop := cfg = 0 ∨ 5000 <= cfg <= 600000.

Lemma beacon_period_range cfg sf : period_ok cfg → 5000 <= beacon_period_ms cfg sf <= 600000.
Proof.
  intros Hc. unfold beacon_period_ms, beacon_auto_ms.
  destruct (Z.eqb_spec cfg 0); simpl; [repeat case_match|destruct Hc]; lia.
Qed.

(** A neighbour is not expired for a few lost beacons. For every
    accepted setting and every random draw, a beacon is scheduled one period to
    one period and a quarter ahead, and six worst-case intervals fit into the
    neighbour and route timeouts, so five beacons in a row may be lost. *)
Theorem timeout_covers_six_beacons (random_ : Z → Z → Z) (now cfg sf : Z)
    (Hcfg : period_ok cfg) (Hnow : is_u32 now)
    (Hrand : ∀ lo hi, lo < hi → lo <= random_ lo hi < hi) :
  let period := beacon_period_ms cfg sf in
  let wait := u32 (schedule_next_beacon random_ now cfg sf - now) in
  period <= wait < period + beacon_jitter_ms cfg sf ∧
  6 * wait <= neighbor_timeout_ms cfg sf ∧ route_timeout_ms cfg sf = neighbor_timeout_ms cfg sf.
Proof.
  intros period wait. pose proof (beacon_period_range cfg sf Hcfg) as Hp. fold period in Hp.
  unfold wait, schedule_next_beacon, route_timeout_ms, neighbor_timeout_ms, beacon_jitter_ms.
  fold period. assert (0 < period / 4 <= 150000) as Hj by (Z.div_mod_to_equations; lia).
  specialize (Hrand 0 (period / 4) ltac:(lia)). set (r := random_ 0 (period / 4)) in *.
  rewrite (u32_small r) by zlia. rewrite (u32_small (period * 9)) by zlia.
  assert (u32 (u32 (now + period + r) - now) = period + r) as -> by zlia.
  split; [lia|]. split; [|done].
  destruct (Z.ltb_spec (period * 9) 90000); Z.div_mod_to_equations; lia.
Qed.

Example timeout_covers_six_beacons_witness :
  period_ok 0 ∧ is_u32 4294960000 ∧ schedule_next_beacon (λ _ hi, hi - 1) 4294960000 0 7 = 5203 ∧
  let period := beacon_period_ms 0 7 in
  let wait := u32 (schedule_next_beacon (λ _ hi, hi - 1) 4294960000 0 7 - 4294960000) in
  period <= wait < period + beacon_jitter_ms 0 7 ∧
  6 * wait <= neighbor_timeout_ms 0 7 ∧ route_timeout_ms 0 7 = neighbor_timeout_ms 0 7.
Proof.
  split; [by left|]. split; [zlia|]. split; [done|].
  apply timeout_covers_six_beacons; [by left|zlia|]. intros lo hi Hlt. simpl. lia.
Defined.
