(* ===== verification/Fuzz.v ===== *)
(** fuzz/: the eight libFuzzer targets, one per byte-facing component, as
    functions of the input, and the proof that no input makes any of them trap
    or touch memory outside a buffer.

    Reads and writes alike: the parsers check theirs ([Reader.rd], [Reader.wr]);
    what the engines store into their arrays, and what the builders write into
    the target's buffers, is checked here ([cells], [built]). *)
From S2P Require Import Prelude Reader SlotTable MeshTypes NeighborTable RoutingTable Router Crypto AnnounceCodec LinkArq Packet Kiss Sar Telemetry Control LocatorDir.

(** ** What a run of a target can do

    [Got]: it goes on, or returns 0.  [Trap]: [__builtin_trap()].  [Fault]: the
    sanitizer stops it at an access outside a buffer.  [Hang]: a loop does not
    end. *)
Inductive run (A : Type) : Type :=
  | Got (a : A)
  | Trap
  | Fault
  | Hang.
Arguments Got {A} a.
Arguments Trap {A}.
Arguments Fault {A}.
Arguments Hang {A}.

#[export] Instance run_ret : MRet run := λ A a, Got a.
#[export] Instance run_bind : MBind run := λ A B f m,
  match m with Got a => f a | Trap => Trap | Fault => Fault | Hang => Hang end.

(** [if (!b) __builtin_trap();] *)
Definition must (b : bool) : run () := if b then Got () else Trap.
(** A parser's verdict: [None] when it returned false. *)
Definition call {A} (m : res A) : run (option A) :=
  match m with Ok a => Got (Some a) | Rej => Got None | Oob => Fault end.
(** A read of the target's own. *)
Definition fetch {A} (m : res A) : run A := match m with Ok a => Got a | _ => Fault end.
(** The first [n] cells of an array of [cap] cells are read or written. *)
Definition cells (cap n : Z) : run () := fetch (wr cap 0 n).
(** [uint8_t buf[cap]; n = build(..., buf, cap); if (n == 0) __builtin_trap();] *)
Definition built (cap : Z) (build : Z → option bytes) : run bytes :=
  match build cap with Some b => fetch (into cap b) | None => Trap end.

(** ** The targets *)

Section targets.
Context `{Crypto}.

Definition fuzz_announce (data : bytes) : run () :=
  if 4096 <? zlen data then Got () else
  a ← call (announce_deserialize data);
  _ ← match a with
      | Some a =>
          buf ← fetch (into 4096 (announce_serialize a 4096));
          _ ← must (zlen buf =? announce_body_len a);
          b ← call (announce_deserialize buf);
          must (bool_decide (is_Some b))
      | None => Got ()
      end;
  if ANNOUNCE_SIG_TAIL <=? zlen data then
    let k := Z.to_nat (zlen data - ANNOUNCE_SIG_TAIL) in
    _ ← call (announce_verify (take k data) (drop k data)); Got ()
  else Got ().

(** The second call passes a null [out]; its floor lets no command through. *)
Definition fuzz_control (data : bytes) : run () :=
  if 2048 <? zlen data then Got () else
  let '(pubkey, msg) := if 32 <=? zlen data then (take 32 data, drop 32 data)
                        else (replicate 32 0, data) in
  _ ← call (ctrl_verify msg pubkey 0 CtrlMsg_default);
  _ ← call (ctrl_verify msg pubkey 4294967295 CtrlMsg_default);
  a ← call (ctrl_parse_ack msg);
  match a with
  | None => Got ()
  | Some a =>
      buf ← built CTRL_ACK_BYTES (ctrl_build_ack (ak_cmd a) (ak_origin a) (ak_applied a)
                                    (ak_provisional a) (ak_counter a));
      _ ← must (zlen buf =? CTRL_ACK_BYTES);
      b ← call (ctrl_parse_ack buf);
      match b with
      | None => Trap
      | Some b => must ((ak_cmd b =? ak_cmd a) && (ak_counter b =? ak_counter a))
      end
  end.

(** The reassembler is static: it lives from one input to the next. *)
Definition fuzz_frame (data : bytes) (r : SarReassembler) : run SarReassembler :=
  if (zlen data <? HEADER_BYTES) || (4096 <? zlen data) then Got r else
  let len := zlen data in
  net ← fetch (net_read data 4);
  if negb (net_ver_of (nh_ver_type net) =? PROTO_VERSION) then Got r else
  let pay := drop (Z.to_nat HEADER_BYTES) data in
  let t := net_type_of (nh_ver_type net) in
  if t =? PKT_BEACON then
    let base := HEADER_BYTES + 4 in
    let region := drop (Z.to_nat base) data in
    ann ← (if base <? len then call (announce_deserialize region) else Got None);
    match ann with
    | None => Got r
    | Some ann =>
        let bl := announce_body_len ann in
        if u16 (bl + ANNOUNCE_SIG_TAIL) <=? u16 (len - base) then
          _ ← call (announce_verify (take (Z.to_nat bl) region) (drop (Z.to_nat bl) region)); Got r
        else Got r
    end
  else if t =? PKT_CONTROL then
    is_ack ← fetch (ctrl_is_ack pay);
    if (is_ack : bool) then _ ← call (ctrl_parse_ack pay); Got r
    else _ ← call (ctrl_verify pay (66 :: replicate 31 0) 0 CtrlMsg_default); Got r
  else if t =? PKT_TELEM then _ ← call (telem_parse pay); Got r
  else if t =? PKT_LOC then _ ← call (loc_parse pay); Got r
  else if t =? PKT_DATA then
    if sar_is_fragment pay then
      o ← call (sar_add pay (sar_reset r));
      match o with Some (r, _) => Got r | None => Got r end
    else if sar_is_nack pay then _ ← call (sar_parse_nack pay 64); Got r
    else if sar_is_done pay then _ ← call (sar_parse_done pay); Got r
    else Got r
  else Got r.

(** One libFuzzer process: input after input. *)
Fixpoint fuzz_frames (inputs : list bytes) (r : SarReassembler) : run SarReassembler :=
  match inputs with
  | [] => Got r
  | data :: inputs => r ← fuzz_frame data r; fuzz_frames inputs r
  end.
End targets.

(** [on_resend]: every byte of the stored frame is read. *)
Fixpoint on_resend (frames : list bytes) : run () :=
  match frames with
  | [] => Got ()
  | f :: frames => _ ← cells ARQ_FRAME_MAX (zlen f); on_resend frames
  end.

(** One [op a b] of the ARQ target: the engine and its clock.  A tracked frame
    is copied from [frame[512]] into its slot. *)
Definition fuzz_arq_op (op a b : Z) (arq : LinkArq) (now : Z) : run (LinkArq * Z) :=
  let op := op mod 4 in
  if op =? 0 then
    let len := u16 (Z.lor a (Z.shiftl (Z.land b 1) 8)) in
    let hop := nid_from_u32 (b + 1) in
    frame ← fetch (rdn (replicate 512 165) 0 len);
    let '(arq, tracked) := arq_track (if a =? 0 then 1 else a) hop frame now
                             (u32 ((b + 1) * 100)) (u8 (a mod 7)) arq in
    _ ← (if tracked then cells ARQ_FRAME_MAX len else Got ());
    Got (arq, now)
  else if op =? 1 then Got ((on_ack a arq).1, now)
  else if op =? 2 then
    let now := u32 (now + Z.lor a (Z.shiftl b 8)) in
    let '(arq, resent, _) := arq_tick now arq in
    _ ← on_resend resent;
    Got (arq, now)
  else
    match next_seq arq with
    | None => Hang
    | Some (arq, s) => _ ← must (negb (s =? 0)); Got (arq, now)
    end.

Fixpoint fuzz_arq_loop (data : bytes) (arq : LinkArq) (now : Z) : run () :=
  match data with
  | op :: a :: b :: data =>
      '(arq, now) ← fuzz_arq_op op a b arq now;
      _ ← must (negb (ARQ_MAX_PENDING <? pending_count arq));
      fuzz_arq_loop data arq now
  | _ => Got ()
  end.
Definition fuzz_arq (data : bytes) : run () :=
  if 4096 <? zlen data then Got () else fuzz_arq_loop data LinkArq_init 0.

(** [d.feed(b)]: [buf_[0 .. n_)] has been written. *)
Definition fuzz_feed (b : Z) (d : KissDecoder) : run (KissDecoder * bool) :=
  let '(d, ready) := kiss_feed b d in _ ← cells KISS_MAX_FRAME (kd_n d); Got (d, ready).

(** [got = d2.feed(enc[k]) || got;] over the encoded frame. *)
Fixpoint feed_got (l : bytes) (d : KissDecoder) (got : bool) : run (KissDecoder * bool) :=
  match l with
  | [] => Got (d, got)
  | b :: l => '(d, ready) ← fuzz_feed b d; feed_got l d (ready || got)
  end.

(** What the KISS target does with every frame the decoder yields. *)
Definition kiss_recode (d : KissDecoder) : run () :=
  let flen := kd_ready d in
  _ ← must (negb ((flen =? 0) || (KISS_MAX_FRAME <? flen)));
  cmd ← fetch (rd (kd_buf d) 0);
  payload ← fetch (rdn (kd_buf d) 1 (u16 (flen - 1)));
  enc ← built (2 * KISS_MAX_FRAME + 4) (kiss_encode cmd payload);
  '(d2, got) ← feed_got enc KissDecoder_init false;
  _ ← must got;
  f ← fetch (rdn (kd_buf d) 0 flen);
  f2 ← fetch (rdn (kd_buf d2) 0 flen);
  must ((kd_ready d2 =? flen) && bool_decide (f2 = f)).

Fixpoint fuzz_kiss_loop (data : bytes) (d : KissDecoder) : run () :=
  match data with
  | [] => Got ()
  | b :: data =>
      r ← fuzz_feed b d;
      let '(d, ready) := r : KissDecoder * bool in
      _ ← (if ready then kiss_recode d else Got ());
      fuzz_kiss_loop data d
  end.
Definition fuzz_kiss (data : bytes) : run () := fuzz_kiss_loop data KissDecoder_init.

(** [loc_build] is the target's switch on the kind. *)
Definition fuzz_loc (data : bytes) : run () :=
  if 2048 <? zlen data then Got () else
  m ← call (loc_parse data);
  match m with
  | None => Got ()
  | Some m =>
      buf ← built 512 (loc_build m);
      m2 ← call (loc_parse buf);
      match m2 with
      | None => Trap
      | Some m2 => must ((lm_kind m2 =? lm_kind m) && bool_decide (lm_id m2 = lm_id m))
      end
  end.

(** One operation of the SAR target. *)
Definition fuzz_sar_op (op : Z) (payload : bytes) (r : SarReassembler) : run SarReassembler :=
  let op := op mod 8 in
  if op =? 4 then
    o ← call (sar_parse_nack payload 64);
    _ ← must (match o with Some (_, miss) => negb (64 <? zlen miss) | None => true end);
    Got r
  else if op =? 5 then _ ← call (sar_parse_done payload); Got r
  else if op =? 6 then
    _ ← (if sr_active r then cells SAR_MAX_FRAGS (sr_frag_count r) else Got ());
    miss ← fetch (into SAR_MAX_FRAGS (sar_missing SAR_MAX_FRAGS r));
    let n := zlen miss in
    _ ← must (negb (sr_frag_count r <? n));
    _ ← must (negb (sar_complete r && negb (n =? 0)));
    _ ← (if sar_complete r then fetch (rdn (sr_buf r) 0 (sr_total_len r)) else Got []);
    _ ← must (negb (SAR_MAX_FRAGS <? sr_got_count r));
    _ ← must (negb (SAR_MAX_FILE <? sr_total_len r));
    Got r
  else if op =? 7 then Got (sar_reset r)
  else
    o ← call (sar_add payload r);
    match o with Some (r, _) => Got r | None => Got r end.

(** [fuel]: operations left; each consumes two bytes at least. *)
Fixpoint fuzz_sar_loop (fuel : nat) (data : bytes) (r : SarReassembler) : run () :=
  match data with
  | op :: n :: data =>
      match fuel with
      | O => Hang
      | S fuel =>
          let len := if zlen data <? n then u16 (zlen data) else n in
          r ← fuzz_sar_op op (take (Z.to_nat len) data) r;
          fuzz_sar_loop fuel (drop (Z.to_nat len) data) r
      end
  | _ => Got ()
  end.
Definition fuzz_sar (data : bytes) : run () :=
  if 8192 <? zlen data then Got () else fuzz_sar_loop (length data) data SarReassembler_init.

Definition fuzz_telemetry (data : bytes) : run () :=
  if 2048 <? zlen data then Got () else
  m ← call (telem_parse data);
  match m with
  | None => Got ()
  | Some m =>
      buf ← built 1024 (
        if tm_kind m =? TELEM_BATT then telem_build_batt (tm_mv m) (tm_pct_plus1 m)
        else if tm_kind m =? TELEM_QUERY then telem_build_query (tm_target m)
        else if tm_kind m =? TELEM_REPLY then
          telem_build_reply (tm_mv m) (tm_pct_plus1 m) (tm_uptime_min m) (tm_power_dbm m) (tm_sf m)
            (tm_flags m) (Some (tm_fw m ++ [0])) (Some (tm_name m ++ [0])) (tm_nbrs m)
        else λ _, None);
      m2 ← call (telem_parse buf);
      match m2 with
      | None => Trap
      | Some m2 => must ((tm_kind m2 =? tm_kind m) && (zlen (tm_nbrs m2) =? zlen (tm_nbrs m)))
      end
  end.

(** ** Runs that go through *)

(** [runs m Q]: [m] neither traps, faults nor hangs, and its result satisfies [Q]. *)
Definition runs {A} (m : run A) (Q : A → Prop) : Prop :=
  match m with Got a => Q a | _ => False end.

Lemma runs_got (m : run ()) : runs m (λ _, True) → m = Got ().
Proof. by destruct m as [[]| | |]. Qed.
Lemma runs_mono {A} (m : run A) (P Q : A → Prop) : runs m P → (∀ a, P a → Q a) → runs m Q.
Proof. destruct m; simpl; auto. Qed.
Lemma runs_bind {A B} (m : run A) (f : A → run B) Q : runs m (λ a, runs (f a) Q) → runs (m ≫= f) Q.
Proof. by destruct m. Qed.
Lemma runs_must b (Q : () → Prop) : b = true → Q () → runs (must b) Q.
Proof. by intros ->. Qed.
Lemma runs_call {A} (m : res A) (P : A → Prop) (Q : option A → Prop) :
  safe m P → Q None → (∀ a, m = Ok a → P a → Q (Some a)) → runs (call m) Q.
Proof. destruct m; simpl; auto. Qed.
Lemma runs_fetch {A} (m : res A) a (Q : A → Prop) : m = Ok a → Q a → runs (fetch m) Q.
Proof. by intros ->. Qed.
Lemma runs_cells cap n (Q : () → Prop) : 0 <= n <= cap → Q () → runs (cells cap n) Q.
Proof. intros Hn HQ. unfold cells. by rewrite wr_ok by lia. Qed.
Lemma runs_built cap build b (Q : bytes → Prop) : build cap = Some b → zlen b <= cap → Q b → runs (built cap build) Q.
Proof. intros Hb Hl HQ. unfold built. by rewrite Hb, into_ok. Qed.
Lemma runs_call_ok {A} (m : res A) a (Q : option A → Prop) : m = Ok a → Q (Some a) → runs (call m) Q.
Proof. by intros ->. Qed.
(** A call whose result is dropped. *)
Lemma runs_ignore {A B} (m : res A) (k : run B) Q : m ≠ Oob → runs k Q → runs (_ ← call m; k) Q.
Proof. by destruct m. Qed.

(** ** Each target *)

(** An announce that was parsed fits whole into the target's buffer. *)
Lemma carried_whole buf a : announce_good buf a →
  announce_body_len (carried a 4096) = announce_body_len a ∧ announce_hdr (an_has_caps a) <= 4096 < 65536.
Proof.
  intros Ha. pose proof (ag_reports _ _ Ha). pose proof (ag_routes _ _ Ha).
  pose proof (zlen_nonneg (an_reports a)). pose proof (zlen_nonneg (an_routes a)).
  change MAX_NEIGHBORS with 32 in *. change MAX_ROUTES with 64 in *.
  assert (2 <= announce_hdr (an_has_caps a) <= 4) as Hh by (by destruct (an_has_caps a)).
  unfold announce_body_len, carried, ANNOUNCE_REPORT_BYTES, ANNOUNCE_ROUTE_BYTES.
  cbn [an_has_caps an_reports an_routes]. set (h := announce_hdr _) in *.
  assert (take (Z.to_nat ((4096 - h) / 18)) (an_reports a) = an_reports a) as ->.
  { apply take_ge. unfold zlen in *. assert (32 <= (4096 - h) / 18) by (apply Z.div_le_lower_bound; lia). lia. }
  assert (∀ x, 0 <= x <= 32 → take (Z.to_nat ((4096 - h - 18 * x) / 35)) (an_routes a) = an_routes a) as Hr.
  { intros x Hx. apply take_ge. unfold zlen in *.
    assert (64 <= (4096 - h - 18 * x) / 35) by (apply Z.div_le_lower_bound; lia). lia. }
  rewrite Hr by (unfold zlen in *; rewrite ?length_fmap; lia).
  unfold zlen. rewrite !length_fmap. split; [done|lia].
Qed.

Section targets_hold.
Context `{Crypto}.

Lemma fuzz_announce_holds data : wf_bytes data → fuzz_announce data = Got ().
Proof.
  intros Hw. apply runs_got. unfold fuzz_announce. destruct (Z.ltb_spec 4096 (zlen data)); [done|].
  assert (runs (if ANNOUNCE_SIG_TAIL <=? zlen data then
      let k := Z.to_nat (zlen data - ANNOUNCE_SIG_TAIL) in
      _ ← call (announce_verify (take k data) (drop k data)); Got ()
    else Got ()) (λ _, True)) as Htail.
  { unfold ANNOUNCE_SIG_TAIL. destruct (Z.leb_spec (32 + 64) (zlen data)); [|done].
    apply runs_ignore; [|done]. apply (safe_not_oob _ (λ _, True)), announce_verify_safe; [unfold wf_bytes in *; by apply Forall_drop|].
    unfold zlen in *. rewrite length_drop. lia. }
  apply runs_bind. apply (runs_call _ (announce_good data)); [apply announce_deserialize_good; [done|lia]|exact Htail|].
  intros a _ Ha. apply runs_bind. apply (runs_mono _ (λ _, True)); [|intros; exact Htail].
  destruct (carried_whole data a Ha) as [Hlen Hcap].
  destruct (announce_carried a 4096 [] (ag_wf _ _ Ha) Hcap) as (Hd & Hbl & Hfit). rewrite app_nil_r in Hd.
  apply runs_bind, (runs_fetch _ (announce_serialize a 4096)); [by apply into_ok|].
  apply runs_bind, runs_must; [apply Z.eqb_eq; congruence|].
  apply runs_bind. apply (runs_call_ok _ _ _ Hd). apply runs_must; [by apply bool_decide_eq_true_2|done].
Qed.

Lemma ctrl_verify_no_fault msg pubkey floor out : wf_bytes msg → zlen msg < 65536 →
  ctrl_verify msg pubkey floor out ≠ Oob.
Proof. intros Hw Hl. by eapply safe_not_oob, ctrl_verify_spec. Qed.

Lemma fuzz_control_holds data : wf_bytes data → fuzz_control data = Got ().
Proof.
  intros Hw. apply runs_got. unfold fuzz_control. destruct (Z.ltb_spec 2048 (zlen data)); [done|].
  assert (∀ pubkey msg, wf_bytes msg → zlen msg < 65536 → runs (
    _ ← call (ctrl_verify msg pubkey 0 CtrlMsg_default);
    _ ← call (ctrl_verify msg pubkey 4294967295 CtrlMsg_default);
    a ← call (ctrl_parse_ack msg);
    match a with
    | None => Got ()
    | Some a =>
        buf ← built CTRL_ACK_BYTES (ctrl_build_ack (ak_cmd a) (ak_origin a) (ak_applied a) (ak_provisional a)
                       (ak_counter a));
        _ ← must (zlen buf =? CTRL_ACK_BYTES);
        b ← call (ctrl_parse_ack buf);
        match b with
        | None => Trap
        | Some b => must ((ak_cmd b =? ak_cmd a) && (ak_counter b =? ak_counter a))
        end
    end) (λ _, True)) as Hmsg.
  { intros pubkey msg Hm Hl. do 2 (apply runs_ignore; [by apply ctrl_verify_no_fault|]).
    apply runs_bind. eapply runs_call; [by apply ctrl_parse_ack_good|done|].
    intros a _ (Hcmd & Ho & Hap & Hpr & Hc).
    destruct (ctrl_build_ack (ak_cmd a) (ak_origin a) (ak_applied a) (ak_provisional a) (ak_counter a) CTRL_ACK_BYTES)
      as [buf|] eqn:Hbuf; [|done].
    destruct (ctrl_ack_roundtrip _ _ _ _ _ _ _ Ho Hcmd Hap Hc Hbuf) as [Hp _].
    assert (zlen buf = CTRL_ACK_BYTES) as Hz.
    { injection Hbuf as <-. rewrite !zlen_cons, zlen_app, zlen_nid_write by done. by rewrite zlen_cons, zlen_cons, zlen_put_u32. }
    apply runs_bind, (runs_built _ _ buf); [done|lia|]. apply runs_bind, runs_must; [by apply Z.eqb_eq|].
    apply runs_bind, (runs_call_ok _ _ _ Hp). simpl. by rewrite !Z.eqb_refl. }
  destruct (32 <=? zlen data); (apply Hmsg; [|]).
  - unfold wf_bytes in *. by apply Forall_drop.
  - unfold zlen in *. rewrite length_drop. lia.
  - done.
  - lia.
Qed.
End targets_hold.

Definition arq_sound (a : LinkArq) : Prop :=
  length (arq_slots a) = 4%nat ∧ is_u8 (arq_seq_ctr a) ∧ Forall (λ p, zlen (pd_frame p) <= ARQ_FRAME_MAX) (arq_slots a).

Lemma next_seq_sound a : arq_sound a → ∃ a' s, next_seq a = Some (a', s) ∧ s ≠ 0 ∧ arq_sound a'.
Proof.
  intros (Hl & Hc & Hf). unfold next_seq. rewrite next_seq_total by done. do 2 eexists. split; [done|].
  split; [zlia|]. split; [done|]. split; [|done]. simpl. zlia.
Qed.

Lemma arq_track_sound seq nh fr now timeout retries a : arq_sound a →
  let '(a', tracked) := arq_track seq nh fr now timeout retries a in
  arq_sound a' ∧ (tracked = true → zlen fr <= ARQ_FRAME_MAX).
Proof.
  intros (Hl & Hc & Hf). unfold arq_track. destruct (Z.ltb_spec ARQ_FRAME_MAX (zlen fr)); [by split|].
  destruct (find_index _ _); [|by split]. split; [|done]. unfold arq_sound. cbn [arq_slots arq_seq_ctr].
  rewrite length_insert. split; [done|]. split; [done|]. by apply Forall_insert.
Qed.
Lemma tick_slot_frame now p : pd_frame (tick_slot now p).1 = pd_frame p ∧
  ∀ f, (tick_slot now p).2 = Resend f → f = pd_frame p.
Proof. unfold tick_slot. repeat case_match; simpl; split; try done; by intros f [=]. Qed.
Lemma arq_tick_sound now a : arq_sound a →
  arq_sound (arq_tick now a).1.1 ∧ Forall (λ f, zlen f <= ARQ_FRAME_MAX) (arq_tick now a).1.2.
Proof.
  intros (Hl & Hc & Hf). unfold arq_tick. cbn [fst snd arq_slots]. split.
  - unfold arq_sound. cbn [arq_slots arq_seq_ctr]. split; [by rewrite !length_fmap|]. split; [done|]. rewrite <- list_fmap_compose. apply Forall_fmap.
    eapply Forall_impl; [exact Hf|]. intros p Hp. unfold compose. by rewrite (proj1 (tick_slot_frame now p)).
  - apply Forall_forall. intros f (o & Ho & Hfo)%list_elem_of_omap. destruct o as [|f'|]; try done. injection Hfo as ->.
    apply list_elem_of_fmap in Ho as (x & Hx & (p & -> & Hp)%list_elem_of_fmap). symmetry in Hx.
    apply (proj2 (tick_slot_frame now p)) in Hx as ->. rewrite Forall_forall in Hf. by apply Hf.
Qed.
Lemma on_resend_runs frames : Forall (λ f, zlen f <= ARQ_FRAME_MAX) frames → on_resend frames = Got ().
Proof.
  intros Hf. apply runs_got. induction Hf as [|f frames Hz _ IH]; [done|]. cbn [on_resend].
  apply runs_bind, runs_cells; [pose proof (zlen_nonneg f); lia|exact IH].
Qed.

(** The length the target tracks with: at most the 511 bytes it has. *)
Lemma arq_len_bound a b : is_u8 a → 0 <= u16 (Z.lor a (Z.shiftl (Z.land b 1) 8)) < 512.
Proof.
  intros Ha. assert (0 <= Z.land b 1 < 2) as Hb.
  { change 1 with (Z.ones 1). rewrite Z.land_ones by lia. apply Z.mod_pos_bound. lia. }
  rewrite lor_shiftl_add by (cbn; zlia). rewrite u16_small; unfold is_u8, is_u16 in *; lia.
Qed.

Lemma fuzz_arq_op_holds op a b arq now : is_u8 a → arq_sound arq → runs (fuzz_arq_op op a b arq now) (λ r, arq_sound r.1).
Proof.
  intros Hua Ha. unfold fuzz_arq_op.
  destruct (op mod 4 =? 0); [|destruct (op mod 4 =? 1); [|destruct (op mod 4 =? 2)]].
  - pose proof (arq_len_bound a b Hua) as Hlen. set (len := u16 _) in *. cbv zeta.
    assert (zlen (replicate 512 165) = 512) as H512 by done. set (src := replicate 512 165) in *. clearbody src.
    set (fr := take (Z.to_nat len) src). assert (zlen fr = len) as Hfr by (apply zlen_take; unfold zlen in *; lia).
    apply runs_bind, (runs_fetch _ fr).
    { unfold rdn. by rewrite !(proj2 (Z.leb_le _ _)) by lia. }
    pose proof (arq_track_sound (if a =? 0 then 1 else a) (nid_from_u32 (b + 1)) fr now (u32 ((b + 1) * 100)) (u8 (a mod 7)) arq Ha) as Ht.
    destruct (arq_track _ _ fr _ _ _ arq) as [arq' tracked]. destruct Ht as [Ht Hz]. apply runs_bind.
    destruct tracked; [apply runs_cells; [specialize (Hz eq_refl); lia|done]|done].
  - destruct Ha as (Hl & Hc & Hf). unfold on_ack. destruct (find_index _ _); [|done].
    split; simpl; [by rewrite length_alter|]. split; [done|]. apply Forall_alter; [done|]. by intros p _ ?.
  - set (t := u32 _). destruct (arq_tick_sound t arq Ha) as [Hs Hf]. destruct (arq_tick t arq) as [[arq' resent] k].
    simpl in *. by rewrite on_resend_runs.
  - destruct (next_seq_sound arq Ha) as (arq' & s & -> & Hs & Ha').
    apply runs_bind, runs_must; [|done]. by apply negb_true_iff, Z.eqb_neq.
Qed.

Lemma fuzz_arq_holds data : wf_bytes data → fuzz_arq data = Got ().
Proof.
  intros Hw. apply runs_got. unfold fuzz_arq. case_match; [done|].
  assert (arq_sound LinkArq_init) as Hi by (split; [done|split; [done|by repeat constructor]]).
  revert Hw Hi. generalize LinkArq_init. generalize 0. clear. revert data. fix IH 1. intros data now arq Hw Hi.
  destruct data as [|op [|a [|b data]]]; try done. cbn [fuzz_arq_loop].
  apply Forall_cons in Hw as [_ Hw]. apply Forall_cons in Hw as [Ha Hw]. apply Forall_cons in Hw as [_ Hw].
  apply runs_bind. eapply runs_mono; [by apply fuzz_arq_op_holds|]. intros [arq' now'] Hs. cbn [fst] in Hs.
  apply runs_bind, runs_must; [|by apply IH].
  apply negb_true_iff, Z.ltb_ge. pose proof (count_if_bounds pd_used (arq_slots arq')). destruct Hs as [Hl _].
  unfold pending_count, ARQ_MAX_PENDING. unfold zlen in *. lia.
Qed.

(** ** KISS *)

Lemma fuzz_feed_ok b d : kd_ok d → fuzz_feed b d = Got (kiss_feed b d) ∧ kd_ok (kiss_feed b d).1.
Proof.
  intros Hok. pose proof (kiss_feed_ok b d Hok) as Hok'. unfold fuzz_feed. destruct (kiss_feed b d) as [d' r].
  cbn [fst] in Hok'. split; [|done]. pose proof (kd_bound _ Hok'). unfold cells. rewrite wr_ok by lia. done.
Qed.

Lemma feed_got_all l d g : kd_ok d → feed_got l d g =
  Got ((kiss_feed_all l d).1, g || negb (bool_decide ((kiss_feed_all l d).2 = []))).
Proof.
  revert d g. induction l as [|b l IH]; intros d g Hok; simpl.
  { by rewrite orb_false_r. }
  destruct (fuzz_feed_ok b d Hok) as [-> Hok']. destruct (kiss_feed b d) as [d' r]. simpl.
  rewrite IH by done. destruct (kiss_feed_all l d') as [d1 f1]. simpl.
  destruct r, g; simpl; rewrite ?orb_true_r; try done; by rewrite ?orb_false_l.
Qed.

(** A frame is ready: its length and bytes are inside the buffer. *)
Lemma kiss_ready_bounds b d d' : kd_ok d → kiss_feed b d = (d', true) →
  kd_ok d' ∧ 1 <= kd_ready d' <= 801.
Proof.
  intros Hok Hf. pose proof (kiss_feed_ok b d Hok) as Hok'. rewrite Hf in Hok'. split; [done|].
  pose proof (kd_bound _ Hok) as Hb. unfold KISS_MAX_FRAME in *. revert Hf. unfold kiss_feed.
  destruct (b =? KISS_FEND).
  - destruct (kd_in d && (0 <? kd_n d)) eqn:Hc; [|done]. bools. intros [= <-]. simpl. lia.
  - destruct (negb (kd_in d)); [done|]. destruct (kd_esc d); [done|]. by destruct (b =? KISS_FESC).
Qed.

Lemma kiss_recode_holds d : kd_ok d → 1 <= kd_ready d <= 801 → kiss_recode d = Got ().
Proof.
  intros Hok Hr. apply runs_got. unfold kiss_recode. pose proof (kd_len _ Hok) as Hlen.
  apply runs_bind, runs_must.
  { unfold KISS_MAX_FRAME. destruct (Z.eqb_spec (kd_ready d) 0); [lia|]. destruct (Z.ltb_spec (1 + 800) (kd_ready d)); [lia|done]. }
  destruct (kd_buf d) as [|cmd rest] eqn:Hbuf; [done|]. simpl in Hlen.
  apply runs_bind, (runs_fetch _ cmd); [done|].
  rewrite u16_small by (unfold is_u16; lia).
  set (payload := take (Z.to_nat (kd_ready d - 1)) rest).
  assert (zlen payload = kd_ready d - 1) as Hpl by (unfold payload, zlen; rewrite length_take; lia).
  assert (rdn (cmd :: rest) 1 (kd_ready d - 1) = Ok payload) as ->.
  { unfold rdn. rewrite zlen_cons. unfold zlen. destruct (Z.leb_spec 0 (kd_ready d - 1)); [|lia].
    by destruct (Z.leb_spec (1 + (kd_ready d - 1)) (1 + Z.of_nat (length rest))); [|lia]. }
  assert (rdn (cmd :: rest) 0 (kd_ready d) = Ok (cmd :: payload)) as ->.
  { unfold rdn. rewrite zlen_cons. unfold zlen. destruct (Z.leb_spec 0 (kd_ready d)); [|lia].
    destruct (Z.leb_spec (0 + kd_ready d) (1 + Z.of_nat (length rest))); [|lia]. simpl. f_equal.
    unfold payload. by replace (Z.to_nat (kd_ready d)) with (S (Z.to_nat (kd_ready d - 1))) by lia. }
  apply runs_bind, (runs_fetch _ payload); [done|].
  assert (is_Some (kiss_encode cmd payload (2 * KISS_MAX_FRAME + 4))) as [enc Henc].
  { unfold kiss_encode. apply fmap_is_Some, kiss_stuff_total. rewrite zlen_cons. unfold KISS_MAX_FRAME. lia. }
  apply runs_bind, (runs_built _ _ enc); [done|by eapply kiss_encode_fits|].
  destruct (kiss_frame_decode _ _ _ _ KissDecoder_init Henc) as (d2 & Hf & Hok2 & _ & Hrd & Htk);
    [lia|apply kiss_init_ok|apply kiss_init_ok|]. unfold kiss_frame in Htk.
  rewrite feed_got_all, Hf by (by destruct kiss_init_ok). cbn [fst snd orb]. apply runs_bind. simpl.
  apply runs_bind, (runs_fetch _ (cmd :: payload)).
  - unfold rdn. unfold zlen at 1. rewrite (kd_len _ Hok2). destruct (Z.leb_spec 0 (kd_ready d)); [|lia].
    destruct (Z.leb_spec (0 + kd_ready d) (Z.of_nat 801)); [|lia]. simpl. rewrite drop_0. f_equal. rewrite <- Htk. f_equal. lia.
  - apply runs_must; [|done]. rewrite Hrd, Hpl, bool_decide_eq_true_2 by done.
    rewrite andb_true_r. apply Z.eqb_eq. lia.
Qed.

Lemma fuzz_kiss_holds data : fuzz_kiss data = Got ().
Proof.
  apply runs_got. unfold fuzz_kiss. destruct kiss_init_ok as [Hok _]. revert Hok.
  generalize KissDecoder_init. induction data as [|b data IH]; intros d Hok; [done|]. cbn [fuzz_kiss_loop].
  destruct (fuzz_feed_ok b d Hok) as [-> Hok']. destruct (kiss_feed b d) as [d' r] eqn:Hf. cbn [fst] in Hok'.
  apply runs_bind. simpl. destruct r; [|by apply IH]. destruct (kiss_ready_bounds b d d' Hok Hf) as [_ Hr].
  rewrite kiss_recode_holds by done. by apply IH.
Qed.

(** ** Locator messages and telemetry *)

Lemma fuzz_loc_holds data : wf_bytes data → fuzz_loc data = Got ().
Proof.
  intros Hw. apply runs_got. unfold fuzz_loc. destruct (Z.ltb_spec 2048 (zlen data)); [done|].
  apply runs_bind. eapply runs_call; [apply loc_parse_spec; [done|lia]|done|].
  intros m _ [Hm Hd]. pose proof (zlen_loc_encode m Hm) as Hz. rewrite Hd in Hz.
  assert (loc_len m <= 512) as Hfit.
  { destruct Hm as [_ [[_ Hi] _]]. unfold loc_len, LOC_ID_MAX in *. repeat case_match; lia. }
  apply runs_bind, (runs_built _ _ (loc_encode m)).
  { rewrite loc_build_encode by done. by destruct (Z.ltb_spec 512 (loc_len m)); [lia|]. }
  { by rewrite zlen_loc_encode. }
  apply runs_bind, (runs_call_ok _ m); [by apply loc_parse_encode|].
  apply runs_must; [|done]. by rewrite Z.eqb_refl, bool_decide_eq_true_2.
Qed.

Lemma reply_fits m : tmsg_ok m →
  ∃ buf, telem_build_reply (tm_mv m) (tm_pct_plus1 m) (tm_uptime_min m) (tm_power_dbm m) (tm_sf m)
    (tm_flags m) (Some (tm_fw m ++ [0])) (Some (tm_name m ++ [0])) (tm_nbrs m) 1024 = Some buf ∧ zlen buf <= 1024.
Proof.
  intros Hm. destruct (tmo_strs _ Hm) as [Hf Hn]. destruct (tmo_nbrs _ Hm) as [Hnb Hnl].
  assert (∀ s, wf_bytes s → ∀ b, Some (s ++ [0]) = Some b → wf_bytes b) as Hs.
  { intros s Hs b [= <-]. apply Forall_app. split; [done|]. each. zlia. }
  destruct (telem_build_reply_eq (tm_mv m) (tm_pct_plus1 m) (tm_uptime_min m) (tm_power_dbm m) (tm_sf m)
    (tm_flags m) _ _ _ 1024 (Hs _ Hf) (Hs _ Hn) Hnb) as [Hz ->].
  destruct (c_str_max_len TELEM_FW_MAX _ ltac:(done) (Hs _ Hf)) as [_ Hfl].
  destruct (c_str_max_len TELEM_NAME_MAX _ ltac:(done) (Hs _ Hn)) as [_ Hnl'].
  rewrite Hz. case_match; bools; [|eexists; split; [done|lia]].
  unfold TELEM_FW_MAX, TELEM_NAME_MAX, TELEM_NBR_MAX in *.
  unfold zlen in *. rewrite length_take in *. lia.
Qed.

(** A message rebuilt from what was parsed. *)
Lemma telem_rebuilt m buf : tmsg_ok m →
  (tm_kind m = TELEM_BATT ∧ telem_build_batt (tm_mv m) (tm_pct_plus1 m) 1024 = Some buf ∨
   tm_kind m = TELEM_QUERY ∧ telem_build_query (tm_target m) 1024 = Some buf ∨
   tm_kind m = TELEM_REPLY ∧ telem_build_reply (tm_mv m) (tm_pct_plus1 m) (tm_uptime_min m) (tm_power_dbm m) (tm_sf m)
     (tm_flags m) (Some (tm_fw m ++ [0])) (Some (tm_name m ++ [0])) (tm_nbrs m) 1024 = Some buf) →
  ∃ m2, telem_parse buf = Ok m2 ∧ tm_kind m2 = tm_kind m ∧ zlen (tm_nbrs m2) = zlen (tm_nbrs m).
Proof.
  intros Hm Hk. destruct (tmo_strs _ Hm) as [Hf Hn]. destruct (tmo_nbrs _ Hm) as [Hnb Hnl].
  destruct (tmo_target _ Hm) as [Ht Ht0].
  assert (∀ s, wf_bytes s → ∀ b, Some (s ++ [0]) = Some b → wf_bytes b) as Hs.
  { intros s Hs b [= <-]. apply Forall_app. split; [done|]. each. zlia. }
  pose proof (λ target, telem_roundtrip (tm_mv m) (tm_pct_plus1 m) (tm_uptime_min m) (tm_power_dbm m) (tm_sf m)
    (tm_flags m) 1024 _ _ (tm_nbrs m) target (tmo_mv _ Hm) (tmo_pct _ Hm) (tmo_uptime _ Hm) (tmo_power _ Hm)
    (Hs _ Hf) (Hs _ Hn) Hnb) as Hrt.
  assert (wf_nid (nid_from_u32 1) ∧ nid_from_u32 1 ≠ nid_zero) as [Hw1 Hne1] by (split; [apply wf_nid_u32|done]).
  pose proof (tmo_none _ Hm) as Hno. destruct Hk as [(Hk & Hb)|[(Hk & Hb)|(Hk & Hb)]]; rewrite Hk in *.
  - destruct (Hrt _ Hw1 Hne1) as (H1 & _ & _). eexists. split; [by apply H1|]. by rewrite Hno.
  - destruct (Hrt _ Ht (Ht0 eq_refl)) as (_ & H1 & _). eexists. split; [by apply H1|]. by rewrite Hno.
  - destruct (Hrt _ Hw1 Hne1) as (_ & _ & H1). destruct (H1 _ Hb) as [_ Hp]. eexists. split; [exact Hp|]. split; [done|].
    simpl. rewrite take_ge; [done|]. unfold zlen, TELEM_NBR_MAX in *. lia.
Qed.

Lemma fuzz_telemetry_holds data : wf_bytes data → fuzz_telemetry data = Got ().
Proof.
  intros Hw. apply runs_got. unfold fuzz_telemetry. destruct (Z.ltb_spec 2048 (zlen data)); [done|].
  apply runs_bind. eapply runs_call; [by apply telem_parse_good|done|].
  intros m _ Hm.
  set (build := if tm_kind m =? TELEM_BATT then _ else _).
  assert (∃ buf, build 1024 = Some buf ∧ zlen buf <= 1024 ∧
    ∃ m2, telem_parse buf = Ok m2 ∧ tm_kind m2 = tm_kind m ∧ zlen (tm_nbrs m2) = zlen (tm_nbrs m))
    as (buf & Hb & Hcap & m2 & Hp & Hk & Hz).
  { subst build. destruct (tmo_kind _ Hm) as [Hk|[Hk|Hk]]; rewrite Hk; simpl.
    - pose proof (telem_rebuilt m _ Hm (or_introl (conj Hk eq_refl))) as Hr. rewrite Hk in Hr.
      eexists. split; [reflexivity|]. by split.
    - destruct (tmo_target _ Hm) as [Hw' Ht]. destruct (telem_build_query (tm_target m) 1024) as [buf|] eqn:Hb;
        unfold telem_build_query, is_zero in Hb; rewrite (proj2 (nid_eqb_neq _ _) (Ht Hk)) in Hb; [|done].
      exists buf. split; [done|]. split; [injection Hb as <-; rewrite zlen_cons, zlen_nid_write by done; lia|].
      rewrite <- Hk. apply telem_rebuilt; [done|]. right; left. split; [done|].
      unfold telem_build_query, is_zero. by rewrite (proj2 (nid_eqb_neq _ _) (Ht Hk)).
    - destruct (reply_fits m Hm) as (buf & Hb & Hl). exists buf. split; [done|]. split; [done|].
      rewrite <- Hk. apply telem_rebuilt; [done|]. by do 2 right. }
  apply runs_bind, (runs_built _ _ buf); [done|done|]. apply runs_bind, (runs_call_ok _ m2); [done|].
  apply runs_must; [|done]. by rewrite Hk, Hz, !Z.eqb_refl.
Qed.

(** ** Reassembly *)

(** The accessors stay in range even after [reset], which leaves them. *)
Record sar_sane (s : SarReassembler) : Prop := {
  sn_ok : sar_ok s;
  sn_len : 0 <= sr_total_len s <= SAR_MAX_FILE;
  sn_count : 0 <= sr_frag_count s;
  sn_got : sr_got_count s <= SAR_MAX_FRAGS }.

Lemma sar_init_sane : sar_sane SarReassembler_init.
Proof. split; [apply sar_init_ok|done|done|done]. Qed.

Lemma sar_reset_sane s : sar_sane s → sar_sane (sar_reset s).
Proof. intros [H1 H2 H3 H4]. split; [by apply sar_reset_ok|done|done|done]. Qed.

Lemma sar_active_sane s : sar_ok s → sr_active s = true → sar_sane s.
Proof.
  intros Hs Ha. destruct (so_count _ Hs Ha) as (E1 & E2 & E3 & _).
  destruct (frag_count_small _ E2) as [_ Hb]. split; [done|done|lia|].
  pose proof (count_if_bounds id (sr_got s)) as Hc. unfold zlen in Hc. rewrite (so_got_len _ Hs) in Hc.
  change SAR_MAX_FRAGS with 53. lia.
Qed.

Lemma sar_accept_active f s : sr_active (sar_accept f s).1 = true.
Proof.
  unfold sar_accept, sar_store. destruct (sr_active s) eqn:Ha; simpl; repeat case_match; simpl; done.
Qed.

Lemma sar_add_runs payload s : sar_ok s → wf_bytes payload → zlen payload < 65536 →
  ∃ s' b, sar_add payload s = Ok (s', b) ∧ sar_ok s' ∧ (sr_active s' = true ∨ s' = s).
Proof.
  intros Hs Hp Hl. destruct (sar_add_robust s payload Hs Hp Hl) as (s' & b & Ha & Hok & _).
  exists s', b. split; [done|]. split; [done|]. pose proof (sar_parse_safe payload Hp Hl) as Hsafe.
  destruct (sar_parse payload) as [f| |] eqn:Hpf; [|right; unfold sar_add in Ha; rewrite Hpf in Ha; by injection Ha|done].
  destruct Hsafe as [Hf _]. rewrite (sar_add_parsed _ _ _ Hpf Hf) in Ha. injection Ha as Ha.
  left. pose proof (sar_accept_active f s) as Hact. by rewrite Ha in Hact.
Qed.

Lemma sar_parse_done_safe payload : wf_bytes payload → sar_parse_done payload ≠ Oob.
Proof.
  intros Hw. apply (safe_not_oob _ (λ _, True)). unfold sar_parse_done, sar_is_done, SAR_DONE_BYTES.
  destruct (Z.leb_spec 6 (zlen payload)); simpl; [|done]. case_match; [done|]. by apply safe_rd_u16; [|lia|lia|].
Qed.

Lemma sar_parse_nack_no_fault payload cap : wf_bytes payload → 0 <= cap → sar_parse_nack payload cap ≠ Oob.
Proof. intros Hw Hc. by eapply safe_not_oob, sar_parse_nack_good. Qed.

Lemma sar_missing_len s cap : 0 <= sr_frag_count s → zlen (sar_missing cap s) <= sr_frag_count s.
Proof.
  intros Hc. unfold sar_missing. destruct (negb _); [by rewrite zlen_nil|].
  unfold zlen. rewrite length_take.
  pose proof (length_filter (λ i, sr_got s !! Z.to_nat i = Some false) (seqZ 0 (sr_frag_count s))) as Hf.
  rewrite length_seqZ in Hf. lia.
Qed.

Lemma fuzz_sar_op_holds op payload r : sar_sane r → wf_bytes payload → zlen payload < 65536 →
  runs (fuzz_sar_op op payload r) sar_sane.
Proof.
  intros Hr Hw Hl. unfold fuzz_sar_op. destruct (op mod 8 =? 4); [|destruct (op mod 8 =? 5); [|destruct (op mod 8 =? 6);
    [|destruct (op mod 8 =? 7)]]].
  - apply runs_bind. eapply runs_call; [by apply sar_parse_nack_good|done|].
    intros [x miss] _ (_ & Hm & _). apply runs_bind, runs_must; [|done]. apply negb_true_iff, Z.ltb_ge. done.
  - apply runs_ignore; [by apply sar_parse_done_safe|done].
  - pose proof (sar_missing_len r SAR_MAX_FRAGS (sn_count _ Hr)) as Hm. destruct Hr as [Hok Hlen Hcnt Hgot].
    apply runs_bind, (runs_mono _ (λ _, True)).
    { destruct (sr_active r) eqn:Ha; [|done]. destruct (so_count _ Hok Ha) as (-> & E2 & _).
      destruct (frag_count_small _ E2) as [_ Hb]. apply runs_cells; [change SAR_MAX_FRAGS with 53; lia|done]. }
    intros _ _. apply runs_bind, (runs_fetch _ (sar_missing SAR_MAX_FRAGS r)).
    { apply into_ok. unfold sar_missing. destruct (negb _); [done|]. unfold zlen. rewrite length_take.
      change SAR_MAX_FRAGS with 53. lia. }
    apply runs_bind, runs_must; [by apply negb_true_iff, Z.ltb_ge|].
    apply runs_bind, runs_must.
    { destruct (sar_complete r) eqn:Hc; [|done]. by destruct (sar_complete_full r Hok Hc) as [_ ->]. }
    apply runs_bind. apply (runs_mono _ (λ _, True)).
    { destruct (sar_complete r); [|done]. unfold rdn, zlen. rewrite (so_buf_len _ Hok).
      destruct (Z.leb_spec 0 (sr_total_len r)); [|lia].
      by destruct (Z.leb_spec (0 + sr_total_len r) (Z.of_nat (Z.to_nat SAR_MAX_FILE))); [|unfold SAR_MAX_FILE in *; lia]. }
    intros _ _. apply runs_bind, runs_must; [by apply negb_true_iff, Z.ltb_ge|].
    apply runs_bind, runs_must; [apply negb_true_iff, Z.ltb_ge; lia|]. done.
  - by apply sar_reset_sane.
  - destruct (sar_add_runs payload r (sn_ok _ Hr) Hw Hl) as (s' & b & -> & Hok & [Ha| ->]); [|done].
    by apply sar_active_sane.
Qed.

Lemma fuzz_sar_loop_holds fuel data r : (length data <= fuel)%nat → zlen data < 65536 → wf_bytes data → sar_sane r →
  fuzz_sar_loop fuel data r = Got ().
Proof.
  revert data r. induction fuel as [|fuel IH]; intros data r Hf Hl Hw Hr.
  { by destruct data; simpl in Hf; [|lia]. }
  destruct data as [|op [|n data]]; try done. cbn [fuzz_sar_loop]. simpl in Hf.
  inversion_clear Hw as [|? ? _ Hw']. inversion_clear Hw' as [|? ? _ Hd]. rewrite !zlen_cons in Hl.
  apply runs_got, runs_bind. eapply runs_mono.
  - apply fuzz_sar_op_holds; [done|by apply Forall_take|]. unfold zlen in *. rewrite length_take. lia.
  - intros r' Hr'. rewrite IH; [done|rewrite length_drop; lia| |by apply Forall_drop|done].
    unfold zlen in *. rewrite length_drop. lia.
Qed.

Lemma fuzz_sar_holds data : wf_bytes data → fuzz_sar data = Got ().
Proof.
  intros Hw. unfold fuzz_sar. destruct (Z.ltb_spec 8192 (zlen data)); [done|].
  apply fuzz_sar_loop_holds; [done|lia|done|apply sar_init_sane].
Qed.

(** ** Whole frames *)

Lemma net_read_ok b i : wf_bytes b → 0 <= i → i + 37 <= zlen b → ∃ n, net_read b i = Ok n.
Proof.
  intros Hw Hi Hl. destruct (safe_total (net_read b i) (λ _, True)) as (n & -> & _); [by apply safe_net_read| |by eexists].
  unfold net_read, nid_read. repeat (apply bind_ne_rej; [eauto with no_rej|intros ?]); try done.
  all: by apply bind_ne_rej; [eauto with no_rej|].
Qed.

Lemma ctrl_is_ack_ok msg : wf_bytes msg → ∃ b, ctrl_is_ack msg = Ok b.
Proof.
  intros Hw. destruct (safe_total (ctrl_is_ack msg) (λ _, True)) as (b & -> & _); [| |by eexists].
  - unfold ctrl_is_ack, CTRL_ACK_BYTES. destruct (Z.ltb_spec (zlen msg) 24); [done|].
    repeat (safe_step; try case_match; bools; try lia; try done).
  - unfold ctrl_is_ack. case_match; [done|]. apply bind_ne_rej; [eauto with no_rej|]. intros v. case_match; [done|].
    by apply bind_ne_rej; [eauto with no_rej|].
Qed.

Section frames_hold.
Context `{Crypto}.

Lemma fuzz_frame_holds data r : wf_bytes data → sar_ok r → runs (fuzz_frame data r) sar_ok.
Proof.
  intros Hw Hr. unfold fuzz_frame. unfold HEADER_BYTES.
  destruct (Z.ltb_spec (zlen data) 41); [done|]. destruct (Z.ltb_spec 4096 (zlen data)); [done|]. cbn [orb].
  destruct (net_read_ok data 4) as [net Hnet]; [done|lia|lia|].
  apply runs_bind, (runs_fetch _ net); [done|]. case_match; [done|].
  assert (∀ k : Z, 0 <= k → wf_bytes (drop (Z.to_nat k) data) ∧ zlen (drop (Z.to_nat k) data) < 65536) as Hdrop.
  { intros k Hk. split; [by apply Forall_drop|]. unfold zlen in *. rewrite length_drop. lia. }
  destruct (Hdrop 41) as [Hpw Hpl]; [lia|]. set (pay := drop (Z.to_nat 41) data) in *.
  destruct (_ =? PKT_BEACON).
  { destruct (Hdrop (41 + 4)) as [Hgw Hgl]; [lia|]. set (region := drop (Z.to_nat (41 + 4)) data) in *.
    apply runs_bind. apply (runs_mono _ (λ ann, ∀ a, ann = Some a → 45 < zlen data ∧ announce_good region a)).
    { destruct (Z.ltb_spec (41 + 4) (zlen data)); [|done]. eapply runs_call; [by apply announce_deserialize_good|done|].
      intros a _ Ha a' [= <-]. split; [lia|done]. }
    intros [a|] Ha; [|done]. destruct (Ha a eq_refl) as [Hlong Ha']. clear Ha. pose proof (ag_body _ _ Ha') as Hb.
    assert (zlen region = zlen data - 45) as Hrl by (unfold region, zlen in *; rewrite length_drop; lia).
    destruct (Z.leb_spec (u16 (announce_body_len a + ANNOUNCE_SIG_TAIL)) (u16 (zlen data - (41 + 4)))) as [Hle|]; [|done].
    unfold ANNOUNCE_SIG_TAIL in Hle. rewrite !u16_small in Hle by (unfold is_u16; lia).
    apply runs_ignore; [|done]. apply (safe_not_oob _ (λ _, True)), announce_verify_safe; [unfold wf_bytes in *; by apply Forall_drop|].
    unfold zlen in *. rewrite length_drop. lia. }
  destruct (_ =? PKT_CONTROL).
  { destruct (ctrl_is_ack_ok pay Hpw) as [b Hb]. apply runs_bind, (runs_fetch _ b); [done|]. destruct b.
    - apply runs_ignore; [|done]. by eapply safe_not_oob, ctrl_parse_ack_good.
    - apply runs_ignore; [|done]. by apply ctrl_verify_no_fault. }
  destruct (_ =? PKT_TELEM); [apply runs_ignore; [by eapply safe_not_oob, telem_parse_good|done]|].
  destruct (_ =? PKT_LOC); [apply runs_ignore; [by eapply safe_not_oob, loc_parse_spec|done]|].
  destruct (_ =? PKT_DATA); [|done]. destruct (sar_is_fragment pay).
  { destruct (sar_add_runs pay (sar_reset r) (sar_reset_ok r Hr) Hpw Hpl) as (s' & b & -> & Hok & _). done. }
  destruct (sar_is_nack pay); [apply runs_ignore; [by apply sar_parse_nack_no_fault|done]|].
  destruct (sar_is_done pay); [apply runs_ignore; [by apply sar_parse_done_safe|done]|done].
Qed.

Lemma fuzz_frames_hold inputs r : Forall wf_bytes inputs → sar_ok r → runs (fuzz_frames inputs r) sar_ok.
Proof.
  intros Hw. revert r. induction Hw as [|data inputs Hd _ IH]; intros r Hr; [done|]. cbn [fuzz_frames].
  apply runs_bind. eapply runs_mono; [by apply fuzz_frame_holds|]. intros r' Hr'. by apply IH.
Qed.

(** C18: no input breaks a fuzz target. Whatever byte strings the fuzzer tries,
    none of the eight targets traps, reads or writes outside a buffer, or loops:
    every announce, locator message, telemetry message and control ACK that
    parses is rebuilt into a message that parses again as the same one, every
    KISS frame that is decoded encodes and decodes back to itself, the link
    retry engine never issues sequence number 0 nor overfills its slots under
    any schedule, and the reassembler's counters stay in range, with nothing
    missing once it is complete, under any sequence of operations. The frame
    target keeps its reassembler from one input to the next. *)
Theorem fuzz_targets_hold (inputs : list bytes) (Hw : Forall wf_bytes inputs) :
  Forall (λ data,
    fuzz_announce data = Got () ∧ fuzz_arq data = Got () ∧ fuzz_control data = Got () ∧
    fuzz_kiss data = Got () ∧ fuzz_loc data = Got () ∧ fuzz_sar data = Got () ∧
    fuzz_telemetry data = Got ()) inputs ∧
  ∃ r, fuzz_frames inputs SarReassembler_init = Got r.
Proof.
  split.
  - eapply Forall_impl; [exact Hw|]. intros data Hd.
    split; [by apply fuzz_announce_holds|]. split; [by apply fuzz_arq_holds|]. split; [by apply fuzz_control_holds|].
    split; [apply fuzz_kiss_holds|]. split; [by apply fuzz_loc_holds|]. split; [by apply fuzz_sar_holds|].
    by apply fuzz_telemetry_holds.
  - pose proof (fuzz_frames_hold inputs SarReassembler_init Hw sar_init_ok) as Hf.
    destruct (fuzz_frames inputs SarReassembler_init) as [r| | |]; [by exists r|done|done|done].
Qed.
End frames_hold.

(** A battery report, a KISS frame with both escapes, an ARQ schedule and a SAR
    reset-and-query. *)
Definition fuzz_inputs_ex : list bytes :=
  [[1; 16; 14; 88]; [192; 0; 219; 220; 219; 221; 7; 192]; [0; 5; 32; 3; 0; 0; 2; 232; 3; 1; 5; 0]; [7; 0; 6; 0]].

Example fuzz_targets_hold_witness :
  Forall wf_bytes fuzz_inputs_ex ∧
  telem_parse [1; 16; 14; 88] = Ok (mkTMsg TELEM_BATT 3600 88 nid_zero 0 0 0 0 [] [] []) ∧
  (kiss_feed_all [192; 0; 219; 220; 219; 221; 7; 192] KissDecoder_init).2 = [[0; 192; 219; 7]] ∧
  ∃ r, @fuzz_frames toy_crypto fuzz_inputs_ex SarReassembler_init = Got r.
Proof.
  assert (Forall wf_bytes fuzz_inputs_ex) as Hw by (each; zlia).
  split; [done|]. split; [reflexivity|]. split; [reflexivity|].
  apply (@fuzz_targets_hold toy_crypto fuzz_inputs_ex Hw).
Defined.
