(* ===== verification/Seeds.v ===== *)
(** fuzz/gen_seeds.cpp: the corpus every fuzz target starts from, built with the
    library's own builders, and the proof that each seed is the valid message it
    is meant to be.

    [sk] is the secret key of the generator's fixed seed; nothing below depends
    on which one it is. *)
From S2P Require Import Prelude Reader Float32 MeshTypes Router Crypto AnnounceCodec Packet Kiss Sar NodeTable Telemetry Control LocatorDir Fuzz.

Definition sample_announce : Announce :=
  mkAnnounce (nid_from_u32 286331153)
    [mkReport (nid_from_u32 2863311530) (f32_lit 80 100) 3; mkReport (nid_from_u32 3149642683) (f32_lit 20 100) 7]
    [mkAdv (nid_from_u32 2863311530) (nid_from_u32 2863311530) (f32_lit 15 10) 1;
     mkAdv (nid_from_u32 3435973836) (nid_from_u32 3149642683) (f32_lit 325 100) 2]
    (Z.lor CAP_SELECTIVE_ACK CAP_SESSION_ADDR) true.
Definition seed_target : NodeId := nid_from_u32 572662306.
Definition seed_victim : NodeId := nid_from_u32 858993459.

(** *** Seeds without a signature *)

Definition seed_announce_body : bytes := announce_serialize sample_announce 1024.
Definition seed_batt : option bytes := telem_build_batt 3712 88 1024.
Definition seed_query : option bytes := telem_build_query seed_target 1024.
Definition seed_nbrs : list TelemNbr :=
  [mkTNbr (nid_from_u32 2863311530) 90 85 7 (-88); mkTNbr (nid_from_u32 3149642683) 40 55 (-3) (-110)].
(** "0.15.0", "bench-node" *)
Definition seed_fw : bytes := [48; 46; 49; 53; 46; 48; 0].
Definition seed_name : bytes := [98; 101; 110; 99; 104; 45; 110; 111; 100; 101; 0].
Definition seed_reply : option bytes :=
  telem_build_reply 3650 76 1234 14 11 TELEM_FLAG_MOBILE (Some seed_fw) (Some seed_name) seed_nbrs 1024.
Definition seed_rid : bytes := [222; 173; 190; 239; 1; 2; 3; 4; 5; 6].
Definition seed_loc_register : option bytes := loc_build_register 258 7 600 seed_rid 1024.
Definition seed_loc_query : option bytes := loc_build_query 4660 seed_rid 1024.
Definition seed_loc_reply : option bytes := loc_build_reply 4660 258 7 600 seed_target seed_rid 1024.
Definition seed_ack : option bytes := ctrl_build_ack CTRL_POWER seed_target 14 1 7 480.
Definition seed_kiss_payload : bytes := [104; 105; KISS_FEND; KISS_FESC; 0; 127].
Definition seed_kiss : option bytes := kiss_encode KISS_CMD_DATA seed_kiss_payload 1024.

(** The SAR seed as operations of [fuzz_sar]: op, length, payload. *)
Definition seed_blob : bytes := (λ i, u8 (i * 3)) <$> seqZ 0 200.
Definition seed_frag (idx : Z) : bytes :=
  default [] (sar_build_fragment seed_blob 257 (sar_crc32 seed_blob) idx (SAR_HDR_BYTES + SAR_CHUNK)).
Definition seed_nack : bytes := default [] (sar_build_nack 257 [1; 3] 64).
Definition seed_done : bytes := default [] (sar_build_done 257 64).
Definition sar_op_bytes (op : Z) (payload : bytes) : bytes := op :: u8 (zlen payload) :: payload.
Definition seed_sar : bytes :=
  flat_map (λ idx, sar_op_bytes 0 (seed_frag idx)) (seqZ 0 (sar_frag_count (zlen seed_blob))) ++
  sar_op_bytes 6 [] ++ sar_op_bytes 4 seed_nack ++ sar_op_bytes 5 seed_done.

Definition seed_arq : bytes := [0; 5; 32;  3; 0; 0;  2; 232; 3;  1; 5; 0;  0; 9; 200;  2; 255; 255].

(** *** Seeds with a signature *)

Section seeds.
Context `{Crypto}.
Variable (sk : bytes).
Let pk : bytes := ed25519_public sk.

Definition seed_announce_signed : bytes :=
  seed_announce_body ++ default [] (announce_sign seed_announce_body pk sk).
(** The key, then the message. *)
Definition seed_power : bytes := pk ++ default [] (ctrl_build CTRL_POWER seed_target 14 7 sk 480).
Definition seed_block : bytes := pk ++ default [] (ctrl_build_block CTRL_BLOCK seed_target seed_victim 30 8 sk 480).
Definition seed_cfg : bytes := [64; 66; 15; 53; 144; 208; 3; 0; 11; 5; 18; 8; 0].
Definition seed_retune : bytes := pk ++ default [] (ctrl_build_retune seed_target seed_cfg 9 sk 480).
Definition seed_ctrl_ack : bytes := pk ++ default [] seed_ack.

(** *** Whole frames *)

Definition seed_net (t : Z) : NetHeader :=
  mkNet (net_ver_type t) 0 DEFAULT_TTL NODE_ID_BROADCAST (nid_from_pubkey pk) 257.
Definition seed_frame (t : Z) (pay : bytes) : bytes :=
  link_bytes (mkLink LINK_ADDR_NONE LINK_ADDR_BROADCAST 1 0) ++ net_bytes (seed_net t) ++ pay.
Definition seed_beacon : bytes := seed_frame PKT_BEACON (beacon_bytes (mkBeacon 0 89 4242) ++ seed_announce_signed).
Definition seed_frame_control : bytes :=
  seed_frame PKT_CONTROL (default [] (ctrl_build CTRL_POWER (nid_from_pubkey pk) 14 7 sk 256)).
Definition seed_frame_telem : bytes := seed_frame PKT_TELEM (default [] (telem_build_batt 3712 88 256)).
Definition seed_frame_loc : bytes := seed_frame PKT_LOC (default [] (loc_build_query 4660 seed_rid 256)).
Definition seed_frag_5a : bytes :=
  let blob := replicate 64 90 in default [] (sar_build_fragment blob 257 (sar_crc32 blob) 0 256).
Definition seed_frame_data : bytes := seed_frame PKT_DATA seed_frag_5a.
End seeds.

(** ** Every seed is valid *)

Lemma seed_announce_valid : ∃ a, announce_deserialize seed_announce_body = Ok a ∧
  rep_id <$> an_reports a = rep_id <$> an_reports sample_announce ∧
  adv_dst <$> an_routes a = adv_dst <$> an_routes sample_announce ∧ an_caps a = an_caps sample_announce.
Proof. eexists. split; [vm_compute; reflexivity|]. by vm_compute. Qed.

(** Telemetry and locator seeds, the ACK, the KISS frame. *)
Lemma seed_messages_valid :
  (∃ b, seed_batt = Some b ∧ ∃ m, telem_parse b = Ok m ∧ (tm_kind m, tm_mv m, tm_pct_plus1 m) = (TELEM_BATT, 3712, 88)) ∧
  (∃ b, seed_query = Some b ∧ ∃ m, telem_parse b = Ok m ∧ tm_target m = seed_target) ∧
  (∃ b, seed_reply = Some b ∧ ∃ m, telem_parse b = Ok m ∧ tm_nbrs m = seed_nbrs ∧
     tm_fw m ++ [0] = seed_fw ∧ tm_name m ++ [0] = seed_name) ∧
  (∃ b, seed_loc_register = Some b ∧ loc_parse b = Ok (mkLoc LOC_REGISTER 0 258 7 600 nid_zero seed_rid)) ∧
  (∃ b, seed_loc_query = Some b ∧ loc_parse b = Ok (mkLoc LOC_QUERY 4660 0 0 0 nid_zero seed_rid)) ∧
  (∃ b, seed_loc_reply = Some b ∧ loc_parse b = Ok (mkLoc LOC_REPLY 4660 258 7 600 seed_target seed_rid)) ∧
  (∃ b, seed_ack = Some b ∧ ctrl_parse_ack b = Ok (mkAck CTRL_POWER seed_target 14 1 7)) ∧
  (∃ b, seed_kiss = Some b ∧ ∃ d, feed_got b KissDecoder_init false = Got (d, true) ∧
     kiss_frame d = KISS_CMD_DATA :: seed_kiss_payload).
Proof. repeat split; eexists; (split; [vm_compute; reflexivity|]); vm_compute; eauto. Qed.

(** The SAR seed runs as two fragments that complete the 200-byte transfer, a
    query of the finished reassembler, a NACK and a DONE. *)
Lemma seed_sar_valid :
  seed_sar = flat_map (λ '(op, p), sar_op_bytes op p)
    [(0, seed_frag 0); (0, seed_frag 1); (6, []); (4, seed_nack); (5, seed_done)] ∧
  zlen (seed_frag 0) < 256 ∧ zlen (seed_frag 1) < 256 ∧
  (∃ r, (fuzz_sar_op 0 (seed_frag 0) SarReassembler_init ≫= fuzz_sar_op 0 (seed_frag 1)) = Got r ∧
     sar_verify r = true ∧ sar_data r = seed_blob) ∧
  sar_parse_nack seed_nack 64 = Ok (257, [1; 3]) ∧ sar_parse_done seed_done = Ok 257.
Proof.
  split; [by vm_compute|]. do 2 (split; [by vm_compute|]). split; [|by split; vm_compute].
  eexists. split; [vm_compute; reflexivity|]. by split; vm_compute.
Qed.

Section signed_seeds.
Context `{CryptoLaws}.
Variable (sk : bytes).
Let pk : bytes := ed25519_public sk.

Lemma seed_key (l : bytes) : take 32 (pk ++ l) = pk ∧ drop 32 (pk ++ l) = l.
Proof.
  pose proof (public_len sk) as Hl. assert (length pk = 32%nat) as Hn by (unfold zlen in Hl; fold pk in Hl; lia).
  by rewrite take_app_length', drop_app_length'.
Qed.

(** The commands: accepted by a node whose controller has the generator's key. *)
Definition seed_accepted (seed : bytes) (m : CtrlMsg) : Prop :=
  ctrl_verify (drop 32 seed) (take 32 seed) 0 CtrlMsg_default = Ok (CTRL_OK, Some m).

Lemma seed_commands_valid :
  seed_accepted (seed_power sk) (mkCtrl CTRL_POWER seed_target 14 nid_zero 7 (replicate 13 0)) ∧
  seed_accepted (seed_block sk) (mkCtrl CTRL_BLOCK seed_target 30 seed_victim 8 (replicate 13 0)) ∧
  seed_accepted (seed_retune sk) (mkCtrl CTRL_RETUNE seed_target 0 nid_zero 9 seed_cfg).
Proof.
  assert (∀ m l, l = ctrl_seal sk (ctrl_unsigned m) → ctrl_wf m → 0 < ct_counter m →
    seed_accepted (pk ++ l) (ctrl_filled m CtrlMsg_default)) as Hacc.
  { intros m l -> Hm Hc. unfold seed_accepted. destruct (seed_key (ctrl_seal sk (ctrl_unsigned m))) as [-> ->].
    unfold pk. rewrite ctrl_seal_verify by done. by rewrite (proj2 (Z.leb_gt _ _)). }
  assert (∀ cmd arg aux ctr cfg, known_cmd cmd = true → is_i8 arg → wf_nid aux → is_u32 ctr → zlen cfg = CTRL_RETUNE_CFG →
    ctrl_wf (mkCtrl cmd seed_target arg aux ctr cfg)) as Hwf.
  { intros. split; try done. apply wf_nid_u32. }
  split; [|split].
  - apply (Hacc (mkCtrl CTRL_POWER seed_target 14 nid_zero 7 (replicate 13 0))); [done| |done].
    apply Hwf; [done|zlia|apply wf_nid_zero|zlia|done].
  - apply (Hacc (mkCtrl CTRL_BLOCK seed_target 30 seed_victim 8 (replicate 13 0))); [done| |done].
    apply Hwf; [done|zlia|apply wf_nid_u32|zlia|done].
  - apply (Hacc (mkCtrl CTRL_RETUNE seed_target 0 nid_zero 9 seed_cfg)); [done| |done].
    apply Hwf; [done|zlia|apply wf_nid_zero|zlia|done].
Qed.

Lemma seed_announce_tail : ∃ tail, announce_sign seed_announce_body pk sk = Some tail ∧
  zlen tail = ANNOUNCE_SIG_TAIL ∧ announce_verify seed_announce_body tail = Ok pk.
Proof.
  apply (announce_verify_ok seed_announce_body (replicate 32 0) (replicate 64 0) sk); [done|done|]. by vm_compute.
Qed.

(** A frame seed: the header [on_rx] accepts, and the payload behind it. *)
Lemma seed_frame_valid t pay : 0 <= t < 16 →
  net_read (seed_frame sk t pay) 4 = Ok (seed_net sk t) ∧
  net_ver_of (nh_ver_type (seed_net sk t)) = PROTO_VERSION ∧ net_type_of (nh_ver_type (seed_net sk t)) = t ∧
  drop (Z.to_nat HEADER_BYTES) (seed_frame sk t pay) = pay.
Proof.
  intros Ht. destruct (net_ver_type_parts t Ht) as [H1 H2].
  assert (wf_net (seed_net sk t)) as Hw.
  { split; [apply u8_range|]. split; [simpl; zlia|]. split; [unfold seed_net, DEFAULT_TTL; simpl; zlia|].
    split; [split; [done|by apply Forall_replicate]|]. split; [|unfold seed_net; simpl; zlia].
    split; [by apply blake2b_len|apply blake2b_wf]. }
  pose proof (zlen_net_bytes (seed_net sk t)) as Hn. pose proof (zlen_link_bytes (mkLink LINK_ADDR_NONE LINK_ADDR_BROADCAST 1 0)) as Hl.
  destruct Hw as (? & ? & ? & Hd & Hs & ?). specialize (Hn Hd Hs).
  split; [|split; [done|split; [done|]]].
  - eapply at_net_read; [done|]. eapply (at_move _ 0); [apply at_start|done].
  - unfold seed_frame. rewrite app_assoc. apply drop_app_length'. rewrite length_app. unfold zlen, HEADER_BYTES in *. lia.
Qed.

(** What the other frames carry: the beacon's charge and uptime with the signed
    announce behind them, a battery report, a locator query, a fragment that
    is its whole transfer. *)
Lemma seed_frame_payloads :
  drop (Z.to_nat HEADER_BYTES) (seed_beacon sk) = beacon_bytes (mkBeacon 0 89 4242) ++ seed_announce_signed sk ∧
  drop (Z.to_nat HEADER_BYTES) (seed_frame_telem sk) = default [] seed_batt ∧
  drop (Z.to_nat HEADER_BYTES) (seed_frame_loc sk) = default [] seed_loc_query ∧
  drop (Z.to_nat HEADER_BYTES) (seed_frame_data sk) = seed_frag_5a.
Proof.
  split; [|split; [|split]];
    [ by destruct (seed_frame_valid PKT_BEACON (beacon_bytes (mkBeacon 0 89 4242) ++ seed_announce_signed sk)) as (_ & _ & _ & ?)
    | replace seed_batt with (telem_build_batt 3712 88 256) by (by vm_compute);
      by destruct (seed_frame_valid PKT_TELEM (default [] (telem_build_batt 3712 88 256))) as (_ & _ & _ & ?)
    | replace seed_loc_query with (loc_build_query 4660 seed_rid 256) by (by vm_compute);
      by destruct (seed_frame_valid PKT_LOC (default [] (loc_build_query 4660 seed_rid 256))) as (_ & _ & _ & ?)
    | by destruct (seed_frame_valid PKT_DATA seed_frag_5a) as (_ & _ & _ & ?) ].
Qed.

Lemma seed_data_complete : ∃ r, fuzz_sar_op 0 seed_frag_5a SarReassembler_init = Got r ∧
  sar_verify r = true ∧ sar_data r = replicate 64 90.
Proof. eexists. split; [vm_compute; reflexivity|]. by split; vm_compute. Qed.

(** (The builder refuses the zero id as a target.) *)
Lemma seed_frame_control_valid : nid_from_pubkey pk ≠ nid_zero → ∃ m, ct_cmd m = CTRL_POWER ∧ ct_target m = nid_from_pubkey pk ∧
  drop (Z.to_nat HEADER_BYTES) (seed_frame_control sk) = ctrl_seal sk (ctrl_unsigned m) ∧
  ctrl_verify (ctrl_seal sk (ctrl_unsigned m)) pk 0 CtrlMsg_default = Ok (CTRL_OK, Some m).
Proof.
  intros Hnz. assert (wf_nid (nid_from_pubkey pk)) as Hid by (split; [by apply blake2b_len|apply blake2b_wf]).
  set (m := mkCtrl CTRL_POWER (nid_from_pubkey pk) 14 nid_zero 7 (replicate 13 0)). exists m.
  split; [done|]. split; [done|]. assert (ctrl_wf m) by (split; try done; apply wf_nid_zero).
  split; [|unfold pk; by rewrite ctrl_seal_verify].
  destruct (seed_frame_valid PKT_CONTROL (default [] (ctrl_build CTRL_POWER (nid_from_pubkey pk) 14 7 sk 256))) as (_ & _ & _ & Hd);
    [done|].
  unfold seed_frame_control. fold pk. rewrite Hd. unfold ctrl_build, is_zero, nid_eqb.
  rewrite (bool_decide_false _ Hnz). simpl. f_equal. unfold ctrl_unsigned, ctrl_head. simpl. by rewrite <- app_assoc.
Qed.
End signed_seeds.
