(* ===== verification/RouterWf.v ===== *)
(** Wire well-formedness of the routing state: every id the tables and the block
    list hold is 16 bytes long, so that what [build_announce] lists can be
    serialised and every id can be printed. *)
From S2P Require Import Prelude SlotTable Float32 MeshTypes LinkMetric NeighborTable RoutingTable Router AnnounceCodec.
From Stdlib Require Import SpecFloat.

Definition nt_wf (t : NeighborTable) : Prop := Forall (λ n, wf_nid (nb_id n)) (nt_slots t).
Definition rt_wf (t : RoutingTable) : Prop :=
  Forall (λ r, wf_nid (r_dst r) ∧ wf_nid (r_next_hop r)) (rt_slots t).
Definition router_wf (r : Router) : Prop :=
  nt_wf (ro_neighbors r) ∧ rt_wf (ro_routes r) ∧ Forall wf_nid (ro_blocked r).

(** Ids in an announce, as the parser leaves them. *)
Definition announce_ids (a : Announce) : Prop :=
  Forall (λ v, wf_nid (adv_dst v) ∧ wf_nid (adv_next_hop v)) (an_routes a).

Lemma Forall_alter_id {A} (P : A → Prop) (f : A → A) i l :
  Forall P l → (∀ x, P x → P (f x)) → Forall P (alter f i l).
Proof.
  intros Hl Hf. apply Forall_lookup. intros j x Hj. rewrite Forall_lookup in Hl.
  destruct (decide (i = j)) as [->|Hne].
  - rewrite list_lookup_alter_eq in Hj. destruct (l !! j) eqn:E; [|done].
    injection Hj as <-. eauto.
  - rewrite list_lookup_alter_ne in Hj by done. eauto.
Qed.

Lemma Forall_swap_remove {A} (P : A → Prop) i (l : list A) : Forall P l → Forall P (swap_remove i l).
Proof. intros Hl. unfold swap_remove. apply Forall_take. case_match eqn:E; [|done]. apply Forall_insert; [done|]. by eapply Forall_lookup_1. Qed.

Lemma nt_update_wf f id t : nt_wf t → (∀ n, nb_id (f n) = nb_id n) → nt_wf (nt_update f id t).
Proof.
  intros Ht Hf. unfold nt_update. destruct (nt_find id t); [|done].
  apply Forall_alter_id; [exact Ht|]. intros x Hx. by rewrite Hf.
Qed.

Lemma heard_wf id q now t : nt_wf t → wf_nid id → nt_wf (heard id q now t).1.
Proof.
  intros Ht Hid. unfold heard. destruct (nt_find id t); [by apply Forall_alter_id|].
  destruct (find_index _ (nt_slots t)); [|done].
  do 2 (apply Forall_alter_id; [|done]). by apply Forall_alter_id.
Qed.

Lemma learn_reports_wf me from reports t : nt_wf t → nt_wf (learn_reports me from reports t).
Proof.
  intros Ht. induction reports as [|p reports IH]; simpl; [done|].
  destruct (nid_eqb (rep_id p) me); [|done].
  apply nt_update_wf; [|done]. by apply nt_update_wf.
Qed.

Lemma set_self_wf me now t : rt_wf t → wf_nid me → rt_wf (set_self me now t).
Proof.
  intros Ht Hme. unfold set_self, rt_alloc.
  destruct (rt_find me (rt_slots t)); [by apply Forall_alter_id|].
  destruct (find_index _ (rt_slots t)); [|done]. apply Forall_alter_id; [|done].
  apply Forall_insert; [done|]. split; [done|apply wf_nid_zero].
Qed.

Lemma offer_wf dst nh cost hops now t : rt_wf t → wf_nid dst → wf_nid nh →
  rt_wf (offer dst nh cost hops now t).1.
Proof.
  intros Ht Hd Hn. unfold offer, rt_alloc.
  repeat case_match; try done; simplify_option_eq;
    (apply Forall_alter_id; [try done|intros x [? ?]; by split]).
  apply Forall_insert; [done|]. split; [done|apply wf_nid_zero].
Qed.

Lemma rt_sweep_wf (drop : Route → bool) self t : rt_wf t →
  rt_wf (mkRT self ((λ r, if drop r then r_clear r else r) <$> rt_slots t)).
Proof. intros Ht. apply Forall_fmap. eapply Forall_impl; [exact Ht|]. intros r ?. simpl. by destruct (drop r). Qed.

Lemma on_beacon_wf from q a now r : router_wf r → wf_nid (ro_my_id r) → wf_nid from → announce_ids a →
  router_wf (on_beacon from q a now r).
Proof.
  intros (Hn & Hr & Hb) Hme Hfrom Ha. unfold on_beacon. destruct (nid_eqb _ _); [done|].
  destruct (is_blocked from r); [done|]. split; [|split; [|done]]; simpl.
  - apply learn_reports_wf, nt_update_wf; [|done]. by apply heard_wf.
  - pose proof (set_self_wf (ro_my_id r) now _ Hr Hme) as Ht. revert Ht. generalize (set_self (ro_my_id r) now (ro_routes r)).
    induction Ha as [|v l [Hd _] _ IH]; intros t Ht; simpl; [done|]. apply IH.
    unfold relax. destruct (nid_eqb _ _); [done|]. destruct (nid_eqb _ _); [done|]. by apply offer_wf.
Qed.

Lemma block_wf id r : router_wf r → wf_nid id → router_wf (block id r).1.
Proof.
  intros (Hn & Hr & Hb) Hid. unfold block. repeat case_match; try done. split; [done|]. split; [by apply rt_sweep_wf|].
  apply Forall_app. by split; [|constructor].
Qed.
Lemma unblock_wf id r : router_wf r → router_wf (unblock id r).
Proof.
  intros (Hn & Hr & Hb). unfold unblock. case_match; [|done]. split; [done|]. split; [done|].
  by apply Forall_swap_remove.
Qed.

Lemma tick_wf now nto rto r : router_wf r → router_wf (tick now nto rto r).
Proof.
  intros (Hn & Hr & Hb). unfold tick. destruct (nt_prune _ _ _ _) as [[nt removed] n] eqn:E. split; [|split; [|done]]; simpl.
  - unfold nt_prune in E. injection E as <- _ _. apply Forall_fmap. eapply Forall_impl; [exact Hn|].
    intros x ?. simpl. by destruct (nb_stale _ _ x).
  - apply rt_sweep_wf. generalize (take (Z.to_nat n) removed). intros ids.
    clear E. revert Hr. generalize (ro_routes r). induction ids as [|id ids IH]; intros t Ht; simpl; [done|].
    by apply IH, rt_sweep_wf.
Qed.

Lemma Router_new_wf me : wf_nid me → router_wf (Router_new me).
Proof.
  intros Hme. split; [|split; [|constructor]]; simpl.
  - apply Forall_replicate, wf_nid_zero.
  - apply set_self_wf; [|done]. apply Forall_replicate. split; apply wf_nid_zero.
Qed.

(** What a sound, well-formed router announces can be put on the wire. *)
Lemma build_announce_wf me r out : router_ok me r → router_wf r → announce_wf (build_announce r out).
Proof.
  intros Hok (Hn & Hr & _). assert (∀ {A} (l : list A) (n : Z), 0 <= n → zlen (take (Z.to_nat n) l) <= n) as Hlen
    by (intros; unfold zlen; rewrite length_take; lia).
  split; simpl.
  - apply Forall_take, Forall_fmap, Forall_forall. intros n [[Hu _]%andb_true_iff Hin]%list_elem_of_filter.
    unfold nt_wf in Hn. rewrite Forall_forall in Hn.
    apply list_elem_of_lookup in Hin as Hi. destruct Hi as [i Hi].
    destruct (nt_entries _ (ok_nt _ _ Hok) i n Hi Hu) as [Ha _ _]. split; simpl; [by apply Hn|zlia].
  - apply Forall_take, Forall_fmap, Forall_forall. intros x [Hu Hin]%list_elem_of_filter.
    unfold rt_wf in Hr. rewrite Forall_forall in Hr. destruct (Hr x Hin) as [Hd Hnh].
    apply list_elem_of_lookup in Hin as [i Hi].
    destruct (rt_routes _ (ok_rt _ _ Hok) i x Hi Hu) as [Hh _]. unfold MAX_HOPS in Hh.
    split; [done|]. split; [done|]. simpl. zlia.
  - apply Hlen. done.
  - apply Hlen. done.
  - unfold NODE_CAPS. zlia.
Qed.
