(* ===== verification/Learning.v ===== *)
(** What one announce teaches a router, entry by entry and route by route: the
    facts about lib/mesh/router.cpp that theorems about exchanges of beacons need. *)
From S2P Require Import Prelude SlotTable Float32 MeshTypes LinkMetric NeighborTable RoutingTable Router.

(** ** What an announce lists *)

Lemma reports_count me r : router_ok me r →
  zlen (an_reports (build_announce r Announce_default)) = nt_count (ro_neighbors r).
Proof.
  intros Hok. pose proof (ok_nt _ _ Hok) as Hnt. unfold build_announce, nt_count. simpl.
  rewrite take_ge.
  2: { rewrite length_fmap. etrans; [apply length_filter|]. by rewrite (nt_len _ Hnt). }
  unfold zlen. rewrite length_fmap.
  assert (∀ n, n ∈ nt_slots (ro_neighbors r) → nb_used n = true → flt (nb_q_rx n) f0 = false) as Hq.
  { intros n [i Hi]%list_elem_of_lookup Hu. apply in_q_not_neg. by eapply nb_ok_q_rx, (nt_entries _ Hnt). }
  revert Hq. generalize (nt_slots (ro_neighbors r)). intros l Hq. induction l as [|n l IH]; [done|].
  rewrite filter_cons. simpl. assert (∀ m, m ∈ l → nb_used m = true → flt (nb_q_rx m) f0 = false) as Hl.
  { intros m Hm. apply Hq. by right. }
  specialize (IH Hl). destruct (nb_used n) eqn:Hu; simpl.
  - rewrite (Hq n) by (done || by left). simpl. lia.
  - done.
Qed.

(** ** What a router knows of a neighbour after a beacon *)

Lemma nt_update_get f id t e : nt_ok t → nt_get id t = Some e → nb_used (f e) = true → nb_id (f e) = nb_id e →
  nt_get id (nt_update f id t) = Some (f e).
Proof.
  intros Hok (i & Hf & Hi & Hu & Hid)%nt_get_Some Hu' Hid'. unfold nt_update. rewrite Hf. unfold nt_get, nt_find. simpl.
  rewrite (alter_insert _ _ _ _ Hi). erewrite find_index_insert_hit; [|exact Hf|].
  - simpl. apply list_lookup_insert_eq. by eapply lookup_lt_Some.
  - rewrite Hu', Hid', Hid. apply nid_eqb_refl.
Qed.

(** Hearing a neighbour that has an entry, or finds a free slot: its entry keeps
    both aliases; a new one has no alias of theirs yet. *)
Lemma heard_entry id q now t : nt_ok t → nt_get id t ≠ None ∨ nt_count t < 32 →
  ∃ e, nt_get id (heard id q now t).1 = Some e ∧
    match nt_get id t with
    | Some e0 => nb_my_alias e = nb_my_alias e0 ∧ nb_their_alias e = nb_their_alias e0 ∧ nb_q_tx e = nb_q_tx e0
    | None => nb_their_alias e = ALIAS_NONE ∧ nb_q_tx e = Q_UNKNOWN
    end.
Proof.
  intros Hok Hroom. destruct (nt_get id t) as [e0|] eqn:He.
  - pose proof He as (i & Hf & Hi & Hu & Hid)%nt_get_Some. unfold heard. rewrite Hf. simpl.
    set (touch := λ n, nb_set_q_rx _ now n). exists (touch e0). split; [|done].
    pose proof (nt_update_get touch id t e0 Hok He Hu eq_refl) as Hup. unfold nt_update in Hup. by rewrite Hf in Hup.
  - assert (nt_find id t = None) as Hf.
    { destruct (nt_find id t) as [i|] eqn:Hf; [|done]. unfold nt_get in He. rewrite Hf in He. simpl in He.
      apply slot_find_Some in Hf as (s & Hs & _). congruence. }
    unfold heard. rewrite Hf. destruct (find_index (λ n, negb (nb_used n)) (nt_slots t)) as [i|] eqn:Hfree.
    + apply slot_free_Some in Hfree as (n & Hn & Hu). pose proof (lookup_lt_Some _ _ _ Hn) as Hlt. simpl.
      rewrite (alter_insert _ _ _ _ Hn). set (n1 := mkNeighbor id Q_UNKNOWN Q_UNKNOWN _ _ _ _ true). set (a := alloc_alias _ _).
      rewrite (alter_insert _ (<[i:=n1]> _) i n1) by (by apply list_lookup_insert_eq).
      erewrite alter_insert by (apply list_lookup_insert_eq; by rewrite length_insert).
      rewrite !list_insert_insert_eq. set (n2 := nb_set_q_rx _ _ _). exists n2. split; [|done].
      unfold nt_get. rewrite nt_find_slot. simpl. erewrite (slot_find_unique _ _ id _ i n2).
      * simpl. by rewrite list_lookup_insert_eq.
      * apply slots_unique_fresh; [apply Hok|done].
      * by apply list_lookup_insert_eq.
      * done.
      * done.
    + exfalso. destruct Hroom as [|Hc]; [done|]. unfold nt_count in Hc. rewrite (proj2 (count_if_full nb_used _)) in Hc.
      * unfold zlen in Hc. rewrite (nt_len _ Hok) in Hc. lia.
      * intros x [j Hj]%list_elem_of_lookup. by eapply (proj1 (slot_free_None nb_used _) Hfree).
Qed.

Lemma count_alter {A} (p : A → bool) f i l : (∀ x, l !! i = Some x → p (f x) = p x) → count_if p (alter f i l) = count_if p l.
Proof.
  revert i. induction l as [|y l IH]; intros [|i] Hf; simpl; try done.
  - by rewrite (Hf y).
  - by rewrite <- (IH i Hf).
Qed.
Lemma heard_count id q now t : nt_count (heard id q now t).1 <= nt_count t + 1.
Proof.
  unfold heard, nt_count. destruct (nt_find id t); simpl; [rewrite count_alter by done; lia|].
  destruct (find_index _ (nt_slots t)) as [i|] eqn:Hfree; simpl; [|lia].
  apply slot_free_Some in Hfree as (n & Hn & Hu). rewrite !count_alter by done.
  rewrite (alter_insert _ _ _ _ Hn), (count_if_insert _ _ _ n) by done. rewrite Hu. simpl. lia.
Qed.
Lemma nt_update_count f id t : (∀ n, nb_used (f n) = nb_used n) → nt_count (nt_update f id t) = nt_count t.
Proof. intros Hf. unfold nt_update, nt_count. case_match; [|done]. simpl. apply count_alter. auto. Qed.

(** The report about us, wherever it stands in the list, tells the alias. *)
Lemma learn_reports_entry me from reports t e : nt_ok t → nt_get from t = Some e →
  Forall (λ p, ffinite (rep_q p) = true ∧ fsign_pos (rep_q p) = true) reports →
  ∃ e', nt_get from (learn_reports me from reports t) = Some e' ∧ nb_my_alias e' = nb_my_alias e ∧
    ((nb_their_alias e' = nb_their_alias e ∧ nb_q_tx e' = nb_q_tx e ∧ ∀ p, p ∈ reports → rep_id p ≠ me) ∨
     ∃ p, p ∈ reports ∧ rep_id p = me ∧ nb_their_alias e' = rep_alias p ∧
       nb_q_tx e' = ewma_quality (nb_q_tx e) (rep_q p) EWMA_ALPHA).
Proof.
  intros Hok He. induction 1 as [|p reports [Hf Hs] _ IH]; simpl.
  - exists e. split; [done|]. split; [done|]. left. split; [done|]. split; [done|]. by intros p ?%elem_of_nil.
  - destruct (nid_eqb_spec (rep_id p) me) as [E|Hne].
    + pose proof He as (i & _ & _ & Hu & _)%nt_get_Some.
      eexists. split; [apply nt_update_get; [by apply set_tx_report_ok|by apply nt_update_get|done|done]|].
      split; [done|]. right. exists p. by split; [left|].
    + destruct IH as (e' & H1 & H2 & H3). exists e'. split; [done|]. split; [done|].
      destruct H3 as [(H3 & Hq & H4)|(p' & H4 & H5)]; [left|right; exists p'; by split; [right|]].
      split; [done|]. split; [done|]. intros p' [-> |Hp']%elem_of_cons; auto.
Qed.
Lemma learn_reports_count me from reports t : nt_count (learn_reports me from reports t) = nt_count t.
Proof.
  induction reports as [|p reports IH]; simpl; [done|]. case_match; [|done].
  unfold set_their_alias, set_tx_report. by rewrite !nt_update_count.
Qed.

(** The neighbour's entry after its beacon: our alias for it stays, and its alias
    for us is the one reported. *)
Lemma on_beacon_entry me from q a now r : router_ok me r → from ≠ me → from ∉ ro_blocked r → in_q q → announce_sane a →
  nt_count (ro_neighbors r) < 32 →
  ∃ e, nt_get from (ro_neighbors (on_beacon from q a now r)) = Some e ∧
    match nt_get from (ro_neighbors r) with
    | Some e0 => nb_my_alias e = nb_my_alias e0
    | None => True
    end ∧
    (∀ al, (∃ p, p ∈ an_reports a ∧ rep_id p = me) → (∀ p, p ∈ an_reports a → rep_id p = me → rep_alias p = al) →
      nb_their_alias e = al) ∧
    let q0 := match nt_get from (ro_neighbors r) with Some e0 => nb_q_tx e0 | None => Q_UNKNOWN end in
    (nb_q_tx e = q0 ∧ (∀ p, p ∈ an_reports a → rep_id p ≠ me) ∨
     ∃ p, p ∈ an_reports a ∧ rep_id p = me ∧ nb_q_tx e = ewma_quality q0 (rep_q p) EWMA_ALPHA).
Proof.
  intros Hok Hne Hb Hq [Hrep _] Hroom. pose proof (ok_nt _ _ Hok) as Hnt. unfold on_beacon. rewrite (ok_id _ _ Hok).
  rewrite (proj2 (nid_eqb_neq _ _) Hne), (proj2 (is_blocked_false from r) Hb). cbn [ro_neighbors].
  destruct (in_q_finite q Hq) as [Hq1 Hq2].
  destruct (heard_entry from q now (ro_neighbors r) Hnt) as (e1 & H1 & Hk); [by right|].
  set (t1 := (heard from q now (ro_neighbors r)).1) in *. assert (nt_ok t1) as Ht1 by (by apply heard_ok).
  pose proof H1 as (i & _ & _ & Hu & _)%nt_get_Some.
  assert (nt_get from (set_caps from (an_caps a) t1) = Some (nb_set_caps (an_caps a) e1)) as H2 by (by apply nt_update_get).
  assert (nt_ok (set_caps from (an_caps a) t1)) as Ht2 by (by apply set_caps_ok).
  destruct (learn_reports_entry me from (an_reports a) _ _ Ht2 H2 Hrep) as (e & H3 & Hm & Ht).
  exists e. split; [exact H3|]. split; [|split].
  - destruct (nt_get from (ro_neighbors r)); [|done]. rewrite Hm. apply Hk.
  - intros al (p & Hp & Hpm) Hall. destruct Ht as [(_ & _ & Hno)|(p' & Hp' & Hpm' & -> & _)]; [by destruct (Hno p)|by apply Hall].
  - assert (nb_q_tx (nb_set_caps (an_caps a) e1) = match nt_get from (ro_neighbors r) with Some e0 => nb_q_tx e0 | None => Q_UNKNOWN end) as <-
      by (destruct (nt_get from (ro_neighbors r)); apply Hk).
    destruct Ht as [(_ & Hq' & Hno)|(p & Hp & Hpm & _ & Hq')]; [by left|right; by exists p].
Qed.

Lemma on_beacon_count me from q a now r : router_ok me r →
  nt_count (ro_neighbors (on_beacon from q a now r)) <= nt_count (ro_neighbors r) + 1.
Proof.
  intros Hok. unfold on_beacon. case_match; [lia|]. case_match; [lia|]. cbn [ro_neighbors].
  rewrite learn_reports_count. unfold set_caps. rewrite nt_update_count by done. apply heard_count.
Qed.

(** ** The route to the node itself

    [set_self] puts it into the first slot at the start, and nothing removes it
    from there: it is the first route an announce lists. *)
Definition self_first (t : RoutingTable) : Prop :=
  ∃ x, rt_slots t !! 0%nat = Some x ∧ r_used x = true ∧ r_dst x = rt_self t.

Lemma self_first_alter i f t x : self_first t → rt_slots t !! i = Some x → (r_used x = true → r_dst x ≠ rt_self t) →
  self_first (mkRT (rt_self t) (alter f i (rt_slots t))).
Proof.
  intros (y & Hy0 & Hu & Hd) Hx Hne. exists y. split; [|done]. simpl. destruct i as [|i].
  - exfalso. rewrite Hy0 in Hx. injection Hx as ->. by apply Hne.
  - by rewrite list_lookup_alter_ne.
Qed.
Lemma self_first_offer dst nh cost hops now t : self_first t → self_first (offer dst nh cost hops now t).1.
Proof.
  intros Ht. unfold offer. destruct (nid_eqb_spec dst (rt_self t)) as [|Hne]; [done|].
  destruct (rt_find dst (rt_slots t)) as [i|] eqn:Hf.
  - apply slot_find_Some in Hf as (x & Hx & Hu & Hd). rewrite Hx.
    assert (r_used x = true → r_dst x ≠ rt_self t) as Hxne by (intros _; congruence).
    repeat case_match; try done; by eapply self_first_alter.
  - unfold rt_alloc. destruct (find_index _ (rt_slots t)) as [j|] eqn:Hj; [|by repeat case_match].
    apply slot_free_Some in Hj as (x & Hx & Hu). simpl. case_match; [done|]. simpl.
    destruct Ht as (y & Hy0 & Huy & Hdy). exists y. split; [|done]. simpl. destruct j as [|j]; [congruence|].
    rewrite list_lookup_alter_ne by done. by rewrite list_lookup_insert_ne.
Qed.
Lemma self_first_sweep (drop : Route → bool) t : self_first t → (∀ x, drop x = true → r_dst x ≠ rt_self t) →
  self_first (mkRT (rt_self t) ((λ x, if drop x then r_clear x else x) <$> rt_slots t)).
Proof.
  intros (y & Hy0 & Hu & Hd) Hdrop. exists y. split; [|done]. simpl. rewrite list_lookup_fmap, Hy0. simpl.
  destruct (drop y) eqn:E; [|done]. by destruct (Hdrop y E).
Qed.
Lemma self_first_drop via t : self_first t → self_first (drop_via via t).
Proof. intros Ht. apply self_first_sweep; [done|]. by intros x [_ ?]%r_via_drops. Qed.
Lemma self_first_set now t : self_first t → self_first (set_self (rt_self t) now t).
Proof.
  intros (y & Hy0 & Hu & Hd). unfold set_self. assert (rt_find (rt_self t) (rt_slots t) = Some 0%nat) as ->.
  { unfold rt_find. destruct (rt_slots t) as [|z l]; [done|]. injection Hy0 as ->. simpl. by rewrite Hu, Hd, nid_eqb_refl. }
  eexists. simpl. rewrite (alter_insert _ _ _ _ Hy0). split; [apply list_lookup_insert_eq; by eapply lookup_lt_Some|]. by split.
Qed.

Lemma self_first_on_beacon me from q a now r : router_ok me r → self_first (ro_routes r) →
  self_first (ro_routes (on_beacon from q a now r)).
Proof.
  intros Hok IH. unfold on_beacon. case_match; [done|]. case_match; [done|]. cbn [ro_routes].
  assert (self_first (set_self (ro_my_id r) now (ro_routes r))) as Hs.
  { rewrite (ok_id _ _ Hok), <- (ok_self _ _ Hok). by apply self_first_set. }
  revert Hs. generalize (set_self (ro_my_id r) now (ro_routes r)). induction (an_routes a) as [|v vs IHv]; intros t Ht; [done|].
  simpl. apply IHv. unfold relax. case_match; [done|]. case_match; [done|]. by apply self_first_offer.
Qed.

(** In every state the router can reach. *)
Lemma reachable_self_first me r : router_reachable me r → self_first (ro_routes r).
Proof.
  intros Hr. induction Hr as [|r r' Hr IH Hs]; [by eexists|]. pose proof (reachable_ok me r Hr) as Hok.
  destruct Hs as [r from q a now Hq Ha|r id|r id|r now nto rto].
  - by apply (self_first_on_beacon me).
  - unfold block. repeat case_match; try done. by apply self_first_drop.
  - unfold unblock. by case_match.
  - unfold tick. destruct (nt_prune _ _ _ _) as [[nt removed] n]. cbn [ro_routes]. apply self_first_sweep.
    + revert IH. generalize (ro_routes r). induction (take (Z.to_nat n) removed) as [|id ids IHi]; intros t Ht; [done|].
      simpl. apply IHi. by apply self_first_drop.
    + by intros x [_ ?]%r_expired_drops.
Qed.

(** ** Routes taught by an announce *)

Lemma offer_count dst nh cost hops now t : rt_count (offer dst nh cost hops now t).1 <= rt_count t + 1.
Proof.
  unfold offer, rt_count. destruct (nid_eqb _ _); [simpl; lia|]. destruct (rt_find dst (rt_slots t)) as [i|] eqn:Hf.
  - apply slot_find_Some in Hf as (x & Hx & Hu & _). rewrite Hx.
    repeat case_match; simpl; rewrite ?(alter_insert _ _ _ _ Hx), ?(count_if_insert _ _ _ _ _ Hx); simpl; rewrite ?Hu; lia.
  - unfold rt_alloc. destruct (find_index _ (rt_slots t)) as [j|] eqn:Hj; [|simpl; destruct (_ || _); simpl; lia].
    apply slot_free_Some in Hj as (x & Hx & Hu). simpl. case_match; simpl; [lia|].
    rewrite count_alter by done. rewrite (count_if_insert _ _ _ _ _ Hx), Hu. simpl. lia.
Qed.
Lemma relax_count me from lc now t v : rt_count (relax me from lc now t v) <= rt_count t + 1.
Proof. unfold relax. repeat case_match; try lia. apply offer_count. Qed.

(** An advertised route a router will take from its sender. *)
Definition taken (me from : NodeId) (lc : f32) (t : RoutingTable) (v : RouteAdv) : Prop :=
  adv_dst v ≠ me ∧ adv_next_hop v ≠ me ∧ u8 (adv_hops v + 1) <= MAX_HOPS ∧
  fge (fadd lc (adv_cost v)) COST_INF = false ∧
  ∀ x, rt_get (adv_dst v) t = Some x →
    r_next_hop x = from ∨ flt (fadd lc (adv_cost v)) (fsub (r_cost x) EPS) = true.

Lemma relax_takes me from lc now t v : rt_ok t → rt_self t = me → rt_count t < 64 → taken me from lc t v →
  rt_get (adv_dst v) (relax me from lc now t v) =
    Some (mkRoute (adv_dst v) from (fadd lc (adv_cost v)) (u8 (adv_hops v + 1)) now true).
Proof.
  intros Hok Hself Hc (H1 & H2 & H3 & H4 & H5). unfold relax.
  rewrite (proj2 (nid_eqb_neq _ _) H1), (proj2 (nid_eqb_neq _ _) H2).
  destruct (offer _ _ _ _ _ _) as [t' b] eqn:Ho.
  pose proof (offer_spec t (adv_dst v) from (fadd lc (adv_cost v)) (u8 (adv_hops v + 1)) now Hok) as Hs. rewrite Ho in Hs.
  destruct Hs as [Hs _]. rewrite rt_get_abs. simpl.
  assert (rt_full t = false) as Hfull.
  { unfold rt_full. destruct (find_index _ (rt_slots t)) eqn:E; [done|]. exfalso. unfold rt_count in Hc.
    rewrite (proj2 (count_if_full r_used _)) in Hc; [unfold zlen in Hc; rewrite (rt_len _ Hok) in Hc; lia|].
    intros x [j Hj]%list_elem_of_lookup. by eapply (proj1 (slot_free_None r_used _) E). }
  apply (f_equal fst) in Hs. simpl in Hs. rewrite Hs. unfold spec_offer.
  rewrite bool_decide_eq_false_2 by congruence. rewrite (proj2 (Z.ltb_ge MAX_HOPS _)), H4 by done. cbn [orb].
  rewrite <- rt_get_abs. destruct (rt_get (adv_dst v) t) as [x|] eqn:Hx.
  - destruct (H5 x eq_refl) as [E|E]; [rewrite bool_decide_eq_true_2 by done|rewrite E, orb_true_r]; simpl; by rewrite lookup_insert_eq.
  - rewrite Hfull. simpl. by rewrite lookup_insert_eq.
Qed.

Lemma relax_other me from lc now t v d : rt_ok t → d ≠ adv_dst v → rt_get d (relax me from lc now t v) = rt_get d t.
Proof. intros Hok Hd. unfold relax. repeat case_match; try done. rewrite !rt_get_abs. by apply offer_other. Qed.
Lemma relax_ok me from lc now t v : rt_ok t → rt_self t = me → rt_ok (relax me from lc now t v) ∧ rt_self (relax me from lc now t v) = me.
Proof.
  intros Hok Hs. unfold relax. repeat case_match; try done.
  split; [apply offer_ok; [done|apply u8_range]|]. by rewrite offer_self.
Qed.

Lemma relax_fold_takes me from lc now vs t v : rt_ok t → rt_self t = me → NoDup (adv_dst <$> vs) →
  rt_count t + zlen vs <= 64 → v ∈ vs → taken me from lc t v →
  rt_get (adv_dst v) (fold_left (relax me from lc now) vs t) =
    Some (mkRoute (adv_dst v) from (fadd lc (adv_cost v)) (u8 (adv_hops v + 1)) now true).
Proof.
  revert t. induction vs as [|w vs IH]; intros t Hok Hs Hnd Hc Hin Ht; [by apply elem_of_nil in Hin|].
  rewrite zlen_cons in Hc. pose proof (zlen_nonneg vs). apply NoDup_cons in Hnd as [Hw Hnd]. simpl.
  pose proof (relax_count me from lc now t w). destruct (relax_ok me from lc now t w Hok Hs) as [Hok' Hs'].
  destruct (decide (adv_dst v = adv_dst w)) as [E|E].
  - assert (v = w) as ->.
    { apply elem_of_cons in Hin as [|Hin]; [done|]. exfalso. apply Hw. rewrite <- E. by apply list_elem_of_fmap_2. }
    pose proof (relax_takes me from lc now t w Hok Hs ltac:(lia) Ht) as Hg. rewrite <- Hg.
    clear -Hw Hok' Hs'. revert Hok' Hs'. generalize (relax me from lc now t w). induction vs as [|u vs IH]; intros t' Hok Hs; [done|].
    simpl. assert (adv_dst w ≠ adv_dst u ∧ adv_dst w ∉ (adv_dst <$> vs)) as [Hu Hw'] by (by apply not_elem_of_cons).
    destruct (relax_ok me from lc now t' u Hok Hs) as [Hok' Hs'].
    rewrite (IH Hw' _ Hok' Hs'). by apply relax_other.
  - apply elem_of_cons in Hin as [->|Hin]; [done|]. apply IH; try done; [lia|].
    destruct Ht as (H1 & H2 & H3 & H4 & H5). split_and!; try done. by rewrite relax_other.
Qed.

Lemma nodup_take {A} n (l : list A) : NoDup l → NoDup (take n l).
Proof. rewrite <- (take_drop n l) at 1. by intros [? _]%NoDup_app. Qed.
Lemma unique_keys_nodup (l : list Route) : slots_unique r_used r_dst l → NoDup (r_dst <$> filter (λ x, r_used x = true) l).
Proof.
  intros Hu. induction l as [|x l IH]; [constructor|].
  assert (slots_unique r_used r_dst l) as Hl.
  { intros i j a b Hi Hj Ha Hb Hk. specialize (Hu (S i) (S j) a b Hi Hj Ha Hb Hk). congruence. }
  rewrite filter_cons. case_decide as Hx; [|by apply IH]. rewrite fmap_cons. apply NoDup_cons. split; [|by apply IH].
  intros (y & Hd & [Hy [j Hj]%list_elem_of_lookup]%list_elem_of_filter)%list_elem_of_fmap.
  specialize (Hu 0%nat (S j) x y eq_refl Hj Hx Hy Hd). done.
Qed.

Lemma set_self_count now t : rt_ok t → rt_count (set_self (rt_self t) now t) = rt_count t.
Proof.
  intros Hok. destruct (rt_self_route t Hok) as (x & (i & Hf & Hi & Hu & _)%rt_get_Some & _).
  unfold set_self, rt_count. rewrite Hf. simpl. by apply count_alter.
Qed.
