(* ===== verification/Hdlc.v ===== *)
(** src/main.cpp, the host transports: HDLC framing over USB and BLE, the typed
    tunnel envelope, and the byte demultiplexer of the console. *)
From S2P Require Import Prelude Reader MeshTypes Packet Kiss.

Definition HDLC_FLAG : Z := 126.
Definition HDLC_ESC : Z := 125.
Definition HDLC_ESC_MASK : Z := 32.
Definition TUN_ADDR_LOCATOR : Z := 1.
Definition TUN_ADDR_IDENTITY : Z := 2.
Definition TUN_HOST_MAX : Z := 768.

(** sizeof(frame) of the console, sizeof(bf) of the BLE service *)
Definition HOST_FRAME_MAX : Z := 2 + 16 + TUN_HOST_MAX.
(** sizeof(buf) - 1 of the console, sizeof(cl) - 1 of the BLE service *)
Definition CONSOLE_LINE_MAX : Z := 719.
Definition BLE_LINE_MAX : Z := 159.

(** ** Encoder *)

Definition hdlc_stuff (l : bytes) : bytes :=
  flat_map (λ b, if (b =? HDLC_FLAG) || (b =? HDLC_ESC) then [HDLC_ESC; Z.lxor b HDLC_ESC_MASK] else [b]) l.

(** The bytes [host_write] is given. *)
Definition hdlc_write (d : bytes) : bytes := HDLC_FLAG :: hdlc_stuff d ++ [HDLC_FLAG].

(** [out] in [hdlc_write]: 2 + 2 * sizeof(largest envelope). *)
Definition HDLC_OUT_MAX : Z := 2 + 2 * HOST_FRAME_MAX.

(** [tunnel_emit], the HDLC leg: the envelope of a delivered payload. *)
Definition tunnel_envelope (src : NodeId) (payload : bytes) : bytes :=
  let payload := if TUN_HOST_MAX <? zlen payload then take (Z.to_nat TUN_HOST_MAX) payload else payload in
  [TUN_ADDR_LOCATOR; 16] ++ nid_write src ++ payload.

(** [tunnel_rx_frame] up to the call of [tunnel_send]: destination and payload,
    or a rejected envelope. *)
Definition tunnel_parse (f : bytes) : res (NodeId * bytes) :=
  let n := zlen f in
  _ ← guard (2 <=? n);
  addr_type ← rd f 0; addr_len ← rd f 1;
  _ ← guard (u16 (2 + addr_len) <=? n);
  _ ← guard (negb (addr_type =? TUN_ADDR_IDENTITY) && (addr_type =? TUN_ADDR_LOCATOR) && (addr_len =? 16));
  dst ← nid_read f 2;
  payload ← rdn f (2 + addr_len) (u16 (n - 2 - addr_len));
  Ok (dst, payload).

(** ** The byte demultiplexer *)

(** The accumulators of one transport: [buf[0 .. len)], [frame[0 .. flen)]. *)
Record Demux := mkDemux { dx_line : bytes; dx_frame : bytes; dx_in : bool; dx_esc : bool }.
Definition Demux_init : Demux := mkDemux [] [] false false.

Inductive HostIn := HNothing | HLine (line : bytes) | HFrame (frame : bytes).

(** Text console: lines only. *)
Definition text_byte (line_max c : Z) (d : Demux) : Demux * HostIn :=
  if c =? 13 then (d, HNothing) else
  if c =? 10 then
    (if 0 <? zlen (dx_line d) then (mkDemux [] (dx_frame d) (dx_in d) (dx_esc d), HLine (dx_line d))
     else (d, HNothing))
  else if zlen (dx_line d) <? line_max
  then (mkDemux (dx_line d ++ [c]) (dx_frame d) (dx_in d) (dx_esc d), HNothing)
  else (d, HNothing).

(** Tunnel mode and BLE: frames and lines on one stream. *)
Definition demux_byte (line_max c : Z) (d : Demux) : Demux * HostIn :=
  if c =? HDLC_FLAG then
    (if dx_in d
     then (mkDemux [] (dx_frame d) false (dx_esc d),
           if 0 <? zlen (dx_frame d) then HFrame (dx_frame d) else HNothing)
     else (mkDemux [] [] true false, HNothing))
  else if dx_in d then
    (if zlen (dx_frame d) <? HOST_FRAME_MAX then
       (if c =? HDLC_ESC then (mkDemux (dx_line d) (dx_frame d) true true, HNothing)
        else (mkDemux (dx_line d)
                (dx_frame d ++ [if dx_esc d then Z.lxor c HDLC_ESC_MASK else c]) true false, HNothing))
     else (d, HNothing))
  else text_byte line_max c d.

Fixpoint demux_all (line_max : Z) (l : bytes) (d : Demux) : Demux * list HostIn :=
  match l with
  | [] => (d, [])
  | c :: l =>
      let '(d, ev) := demux_byte line_max c d in
      let '(d', evs) := demux_all line_max l d in (d', ev :: evs)
  end.
Definition host_frames (evs : list HostIn) : list bytes :=
  omap (λ ev, match ev with HFrame f => Some f | _ => None end) evs.

(** What the USB byte means in each mode. *)
Inductive ConsoleIn :=
  | CText (h : HostIn)
  | CTunnel (h : HostIn)
  | CKissData (payload : bytes)
  | CKissReturn
  | CKissOther.

(** One byte of [poll_console]; the modes are read afresh for every byte. *)
Definition console_byte (kiss_mode tunnel_mode : bool) (c : Z) (d : Demux) (k : KissDecoder)
    : Demux * KissDecoder * ConsoleIn :=
  if kiss_mode then
    let '(k, ready) := kiss_feed c k in
    if negb ready then (d, k, CKissOther) else
    match kiss_frame k with
    | cmd :: payload =>
        if cmd =? KISS_CMD_RETURN then (d, k, CKissReturn)
        else if (Z.land cmd 15 =? KISS_CMD_DATA) && (1 <? zlen (kiss_frame k)) then (d, k, CKissData payload)
        else (d, k, CKissOther)
    | [] => (d, k, CKissOther)
    end
  else if negb tunnel_mode then
    let '(d, h) := text_byte CONSOLE_LINE_MAX c d in (d, k, CText h)
  else
    let '(d, h) := demux_byte CONSOLE_LINE_MAX c d in (d, k, CTunnel h).

(** ** Facts *)

Definition dx_ok (line_max : Z) (d : Demux) : Prop :=
  zlen (dx_line d) <= line_max ∧ zlen (dx_frame d) <= HOST_FRAME_MAX.

Lemma demux_ok line_max c d : dx_ok line_max d → 0 <= line_max → dx_ok line_max (demux_byte line_max c d).1.
Proof.
  intros [Hl Hf] Hm. unfold demux_byte, text_byte, dx_ok in *.
  repeat case_match; simpl; bools; rewrite ?zlen_app, ?zlen_cons, ?(zlen_nil (A:=Z)) in *;
    unfold HOST_FRAME_MAX, TUN_HOST_MAX in *; lia.
Qed.

Lemma demux_all_app line_max l k d :
  demux_all line_max (l ++ k) d =
  let '(d1, e1) := demux_all line_max l d in
  let '(d2, e2) := demux_all line_max k d1 in (d2, e1 ++ e2).
Proof.
  revert d. induction l as [|c l IH]; intros d; simpl; [by destruct (demux_all line_max k d)|].
  destruct (demux_byte line_max c d) as [d' ev]. rewrite IH.
  destruct (demux_all line_max l d') as [d1 e1]. by destruct (demux_all line_max k d1).
Qed.

Lemma host_frames_app e1 e2 : host_frames (e1 ++ e2) = host_frames e1 ++ host_frames e2.
Proof. apply omap_app. Qed.

(** A stuffed byte never looks like a delimiter, and is restored exactly. *)
Lemma stuff_decode line_max l d : dx_in d = true → dx_esc d = false →
  zlen (dx_frame d) + zlen l <= HOST_FRAME_MAX →
  ∃ evs, demux_all line_max (hdlc_stuff l) d = (mkDemux (dx_line d) (dx_frame d ++ l) true false, evs) ∧
    host_frames evs = [].
Proof.
  revert d. induction l as [|b l IH]; intros d Hi He Hl; simpl.
  { exists []. rewrite app_nil_r. destruct d. simpl in *. by subst. }
  rewrite zlen_cons in Hl. pose proof (zlen_nonneg l) as Hnn.
  assert ((zlen (dx_frame d) <? HOST_FRAME_MAX) = true) as Hlt by (apply Z.ltb_lt; lia).
  set (d1 := mkDemux (dx_line d) (dx_frame d ++ [b]) true false).
  destruct (IH d1) as (evs & Hevs & Hf); [done|done|simpl; rewrite zlen_app, zlen_cons, (zlen_nil (A:=Z)); lia|].
  simpl in Hevs. rewrite <- app_assoc in Hevs. simpl in Hevs.
  destruct ((b =? HDLC_FLAG) || (b =? HDLC_ESC)) eqn:Hb; simpl.
  - assert (demux_byte line_max HDLC_ESC d = (mkDemux (dx_line d) (dx_frame d) true true, HNothing)) as ->
      by (unfold demux_byte; by rewrite Hi, Hlt).
    assert (demux_byte line_max (Z.lxor b HDLC_ESC_MASK) (mkDemux (dx_line d) (dx_frame d) true true)
      = (d1, HNothing)) as ->.
    { unfold demux_byte. cbn [dx_in dx_frame dx_esc dx_line]. rewrite Hlt.
      apply orb_true_iff in Hb as [->%Z.eqb_eq | ->%Z.eqb_eq]; done. }
    rewrite Hevs. eauto.
  - apply orb_false_iff in Hb as [Hb1%Z.eqb_neq Hb2%Z.eqb_neq]. assert (demux_byte line_max b d = (d1, HNothing)) as ->.
    { unfold demux_byte. rewrite (proj2 (Z.eqb_neq b HDLC_FLAG)), Hi, Hlt, (proj2 (Z.eqb_neq b HDLC_ESC)), He by done.
      done. }
    rewrite Hevs. eauto.
Qed.

Lemma frame_decode line_max f d : dx_in d = false → 1 <= zlen f <= HOST_FRAME_MAX →
  ∃ d' evs, demux_all line_max (hdlc_write f) d = (d', evs) ∧ host_frames evs = [f] ∧ dx_in d' = false.
Proof.
  intros Hi Hl. unfold hdlc_write. cbn [demux_all].
  assert (demux_byte line_max HDLC_FLAG d = (mkDemux [] [] true false, HNothing)) as ->
    by (unfold demux_byte; by rewrite Hi).
  destruct (stuff_decode line_max f (mkDemux [] [] true false)) as (evs & Hevs & Hf);
    [done|done|simpl; rewrite (zlen_nil (A:=Z)); lia|].
  rewrite demux_all_app, Hevs. cbn [demux_all]. unfold demux_byte. cbn [dx_in dx_frame dx_line].
  simpl. rewrite (proj2 (Z.ltb_lt 0 (zlen f))) by lia. do 2 eexists. split; [done|].
  split; [|done]. cbn [host_frames omap list_omap]. fold (host_frames (evs ++ [HFrame f])).
  by rewrite host_frames_app, Hf.
Qed.

(** Text between frames (no flag byte in it) produces no frame. *)
Lemma text_decode line_max t d : dx_in d = false → Forall (λ c, c ≠ HDLC_FLAG) t →
  ∃ d' evs, demux_all line_max t d = (d', evs) ∧ host_frames evs = [] ∧ dx_in d' = false.
Proof.
  intros Hi Ht. revert d Hi. induction Ht as [|c t Hc _ IH]; intros d Hi; simpl; [eauto|].
  assert (∃ d1 ev, demux_byte line_max c d = (d1, ev) ∧ dx_in d1 = false ∧ host_frames [ev] = [])
    as (d1 & ev & -> & Hi1 & Hev).
  { unfold demux_byte, text_byte. rewrite (proj2 (Z.eqb_neq c HDLC_FLAG)), Hi by done.
    repeat case_match; eauto 6. }
  destruct (IH d1 Hi1) as (d2 & evs & -> & Hevs & Hi2). do 2 eexists. split; [done|]. split; [|done].
  change (ev :: evs) with ([ev] ++ evs). by rewrite host_frames_app, Hev, Hevs.
Qed.

(** A host stream: frames with console text around them. *)
Fixpoint host_stream (chunks : list (bytes * bytes)) : bytes :=
  match chunks with
  | [] => []
  | (text, frame) :: chunks => text ++ hdlc_write frame ++ host_stream chunks
  end.

Lemma stuff_no_flag l : Forall (λ c, c ≠ HDLC_FLAG) (hdlc_stuff l).
Proof.
  induction l as [|b l IH]; [constructor|]. cbn [hdlc_stuff flat_map]. apply Forall_app. split; [|done].
  destruct ((b =? HDLC_FLAG) || (b =? HDLC_ESC)) eqn:Hb.
  - apply orb_true_iff in Hb as [->%Z.eqb_eq | ->%Z.eqb_eq]; by repeat constructor.
  - apply orb_false_iff in Hb as [Hb%Z.eqb_neq _]. by constructor.
Qed.

(** A frame heard by a receiver that is one flag out of step. *)
Lemma frame_out_of_step line_max g d : dx_in d = true →
  ∃ d' evs, demux_all line_max (hdlc_write g) d = (d', evs) ∧
    host_frames evs = (if 0 <? zlen (dx_frame d) then [dx_frame d] else []) ∧ d' = mkDemux [] [] true false.
Proof.
  intros Hi. unfold hdlc_write. cbn [demux_all]. unfold demux_byte at 1. cbn [Z.eqb HDLC_FLAG Pos.eqb]. rewrite Hi.
  set (d1 := mkDemux [] (dx_frame d) false (dx_esc d)).
  destruct (text_decode line_max (hdlc_stuff g) d1 eq_refl (stuff_no_flag g)) as (d2 & evs & H2 & He & Hi2).
  rewrite demux_all_app, H2. cbn [demux_all]. unfold demux_byte. cbn [Z.eqb HDLC_FLAG Pos.eqb]. rewrite Hi2.
  do 2 eexists. split; [done|]. split; [|done].
  match goal with |- host_frames (?ev :: evs ++ ?l) = _ => change (ev :: evs ++ l) with ([ev] ++ evs ++ l) end.
  rewrite !host_frames_app, He. by destruct (0 <? _).
Qed.

(** Text without flag or escape bytes, taken for a frame. *)
Lemma plain_stuff t : Forall (λ c, c ≠ HDLC_FLAG) t → Forall (λ c, c ≠ HDLC_ESC) t → hdlc_stuff t = t.
Proof.
  induction 1 as [|c t Hc _ IH]; [done|]. intros [Hc' Ht]%Forall_cons. cbn [hdlc_stuff flat_map].
  fold (hdlc_stuff t). by rewrite (proj2 (Z.eqb_neq c HDLC_FLAG)), (proj2 (Z.eqb_neq c HDLC_ESC)), IH by done.
Qed.

(** Out of step, the texts between the frames are what comes out. *)
Lemma stream_out_of_step line_max chunks :
  Forall (λ tf, Forall (λ c, c ≠ HDLC_FLAG) tf.1 ∧ Forall (λ c, c ≠ HDLC_ESC) tf.1 ∧ zlen tf.1 <= HOST_FRAME_MAX) chunks →
  host_frames (demux_all line_max (host_stream chunks) (mkDemux [] [] true false)).2 = filter (λ t, t ≠ []) chunks.*1.
Proof.
  induction 1 as [|[t f] chunks (Ht & He & Hl) _ IH]; [done|]. cbn [host_stream fst snd] in *.
  destruct (stuff_decode line_max t (mkDemux [] [] true false)) as (evs & Hevs & Hf); [done|done|done|].
  rewrite plain_stuff in Hevs by done. rewrite demux_all_app, Hevs. cbn [dx_line dx_frame app].
  destruct (frame_out_of_step line_max f (mkDemux [] t true false) eq_refl) as (d' & evs' & H2 & Hf2 & ->).
  rewrite demux_all_app, H2. destruct (demux_all line_max (host_stream chunks) (mkDemux [] [] true false)) as [d3 e3].
  simpl in *. rewrite !host_frames_app, Hf, Hf2, IH. cbn [fmap list_fmap fst]. rewrite filter_cons.
  destruct t as [|c t]; [done|]. by rewrite decide_True.
Qed.

(** C36: what the framing of the host link recovers. Frames of any content
    written by the HDLC encoder, with console text between them that holds no
    flag byte (0x7E, the character [~]), are recovered by the demultiplexer
    exactly, in order, and nothing else is: for every line limit, hence for the
    USB console in tunnel mode and for BLE alike. One stray flag byte before such
    a stream turns it inside out: the frames are then taken for text and, when the
    texts between them hold no escape byte and fit a frame, exactly the non-empty
    texts come out as the frames. *)
Theorem hdlc_stream_roundtrip (line_max : Z) (chunks : list (bytes * bytes)) (d : Demux)
    (Hidle : dx_in d = false)
    (Hchunks : Forall (λ tf, Forall (λ c, c ≠ HDLC_FLAG) tf.1 ∧ 1 <= zlen tf.2 <= HOST_FRAME_MAX) chunks) :
  host_frames (demux_all line_max (host_stream chunks) d).2 = chunks.*2 ∧
  (Forall (λ tf, Forall (λ c, c ≠ HDLC_ESC) tf.1 ∧ zlen tf.1 <= HOST_FRAME_MAX) chunks →
    host_frames (demux_all line_max (HDLC_FLAG :: host_stream chunks) d).2 = filter (λ t, t ≠ []) chunks.*1).
Proof.
  split.
  - revert d Hidle. induction Hchunks as [|[t f] chunks [Ht Hf] _ IH]; intros d Hi; [done|]. cbn [host_stream fst snd] in *.
    destruct (text_decode line_max t d Hi Ht) as (d1 & e1 & H1 & Hf1 & Hi1).
    destruct (frame_decode line_max f d1 Hi1 Hf) as (d2 & e2 & H2 & Hf2 & Hi2).
    specialize (IH d2 Hi2). rewrite demux_all_app, H1, demux_all_app, H2.
    destruct (demux_all line_max (host_stream chunks) d2) as [d3 e3]. simpl in *.
    by rewrite !host_frames_app, Hf1, Hf2, IH.
  - intros Hplain. cbn [demux_all]. unfold demux_byte. cbn [Z.eqb HDLC_FLAG Pos.eqb]. rewrite Hidle.
    pose proof (stream_out_of_step line_max chunks) as Hout.
    destruct (demux_all line_max (host_stream chunks) (mkDemux [] [] true false)) as [d' evs]. apply Hout.
    eapply Forall_impl; [exact (proj2 (Forall_and _ _) (conj Hchunks Hplain))|]. by intros [t f] [[? _] [? ?]].
Qed.

Definition host_ex : list (bytes * bytes) :=
  [([104; 105; 10], [1; 126; 125; 2]); ([], [93; 94]); ([13; 10], [126])].

Example hdlc_stream_roundtrip_witness :
  dx_in Demux_init = false ∧
  Forall (λ tf, Forall (λ c, c ≠ HDLC_FLAG) tf.1 ∧ 1 <= zlen tf.2 <= HOST_FRAME_MAX) host_ex ∧
  host_frames (demux_all BLE_LINE_MAX (host_stream host_ex) Demux_init).2 = host_ex.*2 ∧
  host_frames (demux_all BLE_LINE_MAX (HDLC_FLAG :: host_stream host_ex) Demux_init).2 = [[104; 105; 10]; [13; 10]].
Proof.
  assert (Forall (λ tf, Forall (λ c, c ≠ HDLC_FLAG) tf.1 ∧ 1 <= zlen tf.2 <= HOST_FRAME_MAX) host_ex) as H.
  { unfold host_ex. each; (split; [each; done|unfold HOST_FRAME_MAX, TUN_HOST_MAX, zlen; simpl; lia]). }
  assert (Forall (λ tf, Forall (λ c, c ≠ HDLC_ESC) tf.1 ∧ zlen tf.1 <= HOST_FRAME_MAX) host_ex) as Hp.
  { unfold host_ex. each; (split; [each; done|unfold HOST_FRAME_MAX, TUN_HOST_MAX, zlen; simpl; lia]). }
  split; [done|]. split; [exact H|].
  destruct (hdlc_stream_roundtrip BLE_LINE_MAX host_ex Demux_init eq_refl H) as [H1 H2].
  split; [exact H1|exact (H2 Hp)].
Defined.

(** The encoder never outgrows its static buffer. *)
Lemma hdlc_write_fits d : zlen d <= HOST_FRAME_MAX → zlen (hdlc_write d) <= HDLC_OUT_MAX.
Proof.
  intros Hd. unfold hdlc_write, HDLC_OUT_MAX. rewrite zlen_cons, zlen_app, zlen_cons, (zlen_nil (A:=Z)).
  assert (zlen (hdlc_stuff d) <= 2 * zlen d) as Hs; [|lia]. clear Hd.
  induction d as [|b d IH]; simpl; [done|]. rewrite zlen_app, zlen_cons.
  case_match; rewrite ?zlen_cons, (zlen_nil (A:=Z)); lia.
Qed.

Lemma tunnel_parse_spec f : wf_bytes f → zlen f < 65536 →
  safe (tunnel_parse f) (λ dp,
    wf_nid dp.1 ∧ f = [TUN_ADDR_LOCATOR; 16] ++ nid_write dp.1 ++ dp.2).
Proof.
  intros Hf Hlen. unfold tunnel_parse. safe_step. safe_step. bools.
  apply safe_bind. eapply safe_eq; [by apply safe_rd with (Q := is_u8); [done|lia|]|].
  intros ty Hty _. apply rd_seg in Hty.
  apply safe_bind. eapply safe_eq; [by apply safe_rd with (Q := is_u8); [done|lia|]|].
  intros al Hal _. apply rd_seg in Hal.
  do 4 safe_step. bools. subst ty al.
  assert (18 <= zlen f) as Hl by zlia. rewrite u16_small by zlia.
  apply safe_bind. eapply safe_eq; [by apply safe_nid_read with (Q := wf_nid); [done|lia|lia|]|].
  intros dst Hdst Hw. apply nid_read_seg in Hdst.
  apply safe_bind. eapply safe_eq; [by apply safe_rdn with (Q := λ _, True); [done|lia|lia|lia|]|].
  intros p Hp _. apply rdn_seg in Hp as [Hp _]. apply safe_ok. split; [done|]. simpl fst. simpl snd.
  rewrite (seg_whole f) at 1. replace (zlen f) with (1 + (1 + (16 + (zlen f - 2 - 16)))) at 1 by lia.
  rewrite !seg_split by lia. rewrite Hty. change (0 + 1) with 1. rewrite Hal. change (1 + 1) with 2.
  rewrite Hdst. change (2 + 16) with 18 in *. by rewrite Hp.
Qed.

(** Reading back an envelope whose payload fits. *)
Lemma tunnel_parse_envelope src p : wf_nid src → zlen p <= TUN_HOST_MAX →
  tunnel_parse ([TUN_ADDR_LOCATOR; 16] ++ nid_write src ++ p) = Ok (src, p).
Proof.
  intros Hsrc Hpl. pose proof (zlen_nonneg p) as Hnn. unfold TUN_HOST_MAX in Hpl.
  set (b := [TUN_ADDR_LOCATOR; 16] ++ nid_write src ++ p).
  assert (zlen b = 18 + zlen p) as Hz.
  { unfold b. rewrite !zlen_app, zlen_nid_write by done. unfold zlen at 1. simpl. lia. }
  pose proof (at_start b) as Hat. unfold b in Hat at 2. unfold tunnel_parse. rewrite Hz.
  rewrite (proj2 (Z.leb_le 2 (18 + zlen p))) by lia. cbn [guard mbind res_bind].
  rewrite (at_rd _ _ _ _ Hat). cbn [mbind res_bind]. apply at_next in Hat. change (0 + 1) with 1 in Hat.
  rewrite (at_rd _ _ _ _ Hat). cbn [mbind res_bind]. apply at_next in Hat. change (1 + 1) with 2 in Hat.
  rewrite (proj2 (Z.leb_le (u16 (2 + 16)) (18 + zlen p))) by zlia. cbn [guard mbind res_bind].
  simpl (negb _ && _ && _). cbn [guard mbind res_bind].
  rewrite (at_nid_read _ _ _ _ Hsrc Hat). cbn [mbind res_bind].
  apply (at_move _ _ 18) in Hat; [|rewrite zlen_nid_write by done; lia].
  rewrite <- (app_nil_r p) in Hat. change (2 + 16) with 18.
  rewrite (at_rdn _ _ _ _ _ Hat); [done|]. rewrite u16_small by zlia. lia.
Qed.

(** The tunnel envelope round trips. What [tunnel_emit] sends for a
    payload is accepted by [tunnel_rx_frame] on the other side with the same
    node id and the payload cut at TUN_HOST_MAX; the parser never reads outside
    a frame of any content and length below 64 KiB; and an accepted frame is
    exactly an envelope. *)
Theorem tunnel_envelope_exact (f : bytes) (src : NodeId) (payload : bytes)
    (Hf : wf_bytes f) (Hlen : zlen f < 65536) (Hsrc : wf_nid src) :
  tunnel_parse (tunnel_envelope src payload) = Ok (src, take (Z.to_nat TUN_HOST_MAX) payload) ∧
  tunnel_parse f ≠ Oob ∧
  (∀ dst p, tunnel_parse f = Ok (dst, p) → wf_nid dst ∧ f = [TUN_ADDR_LOCATOR; 16] ++ nid_write dst ++ p).
Proof.
  pose proof (tunnel_parse_spec f Hf Hlen) as Hs. split; [|split].
  - unfold tunnel_envelope. destruct (Z.ltb_spec TUN_HOST_MAX (zlen payload)) as [|Hle].
    + apply tunnel_parse_envelope; [done|]. unfold zlen, TUN_HOST_MAX. rewrite length_take. lia.
    + rewrite take_ge by (unfold zlen in Hle; lia). by apply tunnel_parse_envelope.
  - by eapply safe_not_oob.
  - intros dst p Heq. rewrite Heq in Hs. exact Hs.
Qed.

Example tunnel_envelope_exact_witness :
  let f := [1; 16] ++ replicate 16 7 ++ [1; 2; 3] in
  wf_bytes f ∧ zlen f < 65536 ∧ wf_nid (nid_from_u32 5) ∧
  tunnel_parse f = Ok (mkNodeId (replicate 16 7), [1; 2; 3]) ∧
  tunnel_parse (tunnel_envelope (nid_from_u32 5) (replicate 900 1))
    = Ok (nid_from_u32 5, take (Z.to_nat TUN_HOST_MAX) (replicate 900 1)) ∧
  tunnel_parse f ≠ Oob ∧
  (∀ dst p, tunnel_parse f = Ok (dst, p) → wf_nid dst ∧ f = [TUN_ADDR_LOCATOR; 16] ++ nid_write dst ++ p).
Proof.
  intros f. assert (wf_bytes f) as Hf by (unfold f, replicate; simpl; each; zlia).
  split; [exact Hf|]. split; [by vm_compute|]. split; [apply wf_nid_u32|]. split; [by vm_compute|].
  apply tunnel_envelope_exact; [exact Hf|by vm_compute|apply wf_nid_u32].
Defined.

(** An oversize frame is not dropped: its first HOST_FRAME_MAX bytes are
    delivered as if they were the frame. *)
Lemma hdlc_oversize_cut :
  host_frames (demux_all CONSOLE_LINE_MAX (hdlc_write (replicate 800 7)) Demux_init).2
    = [replicate 786 7].
Proof. by vm_compute. Qed.
