(* ===== verification/UsbGuard.v ===== *)
(** src/main.cpp, [NonBlockingUSB]: the guard between the firmware's console
    output and the USB serial port, which must not hang the node. *)
From S2P Require Import Prelude.

(** One look at the port: [Serial.availableForWrite()], [(bool)Serial],
    [millis()]. *)
Record UsbPoll := mkPoll { up_avail : Z; up_open : bool; up_ms : Z }.

Inductive UsbEnd := UsbDelivered | UsbHostGone | UsbStalled | UsbBackedUp.

(** The bytes that entered the FIFO, the [stalled] latch, how it ended. *)
Record UsbOut := mkUsbOut { uo_sent : bytes; uo_stalled : bool; uo_end : UsbEnd }.

Definition USB_STALL_MS : Z := 20.
Definition USB_DRAINING : Z := 64.

Section usb_write.
Variables (port : nat → UsbPoll) (b : bytes).
Let n := zlen b.

(** The loop; [i] looks were taken so far. *)
Fixpoint usb_loop (fuel i : nat) (sent stall0 : Z) : option UsbOut :=
  if negb (sent <? n) then Some (mkUsbOut (take (Z.to_nat sent) b) false UsbDelivered) else
  match fuel with
  | O => None
  | S fuel =>
      let p := port i in
      if 0 <? up_avail p then
        let k := n - sent in
        let k := if up_avail p <? k then up_avail p else k in
        usb_loop fuel (S i) (sent + k) 0
      else if negb (up_open p) then Some (mkUsbOut (take (Z.to_nat sent) b) false UsbHostGone)
      else if stall0 =? 0 then usb_loop fuel (S i) sent (up_ms p)
      else if USB_STALL_MS <? u32 (up_ms p - stall0)
           then Some (mkUsbOut (take (Z.to_nat sent) b) true UsbStalled)
           else usb_loop fuel (S i) sent stall0
  end.

(** [free] is the FIFO's room on entry.  The code returns [n] in every case. *)
Definition usb_write (fuel : nat) (free : Z) (stalled : bool) : option UsbOut :=
  if stalled && (free <? USB_DRAINING) then Some (mkUsbOut [] true UsbBackedUp)
  else usb_loop fuel 0 0 0.

(** ** What it leaves in the FIFO *)

(** Everything, or a proper prefix. *)
Definition usb_result (o : UsbOut) : Prop :=
  match uo_end o with
  | UsbDelivered => uo_sent o = b ∧ uo_stalled o = false
  | UsbHostGone => (∃ k, (k < length b)%nat ∧ uo_sent o = take k b) ∧ uo_stalled o = false ∧
      ∃ i, up_open (port i) = false
  | UsbStalled => (∃ k, (k < length b)%nat ∧ uo_sent o = take k b) ∧ uo_stalled o = true ∧
      ∃ i, up_avail (port i) <= 0 ∧ up_open (port i) = true
  | UsbBackedUp => uo_sent o = [] ∧ uo_stalled o = true
  end.

Lemma usb_loop_result fuel i sent stall0 o : 0 <= sent <= n →
  usb_loop fuel i sent stall0 = Some o → usb_result o ∧ uo_end o ≠ UsbBackedUp.
Proof.
  revert i sent stall0. induction fuel as [|fuel IH]; intros i sent stall0 Hs; cbn [usb_loop];
    destruct (Z.ltb_spec sent n) as [Hlt|Hge]; cbn [negb]; try done.
  1, 3: intros [= <-]; split; [|done]; split; [|done]; simpl; apply take_ge; unfold n, zlen in *; lia.
  assert (∃ k, (k < length b)%nat ∧ take (Z.to_nat sent) b = take k b) as Hpre
    by (exists (Z.to_nat sent); split; [unfold n, zlen in *; lia|done]).
  destruct (Z.ltb_spec 0 (up_avail (port i))).
  - apply IH. destruct (Z.ltb_spec (up_avail (port i)) (n - sent)); lia.
  - destruct (up_open (port i)) eqn:Ho; cbn [negb].
    + destruct (stall0 =? 0); [by apply IH|]. destruct (_ <? _); [|by apply IH].
      intros [= <-]. split; [|done]. split; [done|]. split; [done|]. by exists i.
    + intros [= <-]. split; [|done]. split; [done|]. split; [done|]. by exists i.
Qed.

(** A host that keeps draining gets everything. *)
Lemma usb_loop_draining fuel i sent stall0 o : (∀ i, 0 < up_avail (port i)) → 0 <= sent <= n →
  usb_loop fuel i sent stall0 = Some o → uo_end o = UsbDelivered.
Proof.
  intros Hd. revert i sent stall0. induction fuel as [|fuel IH]; intros i sent stall0 Hs; cbn [usb_loop];
    destruct (Z.ltb_spec sent n) as [Hlt|Hge]; cbn [negb]; try done; try by intros [= <-].
  destruct (Z.ltb_spec 0 (up_avail (port i))); [|specialize (Hd i); lia].
  apply IH. destruct (Z.ltb_spec (up_avail (port i)) (n - sent)); lia.
Qed.

(** ** It always returns

    [T]: the time of each look, of which [millis()] shows the low 32 bits.
    Looks are less than 2^31 ms apart, and [yield()] lets at least a millisecond
    pass in every [K] of them. *)
Record usb_clock (T : nat → Z) (K : nat) : Prop := {
  uc_ms i : up_ms (port i) = u32 (T i);
  uc_step i : T i <= T (S i) < T i + 2147483648;
  uc_tick i : T i + 1 <= T (i + K)%nat }.

Section clock.
Variables (T : nat → Z) (K : nat).
Hypothesis Hclock : usb_clock T K.

Lemma clock_mono i j : (i <= j)%nat → T i <= T j.
Proof. induction 1 as [|j _ IH]; [lia|]. pose proof (uc_step _ _ Hclock j). lia. Qed.

Lemma clock_ticks i m : T i + Z.of_nat m <= T (i + m * K)%nat.
Proof.
  induction m as [|m IH]; [rewrite Nat.add_0_r; lia|].
  pose proof (uc_tick _ _ Hclock (i + m * K)%nat). replace (i + S m * K)%nat with (i + m * K + K)%nat by lia. lia.
Qed.

(** Looks one stalled stretch can take, and the one that ends it. *)
Definition stretch : nat := 22 * K + 2.

(** The stall timer runs since look [p]. *)
Definition armed (p i : nat) : Prop := (p < i <= p + 21 * K)%nat ∧ T (i - 1)%nat <= T p + 20.
(** No progress since look [j], and the timer is not set: [millis()] was 0. *)
Definition unarmed (j i : nat) : Prop := (j <= i <= j + K)%nat ∧ (i = j ∨ u32 (T j) = 0 ∧ T (i - 1)%nat = T j).

Lemma unarmed_zero j i : unarmed j i → u32 (T i) = 0 → unarmed j (S i).
Proof.
  intros [Hi Hj] H0. assert (u32 (T j) = 0 ∧ T i = T j) as [Hz He].
  { destruct Hj as [->|[Hz Hp]]; [done|]. split; [done|]. destruct (decide (i = j)) as [->|]; [done|].
    pose proof (uc_step _ _ Hclock (i - 1)%nat) as Hs. replace (S (i - 1)) with i in Hs by lia. zlia. }
  split; [|right; replace (S i - 1)%nat with i by lia; done].
  split; [lia|]. destruct (decide (i = j + K)%nat) as [->|]; [|lia]. pose proof (uc_tick _ _ Hclock j). lia.
Qed.

Lemma armed_step p i : armed p i → u32 (u32 (T i) - u32 (T p)) <= 20 → armed p (S i).
Proof.
  intros [Hi Hp] He. pose proof (uc_step _ _ Hclock (i - 1)%nat) as Hs. replace (S (i - 1)) with i in Hs by lia.
  pose proof (clock_mono p i ltac:(lia)).
  assert (u32 (u32 (T i) - u32 (T p)) = T i - T p) as Hu.
  { transitivity (u32 (T i - T p)); [|apply u32_small; zlia]. unfold u32. by rewrite <- Zminus_mod. }
  rewrite Hu in He. split; [|replace (S i - 1)%nat with i by lia; lia].
  split; [lia|]. destruct (decide (i = p + 21 * K)%nat) as [->|]; [|lia].
  pose proof (clock_ticks p 21). lia.
Qed.

Lemma usb_loop_ends fuel i sent stall0 : 0 <= sent <= n →
  ((∃ j, unarmed j i ∧ stall0 = 0 ∧ (Z.to_nat (n - sent) * stretch <= fuel + (i - j))%nat) ∨
   (∃ p, armed p i ∧ sent < n ∧ stall0 = u32 (T p) ∧ stall0 ≠ 0 ∧
      ((Z.to_nat (n - sent) - 1) * stretch + 21 * K + 2 <= fuel + (i - p))%nat)) →
  ∃ o, usb_loop fuel i sent stall0 = Some o.
Proof.
  assert (stretch = 22 * K + 2)%nat as HB by done.
  revert i sent stall0. induction fuel as [|fuel IH]; intros i sent stall0 Hs Hst; cbn [usb_loop];
    destruct (Z.ltb_spec sent n) as [Hlt|Hge]; cbn [negb]; try by eexists.
  all: destruct (Z.to_nat (n - sent)) as [|m] eqn:Hm; [lia|].
  all: replace (S m - 1)%nat with m in Hst by lia; rewrite Nat.mul_succ_l in Hst; set (x := (m * stretch)%nat) in *.
  { exfalso. destruct Hst as [(j & [Hj _] & _ & Hf)|(p & [Hp _] & _ & _ & _ & Hf)]; lia. }
  destruct (Z.ltb_spec 0 (up_avail (port i))) as [Hav|_].
  { set (k := if up_avail (port i) <? n - sent then _ else _).
    assert (1 <= k <= n - sent) as Hk by (unfold k; destruct (Z.ltb_spec (up_avail (port i)) (n - sent)); lia).
    apply IH; [lia|]. left. exists (S i). split; [split; [lia|by left]|]. split; [done|].
    transitivity x; [apply Nat.mul_le_mono_r; lia|].
    destruct Hst as [(j & [Hj _] & _ & Hf)|(p & [Hp _] & _ & _ & _ & Hf)]; lia. }
  destruct (up_open (port i)); cbn [negb]; [|by eexists]. rewrite (uc_ms _ _ Hclock).
  destruct Hst as [(j & Hj & -> & Hf)|(p & Hp & _ & -> & Hne & Hf)].
  - simpl. destruct (decide (u32 (T i) = 0)) as [Hz|Hz].
    + rewrite Hz. apply IH; [lia|]. left. exists j. rewrite Hm, Nat.mul_succ_l. split; [by apply unarmed_zero|].
      split; [done|]. destruct Hj. fold x. lia.
    + apply IH; [lia|]. right. exists i. rewrite Hm. pose proof (uc_tick _ _ Hclock i). destruct Hj as [Hj _].
      assert (K ≠ 0)%nat by (intros ->; rewrite Nat.add_0_r in *; lia).
      split; [split; [lia|replace (S i - 1)%nat with i by lia; lia]|]. split; [done|]. split; [done|]. split; [done|].
      replace (S m - 1)%nat with m by lia. fold x. lia.
  - destruct (Z.eqb_spec (u32 (T p)) 0); [done|].
    destruct (Z.ltb_spec USB_STALL_MS (u32 (u32 (T i) - u32 (T p)))) as [|Hle]; [by eexists|].
    apply IH; [lia|]. right. exists p. rewrite Hm. split; [by apply armed_step|]. destruct Hp.
    replace (S m - 1)%nat with m by lia. fold x. split; [done|]. split; [done|]. split; [done|]. lia.
Qed.
End clock.
End usb_write.

(** C19: console output never hangs the node. Whatever the USB host does, a
    write of any length returns, after at most [22 K + 2] looks at the port per
    byte: the FIFO took the whole buffer, or a proper prefix of it because the
    host went away or left the FIFO full for more than 20 ms (and then the
    latch is set), or, with the latch already set and less than 64 bytes of
    room, nothing at all, at once. A host that keeps draining always gets the
    whole buffer, larger than the FIFO or not, and clears the latch. *)
Theorem usb_write_returns (port : nat → UsbPoll) (b : bytes) (T : nat → Z) (K fuel : nat) (free : Z) (stalled : bool)
    (Hclock : usb_clock port T K) (Hfuel : (length b * stretch K <= fuel)%nat) :
  ∃ o, usb_write port b fuel free stalled = Some o ∧ usb_result port b o ∧
    (uo_end o = UsbBackedUp ↔ stalled = true ∧ free < USB_DRAINING) ∧
    ((∀ i, 0 < up_avail (port i)) → uo_end o ≠ UsbBackedUp → uo_end o = UsbDelivered ∧ uo_sent o = b).
Proof.
  unfold usb_write. destruct (stalled && (free <? USB_DRAINING)) eqn:Hs.
  { eexists. split; [done|]. bools. split; [done|]. split; [|done]. by split. }
  pose proof (zlen_nonneg b).
  destruct (usb_loop_ends port b T K Hclock fuel 0 0 0) as [o Ho]; [lia| |].
  { left. exists O. split; [split; [lia|by left]|]. split; [done|]. rewrite Z.sub_0_r, to_nat_zlen. lia. }
  exists o. split; [done|]. destruct (usb_loop_result port b fuel 0 0 0 o) as [Hr Hne]; [lia|done|].
  split; [done|]. split.
  - split; [done|]. intros [-> Hf%Z.ltb_lt]. by rewrite Hf in Hs.
  - intros Hd _. pose proof (usb_loop_draining port b fuel 0 0 0 o Hd ltac:(lia) Ho) as He. split; [done|].
    unfold usb_result in Hr. rewrite He in Hr. apply Hr.
Qed.

(** The FIFO takes three bytes and is never read again. *)
Definition stalled_port_ex (i : nat) : UsbPoll :=
  mkPoll (if decide (i = O) then 3 else 0) true (u32 (100 + Z.of_nat i)).

Example usb_write_returns_witness :
  usb_clock stalled_port_ex (λ i, 100 + Z.of_nat i) 1 ∧
  usb_write stalled_port_ex [1; 2; 3; 4; 5] 120 256 false = Some (mkUsbOut [1; 2; 3] true UsbStalled) ∧
  ∃ o, usb_write stalled_port_ex [1; 2; 3; 4; 5] 120 256 false = Some o ∧ usb_result stalled_port_ex [1; 2; 3; 4; 5] o.
Proof.
  assert (usb_clock stalled_port_ex (λ i, 100 + Z.of_nat i) 1) as Hc by (split; intros i; simpl; [done|lia|lia]).
  split; [done|]. split; [reflexivity|].
  destruct (usb_write_returns stalled_port_ex [1; 2; 3; 4; 5] _ 1 120 256 false Hc ltac:(vm_compute; lia))
    as (o & Ho & Hr & _).
  by exists o.
Defined.
