(* ===== verification/HostWrite.v ===== *)
(** src/main.cpp, [host_write]: how a frame leaves for the attached host, handed
    whole to the USB guard (UsbGuard), or in notification packets over BLE. *)
From S2P Require Import Prelude Hdlc.

(** One [bleuart.write] of a packet, and what the loop looks at after it. *)
Record Attempt := mkAttempt {
  at_accepted : bool;      (* it returned the packet's length *)
  at_connected : bool;     (* ble_connected, afterwards *)
  at_elapsed : Z }.        (* millis() - t0, afterwards *)

(** The BLE stack while one frame is written. *)
Record BleLink := mkBleLink {
  bl_connected : bool;           (* ble_connected on entry *)
  bl_subscribed : bool;          (* bleuart.notifyEnabled() *)
  bl_mtu : option Z;             (* conn->getMtu(), if there is a connection object *)
  bl_attempt : nat → Attempt }.  (* the packets written, in order *)

(** ble_tx_qfull, ble_tx_drops, ble_txb and [warn_ms]. *)
Record HostTx := mkHostTx { ht_qfull : Z; ht_drops : Z; ht_txb : Z; ht_warn_ms : Z }.

(** The console lines. *)
Inductive HwLine := NoSubscriber (frame : Z) | NotifyDrop (frame off : Z).

Inductive HwEnd := HwUsb | HwNoSubscriber | HwDelivered | HwLinkDied | HwDropped.

(** What left [host_write]: the packets the stack accepted (over USB the frame
    itself, as it is handed to the guard), in order; the counters; the console lines; how it ended. *)
Record HwOut := mkHwOut { ho_sent : list bytes; ho_tx : HostTx; ho_lines : list HwLine; ho_end : HwEnd }.

Definition BLE_FRAME_BUDGET_MS : Z := 1200.
Definition BLE_WARN_GAP_MS : Z := 5000.

Definition ble_chunk (mtu : option Z) : Z :=
  let ch := match mtu with Some m => u16 (m - 3) | None => 20 end in
  let ch := if ch <? 20 then 20 else ch in
  if 244 <? ch then 244 else ch.

Lemma ble_chunk_range mtu : 20 <= ble_chunk mtu <= 244.
Proof. unfold ble_chunk. repeat case_match; bools; lia. Qed.

Section host_write.
Variables (link : BleLink) (d : bytes).
Let n := zlen d.
Let ch := ble_chunk (bl_mtu link).

(** The packet at [off]. *)
Definition ble_packet (off : Z) : bytes :=
  let k := if n - off <? ch then n - off else ch in
  take (Z.to_nat k) (drop (Z.to_nat off) d).

(** The loop; [i] packets were written so far. *)
Fixpoint ble_send (fuel i : nat) (off : Z) (sent : list bytes) (t : HostTx) : option HwOut :=
  if negb (off <? n)
  then Some (mkHwOut sent (mkHostTx (ht_qfull t) (ht_drops t) (u32 (ht_txb t + n)) (ht_warn_ms t)) [] HwDelivered) else
  match fuel with
  | O => None
  | S fuel =>
      let p := ble_packet off in
      let a := bl_attempt link i in
      if at_accepted a then ble_send fuel (S i) (u16 (off + zlen p)) (sent ++ [p]) t else
      let t := mkHostTx (u32 (ht_qfull t + 1)) (ht_drops t) (ht_txb t) (ht_warn_ms t) in
      if negb (at_connected a) then Some (mkHwOut sent t [] HwLinkDied) else
      if BLE_FRAME_BUDGET_MS <? i32 (at_elapsed a)
      then Some (mkHwOut sent (mkHostTx (ht_qfull t) (u32 (ht_drops t + 1)) (ht_txb t) (ht_warn_ms t))
                   [NotifyDrop n off] HwDropped)
      else ble_send fuel (S i) off sent t
  end.

Definition host_write (fuel : nat) (now : Z) (t : HostTx) : option HwOut :=
  if bl_connected link then
    if negb (bl_subscribed link) then
      let drops := u32 (ht_drops t + 1) in
      if 0 <=? i32 (now - ht_warn_ms t)
      then Some (mkHwOut [] (mkHostTx (ht_qfull t) drops (ht_txb t) (u32 (now + BLE_WARN_GAP_MS))) [NoSubscriber n] HwNoSubscriber)
      else Some (mkHwOut [] (mkHostTx (ht_qfull t) drops (ht_txb t) (ht_warn_ms t)) [] HwNoSubscriber)
    else ble_send fuel 0 0 [] t
  else Some (mkHwOut [d] t [] HwUsb).

(** ** Nothing is sent twice, nothing is skipped *)

Lemma ble_packet_spec off : 0 <= off < n →
  1 <= zlen (ble_packet off) <= ch ∧ off + zlen (ble_packet off) <= n ∧
  take (Z.to_nat off) d ++ ble_packet off = take (Z.to_nat (off + zlen (ble_packet off))) d ∧
  (zlen (ble_packet off) = ch ∨ off + zlen (ble_packet off) = n).
Proof.
  intros Ho. pose proof (ble_chunk_range (bl_mtu link)) as Hc. fold ch in Hc. unfold ble_packet.
  set (k := if n - off <? ch then n - off else ch).
  assert (1 <= k <= ch ∧ off + k <= n ∧ (k = ch ∨ off + k = n)) as (H1 & H2 & H3).
  { unfold k. destruct (Z.ltb_spec (n - off) ch); lia. }
  assert (zlen (take (Z.to_nat k) (drop (Z.to_nat off) d)) = k) as ->.
  { unfold n, zlen in *. rewrite length_take, length_drop. lia. }
  split; [done|]. split; [done|]. split; [|done].
  rewrite take_take_drop. f_equal. lia.
Qed.

(** The whole frame in maximal packets, or a proper prefix of it. *)
Definition hw_result (o : HwOut) : Prop :=
  Forall (λ p, 1 <= zlen p <= ch) (ho_sent o) ∧
  match ho_end o with
  | HwDelivered => concat (ho_sent o) = d
  | HwLinkDied | HwDropped => ∃ off, 0 <= off < n ∧ concat (ho_sent o) = take (Z.to_nat off) d
  | HwUsb | HwNoSubscriber => False
  end.

Lemma ble_send_result fuel i off sent t o : n < 65536 → 0 <= off <= n →
  Forall (λ p, 1 <= zlen p <= ch) sent → concat sent = take (Z.to_nat off) d →
  ble_send fuel i off sent t = Some o → hw_result o.
Proof.
  intros Hn. revert i off sent t. induction fuel as [|fuel IH]; intros i off sent t Ho Hs Hc; cbn [ble_send];
    destruct (Z.ltb_spec off n) as [Hlt|Hge]; cbn [negb]; try done.
  - intros [= <-]. split; [done|]. simpl. rewrite Hc. apply take_ge. unfold n, zlen in *. lia.
  - destruct (ble_packet_spec off) as (H1 & H2 & H3 & _); [lia|]. destruct (at_accepted _).
    + rewrite u16_small by (split; lia). apply IH; [lia|apply Forall_app; split; [done|by constructor]|].
      rewrite concat_app, Hc, <- H3. simpl. by rewrite app_nil_r.
    + destruct (negb _); [intros [= <-]; split; [done|exists off; split; [lia|done]]|].
      destruct (_ <? _); [intros [= <-]; split; [done|exists off; split; [lia|done]]|]. by apply IH.
  - intros [= <-]. split; [done|]. simpl. rewrite Hc. apply take_ge. unfold n, zlen in *. lia.
Qed.

Lemma ble_send_counts fuel i off sent t o : ble_send fuel i off sent t = Some o →
  match ho_end o with
  | HwDelivered => ht_txb (ho_tx o) = u32 (ht_txb t + n) ∧ ht_drops (ho_tx o) = ht_drops t
  | HwDropped => ht_drops (ho_tx o) = u32 (ht_drops t + 1)
  | _ => True
  end.
Proof.
  revert i off sent t. induction fuel as [|fuel IH]; intros i off sent t; cbn [ble_send]; (destruct (negb (off <? n)); [by intros [= <-]|]); [done|].
  destruct (at_accepted _); [apply IH|]. destruct (negb (at_connected _)); [by intros [= <-]|].
  destruct (_ <? _); [by intros [= <-]|]. intros Hs. exact (IH _ _ _ _ Hs).
Qed.

(** ** It always ends *)

(** How many of the first [i] attempts failed. *)
Fixpoint failed (i : nat) : Z :=
  match i with
  | O => 0
  | S i => failed i + if at_accepted (bl_attempt link i) then 0 else 1
  end.
(** Every failed attempt is followed by [delay(2)], and [millis()] is not about
    to wrap around within one frame. *)
Definition clock_runs : Prop := ∀ i, failed i <= 601 → 2 * failed i <= at_elapsed (bl_attempt link i) < 2147483648.

Lemma failed_nonneg i : 0 <= failed i.
Proof. induction i as [|i IH]; simpl; [lia|]. case_match; lia. Qed.

(** [600] failures fit into the budget, one more gives up. *)
Lemma ble_send_ends fuel i off sent t : clock_runs → n < 65536 → 0 <= off <= n →
  (n - off + ch - 1) / ch + (602 - failed i) <= Z.of_nat fuel → failed i <= 601 →
  ∃ o, ble_send fuel i off sent t = Some o.
Proof.
  intros Hclock Hn. pose proof (ble_chunk_range (bl_mtu link)) as Hch. fold ch in Hch. revert i off sent t.
  induction fuel as [|fuel IH]; intros i off sent t Ho Hf Hi; cbn [ble_send]; destruct (Z.ltb_spec off n) as [Hlt|Hge]; cbn [negb]; eauto.
  - assert (0 <= (n - off + ch - 1) / ch) by (apply Z.div_pos; lia). lia.
  - destruct (ble_packet_spec off) as (H1 & H2 & _ & H4); [lia|]. pose proof (Hclock i Hi) as Hc.
    destruct (at_accepted (bl_attempt link i)) eqn:Ha.
    + rewrite u16_small by (split; lia). apply IH; [lia| |simpl; rewrite Ha; lia].
      simpl. rewrite Ha. set (k := zlen (ble_packet off)) in *.
      assert ((n - (off + k) + ch - 1) / ch <= (n - off + ch - 1) / ch - 1); [|lia].
      destruct H4 as [-> | E].
      * replace (n - off + ch - 1) with (n - (off + ch) + ch - 1 + 1 * ch) by lia. rewrite Z.div_add by lia. lia.
      * rewrite E. rewrite Z.sub_diag, (Z.div_small (0 + ch - 1)) by lia.
        assert (1 <= (n - off + ch - 1) / ch); [|lia]. apply Z.div_le_lower_bound; lia.
    + destruct (negb _); [eauto|]. destruct (Z.ltb_spec BLE_FRAME_BUDGET_MS (i32 (at_elapsed (bl_attempt link i)))) as [|Hb]; [eauto|].
      unfold BLE_FRAME_BUDGET_MS, i32 in Hb. pose proof (failed_nonneg i). rewrite u32_small in Hb by zlia.
      rewrite (proj2 (Z.ltb_lt _ _)) in Hb by lia.
      apply IH; [done| |]; simpl; rewrite Ha; lia.
Qed.
End host_write.

(** C20: a frame leaves whole, or is cut and abandoned, in bounded time. For any behaviour of
    the BLE stack, within one attempt per packet and 602 failed ones: without a BLE
    client the frame goes out over USB; without a subscriber nothing is sent and
    the drop is counted; otherwise the accepted packets, each at most one
    notification long, are in order exactly the frame (and its bytes are counted), or, when the link died
    or the 1.2 s budget ran out, exactly a proper prefix of it: no byte is sent
    twice and none is skipped. *)
Theorem host_write_whole_or_prefix (link : BleLink) (d : bytes) (now : Z) (t : HostTx) (fuel : nat)
    (Hclock : clock_runs link) (Hd : zlen d < 65536)
    (Hfuel : (zlen d + ble_chunk (bl_mtu link) - 1) / ble_chunk (bl_mtu link) + 602 <= Z.of_nat fuel) :
  ∃ o, host_write link d fuel now t = Some o ∧
    Forall (λ p, zlen p <= 244 ∨ p = d) (ho_sent o) ∧
    match ho_end o with
    | HwUsb => bl_connected link = false ∧ concat (ho_sent o) = d ∧ ho_tx o = t
    | HwNoSubscriber => bl_subscribed link = false ∧ ho_sent o = [] ∧ ht_drops (ho_tx o) = u32 (ht_drops t + 1)
    | HwDelivered => concat (ho_sent o) = d ∧ ht_txb (ho_tx o) = u32 (ht_txb t + zlen d) ∧ ht_drops (ho_tx o) = ht_drops t
    | HwLinkDied => ∃ off, 0 <= off < zlen d ∧ concat (ho_sent o) = take (Z.to_nat off) d
    | HwDropped => ht_drops (ho_tx o) = u32 (ht_drops t + 1) ∧
        ∃ off, 0 <= off < zlen d ∧ concat (ho_sent o) = take (Z.to_nat off) d
    end.
Proof.
  unfold host_write. destruct (bl_connected link).
  2: { eexists. split; [done|]. split; [by constructor; [right|]|]. simpl. by rewrite app_nil_r. }
  destruct (bl_subscribed link); cbn [negb].
  2: { case_match; eexists; (split; [done|]); by split. }
  destruct (ble_send_ends link d fuel 0 0 [] t Hclock Hd) as [o Ho]; [pose proof (zlen_nonneg d); lia| |simpl; lia|].
  { rewrite Z.sub_0_r. simpl. lia. }
  exists o. split; [exact Ho|]. destruct (ble_send_result link d fuel 0 0 [] t o Hd) as [Hs Hr]; try done.
  { pose proof (zlen_nonneg d). lia. }
  split.
  { eapply Forall_impl; [exact Hs|]. intros p Hp. left. pose proof (ble_chunk_range (bl_mtu link)). simpl in Hp. lia. }
  pose proof (ble_send_counts link d fuel 0 0 [] t o Ho) as Hc.
  by destruct (ho_end o).
Qed.

(** ** What the receiver makes of a frame that was abandoned *)

(** Inside a frame, bytes that are no flag complete nothing. *)
Lemma inside_decode line_max l d : dx_in d = true → Forall (λ c, c ≠ HDLC_FLAG) l →
  ∃ d' evs, demux_all line_max l d = (d', evs) ∧ host_frames evs = [] ∧ dx_in d' = true.
Proof.
  intros Hi Hl. revert d Hi. induction Hl as [|c l Hc _ IH]; intros d Hi; [by exists d, []|]. cbn [demux_all].
  assert (∃ d1, demux_byte line_max c d = (d1, HNothing) ∧ dx_in d1 = true) as (d1 & -> & Hi1).
  { unfold demux_byte. rewrite (proj2 (Z.eqb_neq c HDLC_FLAG)), Hi by done. repeat case_match; eauto. }
  destruct (IH d1 Hi1) as (d2 & evs & -> & He & Hi2). by exists d2, (HNothing :: evs).
Qed.

Lemma head_desyncs line_max off f gs d : dx_in d = false → 0 < off < zlen (hdlc_write f) →
  let head := take (Z.to_nat off) (hdlc_write f) in
  let cut := dx_frame (demux_all line_max head d).1 in
  host_frames (demux_all line_max (head ++ flat_map hdlc_write gs) d).2 =
    match gs with [] => [] | _ :: _ => if 0 <? zlen cut then [cut] else [] end.
Proof.
  intros Hidle Hoff head cut. assert (∃ m, head = HDLC_FLAG :: m ∧ Forall (λ c, c ≠ HDLC_FLAG) m) as (m & Hm & Hnf).
  { unfold head, hdlc_write in *. replace (Z.to_nat off) with (S (Z.to_nat (off - 1))) by lia. rewrite firstn_cons.
    eexists. split; [done|]. rewrite zlen_cons, zlen_app in Hoff. change (zlen [HDLC_FLAG]) with 1 in Hoff.
    rewrite take_app_le by (unfold zlen in Hoff; lia). apply Forall_take, stuff_no_flag. }
  assert (∃ d1 e1, demux_all line_max head d = (d1, e1) ∧ host_frames e1 = [] ∧ dx_in d1 = true) as (d1 & e1 & H1 & He1 & Hi1).
  { rewrite Hm. cbn [demux_all]. unfold demux_byte at 1. cbn [Z.eqb HDLC_FLAG Pos.eqb]. rewrite Hidle.
    destruct (inside_decode line_max m (mkDemux [] [] true false) eq_refl Hnf) as (d1 & e1 & -> & He & Hi1).
    by exists d1, (HNothing :: e1). }
  assert (∀ gs d, dx_in d = true → dx_frame d = [] → host_frames (demux_all line_max (flat_map hdlc_write gs) d).2 = []) as Hrest.
  { clear. intros gs. induction gs as [|g gs IH]; intros d Hi Hf; [done|]. cbn [flat_map].
    destruct (frame_out_of_step line_max g d Hi) as (d' & evs & H1 & He & ->).
    rewrite demux_all_app, H1. specialize (IH (mkDemux [] [] true false) eq_refl eq_refl). destruct (demux_all line_max _ (mkDemux _ _ _ _)) as [d2 e2]. simpl in *.
    rewrite host_frames_app, He, IH, Hf. done. }
  unfold cut. rewrite demux_all_app, H1. cbn [fst]. destruct gs as [|g gs]; cbn [flat_map]; [simpl; by rewrite app_nil_r|].
  destruct (frame_out_of_step line_max g d1 Hi1) as (d2 & e2 & H2 & He2 & ->).
  rewrite demux_all_app, H2. specialize (Hrest gs (mkDemux [] [] true false) eq_refl eq_refl). destruct (demux_all line_max _ (mkDemux _ _ _ _)) as [d3 e3]. simpl in *.
  by rewrite !host_frames_app, He1, He2, Hrest, app_nil_r.
Qed.

(** C21: an abandoned frame takes every later one with it. [host_write] gave a frame up
    after some of its packets had left. A receiver that demultiplexes the stream
    the way this firmware does (a flag closes an open frame and never opens the
    next) then hears whole frames, as many as you like, and recovers
    none of them: at most one frame comes out, the truncated one. *)
Theorem aborted_frame_desyncs (link : BleLink) (f : bytes) (fuel : nat) (now : Z) (t : HostTx) (o : HwOut)
    (line_max : Z) (gs : list bytes) (d : Demux)
    (Hf : zlen (hdlc_write f) < 65536) (Hw : host_write link (hdlc_write f) fuel now t = Some o)
    (Hend : ho_end o = HwDropped) (Hsent : ho_sent o ≠ []) (Hidle : dx_in d = false) :
  let cut := dx_frame (demux_all line_max (concat (ho_sent o)) d).1 in
  host_frames (demux_all line_max (concat (ho_sent o) ++ flat_map hdlc_write gs) d).2 =
    match gs with [] => [] | _ :: _ => if 0 <? zlen cut then [cut] else [] end.
Proof.
  assert (hw_result link (hdlc_write f) o) as [Hs Hr].
  { unfold host_write in Hw. destruct (bl_connected link); [|by injection Hw as <-].
    destruct (negb (bl_subscribed link)); [by destruct (0 <=? _); injection Hw as <-|].
    apply (ble_send_result link (hdlc_write f) fuel 0 0 [] t); done. }
  rewrite Hend in Hr. destruct Hr as (off & Hoff & Hcut). cbv zeta. rewrite Hcut.
  apply head_desyncs; [done|]. split; [|lia]. destruct (decide (off = 0)) as [->|]; [|lia]. exfalso.
  destruct (ho_sent o) as [|q qs]; [done|]. apply Forall_cons in Hs as [Hq _].
  apply (f_equal length) in Hcut. simpl in Hcut. rewrite length_app in Hcut. unfold zlen in Hq. lia.
Qed.

(** A stack that takes two packets and then is busy for ever. *)
Definition stuck_link : BleLink :=
  mkBleLink true true (Some 23) (λ i, mkAttempt (bool_decide (i < 2)%nat) true (Z.min 1000000 (700 * Z.max 0 (Z.of_nat i - 2)))).

Lemma stuck_failed i : failed stuck_link i = Z.max 0 (Z.of_nat i - 2).
Proof. induction i as [|i IH]; [done|]. cbn [failed]. rewrite IH. simpl. case_bool_decide; lia. Qed.

Example host_write_whole_or_prefix_witness :
  let d := hdlc_write (replicate 60 7) in
  ∃ o, host_write stuck_link d 610 0 (mkHostTx 0 0 0 0) = Some o ∧ ho_end o = HwDropped ∧ ht_drops (ho_tx o) = 1.
Proof.
  intros d. assert (clock_runs stuck_link) as Hc.
  { intros i. rewrite stuck_failed. cbn [stuck_link bl_attempt at_elapsed]. lia. }
  assert (zlen d < 65536) as Hd by (by vm_compute).
  assert ((zlen d + ble_chunk (bl_mtu stuck_link) - 1) / ble_chunk (bl_mtu stuck_link) + 602 <= Z.of_nat 610) as Hf by (by vm_compute).
  destruct (host_write_whole_or_prefix stuck_link d 0 (mkHostTx 0 0 0 0) 610 Hc Hd Hf) as (o & Ho & _ & He).
  exists o. split; [exact Ho|].
  assert (ho_end o = HwDropped) as E.
  { change (ho_end o) with (default HwUsb (ho_end <$> Some o)). rewrite <- Ho. by vm_compute. }
  rewrite E in He. split; [exact E|]. exact (proj1 He).
Defined.

Example aborted_frame_desyncs_witness :
  ∃ o, host_write stuck_link (hdlc_write (replicate 60 7)) 610 0 (mkHostTx 0 0 0 0) = Some o ∧ ho_end o = HwDropped ∧
  host_frames (demux_all BLE_LINE_MAX (concat (ho_sent o) ++ flat_map hdlc_write [[1; 2]; [3; 4]; [5; 6]]) Demux_init).2 = [replicate 39 7].
Proof.
  set (f := replicate 60 7). set (t0 := mkHostTx 0 0 0 0).
  destruct (host_write stuck_link (hdlc_write f) 610 0 t0) as [o|] eqn:Ho; [|vm_compute in Ho; discriminate Ho].
  exists o. split; [reflexivity|].
  assert (ho_end o = HwDropped ∧ concat (ho_sent o) = take 40 (hdlc_write f)) as [E1 E2].
  { vm_compute in Ho. injection Ho as <-. split; by vm_compute. }
  split; [exact E1|]. assert (zlen (hdlc_write f) < 65536) as Hf by (by vm_compute).
  assert (ho_sent o ≠ []) as Hs by (intros E; rewrite E in E2; vm_compute in E2; discriminate E2).
  pose proof (aborted_frame_desyncs stuck_link f 610 0 t0 o BLE_LINE_MAX [[1; 2]; [3; 4]; [5; 6]] Demux_init Hf Ho E1 Hs eq_refl) as H.
  cbv zeta in H. etrans; [exact H|]. rewrite E2. by vm_compute.
Defined.
