(* ===== verification/Node.v ===== *)
(** src/main.cpp: the firmware's static state as one record, built from the state
    of its parts.

    The pointers [router] and [forwarder] are set once in [setup] and are never
    null afterwards: the model starts there.  [micros()], [millis()] and
    [random()] are arguments of the handlers.  Console text that only logs is
    not modelled; what a handler delivers to the attached host is appended to
    [n_host], and the radio driver's calls to [n_ops]. *)
From S2P Require Import Prelude Update SlotTable Float32 MeshTypes Router AnnounceCodec Forwarder LinkArq Packet Sar NodeTable Telemetry LocatorDir RadioHal TxQueue.
From Stdlib Require Import SpecFloat.

(** What an attached host receives. *)
Inductive HostOut :=
  | ToHost (frame : bytes)                              (* host_write of an HDLC frame *)
  | ToKiss (frame : bytes)                              (* Serial.write of a KISS frame *)
  | LocLine (id : bytes) (loc : NodeId)                 (* "loc <id> <node>" *)
  | LocBusy                                             (* "loc busy" *)
  | AnnLine (id : NodeId) (pub : option bytes)          (* "[ann] <id> pub=.. sig=ok" / "sig=bad" *)
  | StatusLine (origin : NodeId) (m : TelemMsg)         (* "[status] ..." *)
  | CtrlAckLine (origin : NodeId) (cmd applied provisional counter : Z)
  | DataLine (src : NodeId) (pkt_id : Z) (payload : bytes)
  | DumpLines (blob : bytes).                           (* [DUMP] .. [ENDDUMP] *)

(** ** SAR, sender and receiver side *)

Record SarTx := mkSarTx {
  st_blob : bytes;   (* sar_buf[0 .. sar_len) *)
  st_crc : Z;
  st_xfer_id : Z;
  st_active : bool;
  st_dst : NodeId;
  st_idx : Z;
  st_count : Z;
  st_resend : list Z;   (* sar_resend[0 .. sar_resend_n) *)
  st_resend_idx : Z;
  st_resend_active : bool;
  st_done_ms : Z }.

#[export] Instance st_blob_upd : Update st_blob := λ f r, mkSarTx (f (st_blob r)) (st_crc r)
  (st_xfer_id r) (st_active r) (st_dst r) (st_idx r) (st_count r) (st_resend r) (st_resend_idx
  r) (st_resend_active r) (st_done_ms r).
#[export] Instance st_crc_upd : Update st_crc := λ f r, mkSarTx (st_blob r) (f (st_crc r))
  (st_xfer_id r) (st_active r) (st_dst r) (st_idx r) (st_count r) (st_resend r) (st_resend_idx
  r) (st_resend_active r) (st_done_ms r).
#[export] Instance st_xfer_id_upd : Update st_xfer_id := λ f r, mkSarTx (st_blob r) (st_crc r)
  (f (st_xfer_id r)) (st_active r) (st_dst r) (st_idx r) (st_count r) (st_resend r)
  (st_resend_idx r) (st_resend_active r) (st_done_ms r).
#[export] Instance st_active_upd : Update st_active := λ f r, mkSarTx (st_blob r) (st_crc r)
  (st_xfer_id r) (f (st_active r)) (st_dst r) (st_idx r) (st_count r) (st_resend r)
  (st_resend_idx r) (st_resend_active r) (st_done_ms r).
#[export] Instance st_dst_upd : Update st_dst := λ f r, mkSarTx (st_blob r) (st_crc r)
  (st_xfer_id r) (st_active r) (f (st_dst r)) (st_idx r) (st_count r) (st_resend r)
  (st_resend_idx r) (st_resend_active r) (st_done_ms r).
#[export] Instance st_idx_upd : Update st_idx := λ f r, mkSarTx (st_blob r) (st_crc r)
  (st_xfer_id r) (st_active r) (st_dst r) (f (st_idx r)) (st_count r) (st_resend r)
  (st_resend_idx r) (st_resend_active r) (st_done_ms r).
#[export] Instance st_count_upd : Update st_count := λ f r, mkSarTx (st_blob r) (st_crc r)
  (st_xfer_id r) (st_active r) (st_dst r) (st_idx r) (f (st_count r)) (st_resend r)
  (st_resend_idx r) (st_resend_active r) (st_done_ms r).
#[export] Instance st_resend_upd : Update st_resend := λ f r, mkSarTx (st_blob r) (st_crc r)
  (st_xfer_id r) (st_active r) (st_dst r) (st_idx r) (st_count r) (f (st_resend r))
  (st_resend_idx r) (st_resend_active r) (st_done_ms r).
#[export] Instance st_resend_idx_upd : Update st_resend_idx := λ f r, mkSarTx (st_blob r)
  (st_crc r) (st_xfer_id r) (st_active r) (st_dst r) (st_idx r) (st_count r) (st_resend r) (f
  (st_resend_idx r)) (st_resend_active r) (st_done_ms r).
#[export] Instance st_resend_active_upd : Update st_resend_active := λ f r, mkSarTx (st_blob r)
  (st_crc r) (st_xfer_id r) (st_active r) (st_dst r) (st_idx r) (st_count r) (st_resend r)
  (st_resend_idx r) (f (st_resend_active r)) (st_done_ms r).
#[export] Instance st_done_ms_upd : Update st_done_ms := λ f r, mkSarTx (st_blob r) (st_crc r)
  (st_xfer_id r) (st_active r) (st_dst r) (st_idx r) (st_count r) (st_resend r) (st_resend_idx
  r) (st_resend_active r) (f (st_done_ms r)).
Definition SarTx_init : SarTx := mkSarTx [] 0 0 false nid_zero 0 0 [] 0 false 0.

Record SarRx := mkSarRx {
  sx_rx : SarReassembler;
  sx_sender : NodeId;
  sx_last_ms : Z;
  sx_last_xfer : Z;
  sx_nack_rounds : Z;
  sx_nack_jit : Z;
  sx_done_sent_xfer : Z }.

#[export] Instance sx_rx_upd : Update sx_rx := λ f r, mkSarRx (f (sx_rx r)) (sx_sender r)
  (sx_last_ms r) (sx_last_xfer r) (sx_nack_rounds r) (sx_nack_jit r) (sx_done_sent_xfer r).
#[export] Instance sx_sender_upd : Update sx_sender := λ f r, mkSarRx (sx_rx r) (f (sx_sender
  r)) (sx_last_ms r) (sx_last_xfer r) (sx_nack_rounds r) (sx_nack_jit r) (sx_done_sent_xfer r).
#[export] Instance sx_last_ms_upd : Update sx_last_ms := λ f r, mkSarRx (sx_rx r) (sx_sender r)
  (f (sx_last_ms r)) (sx_last_xfer r) (sx_nack_rounds r) (sx_nack_jit r) (sx_done_sent_xfer r).
#[export] Instance sx_last_xfer_upd : Update sx_last_xfer := λ f r, mkSarRx (sx_rx r) (sx_sender
  r) (sx_last_ms r) (f (sx_last_xfer r)) (sx_nack_rounds r) (sx_nack_jit r) (sx_done_sent_xfer
  r).
#[export] Instance sx_nack_rounds_upd : Update sx_nack_rounds := λ f r, mkSarRx (sx_rx r)
  (sx_sender r) (sx_last_ms r) (sx_last_xfer r) (f (sx_nack_rounds r)) (sx_nack_jit r)
  (sx_done_sent_xfer r).
#[export] Instance sx_nack_jit_upd : Update sx_nack_jit := λ f r, mkSarRx (sx_rx r) (sx_sender
  r) (sx_last_ms r) (sx_last_xfer r) (sx_nack_rounds r) (f (sx_nack_jit r)) (sx_done_sent_xfer
  r).
#[export] Instance sx_done_sent_xfer_upd : Update sx_done_sent_xfer := λ f r, mkSarRx (sx_rx r)
  (sx_sender r) (sx_last_ms r) (sx_last_xfer r) (sx_nack_rounds r) (sx_nack_jit r) (f
  (sx_done_sent_xfer r)).
Definition SarRx_init : SarRx := mkSarRx SarReassembler_init nid_zero 0 65535 0 0 65535.

(** ** Host tunnel *)

Definition TQ_CAP : Z := 4.
Record TunPending := mkTunPending { tp_dst : NodeId; tp_buf : bytes }.
Record Tunnel := mkTunnel {
  tu_mode : bool;   (* tunnel_mode *)
  tu_q : list TunPending;   (* tq *)
  tu_head : Z;
  tu_count : Z;
  tu_kiss_mode : bool;
  tu_kiss_dst : NodeId;
  tu_ble_connected : bool }.

#[export] Instance tu_mode_upd : Update tu_mode := λ f r, mkTunnel (f (tu_mode r)) (tu_q r)
  (tu_head r) (tu_count r) (tu_kiss_mode r) (tu_kiss_dst r) (tu_ble_connected r).
#[export] Instance tu_q_upd : Update tu_q := λ f r, mkTunnel (tu_mode r) (f (tu_q r)) (tu_head
  r) (tu_count r) (tu_kiss_mode r) (tu_kiss_dst r) (tu_ble_connected r).
#[export] Instance tu_head_upd : Update tu_head := λ f r, mkTunnel (tu_mode r) (tu_q r) (f
  (tu_head r)) (tu_count r) (tu_kiss_mode r) (tu_kiss_dst r) (tu_ble_connected r).
#[export] Instance tu_count_upd : Update tu_count := λ f r, mkTunnel (tu_mode r) (tu_q r)
  (tu_head r) (f (tu_count r)) (tu_kiss_mode r) (tu_kiss_dst r) (tu_ble_connected r).
#[export] Instance tu_kiss_mode_upd : Update tu_kiss_mode := λ f r, mkTunnel (tu_mode r) (tu_q
  r) (tu_head r) (tu_count r) (f (tu_kiss_mode r)) (tu_kiss_dst r) (tu_ble_connected r).
#[export] Instance tu_kiss_dst_upd : Update tu_kiss_dst := λ f r, mkTunnel (tu_mode r) (tu_q r)
  (tu_head r) (tu_count r) (tu_kiss_mode r) (f (tu_kiss_dst r)) (tu_ble_connected r).
#[export] Instance tu_ble_connected_upd : Update tu_ble_connected := λ f r, mkTunnel (tu_mode r)
  (tu_q r) (tu_head r) (tu_count r) (tu_kiss_mode r) (tu_kiss_dst r) (f (tu_ble_connected r)).
Definition Tunnel_init : Tunnel :=
  mkTunnel false (replicate 4 (mkTunPending nid_zero [])) 0 0 false nid_zero false.

(** ** Locator service *)

Record LocReg := mkReg { rg_id : bytes; rg_used : bool }.
Record LocSeen := mkLSeen { ls_src : NodeId; ls_pid : Z; ls_used : bool }.
Record Loc := mkLocSt {
  lo_dir : LocatorDir;
  lo_res : LocatorResolver;
  lo_epoch : Z;
  lo_seq : Z;
  lo_pktid : Z;
  lo_regs : list LocReg;   (* my_regs *)
  lo_seen : list LocSeen;
  lo_seen_i : Z;
  lo_next_rereg_ms : Z;
  lo_burst_left : Z;
  lo_burst_ms : Z }.

#[export] Instance lo_dir_upd : Update lo_dir := λ f r, mkLocSt (f (lo_dir r)) (lo_res r)
  (lo_epoch r) (lo_seq r) (lo_pktid r) (lo_regs r) (lo_seen r) (lo_seen_i r) (lo_next_rereg_ms
  r) (lo_burst_left r) (lo_burst_ms r).
#[export] Instance lo_res_upd : Update lo_res := λ f r, mkLocSt (lo_dir r) (f (lo_res r))
  (lo_epoch r) (lo_seq r) (lo_pktid r) (lo_regs r) (lo_seen r) (lo_seen_i r) (lo_next_rereg_ms
  r) (lo_burst_left r) (lo_burst_ms r).
#[export] Instance lo_epoch_upd : Update lo_epoch := λ f r, mkLocSt (lo_dir r) (lo_res r) (f
  (lo_epoch r)) (lo_seq r) (lo_pktid r) (lo_regs r) (lo_seen r) (lo_seen_i r) (lo_next_rereg_ms
  r) (lo_burst_left r) (lo_burst_ms r).
#[export] Instance lo_seq_upd : Update lo_seq := λ f r, mkLocSt (lo_dir r) (lo_res r) (lo_epoch
  r) (f (lo_seq r)) (lo_pktid r) (lo_regs r) (lo_seen r) (lo_seen_i r) (lo_next_rereg_ms r)
  (lo_burst_left r) (lo_burst_ms r).
#[export] Instance lo_pktid_upd : Update lo_pktid := λ f r, mkLocSt (lo_dir r) (lo_res r)
  (lo_epoch r) (lo_seq r) (f (lo_pktid r)) (lo_regs r) (lo_seen r) (lo_seen_i r)
  (lo_next_rereg_ms r) (lo_burst_left r) (lo_burst_ms r).
#[export] Instance lo_regs_upd : Update lo_regs := λ f r, mkLocSt (lo_dir r) (lo_res r)
  (lo_epoch r) (lo_seq r) (lo_pktid r) (f (lo_regs r)) (lo_seen r) (lo_seen_i r)
  (lo_next_rereg_ms r) (lo_burst_left r) (lo_burst_ms r).
#[export] Instance lo_seen_upd : Update lo_seen := λ f r, mkLocSt (lo_dir r) (lo_res r)
  (lo_epoch r) (lo_seq r) (lo_pktid r) (lo_regs r) (f (lo_seen r)) (lo_seen_i r)
  (lo_next_rereg_ms r) (lo_burst_left r) (lo_burst_ms r).
#[export] Instance lo_seen_i_upd : Update lo_seen_i := λ f r, mkLocSt (lo_dir r) (lo_res r)
  (lo_epoch r) (lo_seq r) (lo_pktid r) (lo_regs r) (lo_seen r) (f (lo_seen_i r))
  (lo_next_rereg_ms r) (lo_burst_left r) (lo_burst_ms r).
#[export] Instance lo_next_rereg_ms_upd : Update lo_next_rereg_ms := λ f r, mkLocSt (lo_dir r)
  (lo_res r) (lo_epoch r) (lo_seq r) (lo_pktid r) (lo_regs r) (lo_seen r) (lo_seen_i r) (f
  (lo_next_rereg_ms r)) (lo_burst_left r) (lo_burst_ms r).
#[export] Instance lo_burst_left_upd : Update lo_burst_left := λ f r, mkLocSt (lo_dir r) (lo_res
  r) (lo_epoch r) (lo_seq r) (lo_pktid r) (lo_regs r) (lo_seen r) (lo_seen_i r)
  (lo_next_rereg_ms r) (f (lo_burst_left r)) (lo_burst_ms r).
#[export] Instance lo_burst_ms_upd : Update lo_burst_ms := λ f r, mkLocSt (lo_dir r) (lo_res r)
  (lo_epoch r) (lo_seq r) (lo_pktid r) (lo_regs r) (lo_seen r) (lo_seen_i r) (lo_next_rereg_ms
  r) (lo_burst_left r) (f (lo_burst_ms r)).
Definition Loc_init : Loc :=
  mkLocSt LocatorDir_init LocatorResolver_init 0 0 0 (replicate 4 (mkReg [] false))
    (replicate 16 (mkLSeen nid_zero 0 false)) 0 0 0 0.

(** ** Control plane *)

Record BlockTtl := mkBlk { bk_victim : NodeId; bk_expiry_ms : Z }.
Record Ctrl := mkCtrlSt {
  cs_have_key : bool;
  cs_pubkey : bytes;
  cs_counter : Z;
  cs_revert_dbm : Z;
  cs_pending_dbm : Z;
  cs_revert_ms : Z;
  cs_power_managed : bool;
  cs_contact_ms : Z;
  cs_blk : list BlockTtl;   (* ctrl_blk *)
  cs_saved : option (bytes * Z);   (* /agn_ctrl.cfg *)
  cs_rf_saved : option RadioCfg;   (* /agn_rf.cfg *)
  cs_ble_saved : option (bytes * bool);   (* the BLE record: PIN, enabled *)
  cs_ble_advertising : bool;
  cs_reboot_at : Z }.

#[export] Instance cs_have_key_upd : Update cs_have_key := λ f r, mkCtrlSt (f (cs_have_key r))
  (cs_pubkey r) (cs_counter r) (cs_revert_dbm r) (cs_pending_dbm r) (cs_revert_ms r)
  (cs_power_managed r) (cs_contact_ms r) (cs_blk r) (cs_saved r) (cs_rf_saved r) (cs_ble_saved
  r) (cs_ble_advertising r) (cs_reboot_at r).
#[export] Instance cs_pubkey_upd : Update cs_pubkey := λ f r, mkCtrlSt (cs_have_key r) (f
  (cs_pubkey r)) (cs_counter r) (cs_revert_dbm r) (cs_pending_dbm r) (cs_revert_ms r)
  (cs_power_managed r) (cs_contact_ms r) (cs_blk r) (cs_saved r) (cs_rf_saved r) (cs_ble_saved
  r) (cs_ble_advertising r) (cs_reboot_at r).
#[export] Instance cs_counter_upd : Update cs_counter := λ f r, mkCtrlSt (cs_have_key r)
  (cs_pubkey r) (f (cs_counter r)) (cs_revert_dbm r) (cs_pending_dbm r) (cs_revert_ms r)
  (cs_power_managed r) (cs_contact_ms r) (cs_blk r) (cs_saved r) (cs_rf_saved r) (cs_ble_saved
  r) (cs_ble_advertising r) (cs_reboot_at r).
#[export] Instance cs_revert_dbm_upd : Update cs_revert_dbm := λ f r, mkCtrlSt (cs_have_key r)
  (cs_pubkey r) (cs_counter r) (f (cs_revert_dbm r)) (cs_pending_dbm r) (cs_revert_ms r)
  (cs_power_managed r) (cs_contact_ms r) (cs_blk r) (cs_saved r) (cs_rf_saved r) (cs_ble_saved
  r) (cs_ble_advertising r) (cs_reboot_at r).
#[export] Instance cs_pending_dbm_upd : Update cs_pending_dbm := λ f r, mkCtrlSt (cs_have_key r)
  (cs_pubkey r) (cs_counter r) (cs_revert_dbm r) (f (cs_pending_dbm r)) (cs_revert_ms r)
  (cs_power_managed r) (cs_contact_ms r) (cs_blk r) (cs_saved r) (cs_rf_saved r) (cs_ble_saved
  r) (cs_ble_advertising r) (cs_reboot_at r).
#[export] Instance cs_revert_ms_upd : Update cs_revert_ms := λ f r, mkCtrlSt (cs_have_key r)
  (cs_pubkey r) (cs_counter r) (cs_revert_dbm r) (cs_pending_dbm r) (f (cs_revert_ms r))
  (cs_power_managed r) (cs_contact_ms r) (cs_blk r) (cs_saved r) (cs_rf_saved r) (cs_ble_saved
  r) (cs_ble_advertising r) (cs_reboot_at r).
#[export] Instance cs_power_managed_upd : Update cs_power_managed := λ f r, mkCtrlSt
  (cs_have_key r) (cs_pubkey r) (cs_counter r) (cs_revert_dbm r) (cs_pending_dbm r)
  (cs_revert_ms r) (f (cs_power_managed r)) (cs_contact_ms r) (cs_blk r) (cs_saved r)
  (cs_rf_saved r) (cs_ble_saved r) (cs_ble_advertising r) (cs_reboot_at r).
#[export] Instance cs_contact_ms_upd : Update cs_contact_ms := λ f r, mkCtrlSt (cs_have_key r)
  (cs_pubkey r) (cs_counter r) (cs_revert_dbm r) (cs_pending_dbm r) (cs_revert_ms r)
  (cs_power_managed r) (f (cs_contact_ms r)) (cs_blk r) (cs_saved r) (cs_rf_saved r)
  (cs_ble_saved r) (cs_ble_advertising r) (cs_reboot_at r).
#[export] Instance cs_blk_upd : Update cs_blk := λ f r, mkCtrlSt (cs_have_key r) (cs_pubkey r)
  (cs_counter r) (cs_revert_dbm r) (cs_pending_dbm r) (cs_revert_ms r) (cs_power_managed r)
  (cs_contact_ms r) (f (cs_blk r)) (cs_saved r) (cs_rf_saved r) (cs_ble_saved r)
  (cs_ble_advertising r) (cs_reboot_at r).
#[export] Instance cs_saved_upd : Update cs_saved := λ f r, mkCtrlSt (cs_have_key r) (cs_pubkey
  r) (cs_counter r) (cs_revert_dbm r) (cs_pending_dbm r) (cs_revert_ms r) (cs_power_managed r)
  (cs_contact_ms r) (cs_blk r) (f (cs_saved r)) (cs_rf_saved r) (cs_ble_saved r)
  (cs_ble_advertising r) (cs_reboot_at r).
#[export] Instance cs_rf_saved_upd : Update cs_rf_saved := λ f r, mkCtrlSt (cs_have_key r)
  (cs_pubkey r) (cs_counter r) (cs_revert_dbm r) (cs_pending_dbm r) (cs_revert_ms r)
  (cs_power_managed r) (cs_contact_ms r) (cs_blk r) (cs_saved r) (f (cs_rf_saved r))
  (cs_ble_saved r) (cs_ble_advertising r) (cs_reboot_at r).
#[export] Instance cs_ble_saved_upd : Update cs_ble_saved := λ f r, mkCtrlSt (cs_have_key r)
  (cs_pubkey r) (cs_counter r) (cs_revert_dbm r) (cs_pending_dbm r) (cs_revert_ms r)
  (cs_power_managed r) (cs_contact_ms r) (cs_blk r) (cs_saved r) (cs_rf_saved r) (f
  (cs_ble_saved r)) (cs_ble_advertising r) (cs_reboot_at r).
#[export] Instance cs_ble_advertising_upd : Update cs_ble_advertising := λ f r, mkCtrlSt
  (cs_have_key r) (cs_pubkey r) (cs_counter r) (cs_revert_dbm r) (cs_pending_dbm r)
  (cs_revert_ms r) (cs_power_managed r) (cs_contact_ms r) (cs_blk r) (cs_saved r) (cs_rf_saved
  r) (cs_ble_saved r) (f (cs_ble_advertising r)) (cs_reboot_at r).
#[export] Instance cs_reboot_at_upd : Update cs_reboot_at := λ f r, mkCtrlSt (cs_have_key r)
  (cs_pubkey r) (cs_counter r) (cs_revert_dbm r) (cs_pending_dbm r) (cs_revert_ms r)
  (cs_power_managed r) (cs_contact_ms r) (cs_blk r) (cs_saved r) (cs_rf_saved r) (cs_ble_saved
  r) (cs_ble_advertising r) (f (cs_reboot_at r)).
Definition Ctrl_init : Ctrl :=
  mkCtrlSt false (replicate 32 0) 0 0 0 0 false 0 (replicate 8 (mkBlk nid_zero 0)) None None None false 0.

(** ** Telemetry service and announce cache *)

Record AnnCache := mkAC {
  ac_src : NodeId; ac_ms : Z; ac_rssi : f32; ac_snr : f32; ac_batt_pct_plus1 : Z;
  ac_rep : list Report; ac_used : bool }.
Record Tel := mkTel {
  te_cache : TelemCache;
  te_next_batt_flood_ms : Z;
  te_last_status_reply_ms : Z;
  te_ann : list AnnCache;   (* ann_cache *)
  te_batt_scale : f32;
  te_batt_mv : Z;   (* batt_last_mv *)
  te_mobile : bool;
  te_name : bytes }.   (* node_name, with its NUL *)

#[export] Instance te_cache_upd : Update te_cache := λ f r, mkTel (f (te_cache r))
  (te_next_batt_flood_ms r) (te_last_status_reply_ms r) (te_ann r) (te_batt_scale r) (te_batt_mv
  r) (te_mobile r) (te_name r).
#[export] Instance te_next_batt_flood_ms_upd : Update te_next_batt_flood_ms := λ f r, mkTel
  (te_cache r) (f (te_next_batt_flood_ms r)) (te_last_status_reply_ms r) (te_ann r)
  (te_batt_scale r) (te_batt_mv r) (te_mobile r) (te_name r).
#[export] Instance te_last_status_reply_ms_upd : Update te_last_status_reply_ms := λ f r, mkTel
  (te_cache r) (te_next_batt_flood_ms r) (f (te_last_status_reply_ms r)) (te_ann r)
  (te_batt_scale r) (te_batt_mv r) (te_mobile r) (te_name r).
#[export] Instance te_ann_upd : Update te_ann := λ f r, mkTel (te_cache r)
  (te_next_batt_flood_ms r) (te_last_status_reply_ms r) (f (te_ann r)) (te_batt_scale r)
  (te_batt_mv r) (te_mobile r) (te_name r).
#[export] Instance te_batt_scale_upd : Update te_batt_scale := λ f r, mkTel (te_cache r)
  (te_next_batt_flood_ms r) (te_last_status_reply_ms r) (te_ann r) (f (te_batt_scale r))
  (te_batt_mv r) (te_mobile r) (te_name r).
#[export] Instance te_batt_mv_upd : Update te_batt_mv := λ f r, mkTel (te_cache r)
  (te_next_batt_flood_ms r) (te_last_status_reply_ms r) (te_ann r) (te_batt_scale r) (f
  (te_batt_mv r)) (te_mobile r) (te_name r).
#[export] Instance te_mobile_upd : Update te_mobile := λ f r, mkTel (te_cache r)
  (te_next_batt_flood_ms r) (te_last_status_reply_ms r) (te_ann r) (te_batt_scale r) (te_batt_mv
  r) (f (te_mobile r)) (te_name r).
#[export] Instance te_name_upd : Update te_name := λ f r, mkTel (te_cache r)
  (te_next_batt_flood_ms r) (te_last_status_reply_ms r) (te_ann r) (te_batt_scale r) (te_batt_mv
  r) (te_mobile r) (f (te_name r)).
Definition Tel_init : Tel :=
  mkTel TelemCache_init 0 0 (replicate 8 (mkAC nid_zero 0 f0 f0 0 [] false)) f0 0 false [0].

(** ** Timers *)

Record Timers := mkTimers {
  tm_boot_ms : Z;
  tm_next_beacon_ms : Z;
  tm_next_tick_ms : Z;
  tm_next_arq_ms : Z;
  tm_sar_quiet_until : Z;
  tm_net_beacon_cfg : Z }.

#[export] Instance tm_boot_ms_upd : Update tm_boot_ms := λ f r, mkTimers (f (tm_boot_ms r))
  (tm_next_beacon_ms r) (tm_next_tick_ms r) (tm_next_arq_ms r) (tm_sar_quiet_until r)
  (tm_net_beacon_cfg r).
#[export] Instance tm_next_beacon_ms_upd : Update tm_next_beacon_ms := λ f r, mkTimers
  (tm_boot_ms r) (f (tm_next_beacon_ms r)) (tm_next_tick_ms r) (tm_next_arq_ms r)
  (tm_sar_quiet_until r) (tm_net_beacon_cfg r).
#[export] Instance tm_next_tick_ms_upd : Update tm_next_tick_ms := λ f r, mkTimers (tm_boot_ms
  r) (tm_next_beacon_ms r) (f (tm_next_tick_ms r)) (tm_next_arq_ms r) (tm_sar_quiet_until r)
  (tm_net_beacon_cfg r).
#[export] Instance tm_next_arq_ms_upd : Update tm_next_arq_ms := λ f r, mkTimers (tm_boot_ms r)
  (tm_next_beacon_ms r) (tm_next_tick_ms r) (f (tm_next_arq_ms r)) (tm_sar_quiet_until r)
  (tm_net_beacon_cfg r).
#[export] Instance tm_sar_quiet_until_upd : Update tm_sar_quiet_until := λ f r, mkTimers
  (tm_boot_ms r) (tm_next_beacon_ms r) (tm_next_tick_ms r) (tm_next_arq_ms r) (f
  (tm_sar_quiet_until r)) (tm_net_beacon_cfg r).
#[export] Instance tm_net_beacon_cfg_upd : Update tm_net_beacon_cfg := λ f r, mkTimers
  (tm_boot_ms r) (tm_next_beacon_ms r) (tm_next_tick_ms r) (tm_next_arq_ms r)
  (tm_sar_quiet_until r) (f (tm_net_beacon_cfg r)).

(** ** Console and BLE settings *)

Record Con := mkCon {
  co_rf_work : RadioCfg;   (* rf_work *)
  co_trace : bool;   (* trace_beacons *)
  co_pin : bytes;   (* ble_pin, without its NUL *)
  co_ble_inited : bool;
  co_dump_pending : bool;   (* ble_dump_pending *)
  co_ci_next_ms : Z;   (* ble_ci_next_ms *)
  co_ci_logged : Z;   (* ble_ci_logged *)
  co_batt_saved : option f32;   (* /agn_batt.cfg *)
  co_kiss_saved : option (NodeId * bool);   (* /agn_kiss.cfg *)
  co_node_saved : option (bool * bytes);   (* /agn_node.cfg *)
  co_net_saved : option Z;   (* /agn_net.cfg *)
  co_key_saved : option (bytes * bytes) }.   (* /agn_key.cfg *)

#[export] Instance co_rf_work_upd : Update co_rf_work := λ f r, mkCon (f (co_rf_work r))
  (co_trace r) (co_pin r) (co_ble_inited r) (co_dump_pending r) (co_ci_next_ms r) (co_ci_logged
  r) (co_batt_saved r) (co_kiss_saved r) (co_node_saved r) (co_net_saved r) (co_key_saved r).
#[export] Instance co_trace_upd : Update co_trace := λ f r, mkCon (co_rf_work r) (f (co_trace
  r)) (co_pin r) (co_ble_inited r) (co_dump_pending r) (co_ci_next_ms r) (co_ci_logged r)
  (co_batt_saved r) (co_kiss_saved r) (co_node_saved r) (co_net_saved r) (co_key_saved r).
#[export] Instance co_pin_upd : Update co_pin := λ f r, mkCon (co_rf_work r) (co_trace r) (f
  (co_pin r)) (co_ble_inited r) (co_dump_pending r) (co_ci_next_ms r) (co_ci_logged r)
  (co_batt_saved r) (co_kiss_saved r) (co_node_saved r) (co_net_saved r) (co_key_saved r).
#[export] Instance co_ble_inited_upd : Update co_ble_inited := λ f r, mkCon (co_rf_work r)
  (co_trace r) (co_pin r) (f (co_ble_inited r)) (co_dump_pending r) (co_ci_next_ms r)
  (co_ci_logged r) (co_batt_saved r) (co_kiss_saved r) (co_node_saved r) (co_net_saved r)
  (co_key_saved r).
#[export] Instance co_dump_pending_upd : Update co_dump_pending := λ f r, mkCon (co_rf_work r)
  (co_trace r) (co_pin r) (co_ble_inited r) (f (co_dump_pending r)) (co_ci_next_ms r)
  (co_ci_logged r) (co_batt_saved r) (co_kiss_saved r) (co_node_saved r) (co_net_saved r)
  (co_key_saved r).
#[export] Instance co_ci_next_ms_upd : Update co_ci_next_ms := λ f r, mkCon (co_rf_work r)
  (co_trace r) (co_pin r) (co_ble_inited r) (co_dump_pending r) (f (co_ci_next_ms r))
  (co_ci_logged r) (co_batt_saved r) (co_kiss_saved r) (co_node_saved r) (co_net_saved r)
  (co_key_saved r).
#[export] Instance co_ci_logged_upd : Update co_ci_logged := λ f r, mkCon (co_rf_work r)
  (co_trace r) (co_pin r) (co_ble_inited r) (co_dump_pending r) (co_ci_next_ms r) (f
  (co_ci_logged r)) (co_batt_saved r) (co_kiss_saved r) (co_node_saved r) (co_net_saved r)
  (co_key_saved r).
#[export] Instance co_batt_saved_upd : Update co_batt_saved := λ f r, mkCon (co_rf_work r)
  (co_trace r) (co_pin r) (co_ble_inited r) (co_dump_pending r) (co_ci_next_ms r) (co_ci_logged
  r) (f (co_batt_saved r)) (co_kiss_saved r) (co_node_saved r) (co_net_saved r) (co_key_saved
  r).
#[export] Instance co_kiss_saved_upd : Update co_kiss_saved := λ f r, mkCon (co_rf_work r)
  (co_trace r) (co_pin r) (co_ble_inited r) (co_dump_pending r) (co_ci_next_ms r) (co_ci_logged
  r) (co_batt_saved r) (f (co_kiss_saved r)) (co_node_saved r) (co_net_saved r) (co_key_saved
  r).
#[export] Instance co_node_saved_upd : Update co_node_saved := λ f r, mkCon (co_rf_work r)
  (co_trace r) (co_pin r) (co_ble_inited r) (co_dump_pending r) (co_ci_next_ms r) (co_ci_logged
  r) (co_batt_saved r) (co_kiss_saved r) (f (co_node_saved r)) (co_net_saved r) (co_key_saved
  r).
#[export] Instance co_net_saved_upd : Update co_net_saved := λ f r, mkCon (co_rf_work r)
  (co_trace r) (co_pin r) (co_ble_inited r) (co_dump_pending r) (co_ci_next_ms r) (co_ci_logged
  r) (co_batt_saved r) (co_kiss_saved r) (co_node_saved r) (f (co_net_saved r)) (co_key_saved
  r).
#[export] Instance co_key_saved_upd : Update co_key_saved := λ f r, mkCon (co_rf_work r)
  (co_trace r) (co_pin r) (co_ble_inited r) (co_dump_pending r) (co_ci_next_ms r) (co_ci_logged
  r) (co_batt_saved r) (co_kiss_saved r) (co_node_saved r) (co_net_saved r) (f (co_key_saved
  r)).
(** The PIN is "000000" until [cfg_load]. *)
Definition Con_init : Con :=
  mkCon (mkCfg 0 0 0 0 0 0 0) true (replicate 6 48) false false 0 0 None None None None None.

(** ** The node *)

Record Node := mkNode {
  n_id : NodeId;   (* my_id *)
  n_key : option (bytes * bytes);   (* (node_sk, node_pk) when node_have_key *)
  n_radio : RadioHal;
  n_txq : TxQ;
  n_router : Router;
  n_fwd : Forwarder;
  n_arq : LinkArq;
  n_ver : VersionStats;
  n_ids : NodeTable;   (* id_table *)
  n_beacon_seq : Z;
  n_data_seq : Z;
  n_timers : Timers;
  n_sartx : SarTx;
  n_sarrx : SarRx;
  n_tun : Tunnel;
  n_loc : Loc;
  n_ctrl : Ctrl;
  n_tel : Tel;
  n_con : Con;
  n_host : list HostOut;
  n_ops : list ChipOp }.

#[export] Instance n_id_upd : Update n_id := λ f r, mkNode (f (n_id r)) (n_key r) (n_radio r)
  (n_txq r) (n_router r) (n_fwd r) (n_arq r) (n_ver r) (n_ids r) (n_beacon_seq r) (n_data_seq r)
  (n_timers r) (n_sartx r) (n_sarrx r) (n_tun r) (n_loc r) (n_ctrl r) (n_tel r) (n_con r)
  (n_host r) (n_ops r).
#[export] Instance n_key_upd : Update n_key := λ f r, mkNode (n_id r) (f (n_key r)) (n_radio r)
  (n_txq r) (n_router r) (n_fwd r) (n_arq r) (n_ver r) (n_ids r) (n_beacon_seq r) (n_data_seq r)
  (n_timers r) (n_sartx r) (n_sarrx r) (n_tun r) (n_loc r) (n_ctrl r) (n_tel r) (n_con r)
  (n_host r) (n_ops r).
#[export] Instance n_radio_upd : Update n_radio := λ f r, mkNode (n_id r) (n_key r) (f (n_radio
  r)) (n_txq r) (n_router r) (n_fwd r) (n_arq r) (n_ver r) (n_ids r) (n_beacon_seq r)
  (n_data_seq r) (n_timers r) (n_sartx r) (n_sarrx r) (n_tun r) (n_loc r) (n_ctrl r) (n_tel r)
  (n_con r) (n_host r) (n_ops r).
#[export] Instance n_txq_upd : Update n_txq := λ f r, mkNode (n_id r) (n_key r) (n_radio r) (f
  (n_txq r)) (n_router r) (n_fwd r) (n_arq r) (n_ver r) (n_ids r) (n_beacon_seq r) (n_data_seq
  r) (n_timers r) (n_sartx r) (n_sarrx r) (n_tun r) (n_loc r) (n_ctrl r) (n_tel r) (n_con r)
  (n_host r) (n_ops r).
#[export] Instance n_router_upd : Update n_router := λ f r, mkNode (n_id r) (n_key r) (n_radio
  r) (n_txq r) (f (n_router r)) (n_fwd r) (n_arq r) (n_ver r) (n_ids r) (n_beacon_seq r)
  (n_data_seq r) (n_timers r) (n_sartx r) (n_sarrx r) (n_tun r) (n_loc r) (n_ctrl r) (n_tel r)
  (n_con r) (n_host r) (n_ops r).
#[export] Instance n_fwd_upd : Update n_fwd := λ f r, mkNode (n_id r) (n_key r) (n_radio r)
  (n_txq r) (n_router r) (f (n_fwd r)) (n_arq r) (n_ver r) (n_ids r) (n_beacon_seq r)
  (n_data_seq r) (n_timers r) (n_sartx r) (n_sarrx r) (n_tun r) (n_loc r) (n_ctrl r) (n_tel r)
  (n_con r) (n_host r) (n_ops r).
#[export] Instance n_arq_upd : Update n_arq := λ f r, mkNode (n_id r) (n_key r) (n_radio r)
  (n_txq r) (n_router r) (n_fwd r) (f (n_arq r)) (n_ver r) (n_ids r) (n_beacon_seq r)
  (n_data_seq r) (n_timers r) (n_sartx r) (n_sarrx r) (n_tun r) (n_loc r) (n_ctrl r) (n_tel r)
  (n_con r) (n_host r) (n_ops r).
#[export] Instance n_ver_upd : Update n_ver := λ f r, mkNode (n_id r) (n_key r) (n_radio r)
  (n_txq r) (n_router r) (n_fwd r) (n_arq r) (f (n_ver r)) (n_ids r) (n_beacon_seq r)
  (n_data_seq r) (n_timers r) (n_sartx r) (n_sarrx r) (n_tun r) (n_loc r) (n_ctrl r) (n_tel r)
  (n_con r) (n_host r) (n_ops r).
#[export] Instance n_ids_upd : Update n_ids := λ f r, mkNode (n_id r) (n_key r) (n_radio r)
  (n_txq r) (n_router r) (n_fwd r) (n_arq r) (n_ver r) (f (n_ids r)) (n_beacon_seq r)
  (n_data_seq r) (n_timers r) (n_sartx r) (n_sarrx r) (n_tun r) (n_loc r) (n_ctrl r) (n_tel r)
  (n_con r) (n_host r) (n_ops r).
#[export] Instance n_beacon_seq_upd : Update n_beacon_seq := λ f r, mkNode (n_id r) (n_key r)
  (n_radio r) (n_txq r) (n_router r) (n_fwd r) (n_arq r) (n_ver r) (n_ids r) (f (n_beacon_seq
  r)) (n_data_seq r) (n_timers r) (n_sartx r) (n_sarrx r) (n_tun r) (n_loc r) (n_ctrl r) (n_tel
  r) (n_con r) (n_host r) (n_ops r).
#[export] Instance n_data_seq_upd : Update n_data_seq := λ f r, mkNode (n_id r) (n_key r)
  (n_radio r) (n_txq r) (n_router r) (n_fwd r) (n_arq r) (n_ver r) (n_ids r) (n_beacon_seq r) (f
  (n_data_seq r)) (n_timers r) (n_sartx r) (n_sarrx r) (n_tun r) (n_loc r) (n_ctrl r) (n_tel r)
  (n_con r) (n_host r) (n_ops r).
#[export] Instance n_timers_upd : Update n_timers := λ f r, mkNode (n_id r) (n_key r) (n_radio
  r) (n_txq r) (n_router r) (n_fwd r) (n_arq r) (n_ver r) (n_ids r) (n_beacon_seq r) (n_data_seq
  r) (f (n_timers r)) (n_sartx r) (n_sarrx r) (n_tun r) (n_loc r) (n_ctrl r) (n_tel r) (n_con r)
  (n_host r) (n_ops r).
#[export] Instance n_sartx_upd : Update n_sartx := λ f r, mkNode (n_id r) (n_key r) (n_radio r)
  (n_txq r) (n_router r) (n_fwd r) (n_arq r) (n_ver r) (n_ids r) (n_beacon_seq r) (n_data_seq r)
  (n_timers r) (f (n_sartx r)) (n_sarrx r) (n_tun r) (n_loc r) (n_ctrl r) (n_tel r) (n_con r)
  (n_host r) (n_ops r).
#[export] Instance n_sarrx_upd : Update n_sarrx := λ f r, mkNode (n_id r) (n_key r) (n_radio r)
  (n_txq r) (n_router r) (n_fwd r) (n_arq r) (n_ver r) (n_ids r) (n_beacon_seq r) (n_data_seq r)
  (n_timers r) (n_sartx r) (f (n_sarrx r)) (n_tun r) (n_loc r) (n_ctrl r) (n_tel r) (n_con r)
  (n_host r) (n_ops r).
#[export] Instance n_tun_upd : Update n_tun := λ f r, mkNode (n_id r) (n_key r) (n_radio r)
  (n_txq r) (n_router r) (n_fwd r) (n_arq r) (n_ver r) (n_ids r) (n_beacon_seq r) (n_data_seq r)
  (n_timers r) (n_sartx r) (n_sarrx r) (f (n_tun r)) (n_loc r) (n_ctrl r) (n_tel r) (n_con r)
  (n_host r) (n_ops r).
#[export] Instance n_loc_upd : Update n_loc := λ f r, mkNode (n_id r) (n_key r) (n_radio r)
  (n_txq r) (n_router r) (n_fwd r) (n_arq r) (n_ver r) (n_ids r) (n_beacon_seq r) (n_data_seq r)
  (n_timers r) (n_sartx r) (n_sarrx r) (n_tun r) (f (n_loc r)) (n_ctrl r) (n_tel r) (n_con r)
  (n_host r) (n_ops r).
#[export] Instance n_ctrl_upd : Update n_ctrl := λ f r, mkNode (n_id r) (n_key r) (n_radio r)
  (n_txq r) (n_router r) (n_fwd r) (n_arq r) (n_ver r) (n_ids r) (n_beacon_seq r) (n_data_seq r)
  (n_timers r) (n_sartx r) (n_sarrx r) (n_tun r) (n_loc r) (f (n_ctrl r)) (n_tel r) (n_con r)
  (n_host r) (n_ops r).
#[export] Instance n_tel_upd : Update n_tel := λ f r, mkNode (n_id r) (n_key r) (n_radio r)
  (n_txq r) (n_router r) (n_fwd r) (n_arq r) (n_ver r) (n_ids r) (n_beacon_seq r) (n_data_seq r)
  (n_timers r) (n_sartx r) (n_sarrx r) (n_tun r) (n_loc r) (n_ctrl r) (f (n_tel r)) (n_con r)
  (n_host r) (n_ops r).
#[export] Instance n_con_upd : Update n_con := λ f r, mkNode (n_id r) (n_key r) (n_radio r)
  (n_txq r) (n_router r) (n_fwd r) (n_arq r) (n_ver r) (n_ids r) (n_beacon_seq r) (n_data_seq r)
  (n_timers r) (n_sartx r) (n_sarrx r) (n_tun r) (n_loc r) (n_ctrl r) (n_tel r) (f (n_con r))
  (n_host r) (n_ops r).
#[export] Instance n_host_upd : Update n_host := λ f r, mkNode (n_id r) (n_key r) (n_radio r)
  (n_txq r) (n_router r) (n_fwd r) (n_arq r) (n_ver r) (n_ids r) (n_beacon_seq r) (n_data_seq r)
  (n_timers r) (n_sartx r) (n_sarrx r) (n_tun r) (n_loc r) (n_ctrl r) (n_tel r) (n_con r) (f
  (n_host r)) (n_ops r).
#[export] Instance n_ops_upd : Update n_ops := λ f r, mkNode (n_id r) (n_key r) (n_radio r)
  (n_txq r) (n_router r) (n_fwd r) (n_arq r) (n_ver r) (n_ids r) (n_beacon_seq r) (n_data_seq r)
  (n_timers r) (n_sartx r) (n_sarrx r) (n_tun r) (n_loc r) (n_ctrl r) (n_tel r) (n_con r)
  (n_host r) (f (n_ops r)).

Definition emit (out : HostOut) (n : Node) : Node := n <| n_host ::= λ l, l ++ [out] |>.
Definition log_ops (ops : list ChipOp) (n : Node) : Node := n <| n_ops ::= λ l, l ++ ops |>.

(** A node in the course of [setup]: its identity, its radio, its controller
    record and its PHY record are in place, the other settings are not loaded.
    [Firmware.setup] builds on it. *)
Definition Node_new (me : NodeId) (key : option (bytes * bytes)) (radio : RadioHal) (now : Z)
    (ctrl_saved : option (bytes * Z)) (rf_saved : option RadioCfg) : Node :=
  let ctrl := Ctrl_init <| cs_saved := ctrl_saved |> <| cs_rf_saved := rf_saved |> in
  let ctrl := match ctrl_saved with
    | Some (pub, counter) => ctrl <| cs_have_key := true |> <| cs_pubkey := pub |> <| cs_counter := counter |>
    | None => ctrl
    end in
  mkNode me key radio TxQ_init (Router_new me) (Forwarder_new me) LinkArq_init VersionStats_init
    NodeTable_init 0 0 (mkTimers now 0 (u32 (now + 5000)) (u32 (now + 250)) 0 0)
    SarTx_init SarRx_init Tunnel_init Loc_init ctrl Tel_init Con_init [] [].
