(* ===== verification/Transmit.v ===== *)
(** src/main.cpp: how frames are built, stamped and queued. *)
From S2P Require Import Prelude Update Reader SlotTable Float32 MeshTypes NeighborTable RoutingTable Router RouterWf Crypto AnnounceCodec Forwarder LinkArq Packet NodeTable LocatorDir RadioHal TxQueue Cadence Node.

(** sizeof(frame) - MAX_PAYLOAD: every send buffer is one byte longer than the
    largest frame the radio carries. *)
Definition FRAME_BUF : Z := 1 + MAX_PAYLOAD.

(** [memcpy(&link, frame, sizeof(link))] from a full-size buffer, and back. *)
Definition frame_link (frame : bytes) : LinkHeader :=
  let b i := default 0 (frame !! i) in mkLink (b 0%nat) (b 1%nat) (b 2%nat) (b 3%nat).
Definition set_link (l : LinkHeader) (frame : bytes) : bytes := link_bytes l ++ drop 4 frame.
(** [net.ttl = ttl] copied out and back: byte 2 of the network header. *)
Definition set_ttl (ttl : Z) (frame : bytes) : bytes := <[6%nat := ttl]> frame.

Definition push (frame : bytes) (n : Node) : Node := n <| n_txq ::= λ q, (txq_push frame q).1 |>.

(** ARQ retransmit callback. *)
Definition arq_resend (frame : bytes) (n : Node) : Node := push frame n.

(** The loop in [next_seq] always ends ([next_seq_some]): the default is never used. *)
Definition arq_next_seq (a : LinkArq) : LinkArq * Z := default (a, 0) (next_seq a).

Definition tx_unicast (now : Z) (frame : bytes) (next_hop : NodeId) (n : Node) : Node :=
  let link := frame_link frame in
  if negb (lh_next_hop link =? LINK_ADDR_BROADCAST) then
    let '(a, seq) := arq_next_seq (n_arq n) in
    let n := n <| n_arq := a |> in
    let link := mkLink (lh_prev_hop link) (lh_next_hop link) seq
                  (u8 (Z.lor (lh_flags link) LINK_FLAG_ACK_REQ)) in
    let frame := set_link link frame in
    let n := push frame n in
    n <| n_arq ::= λ a, (arq_track seq next_hop frame now ARQ_TIMEOUT_MS ARQ_MAX_RETRIES a).1 |>
  else push frame n.

(** Broadcast when the alias is not negotiated. *)
Definition or_broadcast (na : Z) : Z := if negb (na =? LINK_ADDR_NONE) then na else LINK_ADDR_BROADCAST.

Definition ack_frame (to : NodeId) (seq : Z) (n : Node) : bytes :=
  link_bytes (mkLink (ro_my_alias_for to (n_router n)) (or_broadcast (link_addr_for to (n_router n)))
                seq LINK_FLAG_IS_ACK)
  ++ net_bytes (mkNet (net_ver_type PKT_ACK) 0 1 to (n_id n) seq).
Definition send_ack (to : NodeId) (seq : Z) (n : Node) : Node := push (ack_frame to seq n) n.

(** The link header of a unicast toward [dst], before [tx_unicast] stamps it. *)
Definition unicast_link (nh : NodeId) (seq : Z) (n : Node) : LinkHeader :=
  let na := if negb (is_zero nh) then link_addr_for nh (n_router n) else LINK_ADDR_NONE in
  mkLink (if negb (is_zero nh) then ro_my_alias_for nh (n_router n) else LINK_ADDR_NONE)
    (or_broadcast na) (u8 seq) 0.

Definition DATA_MAX : Z := MAX_PAYLOAD - HEADER_BYTES.

Definition send_data_bytes (now : Z) (dst : NodeId) (payload : bytes) (n : Node) : Node :=
  let payload := if DATA_MAX <? zlen payload then take (Z.to_nat DATA_MAX) payload else payload in
  let nh := next_hop dst (n_router n) in
  let seq := n_data_seq n in
  let frame := link_bytes (unicast_link nh seq n)
    ++ net_bytes (mkNet (net_ver_type PKT_DATA) 0 DEFAULT_TTL dst (n_id n) seq) ++ payload in
  let n := n <| n_fwd ::= mark_seen (n_id n) seq |> in
  let n := tx_unicast now frame nh n in
  n <| n_data_seq := u16 (seq + 1) |>.

Definition forward_frame (now : Z) (buf : bytes) (next : NodeId) (out_ttl : Z) (n : Node) : Node :=
  if FRAME_BUF <? zlen buf then n else
  let link := frame_link buf in
  let link := mkLink (ro_my_alias_for next (n_router n))
                (or_broadcast (link_addr_for next (n_router n))) (lh_link_seq link) 0 in
  let frame := set_ttl out_ttl (set_link link buf) in
  tx_unicast now frame next n.

(** ** Floods and locator unicasts *)

Definition loc_flood_seen (src : NodeId) (pid : Z) (l : Loc) : bool :=
  match find_index (λ s, ls_used s && nid_eqb (ls_src s) src && (ls_pid s =? pid)) (lo_seen l) with
  | Some _ => true
  | None => false
  end.
Definition loc_flood_mark (src : NodeId) (pid : Z) (l : Loc) : Loc :=
  l <| lo_seen ::= <[Z.to_nat (lo_seen_i l) := mkLSeen src pid true]> |>
    <| lo_seen_i := u8 ((lo_seen_i l + 1) mod 16) |>.

Definition flood_frame (msg : bytes) (ttl pt : Z) (n : Node) : bytes :=
  let pid := lo_pktid (n_loc n) in
  link_bytes (mkLink LINK_ADDR_NONE LINK_ADDR_BROADCAST (u8 pid) 0)
  ++ net_bytes (mkNet (net_ver_type pt) 0 ttl NODE_ID_BROADCAST (n_id n) pid) ++ msg.
Definition send_loc_flood (msg : bytes) (ttl pt : Z) (n : Node) : Node :=
  if FRAME_BUF <? u16 (HEADER_BYTES + zlen msg) then n else
  let pid := lo_pktid (n_loc n) in
  let frame := flood_frame msg ttl pt n in
  let n := n <| n_loc ::= loc_flood_mark (n_id n) pid |> in
  let n := push frame n in
  n <| n_loc ::= λ l, l <| lo_pktid := u16 (pid + 1) |> |>.

Definition loc_reflood (buf : bytes) (out_ttl : Z) (n : Node) : Node :=
  if FRAME_BUF <? zlen buf then n else
  let link := mkLink LINK_ADDR_NONE LINK_ADDR_BROADCAST (lh_link_seq (frame_link buf)) 0 in
  push (set_ttl out_ttl (set_link link buf)) n.

Definition send_loc_unicast (now : Z) (dst : NodeId) (msg : bytes) (pt : Z) (n : Node) : Node :=
  if DATA_MAX <? zlen msg then n else
  let nh := next_hop dst (n_router n) in
  let pid := lo_pktid (n_loc n) in
  let frame := link_bytes (unicast_link nh pid n)
    ++ net_bytes (mkNet (net_ver_type pt) 0 DEFAULT_TTL dst (n_id n) pid) ++ msg in
  let n := n <| n_fwd ::= mark_seen (n_id n) pid |> in
  let n := tx_unicast now frame nh n in
  n <| n_loc ::= λ l, l <| lo_pktid := u16 (pid + 1) |> |>.

(** ** Beacons *)

Definition BEACON_BASE : Z := HEADER_BYTES + 4.

Definition batt_byte (t : Tel) : Z :=
  if fgt (te_batt_scale t) f0 then u8 (batt_pct (te_batt_mv t) + 1) else 0.

Section beacon.
Context `{Crypto}.

(** [announce_sign] writes nothing for a body above its bound; the frame length
    grows by the tail all the same. A body never is ([beacon_body_small]). *)
Definition beacon_tail (body : bytes) (key : option (bytes * bytes)) : bytes :=
  match key with
  | Some (sk, pk) => default (replicate 96 0) (announce_sign body pk sk)
  | None => []
  end.
Definition beacon_cap (key : option (bytes * bytes)) : Z :=
  u16 (FRAME_BUF - BEACON_BASE - match key with Some _ => ANNOUNCE_SIG_TAIL | None => 0 end).
Definition beacon_frame (now : Z) (n : Node) : bytes :=
  let seq := n_beacon_seq n in
  let body := announce_serialize (build_announce (n_router n) Announce_default) (beacon_cap (n_key n)) in
  link_bytes (mkLink LINK_ADDR_NONE LINK_ADDR_BROADCAST (u8 seq) 0)
  ++ net_bytes (mkNet (net_ver_type PKT_BEACON) 0 1 NODE_ID_BROADCAST (n_id n) seq)
  ++ beacon_bytes (mkBeacon 0 (batt_byte (n_tel n)) (u16 (u32 (now - tm_boot_ms (n_timers n)) / 1000)))
  ++ body ++ beacon_tail body (n_key n).
Definition send_beacon (now : Z) (n : Node) : Node :=
  let '(q, ok) := txq_push (beacon_frame now n) (n_txq n) in
  let n := n <| n_txq := q |> in
  if ok then n <| n_beacon_seq := u16 (n_beacon_seq n + 1) |> else n.
End beacon.

(** ** What every transmit path keeps *)

(** A frame the queue accepts and the radio can carry. *)
Definition frame_fits (f : bytes) : Prop := HEADER_BYTES <= zlen f <= RADIO_MAX_FRAME.

Record tx_ok (n : Node) : Prop := {
  tk_queue : ∃ l, txq_repr (n_txq n) l ∧ Forall frame_fits l;
  tk_radio : hal_ok (n_radio n);
  tk_arq_len : length (arq_slots (n_arq n)) = 4%nat;
  tk_arq : Forall (λ p, pd_used p = true → frame_fits (pd_frame p)) (arq_slots (n_arq n)) }.

(** Only the queue and the ARQ engine change. *)
Definition tx_only (n n' : Node) : Prop := n' = n <| n_txq := n_txq n' |> <| n_arq := n_arq n' |>.

Lemma tx_only_refl n : tx_only n n.
Proof. by destruct n. Qed.

Lemma next_seq_some a : ∃ c, next_seq a = Some (mkArq (arq_slots a) c (arq_acked a) (arq_dropped a), c).
Proof.
  unfold next_seq, next_seq_loop. destruct (u8 (arq_seq_ctr a + 1) =? 0) eqn:E; simpl; [|eauto].
  bools. rewrite E. simpl. eauto.
Qed.

Lemma zlen_set_link l f : 4 <= zlen f → zlen (set_link l f) = zlen f.
Proof. intros Hf. unfold set_link. rewrite zlen_app, zlen_link_bytes. unfold zlen in *. rewrite length_drop. lia. Qed.
Lemma zlen_set_ttl t f : zlen (set_ttl t f) = zlen f.
Proof. unfold zlen, set_ttl. by rewrite length_insert. Qed.

Lemma queue_push_ok q f : (∃ l, txq_repr q l ∧ Forall frame_fits l) → frame_fits f →
  ∃ l, txq_repr (txq_push f q).1 l ∧ Forall frame_fits l.
Proof.
  intros (l & Hq & Hl) Hf. destruct (txq_push_repr q l f Hq) as [Hq' _].
  eexists. split; [exact Hq'|]. unfold spec_push. case_match; simpl; [|done].
  apply Forall_app. split; [done|]. by constructor.
Qed.

Lemma push_ok f n : tx_ok n → frame_fits f → tx_ok (push f n) ∧ tx_only n (push f n).
Proof.
  intros [Hq Hr Hal Ha] Hf. split; [|by destruct n]. split; simpl; try done. by apply queue_push_ok.
Qed.

Lemma arq_track_ok seq nh f now to r a : length (arq_slots a) = 4%nat →
  Forall (λ p, pd_used p = true → frame_fits (pd_frame p)) (arq_slots a) → frame_fits f →
  length (arq_slots (arq_track seq nh f now to r a).1) = 4%nat ∧
  Forall (λ p, pd_used p = true → frame_fits (pd_frame p)) (arq_slots (arq_track seq nh f now to r a).1).
Proof.
  intros Hl Ha Hf. unfold arq_track. repeat case_match; simpl; try done.
  split; [by rewrite length_insert|]. by apply Forall_insert.
Qed.

Lemma tx_unicast_only now f nh n : tx_only n (tx_unicast now f nh n).
Proof.
  unfold tx_unicast. case_match; [|by destruct n].
  unfold arq_next_seq. destruct (next_seq_some (n_arq n)) as [c ->]. by destruct n.
Qed.

Lemma tx_unicast_ok now f nh n : tx_ok n → frame_fits f →
  tx_ok (tx_unicast now f nh n) ∧ tx_only n (tx_unicast now f nh n).
Proof.
  intros Hok Hf. unfold tx_unicast. case_match; [|by apply push_ok].
  unfold arq_next_seq. destruct (next_seq_some (n_arq n)) as [c ->]. simpl.
  set (f' := set_link _ f).
  assert (frame_fits f') as Hf' by (unfold f', frame_fits, HEADER_BYTES in *; rewrite zlen_set_link; lia).
  destruct Hok as [Hq Hr Hal Ha]. split; [|by destruct n]. split; simpl; try done.
  - by apply queue_push_ok.
  - by apply arq_track_ok.
  - by apply arq_track_ok.
Qed.

(** Lengths of the frames. *)
Lemma zlen_frame l h payload : wf_nid (nh_dst h) → wf_nid (nh_src h) →
  zlen (link_bytes l ++ net_bytes h ++ payload) = HEADER_BYTES + zlen payload.
Proof. intros Hd Hs. rewrite !zlen_app, zlen_link_bytes, zlen_net_bytes by done. unfold HEADER_BYTES. lia. Qed.

(** Steps that never touch the transmit side. *)
Definition tx_eq (n n' : Node) : Prop :=
  n_txq n' = n_txq n ∧ n_radio n' = n_radio n ∧ n_arq n' = n_arq n.
Lemma tx_ok_eq n n' : tx_ok n → tx_eq n n' → tx_ok n'.
Proof. intros [Hq Hr Hal Ha] (E1 & E2 & E3). split; rewrite ?E1, ?E2, ?E3; done. Qed.

Lemma send_ack_ok to seq n : tx_ok n → wf_nid to → wf_nid (n_id n) →
  tx_ok (send_ack to seq n) ∧ tx_only n (send_ack to seq n).
Proof.
  intros Hok Hto Hid. apply push_ok; [done|]. unfold ack_frame, frame_fits.
  rewrite zlen_app, zlen_link_bytes, zlen_net_bytes by done. unfold HEADER_BYTES, RADIO_MAX_FRAME. lia.
Qed.

Lemma zlen_cut (l : bytes) n : 0 <= n →
  zlen (if n <? zlen l then take (Z.to_nat n) l else l) <= n.
Proof. intros Hn. destruct (Z.ltb_spec n (zlen l)); [|done]. unfold zlen. rewrite length_take. lia. Qed.

(** [send_data_bytes] and [send_loc_unicast] also mark the packet as seen and
    advance their counter. *)
Lemma send_data_ok now dst payload n : tx_ok n → wf_nid dst → wf_nid (n_id n) →
  let n' := send_data_bytes now dst payload n in
  tx_ok n' ∧
  n' = n <| n_txq := n_txq n' |> <| n_arq := n_arq n' |>
         <| n_fwd := mark_seen (n_id n) (n_data_seq n) (n_fwd n) |>
         <| n_data_seq := u16 (n_data_seq n + 1) |>.
Proof.
  intros Hok Hd Hid n'. unfold n', send_data_bytes. clear n'.
  set (p := if DATA_MAX <? zlen payload then _ else _).
  assert (0 <= zlen p <= DATA_MAX) as Hp by (split; [apply zlen_nonneg|by apply zlen_cut]).
  set (f := link_bytes _ ++ _). set (n1 := n <| n_fwd ::= _ |>).
  assert (frame_fits f) as Hf.
  { unfold f, frame_fits. rewrite zlen_frame by done. unfold DATA_MAX, MAX_PAYLOAD, HEADER_BYTES, RADIO_MAX_FRAME in *. lia. }
  destruct (tx_unicast_ok now f (next_hop dst (n_router n)) n1) as [Hok' Ho]; [|done|].
  { by eapply tx_ok_eq. }
  split; [by eapply tx_ok_eq|]. rewrite Ho. done.
Qed.

Lemma send_loc_unicast_ok now dst msg pt n : tx_ok n → wf_nid dst → wf_nid (n_id n) →
  let n' := send_loc_unicast now dst msg pt n in
  tx_ok n' ∧
  (n' = n ∨
   n' = n <| n_txq := n_txq n' |> <| n_arq := n_arq n' |>
          <| n_fwd := mark_seen (n_id n) (lo_pktid (n_loc n)) (n_fwd n) |>
          <| n_loc := (n_loc n) <| lo_pktid := u16 (lo_pktid (n_loc n) + 1) |> |>).
Proof.
  intros Hok Hd Hid n'. unfold n', send_loc_unicast. clear n'.
  destruct (Z.ltb_spec DATA_MAX (zlen msg)) as [|Hm]; [by split; [|left]|].
  set (f := link_bytes _ ++ _). set (n1 := n <| n_fwd ::= _ |>).
  assert (frame_fits f) as Hf.
  { unfold f, frame_fits. rewrite zlen_frame by done. pose proof (zlen_nonneg msg).
    unfold DATA_MAX, MAX_PAYLOAD, HEADER_BYTES, RADIO_MAX_FRAME in *. lia. }
  destruct (tx_unicast_ok now f (next_hop dst (n_router n)) n1) as [Hok' Ho]; [|done|].
  { by eapply tx_ok_eq. }
  split; [by eapply tx_ok_eq|right]. rewrite Ho. done.
Qed.

Lemma forward_frame_ok now buf next ttl n : tx_ok n → frame_fits buf →
  tx_ok (forward_frame now buf next ttl n) ∧ tx_only n (forward_frame now buf next ttl n).
Proof.
  intros Hok Hf. unfold forward_frame. destruct (FRAME_BUF <? zlen buf); [split; [done|apply tx_only_refl]|].
  apply tx_unicast_ok; [done|]. unfold frame_fits, HEADER_BYTES in *.
  rewrite zlen_set_ttl, zlen_set_link; lia.
Qed.

Lemma loc_reflood_ok buf ttl n : tx_ok n → frame_fits buf →
  tx_ok (loc_reflood buf ttl n) ∧ tx_only n (loc_reflood buf ttl n).
Proof.
  intros Hok Hf. unfold loc_reflood. destruct (FRAME_BUF <? zlen buf); [split; [done|apply tx_only_refl]|].
  apply push_ok; [done|]. unfold frame_fits, HEADER_BYTES in *.
  rewrite zlen_set_ttl, zlen_set_link; lia.
Qed.

(** Flood messages are far below the 215 bytes that would make a 256-byte frame. *)
Lemma send_loc_flood_ok msg ttl pt n : tx_ok n → wf_nid (n_id n) → zlen msg <= DATA_MAX →
  let n' := send_loc_flood msg ttl pt n in
  tx_ok n' ∧
  n' = n <| n_txq := n_txq n' |>
         <| n_loc := (loc_flood_mark (n_id n) (lo_pktid (n_loc n)) (n_loc n))
                       <| lo_pktid := u16 (lo_pktid (n_loc n) + 1) |> |>.
Proof.
  intros Hok Hid Hm n'. unfold n', send_loc_flood. clear n'. pose proof (zlen_nonneg msg).
  unfold DATA_MAX, MAX_PAYLOAD, HEADER_BYTES, FRAME_BUF in *.
  rewrite u16_small, (proj2 (Z.ltb_ge (1 + MAX_PAYLOAD) (41 + zlen msg))) by (unfold is_u16, MAX_PAYLOAD; lia).
  set (f := flood_frame msg ttl pt n). set (n1 := n <| n_loc ::= _ |>).
  assert (frame_fits f) as Hf.
  { unfold f, flood_frame, frame_fits. rewrite zlen_frame; [|apply wf_nid_broadcast|done].
    unfold HEADER_BYTES, RADIO_MAX_FRAME. lia. }
  destruct (push_ok f n1) as [Hok' Ho]; [|done|].
  { by eapply tx_ok_eq. }
  split; [by eapply tx_ok_eq|]. done.
Qed.

(** ** What a relay may change *)

Lemma frame_link_bytes l r : frame_link (link_bytes l ++ r) = l.
Proof. by destruct l. Qed.
Lemma drop_set_link l f : drop 4 (set_link l f) = drop 4 f.
Proof. done. Qed.
Lemma frame_link_set l f : frame_link (set_link l f) = l.
Proof. apply frame_link_bytes. Qed.
Lemma frame_link_ttl t f : frame_link (set_ttl t f) = frame_link f.
Proof. unfold frame_link, set_ttl. by rewrite !list_lookup_insert_ne by lia. Qed.
(** The frame [tx_unicast] queues: the given one, its link header stamped when
    it is directed. *)
Definition stamped (f f' : bytes) : Prop :=
  zlen f' = zlen f ∧ drop 4 f' = drop 4 f ∧
  lh_prev_hop (frame_link f') = lh_prev_hop (frame_link f) ∧
  lh_next_hop (frame_link f') = lh_next_hop (frame_link f) ∧
  if lh_next_hop (frame_link f) =? LINK_ADDR_BROADCAST then f' = f
  else lh_flags (frame_link f') = u8 (Z.lor (lh_flags (frame_link f)) LINK_FLAG_ACK_REQ).

Lemma tx_unicast_queue now f nh n l : txq_repr (n_txq n) l → zlen l < TXQ_DEPTH →
  4 <= zlen f <= TX_FRAME_MAX →
  ∃ f', txq_repr (n_txq (tx_unicast now f nh n)) (l ++ [f']) ∧ stamped f f'.
Proof.
  intros Hq Hl Hf. assert (∀ f', zlen f' = zlen f → spec_push f' l = (l ++ [f'], true)) as Hroom.
  { intros f' Hlen. unfold spec_push.
    by rewrite (proj2 (Z.ltb_lt (zlen l) TXQ_DEPTH)), (proj2 (Z.leb_le (zlen f') TX_FRAME_MAX)) by lia. }
  unfold tx_unicast, stamped. destruct (lh_next_hop (frame_link f) =? LINK_ADDR_BROADCAST) eqn:Hb; cbn [negb].
  - exists f. split; [|done]. destruct (txq_push_repr _ l f Hq) as [H _]. by rewrite Hroom in H.
  - unfold arq_next_seq. destruct (next_seq_some (n_arq n)) as [c ->]. simpl.
    set (f' := set_link _ f). assert (zlen f' = zlen f) as Hz by (apply zlen_set_link; lia).
    exists f'. split; [|by split].
    destruct (txq_push_repr _ l f' Hq) as [H _]. by rewrite (Hroom f' Hz) in H.
Qed.

(** A relay never alters a packet. The frame [forward_frame] queues
    for the next hop has the length and every byte of the received one, except
    the 4-byte link header, which carries this link's two aliases, and the TTL;
    if the next hop's alias is known the frame asks it for an acknowledgement. *)
Theorem relay_integrity (now : Z) (buf : bytes) (next : NodeId) (ttl : Z) (n : Node) (l : list bytes)
    (Hq : txq_repr (n_txq n) l) (Hroom : zlen l < TXQ_DEPTH)
    (Hbuf : HEADER_BYTES <= zlen buf <= RADIO_MAX_FRAME) :
  ∃ f, txq_repr (n_txq (forward_frame now buf next ttl n)) (l ++ [f]) ∧
    zlen f = zlen buf ∧
    (∀ i : nat, (4 <= i)%nat → i ≠ 6%nat → f !! i = buf !! i) ∧
    f !! 6%nat = Some ttl ∧
    lh_prev_hop (frame_link f) = ro_my_alias_for next (n_router n) ∧
    lh_next_hop (frame_link f) = or_broadcast (link_addr_for next (n_router n)) ∧
    (lh_next_hop (frame_link f) ≠ LINK_ADDR_BROADCAST → lh_flags (frame_link f) = LINK_FLAG_ACK_REQ).
Proof.
  unfold forward_frame, HEADER_BYTES, RADIO_MAX_FRAME in *.
  rewrite (proj2 (Z.ltb_ge FRAME_BUF (zlen buf))) by (unfold FRAME_BUF, MAX_PAYLOAD; lia).
  set (lk := mkLink _ _ _ 0). set (f := set_ttl ttl (set_link lk buf)).
  assert (zlen f = zlen buf) as Hz by (unfold f; rewrite zlen_set_ttl, zlen_set_link; lia).
  assert (frame_link f = lk) as Hlk by (unfold f; by rewrite frame_link_ttl, frame_link_set).
  destruct (tx_unicast_queue now f next n l Hq Hroom) as (f' & Hq' & Hz' & Hd & Hp & Hn & Hfl).
  { unfold TX_FRAME_MAX. lia. }
  exists f'. rewrite Hlk in *. split; [done|]. split; [lia|].
  assert (∀ i, (4 <= i)%nat → f' !! i = f !! i) as Hsame.
  { intros i Hi. replace i with (4 + (i - 4))%nat by lia. by rewrite <- !lookup_drop, Hd. }
  split; [|split; [|split; [done|split; [done|]]]].
  - intros i Hi Hne. rewrite Hsame by done. unfold f, set_ttl. rewrite list_lookup_insert_ne by done.
    replace i with (4 + (i - 4))%nat by lia. by rewrite <- lookup_drop, drop_set_link, lookup_drop.
  - rewrite Hsame by lia. unfold f, set_ttl. apply list_lookup_insert_eq.
    pose proof (zlen_set_link lk buf). unfold zlen in *. lia.
  - intros Hne. rewrite Hn in Hne. rewrite (proj2 (Z.eqb_neq _ _) Hne) in Hfl. by rewrite Hfl.
Qed.

Definition node_ex : Node := Node_new (nid_from_u32 1) None RadioHal_new 0 None None.

Example relay_integrity_witness :
  let buf := [3; 4; 9; 1] ++ net_bytes (mkNet 32 0 7 (nid_from_u32 5) (nid_from_u32 6) 300) ++ [1; 2; 3] in
  txq_repr (n_txq node_ex) [] ∧ zlen buf = 44 ∧
  ∃ f, txq_repr (n_txq (forward_frame 0 buf (nid_from_u32 5) 6 node_ex)) ([] ++ [f]) ∧
    zlen f = zlen buf ∧
    (∀ i : nat, (4 <= i)%nat → i ≠ 6%nat → f !! i = buf !! i) ∧
    f !! 6%nat = Some 6 ∧
    lh_prev_hop (frame_link f) = ro_my_alias_for (nid_from_u32 5) (n_router node_ex) ∧
    lh_next_hop (frame_link f) = or_broadcast (link_addr_for (nid_from_u32 5) (n_router node_ex)) ∧
    (lh_next_hop (frame_link f) ≠ LINK_ADDR_BROADCAST → lh_flags (frame_link f) = LINK_FLAG_ACK_REQ).
Proof.
  intros buf. split; [apply txq_init_repr|]. split; [by vm_compute|].
  apply relay_integrity; [apply txq_init_repr|done|split; by vm_compute].
Defined.

(** ** Origination *)

(** The one frame [send_data_bytes] queues. *)
Definition data_net (dst : NodeId) (n : Node) : NetHeader :=
  mkNet (net_ver_type PKT_DATA) 0 DEFAULT_TTL dst (n_id n) (n_data_seq n).
Lemma data_net_wf dst n : wf_nid dst → wf_nid (n_id n) → is_u16 (n_data_seq n) → wf_net (data_net dst n).
Proof. intros Hd Hi Hs. split; [|split; [|split; [|split; [|split]]]]; simpl; try done; by vm_compute. Qed.

Lemma send_data_queue now dst payload n l : txq_repr (n_txq n) l → zlen l < TXQ_DEPTH →
  wf_nid dst → wf_nid (n_id n) → is_u16 (n_data_seq n) →
  ∃ f, txq_repr (n_txq (send_data_bytes now dst payload n)) (l ++ [f]) ∧
    net_read f 4 = Ok (data_net dst n) ∧ drop 41 f = take (Z.to_nat DATA_MAX) payload ∧
    frame_fits f.
Proof.
  intros Hq Hroom Hdst Hid Hseq. unfold send_data_bytes.
  set (p := if DATA_MAX <? zlen payload then _ else _).
  assert (p = take (Z.to_nat DATA_MAX) payload) as Hp.
  { unfold p. destruct (Z.ltb_spec DATA_MAX (zlen payload)); [done|].
    symmetry. apply take_ge. unfold zlen in *. lia. }
  assert (zlen p <= DATA_MAX) as Hpl by (rewrite Hp; unfold zlen, DATA_MAX, MAX_PAYLOAD, HEADER_BYTES; rewrite length_take; lia).
  set (lk := unicast_link _ _ _). set (f := link_bytes lk ++ _).
  set (n1 := n <| n_fwd ::= _ |>). pose proof (data_net_wf dst n Hdst Hid Hseq) as Hnet.
  assert (zlen f = HEADER_BYTES + zlen p) as Hz by (by apply zlen_frame).
  pose proof (zlen_nonneg p) as Hpn. unfold DATA_MAX, MAX_PAYLOAD, HEADER_BYTES in *.
  destruct (tx_unicast_queue now f (next_hop dst (n_router n)) n1 l Hq Hroom) as (f' & Hq' & Hz' & Hd & _).
  { unfold TX_FRAME_MAX. lia. }
  assert (drop 4 f = net_bytes (data_net dst n) ++ p) as Hd4 by done. rewrite Hd4 in Hd.
  exists f'. split; [done|]. split; [|split].
  - assert (at_ f' 4 (net_bytes (data_net dst n) ++ p)) as Hat.
    { split; [lia|]. change (Z.to_nat 4) with 4%nat. by rewrite Hd. }
    by eapply at_net_read.
  - rewrite <- Hp. change 41%nat with (4 + 37)%nat. rewrite <- drop_drop, Hd.
    rewrite drop_app_length'; [done|].
    pose proof (zlen_net_bytes (data_net dst n) Hdst Hid). unfold zlen in *. lia.
  - unfold frame_fits, HEADER_BYTES, RADIO_MAX_FRAME. lia.
Qed.

Lemma send_data_only now dst payload n : let n' := send_data_bytes now dst payload n in
  n' = n <| n_txq := n_txq n' |> <| n_arq := n_arq n' |>
         <| n_fwd := mark_seen (n_id n) (n_data_seq n) (n_fwd n) |>
         <| n_data_seq := u16 (n_data_seq n + 1) |>.
Proof.
  intros n'. unfold n', send_data_bytes. clear n'. set (p := if _ <? _ then _ else _).
  set (f := link_bytes (unicast_link _ _ _) ++ _). set (n1 := n <| n_fwd ::= _ |>).
  by rewrite (tx_unicast_only now f (next_hop dst (n_router n)) n1).
Qed.

(** An originated packet arrives as sent. The frame
    [send_data_bytes] queues is read by a receiver as a current-version DATA
    packet from this node to [dst], with the full hop budget, this packet number
    and the payload cut at the 214 bytes a frame has room for; and the node has
    marked the packet so that a rebroadcast of it is not taken for news. *)
Theorem originate_roundtrip (now : Z) (dst : NodeId) (payload : bytes) (n : Node) (l : list bytes)
    (w : list key)
    (Hq : txq_repr (n_txq n) l) (Hroom : zlen l < TXQ_DEPTH) (Hw : fw_repr (n_fwd n) w)
    (Hdst : wf_nid dst) (Hid : wf_nid (n_id n)) (Hseq : is_u16 (n_data_seq n)) :
  let n' := send_data_bytes now dst payload n in
  (∃ f, txq_repr (n_txq n') (l ++ [f]) ∧
    net_read f 4 = Ok (mkNet (net_ver_type PKT_DATA) 0 DEFAULT_TTL dst (n_id n) (n_data_seq n)) ∧
    net_ver_of (net_ver_type PKT_DATA) = PROTO_VERSION ∧ net_type_of (net_ver_type PKT_DATA) = PKT_DATA ∧
    drop 41 f = take (Z.to_nat DATA_MAX) payload) ∧
  (seen_or_insert (n_id n) (n_data_seq n) (n_fwd n')).2 = true ∧
  n_data_seq n' = u16 (n_data_seq n + 1).
Proof.
  intros n'. destruct (send_data_queue now dst payload n l Hq Hroom Hdst Hid Hseq) as (f & Hf & Hn & Hd & _).
  split; [by exists f|]. split; [|done].
  unfold n'. rewrite send_data_only. simpl.
  unfold mark_seen. destruct (seen_or_insert_spec (n_fwd n) w (n_id n) (n_data_seq n) Hw) as (Hw' & _).
  destruct (seen_or_insert_spec _ _ (n_id n) (n_data_seq n) Hw') as (_ & -> & _).
  unfold spec_seen at 1. rewrite bool_decide_eq_true_2; [done|].
  unfold spec_seen. case_bool_decide; [done|]. simpl. by left.
Qed.

Example originate_roundtrip_witness :
  let n := node_ex in
  txq_repr (n_txq n) [] ∧ fw_repr (n_fwd n) [] ∧ wf_nid (n_id n) ∧ is_u16 (n_data_seq n) ∧
  let n' := send_data_bytes 5 (nid_from_u32 9) [104; 105] n in
  (∃ f, txq_repr (n_txq n') ([] ++ [f]) ∧
    net_read f 4 = Ok (mkNet (net_ver_type PKT_DATA) 0 DEFAULT_TTL (nid_from_u32 9) (n_id n) (n_data_seq n)) ∧
    net_ver_of (net_ver_type PKT_DATA) = PROTO_VERSION ∧ net_type_of (net_ver_type PKT_DATA) = PKT_DATA ∧
    drop 41 f = take (Z.to_nat DATA_MAX) [104; 105]) ∧
  (seen_or_insert (n_id n) (n_data_seq n) (n_fwd n')).2 = true ∧
  n_data_seq n' = u16 (n_data_seq n + 1).
Proof.
  intros n. assert (txq_repr (n_txq n) []) as H1 by apply txq_init_repr.
  assert (fw_repr (n_fwd n) []) as H2 by apply fw_new_repr.
  split; [exact H1|]. split; [exact H2|]. split; [apply wf_nid_u32|]. split; [by vm_compute|].
  apply (originate_roundtrip 5 (nid_from_u32 9) [104; 105] n [] []);
    [exact H1|done|exact H2|apply wf_nid_u32|apply wf_nid_u32|by vm_compute].
Defined.

(** ** Beacons *)

Section beacon_laws.
Context `{CryptoLaws}.

Lemma beacon_cap_range key : beacon_cap key = 211 ∨ beacon_cap key = 115.
Proof. destruct key; [right|left]; done. Qed.

(** The announce body: the arithmetic that keeps a beacon off 256 bytes. *)
Lemma beacon_body_small me (n : Node) : router_ok me (n_router n) → router_wf (n_router n) →
  let body := announce_serialize (build_announce (n_router n) Announce_default) (beacon_cap (n_key n)) in
  4 <= zlen body < beacon_cap (n_key n).
Proof.
  intros Hok Hwf. destruct (build_announce_wf me (n_router n) Announce_default Hok Hwf) as [Hr Hv _ _ _].
  set (a := build_announce _ _) in *. unfold announce_serialize.
  change (an_has_caps a) with true. set (cap := beacon_cap (n_key n)).
  assert (cap = 211 ∨ cap = 115) as Hcap by apply beacon_cap_range.
  rewrite (proj2 (Z.ltb_ge cap (announce_hdr true))) by (destruct Hcap as [-> | ->]; done).
  set (reports := fits _ cap _ (an_reports a)). set (routes := fits _ cap _ (an_routes a)).
  assert (announce_hdr true + 18 * zlen reports <= cap) as B1.
  { apply fits_bound; [done|]. by destruct Hcap as [-> | ->]. }
  assert (announce_hdr true + 18 * zlen reports + 35 * zlen routes <= cap) as B2 by (by apply fits_bound).
  rewrite zlen_announce_body by (by apply Forall_fits).
  change (announce_hdr true) with 4 in *. pose proof (zlen_nonneg reports). pose proof (zlen_nonneg routes).
  split; [lia|]. destruct (decide (4 + 18 * zlen reports + 35 * zlen routes = cap)) as [E|]; [|lia].
  exfalso. assert (zlen routes <= 5) by lia.
  assert (zlen routes = 0 ∨ zlen routes = 1 ∨ zlen routes = 2 ∨ zlen routes = 3 ∨ zlen routes = 4
    ∨ zlen routes = 5) as Hc by lia.
  destruct Hcap as [Hcap|Hcap]; rewrite Hcap in E; repeat (destruct Hc as [Hc|Hc]; [lia|]); lia.
Qed.

Lemma zlen_beacon_tail body key : zlen body <= ANN_VIEW_BODY_MAX →
  (∀ sk pk, key = Some (sk, pk) → zlen pk = 32) →
  zlen (beacon_tail body key) = match key with Some _ => 96 | None => 0 end.
Proof.
  intros Hb Hk. destruct key as [[sk pk]|]; [|done]. simpl. unfold announce_sign.
  rewrite (proj2 (Z.ltb_ge ANN_VIEW_BODY_MAX (zlen body))) by done. simpl.
  rewrite zlen_app, sign_len, (Hk sk pk) by done. done.
Qed.

Lemma beacon_frame_fits me now n : router_ok me (n_router n) → router_wf (n_router n) → wf_nid (n_id n) →
  (∀ sk pk, n_key n = Some (sk, pk) → zlen pk = 32) → frame_fits (beacon_frame now n).
Proof.
  intros Hok Hwf Hid Hk. pose proof (beacon_body_small me n Hok Hwf) as Hb. cbv zeta in Hb.
  unfold beacon_frame, frame_fits. set (body := announce_serialize _ _) in *.
  pose proof (beacon_cap_range (n_key n)) as Hc.
  rewrite zlen_frame by (apply wf_nid_broadcast || done).
  rewrite !zlen_app, zlen_beacon_tail by (done || (unfold ANN_VIEW_BODY_MAX; lia)).
  assert (∀ b, zlen (beacon_bytes b) = 4) as -> by done.
  unfold HEADER_BYTES, RADIO_MAX_FRAME.
  destruct (n_key n); [change (beacon_cap _) with 115 in *|change (beacon_cap _) with 211 in *]; lia.
Qed.

(** C35: a beacon is self-certifying end to end. The beacon a node with a
    key pair builds always fits a radio frame; a receiver reads from it the
    sender's id as source and, behind the fixed fields, exactly the announce at
    wire precision; and it finds the identity tail where the announce ends,
    accepts its signature and recovers a key that hashes to the sender's id. *)
Theorem beacon_self_certifying (me : NodeId) (now : Z) (n : Node) (sk : bytes)
    (Hok : router_ok me (n_router n)) (Hwf : router_wf (n_router n))
    (Hkey : n_key n = Some (sk, ed25519_public sk))
    (Hid : n_id n = nid_from_pubkey (ed25519_public sk))
    (Hseq : is_u16 (n_beacon_seq n)) :
  let f := beacon_frame now n in
  let a := carried (build_announce (n_router n) Announce_default) (beacon_cap (n_key n)) in
  let region := drop 45 f in
  let bl := Z.to_nat (announce_body_len a) in
  frame_fits f ∧
  net_read f 4 = Ok (mkNet (net_ver_type PKT_BEACON) 0 1 NODE_ID_BROADCAST (n_id n) (n_beacon_seq n)) ∧
  announce_deserialize region = Ok a ∧
  zlen region = announce_body_len a + ANNOUNCE_SIG_TAIL ∧
  announce_verify (take bl region) (drop bl region) = Ok (ed25519_public sk) ∧
  nid_from_pubkey (ed25519_public sk) = n_id n.
Proof.
  intros f a region bl. assert (wf_nid (n_id n)) as Hw.
  { rewrite Hid. split; simpl; [by apply blake2b_len|apply blake2b_wf]. }
  pose proof (beacon_body_small me n Hok Hwf) as Hb. cbv zeta in Hb.
  pose proof (build_announce_wf me (n_router n) Announce_default Hok Hwf) as Ha.
  set (body := announce_serialize (build_announce (n_router n) Announce_default) (beacon_cap (n_key n))) in *.
  assert (beacon_cap (n_key n) = 115) as Hcap by (by rewrite Hkey).
  set (net := mkNet (net_ver_type PKT_BEACON) 0 1 NODE_ID_BROADCAST (n_id n) (n_beacon_seq n)).
  assert (wf_net net) as Hnet.
  { split; [|split; [|split; [|split; [|split]]]]; simpl; try done; try (by vm_compute).
    apply wf_nid_broadcast. }
  destruct (announce_carried (build_announce (n_router n) Announce_default) (beacon_cap (n_key n))
    (beacon_tail body (n_key n)) Ha) as (Hd & Hbl & _).
  { rewrite Hcap. done. }
  fold body in Hd, Hbl. fold a in Hd, Hbl.
  assert (region = body ++ beacon_tail body (n_key n)) as Hreg.
  { unfold region, f, beacon_frame. fold body net. change 45%nat with (4 + (37 + 4))%nat.
    rewrite <- !drop_drop. change (drop 4 (link_bytes _ ++ ?x)) with x.
    rewrite drop_app_length'; [done|].
    pose proof (zlen_net_bytes net wf_nid_broadcast Hw). unfold zlen in *. lia. }
  destruct (announce_verify_ok body (replicate 32 0) (replicate 64 0) sk eq_refl eq_refl) as [_ Hsv].
  destruct Hsv as (tail & Hsign & Htl & Hver); [unfold ANN_VIEW_BODY_MAX; lia|].
  assert (beacon_tail body (n_key n) = tail) as Htail by (rewrite Hkey; simpl; by rewrite Hsign).
  split; [|split; [|split; [|split; [|split; [|done]]]]].
  - apply (beacon_frame_fits me); [done..|]. rewrite Hkey. intros sk' pk' [= <- <-]. apply public_len.
  - pose proof (at_start f) as Hat. unfold f at 2, beacon_frame in Hat. fold body net in Hat.
    eapply at_net_read; [done|]. by eapply at_move.
  - by rewrite Hreg.
  - rewrite Hreg, zlen_app, Htail, Htl, Hbl. done.
  - unfold bl. rewrite Hreg, Hbl, to_nat_zlen, take_app_length, drop_app_length. by rewrite Htail.
Qed.
End beacon_laws.

(** A signing node with one neighbour, in the toy instance of the primitives. *)
Definition signer_id : NodeId := @nid_from_pubkey toy_crypto (@ed25519_public toy_crypto [7]).
Definition signer : Node :=
  (Node_new signer_id (Some ([7], @ed25519_public toy_crypto [7])) RadioHal_new 0 None None)
    <| n_router ::= on_beacon (nid_from_u32 2) (f32_lit 9 10)
         (mkAnnounce nid_zero [] [mkAdv (nid_from_u32 3) (nid_from_u32 2) f1 1] 0 true) 10 |>.

Lemma wf_signer_id : wf_nid signer_id.
Proof. split; simpl; [by apply (@blake2b_len _ toy_laws)|apply (@blake2b_wf _ toy_laws)]. Qed.
Lemma signer_ok : router_ok signer_id (n_router signer) ∧ router_wf (n_router signer).
Proof.
  split.
  - apply on_beacon_ok; [apply Router_new_ok|by split|]. split; simpl; [done|]. each. zlia.
  - apply on_beacon_wf; [apply Router_new_wf, wf_signer_id|apply wf_signer_id|apply wf_nid_u32|].
    unfold announce_ids. simpl. each. split; apply wf_nid_u32.
Qed.

Example beacon_self_certifying_witness :
  router_ok signer_id (n_router signer) ∧ is_u16 (n_beacon_seq signer) ∧
  zlen (@beacon_frame toy_crypto 9000 signer) = 45 + (4 + 18 + 2 * 35) + 96 ∧
  announce_deserialize (drop 45 (@beacon_frame toy_crypto 9000 signer)) =
    Ok (carried (build_announce (n_router signer) Announce_default) (beacon_cap (n_key signer))) ∧
  frame_fits (@beacon_frame toy_crypto 9000 signer).
Proof.
  destruct signer_ok as [H1 H2]. split; [exact H1|]. split; [by vm_compute|]. split; [by vm_compute|].
  destruct (@beacon_self_certifying toy_crypto toy_laws signer_id 9000 signer [7] H1 H2)
    as (Hf & _ & Hd & _); [done|done|by vm_compute|]. split; [exact Hd|exact Hf].
Defined.
