(* ===== verification/NodeOk.v ===== *)
(** The invariant of the whole node, and how each component's update keeps it.

    [node_ok] is the conjunction of the components' own invariants: every
    handler of main.cpp preserves it, so every array access, ring index and
    buffer length of the firmware is in range in every reachable state. *)
From S2P Require Import Prelude Update SlotTable MeshTypes Router RouterWf Forwarder LinkArq Packet Sar NodeTable Telemetry LocatorDir RadioHal TxQueue Hdlc Node Transmit.

Record loc_ok (l : Loc) : Prop := {
  lok_dir : ld_ok (lo_dir l);
  lok_locs : ld_wf (lo_dir l);
  lok_res : lr_ok (lo_res l);
  lok_epoch : is_u16 (lo_epoch l);
  lok_seq : is_u16 (lo_seq l);
  lok_pktid : is_u16 (lo_pktid l);
  lok_regs : length (lo_regs l) = 4%nat;
  lok_ids : Forall (λ r, rg_used r = true → 1 <= zlen (rg_id r) <= LOC_ID_MAX) (lo_regs l);
  lok_seen : length (lo_seen l) = 16%nat;
  lok_seen_i : 0 <= lo_seen_i l < 16 }.

Record sartx_ok (t : SarTx) : Prop := {
  stk_len : zlen (st_blob t) <= SAR_MAX_FILE;
  stk_dst : wf_nid (st_dst t);
  stk_xfer : is_u16 (st_xfer_id t);
  stk_idx : is_u16 (st_idx t);
  stk_resend : zlen (st_resend t) <= SAR_MAX_FRAGS ∧ Forall is_u16 (st_resend t);
  stk_resend_idx : 0 <= st_resend_idx t ∧
    (st_resend_active t = true → st_resend_idx t < zlen (st_resend t)) }.

Record sarrx_ok (x : SarRx) : Prop := {
  sxk_rx : sar_ok (sx_rx x);
  sxk_sender : wf_nid (sx_sender x);
  sxk_rounds : is_u8 (sx_nack_rounds x) }.

(** A queued tunnel frame is one that needed segmentation. *)
Definition tp_ok (p : TunPending) : Prop :=
  wf_nid (tp_dst p) ∧ DATA_MAX < zlen (tp_buf p) <= TUN_HOST_MAX.
Definition tun_repr (u : Tunnel) (l : list TunPending) : Prop :=
  ring_repr TQ_CAP (tu_head u) (tu_q u) l ∧ tu_count u = zlen l.
Record tun_ok (u : Tunnel) : Prop := {
  tuk_ring : ∃ l, tun_repr u l ∧ Forall tp_ok l;
  tuk_kiss : wf_nid (tu_kiss_dst u) }.

Definition blk_used (b : BlockTtl) : bool := negb (bk_expiry_ms b =? 0).
Record ctrl_ok (c : Ctrl) : Prop := {
  ctk_blk : length (cs_blk c) = 8%nat;
  ctk_uniq : slots_unique blk_used bk_victim (cs_blk c) }.

Definition ac_ok (c : AnnCache) : Prop :=
  wf_nid (ac_src c) ∧ Forall (λ p, wf_nid (rep_id p)) (ac_rep c).
Record tel_ok (t : Tel) : Prop := {
  tlk_cache : telem_ok (te_cache t);
  tlk_origins : Forall (λ e, wf_nid (te_origin e)) (te_cache t);
  tlk_ann : length (te_ann t) = 8%nat;
  tlk_ids : Forall ac_ok (te_ann t);
  tlk_name : ∃ name, te_name t = name ++ [0] ∧ zlen name <= 20 }.

Record node_ok (n : Node) : Prop := {
  nok_id : wf_nid (n_id n);
  nok_tx : tx_ok n;
  nok_router : router_ok (n_id n) (n_router n);
  nok_rwf : router_wf (n_router n);
  nok_fwd : ∃ w, fw_repr (n_fwd n) w;
  nok_seq : is_u16 (n_data_seq n);
  nok_key : ∀ sk pk, n_key n = Some (sk, pk) → zlen pk = 32;
  nok_ids : nd_ok (n_ids n);
  nok_sartx : sartx_ok (n_sartx n);
  nok_sarrx : sarrx_ok (n_sarrx n);
  nok_tun : tun_ok (n_tun n);
  nok_loc : loc_ok (n_loc n);
  nok_ctrl : ctrl_ok (n_ctrl n);
  nok_tel : tel_ok (n_tel n) }.

(** ** Initial states *)

Lemma loc_init_ok : loc_ok Loc_init.
Proof.
  split; simpl; try done; [apply ld_init_ok| |apply lr_init_ok|].
  { apply Forall_replicate. by split; [apply wf_nid_zero|]. }
  by repeat constructor.
Qed.
Lemma sartx_init_ok : sartx_ok SarTx_init.
Proof. split; simpl; done || (split; done) || apply wf_nid_zero. Qed.
Lemma sarrx_init_ok : sarrx_ok SarRx_init.
Proof. split; simpl; [apply sar_init_ok|apply wf_nid_zero|done]. Qed.
Lemma tun_init_ok : tun_ok Tunnel_init.
Proof.
  split; simpl; [|apply wf_nid_zero]. exists []. split; [|done].
  split; [|done]. by apply ring_empty.
Qed.
Lemma tel_init_ok : tel_ok Tel_init.
Proof.
  split; [apply telem_init_ok|apply Forall_replicate, wf_nid_zero|done| |by exists []].
  apply Forall_replicate. split; [apply wf_nid_zero|constructor].
Qed.

Lemma Node_new_ok me key radio now ctrl_saved rf_saved : wf_nid me → hal_ok radio →
  (∀ sk pk, key = Some (sk, pk) → zlen pk = 32) →
  node_ok (Node_new me key radio now ctrl_saved rf_saved).
Proof.
  intros Hme Hr Hk. split; simpl; try done.
  - split; simpl; try done.
    + exists []. split; [apply txq_init_repr|done].
    + by repeat constructor.
  - apply Router_new_ok.
  - by apply Router_new_wf.
  - eexists. apply fw_new_repr.
  - apply nd_init_ok.
  - apply sartx_init_ok.
  - apply sarrx_init_ok.
  - apply tun_init_ok.
  - apply loc_init_ok.
  - split; destruct ctrl_saved as [[]|]; done || by apply slots_unique_replicate.
  - apply tel_init_ok.
Qed.

(** ** Updates of one component *)

Section updates.
Variable (n : Node).
Hypothesis (Hn : node_ok n).

Lemma node_ok_tx n' : tx_ok n' → tx_only n n' → node_ok n'.
Proof. intros Ht Ho. destruct Hn. split; first [exact Ht|rewrite Ho; assumption]. Qed.
Lemma node_ok_fwd f : (∃ w, fw_repr f w) → node_ok (n <| n_fwd := f |>).
Proof. intros Hf. destruct Hn. split; try done. by eapply tx_ok_eq. Qed.
Lemma node_ok_seq s : is_u16 s → node_ok (n <| n_data_seq := s |>).
Proof. intros Hs. destruct Hn. split; try done. by eapply tx_ok_eq. Qed.
Lemma node_ok_bseq s : node_ok (n <| n_beacon_seq := s |>).
Proof. destruct Hn. split; try done. by eapply tx_ok_eq. Qed.
Lemma node_ok_loc l : loc_ok l → node_ok (n <| n_loc := l |>).
Proof. intros Hl. destruct Hn. split; try done. by eapply tx_ok_eq. Qed.
Lemma node_ok_router r : router_ok (n_id n) r → router_wf r → node_ok (n <| n_router := r |>).
Proof. intros Hr Hw. destruct Hn. split; try done. by eapply tx_ok_eq. Qed.
Lemma node_ok_ids t : nd_ok t → node_ok (n <| n_ids := t |>).
Proof. intros Ht. destruct Hn. split; try done. by eapply tx_ok_eq. Qed.
Lemma node_ok_sartx t : sartx_ok t → node_ok (n <| n_sartx := t |>).
Proof. intros Ht. destruct Hn. split; try done. by eapply tx_ok_eq. Qed.
Lemma node_ok_sarrx x : sarrx_ok x → node_ok (n <| n_sarrx := x |>).
Proof. intros Hx. destruct Hn. split; try done. by eapply tx_ok_eq. Qed.
Lemma node_ok_tun u : tun_ok u → node_ok (n <| n_tun := u |>).
Proof. intros Hu. destruct Hn. split; try done. by eapply tx_ok_eq. Qed.
Lemma node_ok_ctrl c : ctrl_ok c → node_ok (n <| n_ctrl := c |>).
Proof. intros Hc. destruct Hn. split; try done. by eapply tx_ok_eq. Qed.
Lemma node_ok_tel t : tel_ok t → node_ok (n <| n_tel := t |>).
Proof. intros Ht. destruct Hn. split; try done. by eapply tx_ok_eq. Qed.
Lemma node_ok_timers t : node_ok (n <| n_timers := t |>).
Proof. destruct Hn. split; try done. by eapply tx_ok_eq. Qed.
Lemma node_ok_con c : node_ok (n <| n_con := c |>).
Proof. destruct Hn. split; try done. by eapply tx_ok_eq. Qed.
Lemma node_ok_ver v : node_ok (n <| n_ver := v |>).
Proof. destruct Hn. split; try done. by eapply tx_ok_eq. Qed.
Lemma node_ok_emit o : node_ok (emit o n).
Proof. destruct Hn. split; try done. by eapply tx_ok_eq. Qed.
Lemma node_ok_ops o : node_ok (log_ops o n).
Proof. destruct Hn. split; try done. by eapply tx_ok_eq. Qed.
Lemma node_ok_radio h : hal_ok h → node_ok (n <| n_radio := h |>).
Proof. intros Hh. destruct Hn as [? []]. by split. Qed.
Lemma node_ok_arq a : length (arq_slots a) = 4%nat →
  Forall (λ p, pd_used p = true → frame_fits (pd_frame p)) (arq_slots a) → node_ok (n <| n_arq := a |>).
Proof. intros Hl Ha. destruct Hn as [? []]. by split. Qed.
End updates.

Create HintDb node.
#[export] Hint Resolve node_ok_emit node_ok_ops node_ok_timers node_ok_ver node_ok_bseq node_ok_con : node.

(** ** The transmit paths *)

Lemma mark_seen_ok src pid f : (∃ w, fw_repr f w) → ∃ w, fw_repr (mark_seen src pid f) w.
Proof. intros [w Hw]. eexists. by apply seen_or_insert_spec. Qed.
Lemma decide_ok p r f : (∃ w, fw_repr f w) → ∃ w, fw_repr (decide_packet p r f).1 w.
Proof.
  intros [w Hw]. unfold decide_packet. repeat case_match; simpl; eauto.
  all: pose proof (seen_or_insert_spec f w (pr_src p) (pr_pkt_id p) Hw) as (Hw' & _);
    destruct (seen_or_insert (pr_src p) (pr_pkt_id p) f); simplify_eq/=; eauto.
Qed.

Lemma loc_mark_ok src pid l : loc_ok l → loc_ok (loc_flood_mark src pid l).
Proof.
  intros []. split; simpl; try done; [by rewrite length_insert|].
  rewrite u8_small; [apply Z.mod_pos_bound; lia|]. pose proof (Z.mod_pos_bound (lo_seen_i l + 1) 16). zlia.
Qed.
Lemma loc_pktid_ok l : loc_ok l → loc_ok (l <| lo_pktid := u16 (lo_pktid l + 1) |>).
Proof. intros []. split; simpl; try done. apply u16_range. Qed.

Section paths.
Variable (n : Node).
Hypothesis (Hn : node_ok n).

Lemma push_node f : frame_fits f → node_ok (push f n).
Proof. intros Hf. destruct (push_ok f n (nok_tx n Hn) Hf). by eapply node_ok_tx. Qed.
Lemma send_ack_node to seq : wf_nid to → node_ok (send_ack to seq n).
Proof. intros Hto. destruct (send_ack_ok to seq n (nok_tx n Hn) Hto (nok_id n Hn)). by eapply node_ok_tx. Qed.
Lemma forward_frame_node now buf next ttl : frame_fits buf → node_ok (forward_frame now buf next ttl n).
Proof. intros Hf. destruct (forward_frame_ok now buf next ttl n (nok_tx n Hn) Hf). by eapply node_ok_tx. Qed.
Lemma loc_reflood_node buf ttl : frame_fits buf → node_ok (loc_reflood buf ttl n).
Proof. intros Hf. destruct (loc_reflood_ok buf ttl n (nok_tx n Hn) Hf). by eapply node_ok_tx. Qed.

Lemma send_data_node now dst payload : wf_nid dst → node_ok (send_data_bytes now dst payload n).
Proof.
  intros Hd. destruct (send_data_ok now dst payload n (nok_tx n Hn) Hd (nok_id n Hn)) as [Ht Ho].
  pose proof (mark_seen_ok (n_id n) (n_data_seq n) _ (nok_fwd n Hn)) as Hf.
  pose proof (u16_range (n_data_seq n + 1)) as Hs.
  destruct Hn. split; first [exact Ht|rewrite Ho; assumption].
Qed.

Lemma send_loc_unicast_node now dst msg pt : wf_nid dst → node_ok (send_loc_unicast now dst msg pt n).
Proof.
  intros Hd. destruct (send_loc_unicast_ok now dst msg pt n (nok_tx n Hn) Hd (nok_id n Hn)) as [Ht [Ho|Ho]];
    [by rewrite Ho|].
  pose proof (mark_seen_ok (n_id n) (lo_pktid (n_loc n)) _ (nok_fwd n Hn)) as Hf.
  pose proof (loc_pktid_ok (n_loc n) (nok_loc n Hn)) as Hl.
  destruct Hn. split; first [exact Ht|rewrite Ho; assumption].
Qed.

Lemma send_loc_flood_node msg ttl pt : zlen msg <= DATA_MAX → node_ok (send_loc_flood msg ttl pt n).
Proof.
  intros Hm. destruct (send_loc_flood_ok msg ttl pt n (nok_tx n Hn) (nok_id n Hn) Hm) as [Ht Ho].
  pose proof (loc_mark_ok (n_id n) (lo_pktid (n_loc n)) _ (nok_loc n Hn)) as Hl.
  apply loc_pktid_ok in Hl. destruct Hn. split; first [exact Ht|rewrite Ho; assumption].
Qed.
End paths.
