(* ===== verification/LocService.v ===== *)
(** src/main.cpp, the locator service: registering the identities of this
    node's client, resolving others, and the LOC frames of the air. *)
From S2P Require Import Prelude Update Reader SlotTable MeshTypes Router RouterWf Forwarder Packet LocatorDir RadioHal TxQueue Node Transmit NodeOk.

Definition LOC_TTL_S : Z := 600.
Definition LOC_FLOOD_TTL : Z := 4.
Definition LOC_RESOLVE_MS : Z := 8000.
Definition LOC_REREG_MS : Z := 240000.

(** ** Registering and resolving *)

(** The slot of [my_regs] for an id: the one that holds it, else the first free. *)
Definition reg_slot (id : bytes) (regs : list LocReg) : option nat :=
  match find_index (λ r, rg_used r && bool_decide (rg_id r = id)) regs with
  | Some i => Some i
  | None => find_index (λ r, negb (rg_used r)) regs
  end.

(** [loc_epoch] is drawn at the first registration and never zero afterwards. *)
Definition loc_epoch_draw (micros : Z) (me : NodeId) (l : Loc) : Loc :=
  if lo_epoch l =? 0 then
    let e := u16 (Z.lxor (u32 micros) (nid_fold me)) in
    l <| lo_epoch := if e =? 0 then 1 else e |>
  else l.

Definition loc_register (now micros : Z) (id : bytes) (n : Node) : Node :=
  if loc_id_bad id then n else
  let n := n <| n_loc ::= loc_epoch_draw micros (n_id n) |> in
  let n := n <| n_loc ::= λ l, l <| lo_seq := u16 (lo_seq l + 1) |> |> in
  let epoch := lo_epoch (n_loc n) in
  let seq := lo_seq (n_loc n) in
  let n := match reg_slot id (lo_regs (n_loc n)) with
    | Some i => n <| n_loc ::= λ l, l <| lo_regs ::= <[i := mkReg id true]> |> |>
    | None => n
    end in
  let n := n <| n_loc ::= λ l, l <| lo_dir ::= λ d, (loc_upsert id (n_id n) epoch seq LOC_TTL_S now d).1 |> |> in
  match loc_build_register epoch seq LOC_TTL_S id (8 + LOC_ID_MAX) with
  | Some msg => send_loc_flood msg LOC_FLOOD_TTL PKT_LOC n
  | None => n
  end.

(** [for (auto& r : my_regs) if (r.used) loc_register(r.id, r.id_len);] *)
Definition loc_register_all (now micros : Z) (n : Node) : Node :=
  fold_left (λ n r, if rg_used r then loc_register now micros (rg_id r) n else n) (lo_regs (n_loc n)) n.

Definition loc_resolve (now : Z) (id : bytes) (n : Node) : Node :=
  let '(d, loc) := loc_lookup id now (lo_dir (n_loc n)) in
  let n := n <| n_loc ::= λ l, l <| lo_dir := d |> |> in
  match loc with
  | Some loc => emit (LocLine id loc) n
  | None =>
      let '(r, qid) := loc_begin id now LOC_RESOLVE_MS (lo_res (n_loc n)) in
      let n := n <| n_loc ::= λ l, l <| lo_res := r |> |> in
      if qid =? 0 then emit LocBusy n else
      match loc_build_query qid id (4 + LOC_ID_MAX) with
      | Some msg => send_loc_flood msg LOC_FLOOD_TTL PKT_LOC n
      | None => n
      end
  end.

(** The bindings a freshly attached client is sent: all live ones but its own. *)
Definition loc_dump_to_client (now : Z) (n : Node) : Node :=
  let own id := match find_index (λ r, rg_used r && bool_decide (rg_id r = id)) (lo_regs (n_loc n)) with
    | Some _ => true | None => false end in
  fold_left (λ n v, let '(id, loc, _) := v in if own id then n else emit (LocLine id loc) n)
    (loc_snapshot LOC_DIR_CAP now (lo_dir (n_loc n))) n.

Definition loc_push_notify (id : bytes) (loc : NodeId) (n : Node) : Node := emit (LocLine id loc) n.

(** ** LOC frames *)

(** [if (loc_flood_seen(..)) return; loc_flood_mark(..);]: [None] when the flood
    was already handled. Shared by the LOC, TELEM and CONTROL handlers. *)
Definition flood_gate (net : NetHeader) (n : Node) : option Node :=
  if loc_flood_seen (nh_src net) (nh_pkt_id net) (n_loc n) then None
  else Some (n <| n_loc ::= loc_flood_mark (nh_src net) (nh_pkt_id net) |>).

(** [if (net.ttl > 1) loc_reflood(buf, len, net.ttl - 1);] *)
Definition flood_on (buf : bytes) (net : NetHeader) (n : Node) : Node :=
  if 1 <? nh_ttl net then loc_reflood buf (u8 (nh_ttl net - 1)) n else n.

(** The unicast half of the three handlers: the relay decision, then delivery
    or a directed relay. *)
Definition packet_ref (net : NetHeader) : PacketRef :=
  mkPacketRef (nh_src net) (nh_dst net) (nh_pkt_id net) (nh_ttl net).
Definition unicast_rx (now : Z) (buf : bytes) (net : NetHeader) (lh : LinkHeader)
    (deliver : Node → Node) (n : Node) : Node :=
  let '(f, d) := decide_packet (packet_ref net) (n_router n) (n_fwd n) in
  let n := n <| n_fwd := f |> in
  match dc_action d with
  | DELIVER => deliver n
  | FORWARD =>
      if negb (lh_next_hop lh =? LINK_ADDR_BROADCAST)
      then forward_frame now buf (dc_next_hop d) (dc_out_ttl d) n else n
  | _ => n
  end.

Definition loc_on_register (now : Z) (net : NetHeader) (m : LocMsg) (n : Node) : Node :=
  let '(d, prev) := lookup_full (lm_id m) now (lo_dir (n_loc n)) in
  let '(d, taken) := loc_upsert (lm_id m) (nh_src net) (lm_epoch m) (lm_seq m) (lm_ttl_s m) now d in
  let n := n <| n_loc ::= λ l, l <| lo_dir := d |> |> in
  let moved := match prev with
    | None => true
    | Some (loc, _, _, _) => negb (nid_eqb loc (nh_src net))
    end in
  if taken && moved then loc_push_notify (lm_id m) (nh_src net) n else n.

Definition loc_on_query (now : Z) (net : NetHeader) (m : LocMsg) (n : Node) : Node :=
  let '(d, b) := lookup_full (lm_id m) now (lo_dir (n_loc n)) in
  let n := n <| n_loc ::= λ l, l <| lo_dir := d |> |> in
  match b with
  | None => n
  | Some (loc, epoch, seq, ttl_s) =>
      (* uint8_t r[14 + LOC_ID_MAX] *)
      match loc_build_reply (lm_qid m) epoch seq ttl_s loc (lm_id m) (14 + LOC_ID_MAX) with
      | Some r => send_loc_unicast now (nh_src net) r PKT_LOC n
      | None => n
      end
  end.

Definition loc_on_reply (now : Z) (m : LocMsg) (n : Node) : Node :=
  if lm_kind m =? LOC_REPLY then
    let n := n <| n_loc ::= λ l, l <| lo_dir ::= λ d,
      (loc_upsert (lm_id m) (lm_loc m) (lm_epoch m) (lm_seq m) (lm_ttl_s m) now d).1 |> |> in
    let n := n <| n_loc ::= λ l, l <| lo_res ::= λ r, (on_reply (lm_qid m) r).1 |> |> in
    loc_push_notify (lm_id m) (lm_loc m) n
  else n.

Definition on_loc_msg (now : Z) (buf : bytes) (net : NetHeader) (lh : LinkHeader) (m : LocMsg)
    (n : Node) : Node :=
  if nid_eqb (nh_dst net) NODE_ID_BROADCAST then
    match flood_gate net n with
    | None => n
    | Some n =>
        let n := if lm_kind m =? LOC_REGISTER then loc_on_register now net m n
                 else if lm_kind m =? LOC_QUERY then loc_on_query now net m n else n in
        flood_on buf net n
    end
  else unicast_rx now buf net lh (loc_on_reply now m) n.

Definition on_loc_rx (now : Z) (buf : bytes) (net : NetHeader) (lh : LinkHeader) (n : Node) : res Node :=
  match loc_parse (drop (Z.to_nat HEADER_BYTES) buf) with
  | Ok m => Ok (on_loc_msg now buf net lh m n)
  | Rej => Ok n
  | Oob => Oob
  end.

(** ** Every branch keeps the invariant *)

Lemma loc_dir_ok l d : loc_ok l → ld_ok d → ld_wf d → loc_ok (l <| lo_dir := d |>).
Proof. intros [] ? ?. by split. Qed.
Lemma loc_res_ok l r : loc_ok l → lr_ok r → loc_ok (l <| lo_res := r |>).
Proof. intros [] ?. by split. Qed.
Lemma loc_epoch_ok micros me l : loc_ok l → loc_ok (loc_epoch_draw micros me l).
Proof.
  intros []. unfold loc_epoch_draw. case_match; [|by split]. split; try done. simpl.
  case_match; [done|apply u16_range].
Qed.
Lemma loc_seq_ok l : loc_ok l → loc_ok (l <| lo_seq := u16 (lo_seq l + 1) |>).
Proof. intros []. split; try done. apply u16_range. Qed.
Lemma loc_reg_ok l i id : loc_ok l → 1 <= zlen id <= LOC_ID_MAX →
  loc_ok (l <| lo_regs ::= <[i := mkReg id true]> |>).
Proof.
  intros [] Hid. split; try done; simpl; [by rewrite length_insert|]. by apply Forall_insert.
Qed.
#[export] Hint Resolve loc_dir_ok loc_res_ok loc_epoch_ok loc_seq_ok loc_reg_ok loc_mark_ok : node.
#[export] Hint Resolve loc_upsert_ok on_reply_ok loc_tick_ok lok_dir lok_locs lok_res nok_loc nok_id loc_upsert_wf : node.

Lemma zlen_register epoch seq ttl id cap msg : loc_build_register epoch seq ttl id cap = Some msg →
  zlen msg <= 8 + LOC_ID_MAX.
Proof.
  unfold loc_build_register. destruct (loc_id_bad id) eqn:Hid; [done|].
  apply loc_id_bad_false in Hid. case_match; [done|]. intros [= <-].
  rewrite !zlen_cons. lia.
Qed.
Lemma zlen_query qid id cap msg : loc_build_query qid id cap = Some msg → zlen msg <= 4 + LOC_ID_MAX.
Proof.
  unfold loc_build_query. destruct (loc_id_bad id) eqn:Hid; [done|].
  apply loc_id_bad_false in Hid. case_match; [done|]. intros [= <-].
  rewrite !zlen_cons. lia.
Qed.

Lemma loc_register_node now micros id n : node_ok n → node_ok (loc_register now micros id n).
Proof.
  intros Hn. unfold loc_register. destruct (loc_id_bad id) eqn:Hid; [done|]. apply loc_id_bad_false in Hid.
  set (n1 := n <| n_loc ::= _ |>). assert (node_ok n1) as H1 by (apply node_ok_loc; eauto with node).
  set (n2 := n1 <| n_loc ::= _ |>). assert (node_ok n2) as H2.
  { apply node_ok_loc; [done|]. by apply loc_seq_ok, nok_loc. }
  set (n3 := match reg_slot id _ with Some _ => _ | None => _ end).
  assert (node_ok n3) as H3.
  { unfold n3. case_match; [|done]. apply node_ok_loc; [done|]. by apply loc_reg_ok; [apply nok_loc|]. }
  set (n4 := n3 <| n_loc ::= _ |>). assert (node_ok n4) as H4.
  { apply node_ok_loc; [done|]. apply loc_dir_ok; eauto with node. }
  destruct (loc_build_register _ _ _ _ _) as [msg|] eqn:Hm; [|done]. apply zlen_register in Hm.
  apply send_loc_flood_node; [done|]. unfold LOC_ID_MAX, DATA_MAX, MAX_PAYLOAD, HEADER_BYTES in *. lia.
Qed.

Lemma loc_register_all_node now micros n : node_ok n → node_ok (loc_register_all now micros n).
Proof.
  intros Hn. unfold loc_register_all. generalize (lo_regs (n_loc n)) as regs. intros regs. revert n Hn.
  induction regs as [|r regs IH]; intros n Hn; [done|]. simpl. apply IH.
  case_match; [by apply loc_register_node|done].
Qed.

Lemma loc_resolve_node now id n : node_ok n → node_ok (loc_resolve now id n).
Proof.
  intros Hn. unfold loc_resolve.
  pose proof (loc_lookup_spec (lo_dir (n_loc n)) id now (lok_dir _ (nok_loc _ Hn))) as Hl.
  pose proof (loc_lookup_wf id now _ (lok_locs _ (nok_loc _ Hn))) as Hw.
  destruct (loc_lookup id now (lo_dir (n_loc n))) as [d loc]. destruct Hl as (Hd & _).
  set (n1 := n <| n_loc ::= _ |>). assert (node_ok n1) as H1 by (apply node_ok_loc; eauto with node).
  destruct loc; [by apply node_ok_emit|].
  pose proof (loc_begin_ok id now LOC_RESOLVE_MS (lo_res (n_loc n1)) (lok_res _ (nok_loc _ H1))) as Hr.
  destruct (loc_begin id now LOC_RESOLVE_MS (lo_res (n_loc n1))) as [r qid].
  set (n2 := n1 <| n_loc ::= _ |>). assert (node_ok n2) as H2.
  { apply node_ok_loc; [done|]. apply loc_res_ok; [by apply nok_loc|]. by apply Hr. }
  case_match; [by apply node_ok_emit|].
  destruct (loc_build_query qid id _) as [msg|] eqn:Hm; [|done]. apply zlen_query in Hm.
  apply send_loc_flood_node; [done|]. unfold LOC_ID_MAX, DATA_MAX, MAX_PAYLOAD, HEADER_BYTES in *. lia.
Qed.

Lemma flood_gate_node net n n' : node_ok n → flood_gate net n = Some n' → node_ok n'.
Proof.
  intros Hn. unfold flood_gate. case_match; [done|]. intros [= <-].
  apply node_ok_loc; eauto with node.
Qed.
Lemma flood_on_node buf net n : node_ok n → frame_fits buf → node_ok (flood_on buf net n).
Proof. intros Hn Hf. unfold flood_on. case_match; [by apply loc_reflood_node|done]. Qed.
Lemma unicast_rx_node now buf net lh deliver n : node_ok n → frame_fits buf →
  (∀ n, node_ok n → node_ok (deliver n)) → node_ok (unicast_rx now buf net lh deliver n).
Proof.
  intros Hn Hf Hd. unfold unicast_rx.
  pose proof (decide_ok (packet_ref net) (n_router n) (n_fwd n) (nok_fwd n Hn)) as Hw.
  destruct (decide_packet _ _ _) as [f d]. simpl in Hw.
  assert (node_ok (n <| n_fwd := f |>)) as H1 by (by apply node_ok_fwd).
  destruct (dc_action d); try done; [by apply Hd|]. case_match; [by apply forward_frame_node|done].
Qed.

Lemma loc_on_register_node now net m n : node_ok n → wf_nid (nh_src net) → node_ok (loc_on_register now net m n).
Proof.
  intros Hn Hs. unfold loc_on_register.
  pose proof (lookup_full_spec (lo_dir (n_loc n)) (lm_id m) now (lok_dir _ (nok_loc _ Hn))) as Hl.
  pose proof (lookup_full_wf (lm_id m) now _ (lok_locs _ (nok_loc _ Hn))) as [Hw _].
  destruct (lookup_full _ _ _) as [d prev]. destruct Hl as (Hd & _).
  pose proof (loc_upsert_ok (lm_id m) (nh_src net) (lm_epoch m) (lm_seq m) (lm_ttl_s m) now d Hd) as Hu.
  pose proof (loc_upsert_wf (lm_id m) (nh_src net) (lm_epoch m) (lm_seq m) (lm_ttl_s m) now d Hw Hs) as Huw.
  destruct (loc_upsert _ _ _ _ _ _ _) as [d' taken]. simpl in Hu.
  set (n1 := n <| n_loc ::= _ |>). assert (node_ok n1) as H1 by (apply node_ok_loc; eauto with node).
  unfold loc_push_notify. destruct (taken && _); [by apply node_ok_emit|done].
Qed.

Lemma loc_on_query_node now net m n : node_ok n → wf_nid (nh_src net) → node_ok (loc_on_query now net m n).
Proof.
  intros Hn Hs. unfold loc_on_query.
  pose proof (lookup_full_spec (lo_dir (n_loc n)) (lm_id m) now (lok_dir _ (nok_loc _ Hn))) as Hl.
  pose proof (lookup_full_wf (lm_id m) now _ (lok_locs _ (nok_loc _ Hn))) as [Hw _].
  destruct (lookup_full _ _ _) as [d b]. destruct Hl as (Hd & _).
  set (n1 := n <| n_loc ::= _ |>). assert (node_ok n1) as H1 by (apply node_ok_loc; eauto with node).
  repeat case_match; try done. by apply send_loc_unicast_node.
Qed.

Lemma loc_on_reply_node now m n : node_ok n → loc_wf m → node_ok (loc_on_reply now m n).
Proof.
  intros Hn [Hm _]. unfold loc_on_reply, loc_push_notify. destruct (Z.eqb_spec (lm_kind m) LOC_REPLY) as [Hk|]; [|done].
  assert (wf_nid (lm_loc m)) as Hl.
  { destruct Hm as [(Hm & _)|[(Hm & _)|(_ & _ & _ & _ & _ & ?)]]; [by rewrite Hm in Hk..|done]. }
  apply node_ok_emit.
  set (n1 := n <| n_loc ::= _ |>). assert (node_ok n1) as H1 
    by (apply node_ok_loc; [done|apply loc_dir_ok; eauto with node]).
  apply node_ok_loc; [done|]. apply loc_res_ok; eauto with node.
Qed.

Lemma on_loc_rx_node now buf net lh n : node_ok n → wf_bytes buf → frame_fits buf → wf_nid (nh_src net) →
  safe (on_loc_rx now buf net lh n) node_ok.
Proof.
  intros Hn Hb Hf Hs. unfold on_loc_rx.
  assert (safe (loc_parse (drop (Z.to_nat HEADER_BYTES) buf)) loc_wf) as Hp.
  { eapply safe_mono; [apply loc_parse_spec|by intros m []]; [by apply Forall_drop|].
    unfold frame_fits, RADIO_MAX_FRAME, zlen in *. rewrite length_drop. lia. }
  destruct (loc_parse _) as [m| |]; [|done|done]. simpl in *. unfold on_loc_msg.
  case_match; [|apply unicast_rx_node; eauto using loc_on_reply_node].
  destruct (flood_gate net n) as [n1|] eqn:Hg; [|done]. apply flood_gate_node in Hg; [|done].
  apply flood_on_node; [|done]. repeat case_match; eauto using loc_on_register_node, loc_on_query_node.
Qed.

(** ** Flood frames *)

(** The bytes of a flood on the air: refloods change the hop budget only. *)
Definition flood_bytes (seq ttl pt : Z) (src : NodeId) (pid : Z) (msg : bytes) : bytes :=
  link_bytes (mkLink LINK_ADDR_NONE LINK_ADDR_BROADCAST seq 0)
  ++ net_bytes (mkNet (net_ver_type pt) 0 ttl NODE_ID_BROADCAST src pid) ++ msg.

Lemma flood_frame_bytes msg ttl pt n :
  flood_frame msg ttl pt n = flood_bytes (u8 (lo_pktid (n_loc n))) ttl pt (n_id n) (lo_pktid (n_loc n)) msg.
Proof. done. Qed.

Lemma zlen_flood_bytes seq ttl pt src pid msg : wf_nid src →
  zlen (flood_bytes seq ttl pt src pid msg) = HEADER_BYTES + zlen msg.
Proof. intros Hs. apply zlen_frame; [apply wf_nid_broadcast|done]. Qed.

Lemma flood_on_bytes seq ttl pt src pid msg net n : wf_nid src → zlen msg <= DATA_MAX →
  nh_ttl net = ttl → 1 < ttl < 256 →
  flood_on (flood_bytes seq ttl pt src pid msg) net n = push (flood_bytes seq (ttl - 1) pt src pid msg) n.
Proof.
  intros Hs Hm Ht Httl. unfold flood_on. rewrite Ht, (proj2 (Z.ltb_lt 1 ttl)), u8_small by zlia.
  unfold loc_reflood. rewrite zlen_flood_bytes by done.
  rewrite (proj2 (Z.ltb_ge FRAME_BUF _)) by (unfold FRAME_BUF, DATA_MAX, MAX_PAYLOAD, HEADER_BYTES in *; lia).
  done.
Qed.

Lemma push_repr f n l : txq_repr (n_txq n) l → zlen l < TXQ_DEPTH → frame_fits f →
  txq_repr (n_txq (push f n)) (l ++ [f]).
Proof.
  intros Hq Hl Hf. destruct (txq_push_repr _ l f Hq) as [H _]. unfold spec_push in H.
  unfold frame_fits, RADIO_MAX_FRAME in Hf.
  by rewrite (proj2 (Z.ltb_lt (zlen l) TXQ_DEPTH)), (proj2 (Z.leb_le (zlen f) TX_FRAME_MAX)) in H
    by (unfold TX_FRAME_MAX; lia).
Qed.

(** A node that takes up a flood remembers it, and from then on ignores copies
    of it until sixteen more floods have passed. *)
Lemma seen_after_mark src pid l : loc_ok l → loc_flood_seen src pid (loc_flood_mark src pid l) = true.
Proof.
  intros Hl. unfold loc_flood_seen. case_match eqn:Hf; [done|]. rewrite find_index_None in Hf.
  specialize (Hf (Z.to_nat (lo_seen_i l)) (mkLSeen src pid true)). simpl in Hf.
  rewrite nid_eqb_refl, Z.eqb_refl in Hf. discriminate Hf.
  apply list_lookup_insert_eq. pose proof (lok_seen l Hl). pose proof (lok_seen_i l Hl). lia.
Qed.

(** ** Registrations *)

(** The directory has no live binding for [id] at [now]. *)
Definition unbound (now : Z) (id : bytes) (d : LocatorDir) : Prop :=
  ∀ e, ld_map d !! id = Some e → i32 (le_expiry_ms e - now) <= 0.

(** A heard registration of an unbound id is stored and reported to the client. *)
Lemma loc_on_register_learns now net m n : node_ok n → 1 <= zlen (lm_id m) <= LOC_ID_MAX →
  unbound now (lm_id m) (lo_dir (n_loc n)) → is_u16 (lm_ttl_s m) →
  let n' := loc_on_register now net m n in
  (∃ e, ld_map (lo_dir (n_loc n')) !! lm_id m = Some e ∧ le_loc e = nh_src net ∧
    le_expiry_ms e = u32 (now + u32 (lm_ttl_s m * 1000))) ∧
  n_host n' = n_host n ++ [LocLine (lm_id m) (nh_src net)] ∧ n_txq n' = n_txq n ∧
  lo_seen (n_loc n') = lo_seen (n_loc n).
Proof.
  intros Hn Hid Hu Ht n'. unfold n', loc_on_register.
  pose proof (lookup_full_spec (lo_dir (n_loc n)) (lm_id m) now (lok_dir _ (nok_loc _ Hn))) as Hl.
  destruct (lookup_full _ _ _) as [d prev]. destruct Hl as (Hd & Hs & Hnone & _).
  assert (prev = None) as ->.
  { destruct prev as [[[[loc epoch] seq] ttl]|]; [|done].
    destruct (Hs _ _ _ _ eq_refl) as (_ & e & He & Hlive & _). specialize (Hu e He). lia. }
  specialize (Hnone eq_refl).
  pose proof (loc_upsert_cases d (lm_id m) (nh_src net) (lm_epoch m) (lm_seq m) (lm_ttl_s m) now Hd Hid) as Hup.
  destruct (loc_upsert _ _ _ _ _ _ _) as [d' taken]. destruct Hup as (-> & _ & _ & Hup).
  rewrite Hnone in *. destruct (Hup eq_refl) as (e & mm & He1 & _ & _ & He4 & Hmap & _). simpl.
  split; [|done]. exists e. by rewrite Hmap, lookup_insert_eq.
Qed.

(** ** Queries *)

(** C38: which queries this node answers. A heard query is answered
    exactly when the directory holds a live binding for the identity and the
    identity has at most four bytes: then one frame is queued toward the asker,
    a REPLY with the query's id, the binding's node, epoch and sequence number
    and its remaining lifetime. Otherwise nothing is sent: the 30-byte reply
    buffer has no room for longer identities, although messages carry up to 16. *)
Theorem loc_query_answered (now : Z) (net : NetHeader) (m : LocMsg) (n : Node) (l : list bytes)
    (Hn : node_ok n) (Hsrc : wf_nid (nh_src net)) (Hid : 1 <= zlen (lm_id m) <= LOC_ID_MAX)
    (Hq : txq_repr (n_txq n) l) (Hroom : zlen l < TXQ_DEPTH) :
  let n' := loc_on_query now net m n in
  match (lookup_full (lm_id m) now (lo_dir (n_loc n))).2 with
  | Some (loc, epoch, seq, ttl) =>
      if zlen (lm_id m) <=? 4
      then ∃ f, txq_repr (n_txq n') (l ++ [f]) ∧
        drop 4 f = net_bytes (mkNet (net_ver_type PKT_LOC) 0 DEFAULT_TTL (nh_src net) (n_id n) (lo_pktid (n_loc n)))
          ++ loc_encode (mkLoc LOC_REPLY (lm_qid m) epoch seq ttl loc (lm_id m))
      else n_txq n' = n_txq n
  | None => n_txq n' = n_txq n
  end.
Proof.
  intros n'. unfold n', loc_on_query.
  pose proof (lookup_full_wf (lm_id m) now _ (lok_locs _ (nok_loc _ Hn))) as [_ Hloc].
  destruct (lookup_full _ _ _) as [d [[[[loc epoch] seq] ttl]|]]; cbn [snd]; [|done].
  unfold loc_build_reply. rewrite (proj2 (loc_id_bad_false _) Hid). unfold LOC_ID_MAX in *.
  rewrite u16_small by zlia. destruct (Z.leb_spec (zlen (lm_id m)) 4) as [Hs|Hs].
  2: { by rewrite (proj2 (Z.ltb_lt (14 + 16) _)) by lia. }
  rewrite (proj2 (Z.ltb_ge (14 + 16) _)) by lia.
  set (msg := [LOC_REPLY] ++ _). set (n1 := n <| n_loc ::= _ |>).
  assert (zlen msg <= DATA_MAX) as Hmsg.
  { unfold msg. simpl. rewrite !zlen_cons, zlen_app, zlen_cons, zlen_nid_write by (by eapply Hloc).
    unfold DATA_MAX, MAX_PAYLOAD, HEADER_BYTES. lia. }
  unfold send_loc_unicast. rewrite (proj2 (Z.ltb_ge DATA_MAX (zlen msg))) by done.
  set (f := link_bytes _ ++ _). set (n2 := n1 <| n_fwd ::= _ |>).
  destruct (tx_unicast_queue now f (next_hop (nh_src net) (n_router n1)) n2 l Hq Hroom) as (f' & Hf' & Hst).
  { unfold f, TX_FRAME_MAX. rewrite zlen_frame by (done || apply (nok_id n Hn)).
    pose proof (zlen_nonneg msg). unfold DATA_MAX, MAX_PAYLOAD, HEADER_BYTES in *. lia. }
  exists f'. split; [exact Hf'|]. destruct Hst as (_ & -> & _). unfold f. simpl. by rewrite <- ?app_assoc.
Qed.

Lemma node_ex_ok : node_ok node_ex.
Proof. by apply Node_new_ok; [apply wf_nid_u32|apply hal_new_ok|]. Qed.

(** A node that knows where [1; 2; 3] is served. *)
Definition knowing : Node := node_ex <| n_loc ::= λ l, l <| lo_dir := ld_ex |> |>.
Lemma knowing_ok : node_ok knowing.
Proof.
  apply node_ok_loc; [apply node_ex_ok|]. apply loc_dir_ok; [apply nok_loc, node_ex_ok|apply ld_ex_ok|].
  apply loc_upsert_wf; [|apply wf_nid_u32]. by apply Forall_replicate; split; [apply wf_nid_zero|].
Qed.

Example loc_query_answered_witness :
  let net := mkNet 36 0 4 NODE_ID_BROADCAST (nid_from_u32 9) 77 in
  let m := mkLoc LOC_QUERY 12 0 0 0 nid_zero [1; 2; 3] in
  node_ok knowing ∧ txq_repr (n_txq knowing) [] ∧
  ∃ f, txq_repr (n_txq (loc_on_query 1000 net m knowing)) ([] ++ [f]) ∧
    drop 4 f = net_bytes (mkNet (net_ver_type PKT_LOC) 0 DEFAULT_TTL (nid_from_u32 9) (nid_from_u32 1) 0)
      ++ loc_encode (mkLoc LOC_REPLY 12 1 10 59 (nid_from_u32 5) [1; 2; 3]).
Proof.
  intros net m. assert (txq_repr (n_txq knowing) []) as Hq by apply txq_init_repr.
  split; [apply knowing_ok|]. split; [exact Hq|].
  pose proof (loc_query_answered 1000 net m knowing [] knowing_ok (wf_nid_u32 9)) as H.
  cbv zeta in H. destruct (lookup_full (lm_id m) 1000 (lo_dir (n_loc knowing))).2 as [[[[loc epoch] seq] ttl]|] eqn:E.
  - vm_compute in E. injection E as <- <- <- <-. apply H; [by vm_compute|exact Hq|done].
  - vm_compute in E. discriminate E.
Defined.
