(* ===== verification/TelemService.v ===== *)
(** src/main.cpp, telemetry: the announce cache, battery reports and floods,
    and the TELEM frames of the air. *)
From S2P Require Import Prelude Update Reader SlotTable Float32 MeshTypes NeighborTable RoutingTable Router RouterWf Forwarder Packet Telemetry RadioHal TxQueue Cadence Node Transmit NodeOk LocService.

Definition TELEM_BATT_PERIOD_MS : Z := 6 * 3600 * 1000.
Definition STATUS_REPLY_COOLDOWN_MS : Z := 30000.

(** ** Announce cache *)

Fixpoint ac_stalest_from (i : nat) (l : list AnnCache) (best : nat) (best_ms : Z) : nat :=
  match l with
  | [] => best
  | c :: l =>
      if i32 (ac_ms c - best_ms) <? 0 then ac_stalest_from (S i) l i (ac_ms c)
      else ac_stalest_from (S i) l best best_ms
  end.
Definition ac_slot (src : NodeId) (l : list AnnCache) : nat :=
  match find_index (λ c, ac_used c && nid_eqb (ac_src c) src) l with
  | Some i => i
  | None =>
      match find_index (λ c, negb (ac_used c)) l with
      | Some i => i
      | None => match l with [] => O | c :: _ => ac_stalest_from 0 l 0 (ac_ms c) end
      end
  end.
Definition ann_cache_put (now : Z) (src : NodeId) (a : Announce) (rssi snr : f32) (batt_pp1 : Z)
    (l : list AnnCache) : list AnnCache :=
  <[ac_slot src l := mkAC src now rssi snr batt_pp1 (take (Z.to_nat MAX_NEIGHBORS) (an_reports a)) true]> l.
Definition ann_cache_find (src : NodeId) (l : list AnnCache) : option AnnCache :=
  i ← find_index (λ c, ac_used c && nid_eqb (ac_src c) src) l; l !! i.

(** ** Battery *)

(** [(uint16_t)(batt_raw() * batt_scale)]: the calibration keeps it in range. *)
Definition batt_refresh (raw : Z) (t : Tel) : Tel :=
  t <| te_batt_mv := if fgt (te_batt_scale t) f0
                     then u16 (f32_trunc (fmul (f32_of_Z raw) (te_batt_scale t))) else 0 |>.

Definition telem_flood_batt (now : Z) (n : Node) : Node :=
  if fle (te_batt_scale (n_tel n)) f0 then n else
  let mv := te_batt_mv (n_tel n) in
  let pct_plus1 := u8 (batt_pct mv + 1) in
  let n := match telem_build_batt mv pct_plus1 8 with
    | Some m => send_loc_flood m DEFAULT_TTL PKT_TELEM n
    | None => n
    end in
  n <| n_tel ::= λ t, t <| te_cache ::= telem_upsert (n_id n) mv pct_plus1 now |> |>.

(** ** Status replies *)

(** [(uint8_t)(q > 0 ? q * 100 : 0)] *)
Definition q_percent (q : f32) : Z :=
  u8 (f32_trunc (if fgt q f0 then fmul q (f32_of_Z 100) else f0)).

(** One neighbour of the reply, with the RF figures of its last beacon. *)
Definition status_nbr (cache : list AnnCache) (nb : Neighbor) : TelemNbr :=
  let '(snr, rssi) := match ann_cache_find (nb_id nb) cache with
    | Some c => (i8 (f32_trunc (ac_snr c)), i16 (f32_trunc (ac_rssi c)))
    | None => (0, 0)
    end in
  mkTNbr (nb_id nb) (q_percent (nb_q_rx nb)) (q_percent (nb_q_tx nb)) snr rssi.
Definition status_nbrs (n : Node) : list TelemNbr :=
  status_nbr (te_ann (n_tel n)) <$>
    take (Z.to_nat TELEM_NBR_MAX) (filter (λ nb, nb_used nb = true) (nt_slots (ro_neighbors (n_router n)))).

Section telem.
(** AGN_FW_VERSION, with its NUL *)
Variable (fw_version : bytes).

Definition status_reply (now : Z) (n : Node) : option bytes :=
  let t := n_tel n in
  let cfg := rh_cfg (n_radio n) in
  telem_build_reply (te_batt_mv t) (batt_byte t)
    (u16 (u32 (now - tm_boot_ms (n_timers n)) / 60000)) (rc_power_dbm cfg) (rc_sf cfg)
    (Z.lor (if te_mobile t then TELEM_FLAG_MOBILE else 0)
       (if cs_ble_advertising (n_ctrl n) then TELEM_FLAG_BLE else 0))
    (Some fw_version) (Some (te_name t)) (status_nbrs n)
    (10 + TELEM_FW_MAX + 1 + TELEM_NAME_MAX + 1 + TELEM_NBR_MAX * 21).

Definition telem_on_query (now : Z) (net : NetHeader) (m : TelemMsg) (n : Node) : Node :=
  if nid_eqb (tm_target m) (n_id n)
     && (STATUS_REPLY_COOLDOWN_MS <=? i32 (now - te_last_status_reply_ms (n_tel n))) then
    let n := n <| n_tel ::= λ t, t <| te_last_status_reply_ms := now |> |> in
    match status_reply now n with
    | Some r => send_loc_unicast now (nh_src net) r PKT_TELEM n
    | None => n
    end
  else n.

(** ** TELEM frames *)

Definition telem_record (now : Z) (net : NetHeader) (m : TelemMsg) (n : Node) : Node :=
  n <| n_tel ::= λ t, t <| te_cache ::= telem_upsert (nh_src net) (tm_mv m) (tm_pct_plus1 m) now |> |>.

Definition telem_deliver (now : Z) (net : NetHeader) (m : TelemMsg) (n : Node) : Node :=
  if tm_kind m =? TELEM_REPLY
  then emit (StatusLine (nh_src net) m) (telem_record now net m n) else n.

Definition on_telem_msg (now : Z) (buf : bytes) (net : NetHeader) (lh : LinkHeader) (m : TelemMsg)
    (n : Node) : Node :=
  if nid_eqb (nh_dst net) NODE_ID_BROADCAST then
    match flood_gate net n with
    | None => n
    | Some n =>
        let n := if tm_kind m =? TELEM_BATT then telem_record now net m n
                 else if tm_kind m =? TELEM_QUERY then telem_on_query now net m n else n in
        flood_on buf net n
    end
  else unicast_rx now buf net lh (telem_deliver now net m) n.

Definition on_telem_rx (now : Z) (buf : bytes) (net : NetHeader) (lh : LinkHeader) (n : Node) : res Node :=
  match telem_parse (drop (Z.to_nat HEADER_BYTES) buf) with
  | Ok m => Ok (on_telem_msg now buf net lh m n)
  | Rej => Ok n
  | Oob => Oob
  end.

(** ** Every branch keeps the invariant *)

Lemma telem_cache_ok t origin mv pct now : tel_ok t → wf_nid origin →
  tel_ok (t <| te_cache ::= telem_upsert origin mv pct now |>).
Proof.
  intros [Hc Ho Ha Hi Hm] Hid. split; try done; [by apply (telem_upsert_spec (te_cache t) origin mv pct now)|].
  by apply Forall_insert.
Qed.

Lemma telem_record_node now net m n : node_ok n → wf_nid (nh_src net) → node_ok (telem_record now net m n).
Proof. intros Hn Hs. apply node_ok_tel; [done|]. apply telem_cache_ok; [by apply nok_tel|done]. Qed.
Lemma telem_deliver_node now net m n : node_ok n → wf_nid (nh_src net) → node_ok (telem_deliver now net m n).
Proof. intros Hn Hs. unfold telem_deliver. case_match; [|done]. by apply node_ok_emit, telem_record_node. Qed.
Lemma telem_on_query_node now net m n : node_ok n → wf_nid (nh_src net) → node_ok (telem_on_query now net m n).
Proof.
  intros Hn Hs. unfold telem_on_query. case_match; [|done].
  set (n1 := n <| n_tel ::= _ |>).
  assert (node_ok n1) as H1 by (apply node_ok_tel; [done|]; by destruct (nok_tel n Hn); split).
  case_match; [by apply send_loc_unicast_node|done].
Qed.

Lemma telem_flood_batt_node now n : node_ok n → node_ok (telem_flood_batt now n).
Proof.
  intros Hn. unfold telem_flood_batt. case_match; [done|].
  set (n1 := match telem_build_batt _ _ _ with Some _ => _ | None => _ end).
  assert (node_ok n1) as H1; [|apply node_ok_tel; [done|]; apply telem_cache_ok; [by apply nok_tel|apply (nok_id n Hn)]].
  unfold n1, telem_build_batt. simpl. apply send_loc_flood_node; [done|].
  unfold DATA_MAX, MAX_PAYLOAD, HEADER_BYTES, zlen. simpl. lia.
Qed.

Lemma batt_refresh_ok raw t : tel_ok t → tel_ok (batt_refresh raw t).
Proof. by intros []. Qed.

Lemma ann_cache_put_ok now src a rssi snr pp t : tel_ok t → wf_nid src →
  Forall (λ p, wf_nid (rep_id p)) (an_reports a) → tel_ok (t <| te_ann ::= ann_cache_put now src a rssi snr pp |>).
Proof.
  intros [Hc Ho Ha Hi Hm] Hs Hr. split; try done; simpl; unfold ann_cache_put; [by rewrite length_insert|].
  apply Forall_insert; [done|]. split; [done|]. by apply Forall_take.
Qed.

Lemma on_telem_rx_node now buf net lh n : node_ok n → wf_bytes buf → frame_fits buf → wf_nid (nh_src net) →
  safe (on_telem_rx now buf net lh n) node_ok.
Proof.
  intros Hn Hb Hf Hs. unfold on_telem_rx.
  assert (safe (telem_parse (drop (Z.to_nat HEADER_BYTES) buf)) tmsg_ok) as Hp
    by (by apply telem_parse_good, Forall_drop).
  destruct (telem_parse _) as [m| |]; [|done|done]. simpl. unfold on_telem_msg.
  case_match; [|apply unicast_rx_node; eauto using telem_deliver_node].
  destruct (flood_gate net n) as [n1|] eqn:Hg; [|done]. apply flood_gate_node in Hg; [|done].
  apply flood_on_node; [|done]. repeat case_match; eauto using telem_record_node, telem_on_query_node.
Qed.

(** ** Status queries *)

Lemma q_percent_range q : is_u8 (q_percent q).
Proof. apply u8_range. Qed.
Lemma status_nbrs_wf n : node_ok n → Forall wf_tnbr (status_nbrs n).
Proof.
  intros Hn. unfold status_nbrs. apply Forall_fmap, Forall_take, Forall_forall.
  intros nb [_ Hin]%list_elem_of_filter. destruct (nok_rwf n Hn) as [Hw _].
  unfold nt_wf in Hw. rewrite Forall_forall in Hw. specialize (Hw nb Hin). simpl. unfold status_nbr.
  destruct (ann_cache_find _ _); (split; [done|]; split; [apply q_percent_range|];
    split; [apply q_percent_range|]); simpl; split; (apply i8_range || apply i16_range || zlia).
Qed.

(** The size of this node's status reply: it always fits its own buffer. *)
Definition status_size (n : Node) : Z :=
  12 + zlen (c_str_max TELEM_FW_MAX (Some fw_version))
     + zlen (c_str_max TELEM_NAME_MAX (Some (te_name (n_tel n))))
     + 21 * zlen (status_nbrs n).

Lemma status_reply_some now n : node_ok n → wf_bytes fw_version → wf_bytes (te_name (n_tel n)) →
  ∃ r, status_reply now n = Some r ∧ zlen r = status_size n.
Proof.
  intros Hn Hfw Hname. unfold status_reply, status_size.
  edestruct (telem_build_reply_eq (te_batt_mv (n_tel n)) (batt_byte (n_tel n))
    (u16 (u32 (now - tm_boot_ms (n_timers n)) / 60000)) (rc_power_dbm (rh_cfg (n_radio n)))
    (rc_sf (rh_cfg (n_radio n))) (Z.lor (if te_mobile (n_tel n) then TELEM_FLAG_MOBILE else 0)
       (if cs_ble_advertising (n_ctrl n) then TELEM_FLAG_BLE else 0))
    (Some fw_version) (Some (te_name (n_tel n))) (status_nbrs n)) as [Hz He];
    [by intros b [= <-]|by intros b [= <-]|by apply status_nbrs_wf|].
  cbv zeta in Hz, He. rewrite He. clear He. set (msg := [TELEM_REPLY] ++ _) in *.
  destruct (c_str_max_len TELEM_FW_MAX (Some fw_version)) as [_ H1]; [done|by intros b [= <-]|].
  destruct (c_str_max_len TELEM_NAME_MAX (Some (te_name (n_tel n)))) as [_ H2]; [done|by intros b [= <-]|].
  assert (take (Z.to_nat TELEM_NBR_MAX) (status_nbrs n) = status_nbrs n) as Ht.
  { apply take_ge. unfold status_nbrs. rewrite length_fmap, length_take. lia. }
  assert (zlen (status_nbrs n) <= TELEM_NBR_MAX) as H3.
  { rewrite <- Ht. unfold zlen. rewrite length_take. unfold TELEM_NBR_MAX. lia. }
  rewrite Ht in Hz. unfold TELEM_FW_MAX, TELEM_NAME_MAX, TELEM_NBR_MAX in *.
  rewrite (proj2 (Z.ltb_ge _ (zlen msg))) by lia. exists msg. split; [done|lia].
Qed.

(** Which status queries this node answers. A query for this node
    that comes at least 30 s (as a signed 32-bit difference) after the last
    answered one re-arms the cooldown; then a frame carrying the status reply to
    the asker is queued exactly when the reply fits the 214 payload bytes of a
    frame (eight neighbours always do, ten never do); a reply that does not
    fit is dropped although the cooldown is spent. Any other query changes
    nothing. *)
Theorem status_query_answered (now : Z) (net : NetHeader) (m : TelemMsg) (n : Node) (l : list bytes)
    (Hn : node_ok n) (Hsrc : wf_nid (nh_src net)) (Hfw : wf_bytes fw_version)
    (Hname : wf_bytes (te_name (n_tel n))) (Hq : txq_repr (n_txq n) l) (Hroom : zlen l < TXQ_DEPTH) :
  let n' := telem_on_query now net m n in
  if nid_eqb (tm_target m) (n_id n) && (30000 <=? i32 (now - te_last_status_reply_ms (n_tel n))) then
    te_last_status_reply_ms (n_tel n') = now ∧
    if status_size n <=? 214
    then ∃ f r, txq_repr (n_txq n') (l ++ [f]) ∧ status_reply now n = Some r ∧
      drop 4 f = net_bytes (mkNet (net_ver_type PKT_TELEM) 0 DEFAULT_TTL (nh_src net) (n_id n) (lo_pktid (n_loc n))) ++ r
    else n_txq n' = n_txq n
  else n' = n.
Proof.
  intros n'. unfold n', telem_on_query. change STATUS_REPLY_COOLDOWN_MS with 30000.
  destruct (nid_eqb _ _ && _); [|done].
  set (n1 := n <| n_tel ::= _ |>). change (status_reply now n1) with (status_reply now n).
  destruct (status_reply_some now n Hn Hfw Hname) as (r & Hr & Hz). rewrite Hr.
  unfold send_loc_unicast. change DATA_MAX with 214. rewrite Hz.
  destruct (Z.leb_spec (status_size n) 214) as [Hs|Hs]; [|by rewrite (proj2 (Z.ltb_lt 214 _)) by lia].
  rewrite (proj2 (Z.ltb_ge 214 _)) by lia. set (f := link_bytes _ ++ _). set (n2 := n1 <| n_fwd ::= _ |>).
  destruct (tx_unicast_queue now f (next_hop (nh_src net) (n_router n1)) n2 l Hq Hroom) as (f' & Hf' & Hst).
  { unfold f, TX_FRAME_MAX. rewrite zlen_frame by (done || apply (nok_id n Hn)).
    pose proof (zlen_nonneg r). unfold HEADER_BYTES. lia. }
  pose proof (tx_unicast_only now f (next_hop (nh_src net) (n_router n1)) n2) as Ho.
  split; [exact (f_equal (λ x, te_last_status_reply_ms (n_tel x)) Ho)|].
  exists f', r. split; [exact Hf'|]. split; [done|]. destruct Hst as (_ & -> & _). done.
Qed.
End telem.

Example status_query_answered_witness :
  let net := mkNet 37 0 4 NODE_ID_BROADCAST (nid_from_u32 9) 77 in
  let m := mkTMsg TELEM_QUERY 0 0 (nid_from_u32 1) 0 0 0 0 [] [] [] in
  let fw := [50; 46; 49; 0] in
  node_ok node_ex ∧ status_size fw node_ex = 15 ∧
  ∃ f r, txq_repr (n_txq (telem_on_query fw 40000 net m node_ex)) ([] ++ [f]) ∧
    status_reply fw 40000 node_ex = Some r ∧
    drop 4 f = net_bytes (mkNet (net_ver_type PKT_TELEM) 0 DEFAULT_TTL (nid_from_u32 9) (nid_from_u32 1) 0) ++ r.
Proof.
  intros net m fw. split; [apply node_ex_ok|]. split; [by vm_compute|].
  assert (wf_bytes fw) as Hfw by (unfold fw; each; zlia).
  assert (wf_bytes (te_name (n_tel node_ex))) as Hname by (simpl; each; zlia).
  pose proof (status_query_answered fw 40000 net m node_ex [] node_ex_ok (wf_nid_u32 9) Hfw Hname
    txq_init_repr eq_refl) as H.
  cbv zeta in H. change (nid_eqb (tm_target m) (n_id node_ex)) with true in H.
  destruct H as [_ H]. exact H.
Defined.

(** A node that was not queried for 2^31 ms (24.8 days) refuses status queries
    for the next 24.8 days: the signed difference is negative. *)
Lemma status_cooldown_wraps fw now net m n :
  2147483648 <= u32 (now - te_last_status_reply_ms (n_tel n)) → telem_on_query fw now net m n = n.
Proof.
  intros H. unfold telem_on_query. rewrite (proj2 (Z.leb_gt STATUS_REPLY_COOLDOWN_MS _)), andb_false_r; [done|].
  unfold i32. rewrite (proj2 (Z.ltb_ge _ _)) by done. pose proof (u32_range (now - te_last_status_reply_ms (n_tel n))).
  unfold is_u32, STATUS_REPLY_COOLDOWN_MS in *. lia.
Qed.
