(* ===== verification/CtrlPlane.v ===== *)
(** src/main.cpp, the signed control plane: commands, their dead-man rails, and
    the CONTROL frames of the air. *)
From S2P Require Import Prelude Update Reader SlotTable MeshTypes Router RouterWf Crypto Control Forwarder Packet RadioHal TxQueue Node Transmit NodeOk LocService.

Definition CTRL_REVERT_WINDOW_MS : Z := 60000.
Definition CTRL_HEARTBEAT_MS : Z := 6 * 3600 * 1000.
Definition CTRL_BLOCK_TTL_DEFAULT_MIN : Z := 30.
Definition CTRL_BLOCK_TTL_MAX_MIN : Z := 120.

(** ** Block timers *)

Definition blk_zero : BlockTtl := mkBlk nid_zero 0.

Definition ctrl_blk_set (now : Z) (victim : NodeId) (ttl_min : Z) (l : list BlockTtl) : list BlockTtl :=
  let exp := u32 (now + u32 (ttl_min * 60000)) in
  let exp := if exp =? 0 then 1 else exp in
  match find_index (λ b, blk_used b && nid_eqb (bk_victim b) victim) l with
  | Some i => <[i := mkBlk victim exp]> l
  | None =>
      match find_index (λ b, negb (blk_used b)) l with
      | Some i => <[i := mkBlk victim exp]> l
      | None => l
      end
  end.

Definition ctrl_blk_clear (victim : NodeId) (l : list BlockTtl) : list BlockTtl :=
  (λ b, if nid_eqb (bk_victim b) victim then blk_zero else b) <$> l.

Definition blk_due (now : Z) (b : BlockTtl) : bool := blk_used b && due now (bk_expiry_ms b).
Definition ctrl_blk_sweep (now : Z) (n : Node) : Node :=
  let l := cs_blk (n_ctrl n) in
  n <| n_router ::= λ r, fold_left (λ r b, if blk_due now b then unblock (bk_victim b) r else r) l r |>
    <| n_ctrl ::= λ c, c <| cs_blk := (λ b, if blk_due now b then blk_zero else b) <$> l |> |>.

(** ** Power *)

(** [rf_save]: the record is rewritten only when it differs. *)
Definition rf_save (c : RadioCfg) (n : Node) : Node := n <| n_ctrl ::= λ s, s <| cs_rf_saved := Some c |> |>.

Definition set_power (dbm : Z) (c : RadioCfg) : RadioCfg :=
  mkCfg (rc_freq_hz c) (rc_bw_hz c) (rc_sf c) (rc_cr c) dbm (rc_sync c) (rc_preamble c).
Definition ctrl_apply_power (e : ChipEnv) (dbm : Z) (persist : bool) (n : Node) : Node :=
  let c := set_power dbm (rh_cfg (n_radio n)) in
  let '(h, ops, st) := apply_config e c (n_radio n) in
  let n := log_ops ops (n <| n_radio := h |>) in
  if st =? 0 then
    let n := n <| n_con ::= λ x, x <| co_rf_work := c |> |> in
    if persist then rf_save c n else n
  else n.

Definition ctrl_heartbeat_sweep (e : ChipEnv) (now : Z) (n : Node) : Node :=
  let s := n_ctrl n in
  if negb (cs_power_managed s) then n else
  if i32 (now - u32 (cs_contact_ms s + CTRL_HEARTBEAT_MS)) <? 0 then n else
  let def := match cs_rf_saved s with Some c => rc_power_dbm c | None => PHY_TX_POWER_DBM end in
  let n := if negb (rc_power_dbm (rh_cfg (n_radio n)) =? def) then ctrl_apply_power e def false n else n in
  n <| n_ctrl ::= λ s, s <| cs_power_managed := false |> |>.

(** The revert in [agn_loop_once]. *)
Definition ctrl_revert_tick (e : ChipEnv) (now : Z) (n : Node) : Node :=
  let s := n_ctrl n in
  if negb (cs_revert_ms s =? 0) && due now (cs_revert_ms s) then
    let n := n <| n_ctrl ::= λ s, s <| cs_revert_ms := 0 |> |> in
    ctrl_apply_power e (cs_revert_dbm s) false n
  else n.

(** ** Commands *)

Definition ctrl_ack (now : Z) (m : CtrlMsg) (reply_to : NodeId) (applied provisional : Z) (n : Node) : Node :=
  if nid_eqb reply_to (n_id n) then n else
  match ctrl_build_ack (ct_cmd m) (n_id n) applied provisional (ct_counter m) CTRL_ACK_BYTES with
  | Some a => send_loc_unicast now reply_to a PKT_CONTROL n
  | None => n
  end.

Definition apply_power_cmd (e : ChipEnv) (now : Z) (m : CtrlMsg) (reply_to : NodeId) (n : Node) : Node :=
  let cur := rc_power_dbm (rh_cfg (n_radio n)) in
  let want := if LORA_MAX_TX_POWER_DBM <? ct_arg m then LORA_MAX_TX_POWER_DBM else ct_arg m in
  let prov := want <? cur in
  let n :=
    if prov then
      let n := n <| n_ctrl ::= λ s, s <| cs_revert_dbm := cur |> <| cs_pending_dbm := want |>
                                      <| cs_revert_ms := u32 (now + CTRL_REVERT_WINDOW_MS) |> |> in
      ctrl_apply_power e want false n
    else
      let n := ctrl_apply_power e want false n in
      n <| n_ctrl ::= λ s, s <| cs_revert_ms := 0 |> |> in
  let n := n <| n_ctrl ::= λ s, s <| cs_power_managed := true |> |> in
  ctrl_ack now m reply_to want (Z.b2z prov) n.

Definition apply_confirm (e : ChipEnv) (now : Z) (m : CtrlMsg) (reply_to : NodeId) (n : Node) : Node :=
  let s := n_ctrl n in
  if negb (cs_revert_ms s =? 0) && (ct_arg m =? cs_pending_dbm s) then
    let n := n <| n_ctrl ::= λ s, s <| cs_revert_ms := 0 |> |> in
    let n := ctrl_apply_power e (cs_pending_dbm s) false n in
    ctrl_ack now m reply_to (cs_pending_dbm s) 0 n
  else n.

(** Minutes: the argument when positive, else the default; at most two hours. *)
Definition block_ttl (m : CtrlMsg) : Z :=
  let ttl := if 0 <? ct_arg m then u8 (ct_arg m) else CTRL_BLOCK_TTL_DEFAULT_MIN in
  if CTRL_BLOCK_TTL_MAX_MIN <? ttl then CTRL_BLOCK_TTL_MAX_MIN else ttl.
Definition apply_block (now : Z) (m : CtrlMsg) (reply_to : NodeId) (n : Node) : Node :=
  if negb (is_zero (ct_aux m)) && negb (nid_eqb (ct_aux m) (n_id n)) then
    let '(r, ok) := block (ct_aux m) (n_router n) in
    let n := n <| n_router := r |> in
    let n := if ok then n <| n_ctrl ::= λ s, s <| cs_blk ::= ctrl_blk_set now (ct_aux m) (block_ttl m) |> |> else n in
    ctrl_ack now m reply_to (Z.b2z ok) 1 n
  else n.

Definition apply_unblock (now : Z) (m : CtrlMsg) (reply_to : NodeId) (n : Node) : Node :=
  if negb (is_zero (ct_aux m)) then
    let n := n <| n_router ::= unblock (ct_aux m) |> in
    let n := n <| n_ctrl ::= λ s, s <| cs_blk ::= ctrl_blk_clear (ct_aux m) |> |> in
    ctrl_ack now m reply_to 0 0 n
  else n.

(** [cfg_save]: the PIN and whether BLE is up. *)
Definition ble_cfg_put (n : Node) : Node :=
  n <| n_ctrl ::= λ s, s <| cs_ble_saved := Some (co_pin (n_con n), cs_ble_advertising s) |> |>.

(** Builds with AGN_BLE. *)
Definition apply_ble (now : Z) (m : CtrlMsg) (reply_to : NodeId) (n : Node) : Node :=
  let on := negb (ct_arg m =? 0) in
  let n := ble_cfg_put (n <| n_ctrl ::= λ s, s <| cs_ble_advertising := on |> |>) in
  let n := n <| n_ctrl ::= λ s, s <| cs_reboot_at := u32 (now + 3000) |> |> in
  ctrl_ack now m reply_to (Z.b2z on) 0 n.

(** The 13 signed bytes over the running configuration: power is kept. *)
Definition retune_cfg (p : bytes) (c : RadioCfg) : RadioCfg :=
  let b i := default 0 (p !! i) in
  mkCfg (le32 (b 0%nat) (b 1%nat) (b 2%nat) (b 3%nat)) (le32 (b 4%nat) (b 5%nat) (b 6%nat) (b 7%nat))
    (b 8%nat) (b 9%nat) (rc_power_dbm c) (b 10%nat) (le16 (b 11%nat) (b 12%nat)).
Definition retune_valid (c : RadioCfg) : bool :=
  (5 <=? rc_sf c) && (rc_sf c <=? 12) && (5 <=? rc_cr c) && (rc_cr c <=? 8)
  && negb (rc_freq_hz c =? 0) && negb (rc_bw_hz c =? 0).
Definition apply_retune (now : Z) (m : CtrlMsg) (reply_to : NodeId) (n : Node) : Node :=
  let c := retune_cfg (ct_cfg m) (rh_cfg (n_radio n)) in
  if negb (retune_valid c) then ctrl_ack now m reply_to 0 0 n else
  let n := rf_save c n in
  let n := ble_cfg_put (n <| n_ctrl ::= λ s, s <| cs_ble_advertising := true |> |>) in
  let n := ctrl_ack now m reply_to 1 0 n in
  n <| n_ctrl ::= λ s, s <| cs_reboot_at := u32 (now + 3000) |> |>.

(** Accepting a command: the replay floor moves first, and is saved. *)
Definition ctrl_accept (now : Z) (m : CtrlMsg) (n : Node) : Node :=
  n <| n_ctrl ::= λ s, s <| cs_counter := ct_counter m |> <| cs_saved := Some (cs_pubkey s, ct_counter m) |>
                         <| cs_contact_ms := now |> |>.
Definition ctrl_apply_verified (e : ChipEnv) (now : Z) (m : CtrlMsg) (reply_to : NodeId) (n : Node) : Node :=
  let n := ctrl_accept now m n in
  if ct_cmd m =? CTRL_POWER then apply_power_cmd e now m reply_to n
  else if ct_cmd m =? CTRL_CONFIRM then apply_confirm e now m reply_to n
  else if ct_cmd m =? CTRL_BLOCK then apply_block now m reply_to n
  else if ct_cmd m =? CTRL_UNBLOCK then apply_unblock now m reply_to n
  else if ct_cmd m =? CTRL_BLE then apply_ble now m reply_to n
  else if ct_cmd m =? CTRL_RETUNE then apply_retune now m reply_to n
  else n.

(** ** CONTROL frames *)

Section ctrl_rx.
Context `{Crypto}.

(** Only the target spends the signature check. *)
Definition ctrl_for_me (pay : bytes) (n : Node) : res bool :=
  if (CTRL_MSG_BYTES <=? zlen pay) && cs_have_key (n_ctrl n)
  then tgt ← nid_read pay 2; Ok (nid_eqb tgt (n_id n)) else Ok false.

Definition ctrl_command (e : ChipEnv) (now : Z) (pay : bytes) (net : NetHeader) (n : Node) : res Node :=
  for_me ← ctrl_for_me pay n;
  if for_me : bool then
    verdict ← ctrl_verify pay (cs_pubkey (n_ctrl n)) (cs_counter (n_ctrl n)) CtrlMsg_default;
    match verdict with
    | (CTRL_OK, Some m) => Ok (ctrl_apply_verified e now m (nh_src net) n)
    | _ => Ok n
    end
  else Ok n.

Definition ctrl_deliver (ack : res CtrlAck) (n : Node) : Node :=
  match ack with
  | Ok a => emit (CtrlAckLine (ak_origin a) (ak_cmd a) (ak_applied a) (ak_provisional a) (ak_counter a)) n
  | _ => n
  end.

Definition on_control_rx (e : ChipEnv) (now : Z) (buf : bytes) (net : NetHeader) (lh : LinkHeader) (n : Node)
    : res Node :=
  let pay := drop (Z.to_nat HEADER_BYTES) buf in
  if nid_eqb (nh_dst net) NODE_ID_BROADCAST then
    match flood_gate net n with
    | None => Ok n
    | Some n => n ← ctrl_command e now pay net n; Ok (flood_on buf net n)
    end
  else
    match ctrl_parse_ack pay with
    | Oob => Oob
    | ack => Ok (unicast_rx now buf net lh (ctrl_deliver ack) n)
    end.
End ctrl_rx.

(** ** Every branch keeps the invariant *)

Lemma node_ok_ctrl_same n c : node_ok n → cs_blk c = cs_blk (n_ctrl n) → node_ok (n <| n_ctrl := c |>).
Proof. intros Hn Hl. apply node_ok_ctrl; [done|]. destruct (nok_ctrl n Hn). by split; rewrite Hl. Qed.

(** The timers as a map from victims; setting one is an insertion, unless all
    eight slots time other victims. *)
Definition blk_map (l : list BlockTtl) : gmap NodeId BlockTtl := slots_map blk_used bk_victim l.
Definition blk_expiry (now ttl_min : Z) : Z :=
  let exp := u32 (now + u32 (ttl_min * 60000)) in if exp =? 0 then 1 else exp.

Lemma blk_expiry_used now v ttl : blk_used (mkBlk v (blk_expiry now ttl)) = true.
Proof.
  unfold blk_expiry, blk_used. simpl. case_match; [done|]. bools. by apply negb_true_iff, Z.eqb_neq.
Qed.

Lemma blk_set_spec now v ttl l : length l = 8%nat → slots_unique blk_used bk_victim l →
  let l' := ctrl_blk_set now v ttl l in
  length l' = 8%nat ∧ slots_unique blk_used bk_victim l' ∧
  (blk_map l' = <[v := mkBlk v (blk_expiry now ttl)]> (blk_map l) ∨
   l' = l ∧ blk_map l !! v = None ∧ ∀ b, b ∈ l → blk_used b = true).
Proof.
  intros Hl Hu l'. unfold l', ctrl_blk_set. fold (blk_expiry now ttl). clear l'.
  pose proof (blk_expiry_used now v ttl) as Hx. set (x := mkBlk v (blk_expiry now ttl)) in *.
  destruct (find_index (λ b, blk_used b && nid_eqb (bk_victim b) v) l) as [i|] eqn:Hf.
  { pose proof Hf as (b & Hb & Hbu & Hk)%slot_find_Some. split; [by rewrite length_insert|]. split.
    - by eapply slots_unique_update.
    - left. by apply slots_map_update. }
  destruct (find_index (λ b, negb (blk_used b)) l) as [i|] eqn:Hfree.
  { split; [by rewrite length_insert|]. split; [by apply slots_unique_fresh|left]. by apply slots_map_fresh. }
  split; [done|]. split; [done|right]. split; [done|]. split.
  - apply eq_None_not_Some. intros [b (i & Hi & Hbu & Hk)%slots_map_lookup_Some]; [|done].
    by apply (proj1 (slot_find_None blk_used bk_victim v l) Hf i b Hi Hbu).
  - pose proof (proj1 (slot_free_None blk_used l) Hfree) as Hall. intros b [i Hi]%list_elem_of_lookup. eauto.
Qed.

(** Freeing some of the slots. *)
Lemma blk_free_ok (f : BlockTtl → bool) l : slots_unique blk_used bk_victim l →
  slots_unique blk_used bk_victim ((λ b, if f b then blk_zero else b) <$> l).
Proof. intros Hu. apply slots_unique_fmap; [done|]. intros b. by case_match. Qed.
Lemma blk_free_map (f : BlockTtl → bool) l : slots_unique blk_used bk_victim l →
  blk_map ((λ b, if f b then blk_zero else b) <$> l) = filter (λ vb, f vb.2 = false) (blk_map l).
Proof.
  intros Hu. apply map_eq. intros v. apply option_eq. intros b.
  rewrite map_lookup_filter_Some. unfold blk_map.
  rewrite !slots_map_lookup_Some by (done || by apply blk_free_ok). simpl. split.
  - intros (i & Hi & Hbu & Hk). rewrite list_lookup_fmap in Hi. destruct (l !! i) as [b0|] eqn:H0; [|done].
    simpl in Hi. injection Hi as <-. destruct (f b0) eqn:Hfb; [done|]. eauto.
  - intros ((i & Hi & Hbu & Hk) & Hfb). exists i. rewrite list_lookup_fmap, Hi. simpl. by rewrite Hfb.
Qed.

Lemma apply_config_ok e c h : hal_ok h → hal_ok (apply_config e c h).1.1.
Proof.
  intros Hh. pose proof (apply_config_spec e c h) as Hs. destruct (apply_config e c h) as [[h' ops] st].
  destruct Hs as (_ & Hp & Ht & _ & [[_ ->]|[_ ->]]); [done|].
  destruct Hh. by split.
Qed.
Lemma ctrl_apply_power_node e dbm p n : node_ok n → node_ok (ctrl_apply_power e dbm p n).
Proof.
  intros Hn. unfold ctrl_apply_power.
  pose proof (apply_config_ok e (set_power dbm (rh_cfg (n_radio n))) _ (tk_radio n (nok_tx n Hn))) as Hh.
  destruct (apply_config _ _ _) as [[h ops] st]. simpl in Hh.
  assert (node_ok (log_ops ops (n <| n_radio := h |>))) as H1 by (by apply node_ok_ops, node_ok_radio).
  case_match; [|done]. cbv zeta. set (n1 := update n_con _ _). assert (node_ok n1) as H2 by (by apply node_ok_con).
  case_match; [by apply node_ok_ctrl_same|done].
Qed.
Lemma ctrl_ack_node now m to a p n : node_ok n → wf_nid to → node_ok (ctrl_ack now m to a p n).
Proof. intros Hn Ht. unfold ctrl_ack. repeat case_match; try done. by apply send_loc_unicast_node. Qed.

(** [fold_left] of unblocks. *)
Lemma unblock_fold_ok me (l : list BlockTtl) now r : router_ok me r ∧ router_wf r →
  let r' := fold_left (λ r b, if blk_due now b then unblock (bk_victim b) r else r) l r in
  router_ok me r' ∧ router_wf r'.
Proof.
  revert r. induction l as [|b l IH]; intros r Hr; [done|]. apply IH. case_match; [|done].
  destruct Hr. by split; [apply unblock_ok|apply unblock_wf].
Qed.
Lemma ctrl_blk_sweep_node now n : node_ok n → node_ok (ctrl_blk_sweep now n).
Proof.
  intros Hn. unfold ctrl_blk_sweep. set (n1 := n <| n_router ::= _ |>).
  assert (node_ok n1) as H1.
  { destruct (unblock_fold_ok (n_id n) (cs_blk (n_ctrl n)) now (n_router n)) as [H1 H2];
      [split; [apply (nok_router n Hn)|apply (nok_rwf n Hn)]|]. by apply node_ok_router. }
  apply node_ok_ctrl; [done|]. destruct (nok_ctrl n Hn). split; simpl; [by rewrite length_fmap|by apply blk_free_ok].
Qed.
Lemma ctrl_heartbeat_node e now n : node_ok n → node_ok (ctrl_heartbeat_sweep e now n).
Proof.
  intros Hn. unfold ctrl_heartbeat_sweep. repeat case_match; try done;
    (apply node_ok_ctrl_same; [|done]); try done; by apply ctrl_apply_power_node.
Qed.
Lemma ctrl_revert_node e now n : node_ok n → node_ok (ctrl_revert_tick e now n).
Proof.
  intros Hn. unfold ctrl_revert_tick. case_match; [|done].
  apply ctrl_apply_power_node. by apply node_ok_ctrl_same.
Qed.

Lemma ctrl_apply_verified_node e now m to n : node_ok n → wf_nid to → wf_nid (ct_aux m) →
  node_ok (ctrl_apply_verified e now m to n).
Proof.
  intros Hn Ht Ha. unfold ctrl_apply_verified. set (n1 := ctrl_accept now m n).
  assert (node_ok n1) as H1 by (by apply node_ok_ctrl_same). clearbody n1. clear n Hn.
  repeat case_match; try done.
  - unfold apply_power_cmd. apply ctrl_ack_node; [|done]. apply node_ok_ctrl_same; [|done].
    case_match; [|apply node_ok_ctrl_same; [|done]]; apply ctrl_apply_power_node; [|done].
    by apply node_ok_ctrl_same.
  - unfold apply_confirm. case_match; [|done]. apply ctrl_ack_node; [|done].
    apply ctrl_apply_power_node. by apply node_ok_ctrl_same.
  - unfold apply_block. case_match; [|done].
    pose proof (block_ok (n_id n1) (ct_aux m) _ (nok_router n1 H1)) as Hb.
    pose proof (block_wf (ct_aux m) _ (nok_rwf n1 H1) Ha) as Hw.
    destruct (block (ct_aux m) (n_router n1)) as [r ok]. simpl in Hb, Hw.
    assert (node_ok (n1 <| n_router := r |>)) as Hn2 by (by apply node_ok_router).
    apply ctrl_ack_node; [|done]. case_match; [|done].
    apply node_ok_ctrl; [done|]. destruct (nok_ctrl n1 H1) as [Hl Hu].
    by destruct (blk_set_spec now (ct_aux m) (block_ttl m) _ Hl Hu) as (? & ? & _).
  - unfold apply_unblock. case_match; [|done]. apply ctrl_ack_node; [|done].
    set (n2 := n1 <| n_router ::= _ |>).
    assert (node_ok n2) as Hn2.
    { apply node_ok_router; [done| |]; [by apply unblock_ok, nok_router|by apply unblock_wf, nok_rwf]. }
    apply node_ok_ctrl; [done|]. destruct (nok_ctrl n1 H1) as [Hl Hu].
    split; simpl; [by unfold ctrl_blk_clear; rewrite length_fmap|by apply blk_free_ok].
  - unfold apply_ble, ble_cfg_put. apply ctrl_ack_node; [|done]. by do 3 (apply node_ok_ctrl_same; [|done]).
  - unfold apply_retune, rf_save, ble_cfg_put. case_match; [by apply ctrl_ack_node|].
    apply node_ok_ctrl_same; [|done]. apply ctrl_ack_node; [|done]. by do 3 (apply node_ok_ctrl_same; [|done]).
Qed.

Section ctrl_ok.
Context `{Crypto}.

Lemma on_control_rx_node e now buf net lh n : node_ok n → wf_bytes buf → frame_fits buf → wf_nid (nh_src net) →
  safe (on_control_rx e now buf net lh n) node_ok.
Proof.
  intros Hn Hb Hf Hs. unfold on_control_rx. set (pay := drop _ buf).
  assert (wf_bytes pay) as Hp by (by apply Forall_drop).
  assert (zlen pay < 65536) as Hl.
  { unfold pay, frame_fits, RADIO_MAX_FRAME, zlen in *. rewrite length_drop. lia. }
  case_match.
  - destruct (flood_gate net n) as [n1|] eqn:Hg; [|done]. apply flood_gate_node in Hg; [|done].
    apply safe_bind. eapply safe_mono; [|intros n2 Hn2; by apply flood_on_node].
    unfold ctrl_command, ctrl_for_me. apply safe_bind.
    apply (safe_mono _ (λ _, True)).
    { destruct (Z.leb_spec CTRL_MSG_BYTES (zlen pay)); simpl; [|done]. case_match; [|done].
      apply safe_bind, safe_nid_read; [done|lia|unfold CTRL_MSG_BYTES in *; lia|done]. }
    intros [] _; [|done]. apply safe_bind.
    eapply safe_eq; [by apply ctrl_verify_spec|]. intros [[] [m|]] Hv _; try done.
    apply ctrl_apply_verified_node; [done..|]. eapply ctrl_verify_aux; [exact Hp| |exact Hv]. apply wf_nid_zero.
  - pose proof (ctrl_parse_ack_good pay Hp) as Hsafe.
    destruct (ctrl_parse_ack pay) as [a| |] eqn:Ha; [| |done];
      (apply unicast_rx_node; [done|done|]); intros n' Hn'; simpl; [by apply node_ok_emit|done].
Qed.
End ctrl_ok.

(** ** What sending leaves alone *)

Definition ctrl_same (n n' : Node) : Prop :=
  n_ctrl n' = n_ctrl n ∧ n_router n' = n_router n ∧ n_radio n' = n_radio n ∧ n_id n' = n_id n.
Lemma ctrl_same_refl n : ctrl_same n n.
Proof. done. Qed.
Lemma ctrl_same_trans n1 n2 n3 : ctrl_same n1 n2 → ctrl_same n2 n3 → ctrl_same n1 n3.
Proof. intros (A1 & A2 & A3 & A4) (B1 & B2 & B3 & B4). split; [|split; [|split]]; congruence. Qed.
Lemma tx_unicast_same now f nh n : ctrl_same n (tx_unicast now f nh n).
Proof. pose proof (tx_unicast_only now f nh n) as Ho. repeat split; by rewrite Ho. Qed.
Lemma send_loc_unicast_same now dst msg pt n : ctrl_same n (send_loc_unicast now dst msg pt n).
Proof.
  unfold send_loc_unicast. case_match; [done|].
  set (f := link_bytes _ ++ _). set (n1 := n <| n_fwd ::= _ |>).
  exact (tx_unicast_same now f (next_hop dst (n_router n)) n1).
Qed.
Lemma ctrl_ack_same now m to a p n : ctrl_same n (ctrl_ack now m to a p n).
Proof. unfold ctrl_ack. repeat case_match; try done. apply send_loc_unicast_same. Qed.
Lemma flood_on_same buf net n : ctrl_same n (flood_on buf net n).
Proof. unfold flood_on, loc_reflood. by repeat case_match. Qed.
Lemma forward_frame_same now buf next ttl n : ctrl_same n (forward_frame now buf next ttl n).
Proof. unfold forward_frame. case_match; [done|]. apply tx_unicast_same. Qed.
Lemma unicast_rx_same now buf net lh deliver n : (∀ n, ctrl_same n (deliver n)) →
  ctrl_same n (unicast_rx now buf net lh deliver n).
Proof.
  intros Hd. unfold unicast_rx. destruct (decide_packet _ _ _) as [f d].
  eapply (ctrl_same_trans _ (n <| n_fwd := f |>)); [done|].
  destruct (dc_action d); try done. case_match; [apply forward_frame_same|done].
Qed.
Lemma flood_gate_same net n n' : flood_gate net n = Some n' → ctrl_same n n'.
Proof. unfold flood_gate. case_match; [done|]. by intros [= <-]. Qed.

(** A run-time power change writes no control state. *)
Lemma ctrl_apply_power_ctrl e dbm n : n_ctrl (ctrl_apply_power e dbm false n) = n_ctrl n.
Proof.
  unfold ctrl_apply_power. destruct (apply_config _ _ _) as [[h ops] st]. by case_match.
Qed.
Lemma ctrl_apply_power_cfg e dbm n : (∀ i, ce_set e i = 0) →
  rh_cfg (n_radio (ctrl_apply_power e dbm false n)) = set_power dbm (rh_cfg (n_radio n)).
Proof.
  intros He. unfold ctrl_apply_power.
  pose proof (apply_config_spec e (set_power dbm (rh_cfg (n_radio n))) (n_radio n)) as Hs.
  assert ((apply_config e (set_power dbm (rh_cfg (n_radio n))) (n_radio n)).2 = 0) as Hst.
  { unfold apply_config. simpl. rewrite !He. done. }
  destruct (apply_config _ _ _) as [[h ops] st]. simpl in Hst. subst st.
  by destruct Hs as (_ & _ & _ & _ & [[? _]|[_ ->]]).
Qed.

(** The replay floor and the key, in memory and in flash. *)
Definition floor_of (n : Node) : Z * option (bytes * Z) * bytes * bool :=
  let c := n_ctrl n in (cs_counter c, cs_saved c, cs_pubkey c, cs_have_key c).
Lemma floor_ack now m to a p n : floor_of (ctrl_ack now m to a p n) = floor_of n.
Proof. unfold floor_of. by rewrite (proj1 (ctrl_ack_same now m to a p n)). Qed.
Lemma floor_power e dbm n : floor_of (ctrl_apply_power e dbm false n) = floor_of n.
Proof. unfold floor_of. by rewrite ctrl_apply_power_ctrl. Qed.
Lemma floor_upd n (f : Ctrl → Ctrl) : floor_of (n <| n_ctrl := f (n_ctrl n) |>) = floor_of n →
  floor_of (n <| n_ctrl ::= f |>) = floor_of n.
Proof. done. Qed.

(** No command's effect touches them, and accepting it sets them. *)
Lemma ctrl_apply_verified_floor e now m to n :
  floor_of (ctrl_apply_verified e now m to n) =
    (ct_counter m, Some (cs_pubkey (n_ctrl n), ct_counter m), cs_pubkey (n_ctrl n), cs_have_key (n_ctrl n)).
Proof.
  unfold ctrl_apply_verified. set (n1 := ctrl_accept now m n). change (_, _, _, _) with (floor_of n1).
  clearbody n1.
  unfold apply_power_cmd, apply_confirm, apply_block, apply_unblock, apply_ble, apply_retune, rf_save.
  repeat case_match; try done; try destruct (block _ _) as [r []];
    rewrite ?floor_ack; unfold floor_of; simpl;
    rewrite ?ctrl_apply_power_ctrl, ?(proj1 (ctrl_ack_same _ _ _ _ _ _)); try done.
Qed.

(** ** Authority *)

Section authority.
Context `{Crypto}.

Lemma ctrl_verify_target msg pubkey floor out m :
  ctrl_verify msg pubkey floor out = Ok (CTRL_OK, Some m) → nid_read msg 2 = Ok (ct_target m).
Proof.
  unfold ctrl_verify. intros Hv.
  repeat match type of Hv with
    | (if ?b then _ else _) = _ => destruct b; try done
    | (?x ≫= _) = _ => destruct x as [?| |] eqn:?; cbn [mbind res_bind] in Hv; try done
    end; injection Hv as <-; done.
Qed.

Lemma ctrl_command_cases e now pay net n n' : ctrl_command e now pay net n = Ok n' →
  n' = n ∨
  ∃ m, n' = ctrl_apply_verified e now m (nh_src net) n ∧ cs_have_key (n_ctrl n) = true ∧
    nid_read pay 2 = Ok (n_id n) ∧
    ctrl_verify pay (cs_pubkey (n_ctrl n)) (cs_counter (n_ctrl n)) CtrlMsg_default = Ok (CTRL_OK, Some m).
Proof.
  unfold ctrl_command, ctrl_for_me. destruct (_ && _) eqn:Hk; simpl; [|intros [= <-]; by left].
  apply andb_true_iff in Hk as [_ Hk]. destruct (nid_read pay 2) as [tgt| |] eqn:Ht; simpl; [|done|done].
  destruct (nid_eqb tgt (n_id n)) eqn:He; [|intros [= <-]; by left]. apply nid_eqb_eq in He as ->.
  destruct (ctrl_verify _ _ _ _) as [[v o]| |] eqn:Hv; simpl; [|done|done].
  destruct v, o; intros [= <-]; eauto 6.
Qed.

Lemma ctrl_verify_long msg pubkey floor out m :
  ctrl_verify msg pubkey floor out = Ok (CTRL_OK, Some m) → CTRL_MSG_BYTES <= zlen msg.
Proof. unfold ctrl_verify. by destruct (Z.ltb_spec (zlen msg) CTRL_MSG_BYTES). Qed.

(** A CONTROL frame that changes anything carries a signed, fresh command for
    this node. *)
Lemma control_rx_signed (e : ChipEnv) (now : Z) (buf : bytes) (net : NetHeader) (lh : LinkHeader)
    (n n' : Node) (Hb : wf_bytes buf) (Hf : frame_fits buf)
    (Hrx : on_control_rx e now buf net lh n = Ok n') :
  let pay := drop (Z.to_nat HEADER_BYTES) buf in
  (n_ctrl n' = n_ctrl n ∧ n_router n' = n_router n ∧ n_radio n' = n_radio n) ∨
  nh_dst net = NODE_ID_BROADCAST ∧ cs_have_key (n_ctrl n) = true ∧
  ∃ m, known_cmd (ct_cmd m) = true ∧ ct_target m = n_id n ∧
    take (Z.to_nat (unsigned_len (ct_cmd m))) pay = ctrl_unsigned m ∧
    ed25519_check (seg pay (unsigned_len (ct_cmd m)) 64) (cs_pubkey (n_ctrl n)) (DOMAIN ++ ctrl_unsigned m) = true ∧
    cs_counter (n_ctrl n) < ct_counter m ∧
    cs_counter (n_ctrl n') = ct_counter m ∧
    cs_saved (n_ctrl n') = Some (cs_pubkey (n_ctrl n), ct_counter m).
Proof.
  intros pay. unfold on_control_rx in Hrx. fold pay in Hrx.
  assert (wf_bytes pay) as Hp by (by apply Forall_drop).
  assert (zlen pay < 65536) as Hl.
  { unfold pay, frame_fits, RADIO_MAX_FRAME, zlen in *. rewrite length_drop. lia. }
  destruct (nid_eqb (nh_dst net) NODE_ID_BROADCAST) eqn:Hbc.
  2: { left. assert (∀ a n1, ctrl_same n1 (ctrl_deliver a n1)) as Hd by (intros [] n1; done).
       destruct (ctrl_parse_ack pay) as [a| |]; [| |done];
         injection Hrx as <-; edestruct unicast_rx_same as (A & B & C & _); done || apply Hd. }
  apply nid_eqb_eq in Hbc. destruct (flood_gate net n) as [n1|] eqn:Hg; [|injection Hrx as <-; by left].
  apply flood_gate_same in Hg as (G1 & G2 & G3 & G4).
  destruct (ctrl_command e now pay net n1) as [n2| |] eqn:Hc; simpl in Hrx; [|done|done].
  injection Hrx as <-. destruct (flood_on_same buf net n2) as (F1 & F2 & F3 & _). rewrite F1, F2, F3.
  apply ctrl_command_cases in Hc as [->|(m & -> & Hk & Ht & Hv)]; [left; by rewrite G1, G2, G3|right].
  rewrite G1, G4 in *. split; [done|]. split; [done|]. exists m.
  pose proof (ctrl_verify_spec pay (cs_pubkey (n_ctrl n)) (cs_counter (n_ctrl n)) CtrlMsg_default Hp Hl) as Hs.
  rewrite Hv in Hs. destruct Hs as (Hkn & Hlen & Hun & Hsig & Hcnt).
  apply ctrl_verify_target in Hv. rewrite Ht in Hv. injection Hv as Hv.
  pose proof (ctrl_apply_verified_floor e now m (nh_src net) n1) as Hfl. unfold floor_of in Hfl.
  injection Hfl as Hf1 Hf2 _ _. rewrite Hf1, Hf2, G1.
  split; [done|]. split; [done|]. split; [|done].
  by rewrite <- Hun; unfold seg; rewrite drop_0.
Qed.

(** ** Replays *)

(** A node under control: frames of any kind, other work that leaves the
    control state alone, and reboots from what flash holds. *)
Inductive ctl_step : Node → Node → Prop :=
  | ctl_frame e now buf net lh n n' : wf_bytes buf → frame_fits buf →
      on_control_rx e now buf net lh n = Ok n' → ctl_step n n'
  | ctl_other n n' : floor_of n' = floor_of n → ctl_step n n'
  | ctl_reboot n key radio now :
      ctl_step n (Node_new (n_id n) key radio now (cs_saved (n_ctrl n)) (cs_rf_saved (n_ctrl n))).

(** Provisioned, with the saved floor up to date. *)
Definition provisioned (pub : bytes) (floor : Z) (n : Node) : Prop :=
  cs_have_key (n_ctrl n) = true ∧ cs_pubkey (n_ctrl n) = pub ∧ floor <= cs_counter (n_ctrl n) ∧
  cs_saved (n_ctrl n) = Some (pub, cs_counter (n_ctrl n)).

Lemma ctl_step_floor pub floor n n' : ctl_step n n' → provisioned pub floor n → provisioned pub floor n'.
Proof.
  intros Hs (Hk & Hp & Hf & Hsv). destruct Hs as [e now buf net lh n n' Hb Hfit Hrx|n n' Hfl|n key radio now].
  - unfold on_control_rx in Hrx. destruct (nid_eqb (nh_dst net) NODE_ID_BROADCAST).
    2: { assert (∀ a n1, ctrl_same n1 (ctrl_deliver a n1)) as Hd by (intros [] n1; done).
         destruct (ctrl_parse_ack _) as [a| |]; [| |done];
           injection Hrx as <-; unfold provisioned; (edestruct unicast_rx_same as (-> & _); [apply Hd|done]). }
    destruct (flood_gate net n) as [n1|] eqn:Hg; [|injection Hrx as <-; done].
    apply flood_gate_same in Hg as (G1 & _). set (pay := drop _ buf) in *.
    destruct (ctrl_command e now pay net n1) as [n2| |] eqn:Hc; simpl in Hrx; [|done|done].
    injection Hrx as <-. unfold provisioned. rewrite (proj1 (flood_on_same buf net n2)).
    apply ctrl_command_cases in Hc as [->|(m & -> & _ & _ & Hv)]; [by rewrite G1|].
    pose proof (ctrl_verify_spec pay (cs_pubkey (n_ctrl n1)) (cs_counter (n_ctrl n1)) CtrlMsg_default) as Hspec.
    rewrite Hv in Hspec. destruct Hspec as (_ & _ & _ & _ & Hcnt); [by apply Forall_drop|..].
    { unfold pay, frame_fits, RADIO_MAX_FRAME, zlen in *. rewrite length_drop. lia. }
    pose proof (ctrl_apply_verified_floor e now m (nh_src net) n1) as Hfl. unfold floor_of in Hfl.
    injection Hfl as E1 E2 E3 E4. rewrite E1, E2, E3, E4, G1 in *. repeat split; try done; [lia|].
    by rewrite Hp.
  - unfold floor_of in Hfl. injection Hfl as E1 E2 E3 E4. unfold provisioned. by rewrite E1, E2, E3, E4.
  - unfold provisioned, Node_new. rewrite Hsv. simpl. done.
Qed.

Lemma ctl_run_floor pub floor n n' : rtc ctl_step n n' → provisioned pub floor n → provisioned pub floor n'.
Proof. induction 1 as [|n1 n2 n3 Hs _ IH]; [done|]. intros Hn. apply IH. by eapply ctl_step_floor. Qed.

(** A command that was accepted under one floor is a replay under any floor
    its counter does not exceed. *)
Lemma ctrl_verify_replay msg pubkey floor floor' out m :
  ctrl_verify msg pubkey floor out = Ok (CTRL_OK, Some m) → ct_counter m <= floor' →
  ctrl_verify msg pubkey floor' out = Ok (CTRL_REPLAY, None).
Proof.
  unfold ctrl_verify. intros Hv Hc.
  repeat match type of Hv with
    | (if ?counter <=? _ then _ else _) = _ => destruct (Z.leb_spec counter floor); [done|];
        destruct (Z.leb_spec counter floor'); [done|]
    | (if ?b then _ else _) = _ => destruct b; try done
    | (?x ≫= _) = _ => destruct x as [?| |] eqn:?; cbn [mbind res_bind] in Hv |- *; try done
    end; injection Hv as <-; simpl in Hc; lia.
Qed.

(** A frame whose payload is no acceptable command leaves the node's control
    state, routing and radio alone. *)
Lemma control_rx_refused e now buf net lh n n' : on_control_rx e now buf net lh n = Ok n' →
  (∀ m, ctrl_verify (drop (Z.to_nat HEADER_BYTES) buf) (cs_pubkey (n_ctrl n)) (cs_counter (n_ctrl n)) CtrlMsg_default
    ≠ Ok (CTRL_OK, Some m)) →
  ctrl_same n n'.
Proof.
  intros Hrx Hno. unfold on_control_rx in Hrx. set (pay := drop _ buf) in *.
  destruct (nid_eqb (nh_dst net) NODE_ID_BROADCAST).
  2: { assert (∀ a n1, ctrl_same n1 (ctrl_deliver a n1)) as Hd by (intros [] n1; done).
       destruct (ctrl_parse_ack pay) as [a| |]; [| |done]; injection Hrx as <-; apply unicast_rx_same, Hd. }
  destruct (flood_gate net n) as [n1|] eqn:Hg; [|injection Hrx as <-; apply ctrl_same_refl].
  apply flood_gate_same in Hg. pose proof Hg as (G1 & _).
  destruct (ctrl_command e now pay net n1) as [n2| |] eqn:Hc; simpl in Hrx; [|done|done].
  injection Hrx as <-. apply ctrl_command_cases in Hc as [->|(m & _ & _ & _ & Hv)].
  - eapply ctrl_same_trans; [exact Hg|apply flood_on_same].
  - rewrite G1 in Hv. by apply Hno in Hv.
Qed.

(** A command this node accepts moves the floor to its counter, in memory and
    in flash. *)
Lemma control_rx_accepts e now buf net lh n n' m :
  cs_have_key (n_ctrl n) = true → ct_target m = n_id n → nh_dst net = NODE_ID_BROADCAST →
  loc_flood_seen (nh_src net) (nh_pkt_id net) (n_loc n) = false →
  CTRL_MSG_BYTES <= zlen (drop (Z.to_nat HEADER_BYTES) buf) →
  ctrl_verify (drop (Z.to_nat HEADER_BYTES) buf) (cs_pubkey (n_ctrl n)) (cs_counter (n_ctrl n)) CtrlMsg_default
    = Ok (CTRL_OK, Some m) →
  on_control_rx e now buf net lh n = Ok n' →
  provisioned (cs_pubkey (n_ctrl n)) (ct_counter m) n'.
Proof.
  intros Hk Ht Hd Hnew Hlen Hv. unfold on_control_rx. set (pay := drop _ buf) in *. rewrite Hd, nid_eqb_refl.
  unfold flood_gate. rewrite Hnew. set (n1 := n <| n_loc ::= _ |>). unfold ctrl_command, ctrl_for_me.
  change (n_ctrl n1) with (n_ctrl n). change (n_id n1) with (n_id n). rewrite Hk, (proj2 (Z.leb_le _ _) Hlen). simpl.
  rewrite (ctrl_verify_target _ _ _ _ _ Hv). simpl. rewrite Ht, nid_eqb_refl, Hv. simpl. intros [= <-].
  unfold provisioned. rewrite (proj1 (flood_on_same _ _ _)).
  pose proof (ctrl_apply_verified_floor e now m (nh_src net) n1) as Hfl. unfold floor_of in Hfl.
  injection Hfl as -> -> -> ->. change (n_ctrl n1) with (n_ctrl n). repeat split; [done|lia].
Qed.

(** C12: no command is ever applied twice. A node takes a signed command
    addressed to it: the frame is new to it, and the command verifies under its
    key and above its floor. Whatever then happens, frames of any kind, work
    that does not set the control state anew ([ctl_other]), reboots that restore
    it from flash, the controller's key is the same one and every command the node accepts has a higher counter
    than the one it took; that one verifies as a replay, and a frame that
    carries it, under any headers, leaves the control state, the routing and
    the radio as they are. *)
Theorem control_no_replay (e : ChipEnv) (now : Z) (buf : bytes) (net : NetHeader) (lh : LinkHeader)
    (n n1 n2 : Node) (m : CtrlMsg)
    (Hkey : cs_have_key (n_ctrl n) = true) (Htarget : ct_target m = n_id n)
    (Hdst : nh_dst net = NODE_ID_BROADCAST)
    (Hnew : loc_flood_seen (nh_src net) (nh_pkt_id net) (n_loc n) = false)
    (Hv : ctrl_verify (drop (Z.to_nat HEADER_BYTES) buf) (cs_pubkey (n_ctrl n)) (cs_counter (n_ctrl n)) CtrlMsg_default
      = Ok (CTRL_OK, Some m))
    (Hrx : on_control_rx e now buf net lh n = Ok n1) (Hrun : rtc ctl_step n1 n2) :
  let key := cs_pubkey (n_ctrl n2) in
  let floor := cs_counter (n_ctrl n2) in
  let pay := drop (Z.to_nat HEADER_BYTES) buf in
  key = cs_pubkey (n_ctrl n) ∧
  (∀ pay' m', wf_bytes pay' → zlen pay' < 65536 →
    ctrl_verify pay' key floor CtrlMsg_default = Ok (CTRL_OK, Some m') → ct_counter m < ct_counter m') ∧
  ctrl_verify pay key floor CtrlMsg_default = Ok (CTRL_REPLAY, None) ∧
  (∀ e' now' buf' net' lh' n3, drop (Z.to_nat HEADER_BYTES) buf' = pay →
    on_control_rx e' now' buf' net' lh' n2 = Ok n3 →
    n_ctrl n3 = n_ctrl n2 ∧ n_router n3 = n_router n2 ∧ n_radio n3 = n_radio n2).
Proof.
  assert (provisioned (cs_pubkey (n_ctrl n)) (ct_counter m) n2) as (_ & Hp & Hf & _).
  { eapply ctl_run_floor; [exact Hrun|]. by eapply control_rx_accepts; [..|exact Hv|exact Hrx]; [done..|eapply ctrl_verify_long]. }
  intros key floor pay. assert (ctrl_verify pay key floor CtrlMsg_default = Ok (CTRL_REPLAY, None)) as Hr.
  { unfold key. rewrite Hp. by apply (ctrl_verify_replay _ _ _ _ _ _ Hv). }
  split; [done|]. split; [|split; [done|]].
  - intros pay' m' Hw Hl Hv'. pose proof (ctrl_verify_spec pay' key floor CtrlMsg_default Hw Hl) as Hs.
    rewrite Hv' in Hs. destruct Hs as (_ & _ & _ & _ & Hc). unfold floor in Hc. lia.
  - intros e' now' buf' net' lh' n3 Hpay Hrx'. apply control_rx_refused in Hrx' as (? & ? & ? & _); [done|].
    intros m'. fold key floor. rewrite Hpay, Hr. by intros [=].
Qed.
End authority.

(** A provisioned node and a signed command for it, in the toy instance. *)
Definition ctl_pub : bytes := @ed25519_public toy_crypto [9].
Definition ctl_node : Node := Node_new (nid_from_u32 1) None RadioHal_new 0 (Some (ctl_pub, 3)) None.
Definition ctl_payload (counter : Z) : bytes :=
  default [] (@ctrl_build toy_crypto CTRL_POWER (nid_from_u32 1) 10 counter [9] 200).
Definition ctl_net : NetHeader := mkNet 33 0 3 NODE_ID_BROADCAST (nid_from_u32 8) 500.
Definition ctl_buf (counter : Z) : bytes := link_bytes (mkLink 0 255 1 0) ++ net_bytes ctl_net ++ ctl_payload counter.

Lemma ctl_buf_ok : wf_bytes (ctl_buf 7) ∧ frame_fits (ctl_buf 7).
Proof.
  split; [by apply wf_bytes_check; vm_compute|split; by vm_compute].
Qed.

(** Command 7 is taken, the node reboots, and command 7 comes again. *)
Definition ctl_taken : Node :=
  match @on_control_rx toy_crypto env_free 100 (ctl_buf 7) ctl_net (mkLink 0 255 1 0) ctl_node with Ok n => n | _ => ctl_node end.
Definition ctl_again : Node :=
  Node_new (n_id ctl_taken) None RadioHal_new 0 (cs_saved (n_ctrl ctl_taken)) (cs_rf_saved (n_ctrl ctl_taken)).

Example control_no_replay_witness :
  @on_control_rx toy_crypto env_free 100 (ctl_buf 7) ctl_net (mkLink 0 255 1 0) ctl_node = Ok ctl_taken ∧
  ∃ m, @ctrl_verify toy_crypto (ctl_payload 7) ctl_pub 3 CtrlMsg_default = Ok (CTRL_OK, Some m) ∧ ct_counter m = 7 ∧
  @ctrl_verify toy_crypto (ctl_payload 7) (cs_pubkey (n_ctrl ctl_again)) (cs_counter (n_ctrl ctl_again)) CtrlMsg_default
    = Ok (CTRL_REPLAY, None).
Proof.
  assert (@on_control_rx toy_crypto env_free 100 (ctl_buf 7) ctl_net (mkLink 0 255 1 0) ctl_node = Ok ctl_taken) as Hrx
    by (vm_compute; reflexivity).
  split; [exact Hrx|].
  destruct (@ctrl_verify toy_crypto (ctl_payload 7) ctl_pub 3 CtrlMsg_default) as [[[] [m|]]| |] eqn:E;
    try (vm_compute in E; discriminate E).
  assert (ct_target m = n_id ctl_node ∧ ct_counter m = 7) as [Ht Hc] by (vm_compute in E; injection E as <-; by split).
  exists m. split; [done|]. split; [done|].
  assert (rtc (@ctl_step toy_crypto) ctl_taken ctl_again) as Hrun by (apply rtc_once, ctl_reboot).
  destruct (@control_no_replay toy_crypto env_free 100 (ctl_buf 7) ctl_net (mkLink 0 255 1 0) ctl_node ctl_taken ctl_again m
    eq_refl Ht eq_refl eq_refl E Hrx Hrun) as (_ & _ & Hr & _). exact Hr.
Defined.

(** ** The dead-man rails *)

(** A POWER command below the current power: in force at once, and the revert armed. *)
Lemma power_lowered e now m to n : (∀ i, ce_set e i = 0) → ct_cmd m = CTRL_POWER →
  ct_arg m < rc_power_dbm (rh_cfg (n_radio n)) → ct_arg m <= LORA_MAX_TX_POWER_DBM →
  let n1 := ctrl_apply_verified e now m to n in
  rh_cfg (n_radio n1) = set_power (ct_arg m) (rh_cfg (n_radio n)) ∧
  cs_revert_ms (n_ctrl n1) = u32 (now + 60000) ∧
  cs_revert_dbm (n_ctrl n1) = rc_power_dbm (rh_cfg (n_radio n)) ∧
  cs_pending_dbm (n_ctrl n1) = ct_arg m.
Proof.
  intros He Hcmd Hlow Hmax n1. set (cur := rc_power_dbm (rh_cfg (n_radio n))) in *.
  unfold n1, ctrl_apply_verified. rewrite Hcmd. simpl (_ =? _). cbv iota. unfold apply_power_cmd. cbv zeta.
  change (n_radio (ctrl_accept now m n)) with (n_radio n). fold cur.
  rewrite (proj2 (Z.ltb_ge LORA_MAX_TX_POWER_DBM (ct_arg m))), (proj2 (Z.ltb_lt (ct_arg m) cur)) by done.
  match goal with |- context [ctrl_ack ?a ?b ?c ?d ?f ?x] => destruct (ctrl_ack_same a b c d f x) as (-> & _ & -> & _) end.
  simpl. by rewrite ctrl_apply_power_ctrl, ctrl_apply_power_cfg by done.
Qed.

(** A deadline [delay] ms ahead, tested modulo 2^32. *)
Lemma due_after now t delay : 0 <= delay < 2147483648 →
  due t (u32 (now + delay)) = (delay <=? u32 (t - now)) && (u32 (t - now) <? delay + 2147483648).
Proof.
  intros Hdl. pose proof (u32_range (t - now)). unfold due, i32, u32, is_u32 in *.
  replace ((t - (now + delay) mod 4294967296) mod 4294967296) with (((t - now) - delay) mod 4294967296)
    by (Z.div_mod_to_equations; lia).
  assert (((t - now) - delay) mod 4294967296 = ((t - now) mod 4294967296 - delay) mod 4294967296) as ->
    by (Z.div_mod_to_equations; lia).
  set (d := (t - now) mod 4294967296) in *.
  destruct (Z.leb_spec delay d); simpl.
  - rewrite (Z.mod_small (d - delay)) by lia. destruct (Z.ltb_spec (d - delay) 2147483648);
      destruct (Z.ltb_spec d (delay + 2147483648)); lia.
  - assert ((d - delay) mod 4294967296 = d - delay + 4294967296) as -> by (Z.div_mod_to_equations; lia).
    destruct (Z.ltb_spec (d - delay + 4294967296) 2147483648); [lia|]. apply Z.leb_gt. lia.
Qed.

(** C22: a lowered power reverts unless confirmed. A POWER command
    below the current power takes effect at once and arms the revert; until
    60 s have passed nothing happens; at the first check after that (the clock
    compared modulo 2^32 ms) the old power is back and the revert disarmed. A
    CONFIRM of the same value in between disarms it and keeps the new power. *)
Theorem power_dead_man (e e' : ChipEnv) (now t : Z) (m mc : CtrlMsg) (to : NodeId) (n : Node)
    (He : ∀ i, ce_set e i = 0) (He' : ∀ i, ce_set e' i = 0)
    (Hcmd : ct_cmd m = CTRL_POWER) (Hlow : ct_arg m < rc_power_dbm (rh_cfg (n_radio n)))
    (Hmax : ct_arg m <= LORA_MAX_TX_POWER_DBM) (Harm : u32 (now + 60000) ≠ 0)
    (Hconf : ct_cmd mc = CTRL_CONFIRM) (Harg : ct_arg mc = ct_arg m) :
  let n1 := ctrl_apply_verified e now m to n in
  let elapsed := u32 (t - now) in
  rh_cfg (n_radio n1) = set_power (ct_arg m) (rh_cfg (n_radio n)) ∧
  (elapsed < 60000 → ctrl_revert_tick e' t n1 = n1) ∧
  (60000 <= elapsed < 2147483648 →
     rh_cfg (n_radio (ctrl_revert_tick e' t n1)) = rh_cfg (n_radio n) ∧
     cs_revert_ms (n_ctrl (ctrl_revert_tick e' t n1)) = 0) ∧
  (let n2 := ctrl_apply_verified e' t mc to n1 in
   rh_cfg (n_radio n2) = set_power (ct_arg m) (rh_cfg (n_radio n)) ∧
   ∀ e3 t3, ctrl_revert_tick e3 t3 n2 = n2).
Proof.
  intros n1 elapsed. destruct (power_lowered e now m to n He Hcmd Hlow Hmax) as (Hp & Hr & Hd & Hpe). fold n1 in Hp, Hr, Hd, Hpe.
  clearbody n1. split; [done|]. unfold ctrl_revert_tick. rewrite Hr, Hd, (proj2 (Z.eqb_neq _ _) Harm). cbn [negb andb].
  pose proof (due_after now t 60000) as Hdue. fold elapsed in Hdue.
  rewrite Hdue by lia. split; [|split].
  - intros Hel. by rewrite (proj2 (Z.leb_gt 60000 elapsed)) by done.
  - intros Hel. rewrite (proj2 (Z.leb_le 60000 elapsed)), (proj2 (Z.ltb_lt elapsed _)) by lia. cbn [andb].
    rewrite ctrl_apply_power_ctrl, ctrl_apply_power_cfg by done. simpl. rewrite Hp. split; [|done].
    unfold set_power. simpl. by destruct (rh_cfg (n_radio n)).
  - unfold ctrl_apply_verified. rewrite Hconf. simpl (_ =? _). cbv iota. unfold apply_confirm. cbv zeta.
    change (cs_revert_ms (n_ctrl (ctrl_accept t mc n1))) with (cs_revert_ms (n_ctrl n1)).
    change (cs_pending_dbm (n_ctrl (ctrl_accept t mc n1))) with (cs_pending_dbm (n_ctrl n1)).
    rewrite Hr, Hpe, Harg, Z.eqb_refl, (proj2 (Z.eqb_neq _ _) Harm). cbn [negb andb].
    set (n2 := ctrl_apply_power _ _ _ _).
    assert (n_ctrl (ctrl_ack t mc to (ct_arg m) 0 n2) = n_ctrl n2 ∧ n_radio (ctrl_ack t mc to (ct_arg m) 0 n2) = n_radio n2)
      as [Ec Er] by (by destruct (ctrl_ack_same t mc to (ct_arg m) 0 n2) as (? & _ & ? & _)).
    rewrite Er, Ec. split.
    + unfold n2. rewrite ctrl_apply_power_cfg by done. simpl. by rewrite Hp.
    + intros e3 t3. unfold n2. by rewrite ctrl_apply_power_ctrl.
Qed.

Definition loud_node : Node := node_ex <| n_radio := RadioHal_new <| rh_cfg := radio_default_config |> |>.
Definition power_cmd (dbm counter : Z) : CtrlMsg := mkCtrl CTRL_POWER (nid_from_u32 1) dbm nid_zero counter (replicate 13 0).

Example power_dead_man_witness :
  rc_power_dbm (rh_cfg (n_radio loud_node)) = 22 ∧
  let n1 := ctrl_apply_verified env_free 1000 (power_cmd 10 1) (nid_from_u32 8) loud_node in
  rc_power_dbm (rh_cfg (n_radio n1)) = 10 ∧
  ctrl_revert_tick env_free 60999 n1 = n1 ∧
  rc_power_dbm (rh_cfg (n_radio (ctrl_revert_tick env_free 61000 n1))) = 22.
Proof.
  assert (rc_power_dbm (rh_cfg (n_radio loud_node)) = 22) as H22 by (by vm_compute). split; [exact H22|].
  set (mc := mkCtrl CTRL_CONFIRM (nid_from_u32 1) 10 nid_zero 2 (replicate 13 0)).
  assert (∀ i, ce_set env_free i = 0) as He by done.
  assert (ct_arg (power_cmd 10 1) < rc_power_dbm (rh_cfg (n_radio loud_node))) as Hlow by (rewrite H22; reflexivity).
  assert (ct_arg (power_cmd 10 1) <= LORA_MAX_TX_POWER_DBM) as Hmax by (by vm_compute).
  assert (u32 (1000 + 60000) ≠ 0) as Harm by (by vm_compute).
  destruct (power_dead_man env_free env_free 1000 60999 (power_cmd 10 1) mc (nid_from_u32 8) loud_node
    He He eq_refl Hlow Hmax Harm eq_refl eq_refl) as (Hp & Hno & _).
  destruct (power_dead_man env_free env_free 1000 61000 (power_cmd 10 1) mc (nid_from_u32 8) loud_node
    He He eq_refl Hlow Hmax Harm eq_refl eq_refl) as (_ & _ & Hre & _).
  assert (60000 <= u32 (61000 - 1000) < 2147483648) as Hel by (split; by vm_compute).
  assert (u32 (60999 - 1000) < 60000) as Hel' by (by vm_compute).
  split; [by rewrite Hp|]. split; [exact (Hno Hel')|].
  destruct (Hre Hel) as [-> _]. exact H22.
Defined.

(** Two lowerings without a CONFIRM between them: the revert restores the first
    lowered value, which was never confirmed either, not the operator's. *)
Lemma power_revert_chain e now1 now2 t m1 m2 to n : (∀ i, ce_set e i = 0) →
  ct_cmd m1 = CTRL_POWER → ct_cmd m2 = CTRL_POWER →
  ct_arg m2 < ct_arg m1 < rc_power_dbm (rh_cfg (n_radio n)) → ct_arg m1 <= LORA_MAX_TX_POWER_DBM →
  u32 (now2 + 60000) ≠ 0 → 60000 <= u32 (t - now2) < 2147483648 →
  let n2 := ctrl_apply_verified e now2 m2 to (ctrl_apply_verified e now1 m1 to n) in
  rc_power_dbm (rh_cfg (n_radio (ctrl_revert_tick e t n2))) = ct_arg m1 ∧
  cs_revert_ms (n_ctrl (ctrl_revert_tick e t n2)) = 0.
Proof.
  intros He H1 H2 Hlow Hmax Harm Ht n2. unfold n2. clear n2.
  destruct (power_lowered e now1 m1 to n He H1) as (Hp1 & _); [lia|done|].
  set (n1 := ctrl_apply_verified e now1 m1 to n) in *.
  assert (rc_power_dbm (rh_cfg (n_radio n1)) = ct_arg m1) as Hc1 by (by rewrite Hp1).
  destruct (power_lowered e now2 m2 to n1 He H2) as (Hp2 & Hr2 & Hd2 & _); [lia|lia|].
  unfold ctrl_revert_tick. rewrite Hr2, Hd2, Hc1, (proj2 (Z.eqb_neq _ _) Harm). cbn [negb andb].
  rewrite due_after, (proj2 (Z.leb_le 60000 _)), (proj2 (Z.ltb_lt (u32 (t - now2)) _)) by lia. cbn [andb].
  by rewrite ctrl_apply_power_ctrl, ctrl_apply_power_cfg.
Qed.

(** ** Blocks *)

Lemma sweep_blocked now l r x : NoDup (ro_blocked r) →
  x ∈ ro_blocked (fold_left (λ r b, if blk_due now b then unblock (bk_victim b) r else r) l r) ↔
  x ∈ ro_blocked r ∧ ∀ b, b ∈ l → blk_due now b = true → bk_victim b ≠ x.
Proof.
  revert r. induction l as [|b l IH]; intros r Hnd; simpl.
  { split; [|by intros [? _]]. intros Hx. split; [done|]. by intros b ?%elem_of_nil. }
  destruct (blk_due now b) eqn:Hb.
  - destruct (unblock_blocked (bk_victim b) r Hnd) as (Hnd' & Hin & _). rewrite IH, Hin by done. split.
    + intros [[Hx Hne] Hr]. split; [done|]. intros b' [->|Hb']%elem_of_cons Hd; [done|auto].
    + intros [Hx Hr]. split; [split; [done|]|].
      * intros ->. by eapply Hr; [left|..].
      * intros b' Hb' Hd. apply Hr; [by right|done].
  - rewrite IH by done. split; intros [Hx Hr]; (split; [done|]).
    + intros b' [->|Hb']%elem_of_cons Hd; [congruence|auto].
    + intros b' Hb' Hd. apply Hr; [by right|done].
Qed.

Lemma block_ttl_range m : is_i8 (ct_arg m) → 1 <= block_ttl m <= 120.
Proof.
  intros Harg. unfold block_ttl, CTRL_BLOCK_TTL_MAX_MIN, CTRL_BLOCK_TTL_DEFAULT_MIN.
  destruct (Z.ltb_spec 0 (ct_arg m)); [rewrite u8_small by zlia|]; case_match; bools; zlia.
Qed.

(** A timer set at [now] is due within 2^31 ms after its time, and not before. *)
Lemma blk_due_at t now v ttl : 1 <= ttl <= 120 →
  let b := mkBlk v (blk_expiry now ttl) in let ttl_ms := ttl * 60000 in
  (u32 (t - now) < ttl_ms → blk_due t b = false) ∧
  (ttl_ms < u32 (t - now) < ttl_ms + 2147483648 → blk_due t b = true).
Proof.
  intros Httl b ttl_ms.
  assert (blk_due t b = due t (blk_expiry now ttl)) as -> by (unfold blk_due; unfold b at 1; by rewrite blk_expiry_used).
  assert (∀ k, k = ttl_ms ∨ k = ttl_ms + 1 → due t (u32 (now + k)) =
    (k <=? u32 (t - now)) && (u32 (t - now) <? k + 2147483648)) as Hdue by (intros k Hk; apply due_after; lia).
  unfold blk_expiry. assert (u32 (ttl * 60000) = ttl_ms) as -> by (apply u32_small; unfold is_u32; lia). cbv zeta.
  destruct (Z.eqb_spec (u32 (now + ttl_ms)) 0) as [E0|_].
  - replace 1 with (u32 (now + (ttl_ms + 1))) by zlia. rewrite Hdue by auto. split; lia.
  - rewrite Hdue by auto. split; lia.
Qed.

Lemma block_takes me v r : router_ok me r → v ≠ nid_zero → v ≠ me →
  v ∈ ro_blocked r ∨ zlen (ro_blocked r) < MAX_BLOCKED →
  ∃ r', block v r = (r', true) ∧ v ∈ ro_blocked r' ∧ NoDup (ro_blocked r').
Proof.
  intros Hro Hz Hme Hroom. pose proof (block_ok me v _ Hro) as Hbo. pose proof (ok_blocked_nodup _ _ Hbo) as Hnd. revert Hnd.
  unfold block, is_zero. rewrite (proj2 (nid_eqb_neq v nid_zero)), (ok_id _ _ Hro), (proj2 (nid_eqb_neq v me)) by done.
  cbn [orb]. destruct (is_blocked v r) eqn:Hib.
  { apply is_blocked_true in Hib. intros Hnd. by eexists. }
  destruct Hroom as [Hin%is_blocked_true|Hlt]; [congruence|].
  rewrite (proj2 (Z.leb_gt MAX_BLOCKED _)) by done. intros Hnd. eexists. split; [done|]. split; [|done].
  simpl. apply elem_of_app. right. by apply list_elem_of_singleton.
Qed.

Lemma block_cmd_effect e now m to n r : ct_cmd m = CTRL_BLOCK → ct_aux m ≠ nid_zero → ct_aux m ≠ n_id n →
  block (ct_aux m) (n_router n) = (r, true) →
  let n1 := ctrl_apply_verified e now m to n in
  n_router n1 = r ∧ cs_blk (n_ctrl n1) = ctrl_blk_set now (ct_aux m) (block_ttl m) (cs_blk (n_ctrl n)).
Proof.
  intros Hcmd Hz Hme Hb n1. unfold n1, ctrl_apply_verified. rewrite Hcmd. simpl (_ =? _). cbv iota. unfold apply_block, is_zero.
  change (n_id (ctrl_accept now m n)) with (n_id n). change (n_router (ctrl_accept now m n)) with (n_router n).
  rewrite (proj2 (nid_eqb_neq (ct_aux m) nid_zero)), (proj2 (nid_eqb_neq (ct_aux m) (n_id n))), Hb by done. cbn [negb andb].
  match goal with |- context [ctrl_ack ?a ?b ?c ?d ?f ?x] => destruct (ctrl_ack_same a b c d f x) as (-> & -> & _) end.
  done.
Qed.

(** A signed block expires unless renewed. A BLOCK command for a
    victim that fits the router's list and the timer table blocks it and times
    it, one minute to two hours ahead. Until the time is up the sweep of every
    loop leaves the victim blocked; the first sweep after it (modulo 2^32 ms)
    unblocks it and frees the timer, whatever else is blocked. *)
Theorem block_dead_man (e : ChipEnv) (now t : Z) (m : CtrlMsg) (to : NodeId) (n : Node)
    (Hn : node_ok n) (Hcmd : ct_cmd m = CTRL_BLOCK) (Hz : ct_aux m ≠ nid_zero) (Hme : ct_aux m ≠ n_id n)
    (Harg : is_i8 (ct_arg m))
    (Hroom : ct_aux m ∈ ro_blocked (n_router n) ∨ zlen (ro_blocked (n_router n)) < MAX_BLOCKED)
    (Hslot : is_Some (blk_map (cs_blk (n_ctrl n)) !! ct_aux m) ∨ ∃ b, b ∈ cs_blk (n_ctrl n) ∧ blk_used b = false) :
  let n1 := ctrl_apply_verified e now m to n in
  let ttl_ms := block_ttl m * 60000 in
  let n2 := ctrl_blk_sweep t n1 in
  1 <= block_ttl m <= 120 ∧ ct_aux m ∈ ro_blocked (n_router n1) ∧
  (u32 (t - now) < ttl_ms → ct_aux m ∈ ro_blocked (n_router n2)) ∧
  (ttl_ms < u32 (t - now) < ttl_ms + 2147483648 →
     (ct_aux m ∉ ro_blocked (n_router n2)) ∧ blk_map (cs_blk (n_ctrl n2)) !! ct_aux m = None).
Proof.
  intros n1 ttl_ms n2. set (v := ct_aux m) in *. destruct (nok_ctrl n Hn) as [Hl Hu].
  pose proof (block_ttl_range m Harg) as Httl.
  destruct (block_takes (n_id n) v _ (nok_router n Hn) Hz Hme Hroom) as (r & Hb & Hvr & Hnd).
  destruct (block_cmd_effect e now m to n r Hcmd Hz Hme Hb) as [Er Eb]. fold n1 v in Er, Eb.
  destruct (blk_set_spec now v (block_ttl m) _ Hl Hu) as (Hl' & Hu' & Hset). rewrite <- Eb in *.
  destruct Hset as [Hmap|(_ & Hnone & Hfull)].
  2: { exfalso. destruct Hslot as [[b Hb']|(b & Hbin & Hbu)]; [congruence|].
       specialize (Hfull b Hbin). congruence. }
  destruct (blk_due_at t now v (block_ttl m) Httl) as [Hearly Hlate]. set (b := mkBlk v _) in *.
  assert (blk_map (cs_blk (n_ctrl n1)) !! v = Some b) as Hbv by (rewrite Hmap; apply lookup_insert_eq).
  (* the victim's only timer *)
  assert (∀ b', b' ∈ cs_blk (n_ctrl n1) → blk_due t b' = true → bk_victim b' = v → b' = b) as Honly.
  { intros b' [i Hi]%list_elem_of_lookup [Hbu _]%andb_true_iff Hk.
    assert (blk_map (cs_blk (n_ctrl n1)) !! v = Some b') as Hb'; [|congruence].
    apply slots_map_lookup_Some; [done|]. eauto. }
  unfold n2, ctrl_blk_sweep. cbn [n_router n_ctrl update n_router_upd n_ctrl_upd].
  split; [done|]. split; [by rewrite Er|]. rewrite Er. split.
  - intros Hel. apply sweep_blocked; [done|]. split; [done|]. intros b' Hb' Hd Hk.
    rewrite (Honly b' Hb' Hd Hk), Hearly in Hd by done. done.
  - intros Hel. specialize (Hlate Hel). split.
    + rewrite sweep_blocked by done. intros [_ Hr].
      apply slots_map_lookup_Some in Hbv as (i & Hi & _); [|done].
      eapply Hr; [by apply list_elem_of_lookup; eexists|done|done].
    + simpl. rewrite blk_free_map by done. apply map_lookup_filter_None. right. intros b' Hb'.
      rewrite Hbv in Hb'. injection Hb' as <-. simpl. congruence.
Qed.

Example block_dead_man_witness :
  let victim := nid_from_u32 9 in
  let m := mkCtrl CTRL_BLOCK (nid_from_u32 1) 5 victim 1 (replicate 13 0) in
  let n1 := ctrl_apply_verified env_free 1000 m (nid_from_u32 8) node_ex in
  node_ok node_ex ∧ victim ∈ ro_blocked (n_router n1) ∧
  victim ∈ ro_blocked (n_router (ctrl_blk_sweep 300999 n1)) ∧
  victim ∉ ro_blocked (n_router (ctrl_blk_sweep 301001 n1)).
Proof.
  intros victim m n1. pose proof node_ex_ok as Hn.
  assert (victim ≠ nid_zero) as Hz by (by vm_compute).
  assert (victim ≠ n_id node_ex) as Hme by (by vm_compute).
  assert (is_i8 (ct_arg m)) as Harg by (unfold is_i8; simpl; lia).
  assert (victim ∈ ro_blocked (n_router node_ex) ∨ zlen (ro_blocked (n_router node_ex)) < MAX_BLOCKED) as Hroom
    by (right; by vm_compute).
  assert (is_Some (blk_map (cs_blk (n_ctrl node_ex)) !! victim) ∨
    ∃ b, b ∈ cs_blk (n_ctrl node_ex) ∧ blk_used b = false) as Hslot.
  { right. exists blk_zero. split; [|done]. apply list_elem_of_lookup. by exists 0%nat. }
  destruct (block_dead_man env_free 1000 300999 m (nid_from_u32 8) node_ex Hn eq_refl Hz Hme Harg Hroom Hslot)
    as (_ & Hin & Hno & _).
  destruct (block_dead_man env_free 1000 301001 m (nid_from_u32 8) node_ex Hn eq_refl Hz Hme Harg Hroom Hslot)
    as (_ & _ & _ & Hdue).
  split; [exact Hn|]. split; [exact Hin|]. split; [apply Hno; by vm_compute|].
  apply Hdue. split; by vm_compute.
Defined.
