(* ===== verification/SarSession.v ===== *)
(** src/main.cpp, payload transport end to end: the host tunnel, the paced
    segmentation of large payloads, the receiver's NACK and DONE, and what a
    delivered DATA payload does. *)
From S2P Require Import Prelude Update Reader SlotTable MeshTypes Router RouterWf Forwarder LinkArq Packet Kiss Sar RadioHal TxQueue Hdlc Node Transmit NodeOk.

Definition SAR_NACK_TIMEOUT_MS : Z := 6000.
Definition SAR_MAX_NACK_ROUNDS : Z := 6.
Definition SAR_RX_DEFER_MS : Z := 10000.
Definition TQ_DRAIN_GRACE_MS : Z := SAR_NACK_TIMEOUT_MS + 4000.
Definition TQ_DONE_GAP_MS : Z := 1500.
(** Beacons are hushed this long after transfer activity. *)
Definition SAR_QUIET_MS : Z := 8000.
Definition hush (now : Z) (n : Node) : Node :=
  n <| n_timers ::= λ t, t <| tm_sar_quiet_until := u32 (now + SAR_QUIET_MS) |> |>.

(** [rnd] stands for random(0, 2000). *)
Definition sar_nack_rearm (now rnd : Z) (me : NodeId) (x : SarRx) : SarRx :=
  x <| sx_last_ms := now |> <| sx_nack_jit := u32 (Z.land (nid_fold me) 1023 + u32 rnd) |>.
Definition sar_rx_busy (now : Z) (x : SarRx) : bool :=
  sr_active (sx_rx x) && negb (sar_complete (sx_rx x)) && (i32 (now - sx_last_ms x) <? SAR_RX_DEFER_MS).

(** ** Host tunnel *)

Definition host_tunnel_active (n : Node) : bool := tu_ble_connected (n_tun n) || tu_mode (n_tun n).

Definition tunnel_emit (src : NodeId) (payload : bytes) (n : Node) : Node :=
  let payload := if TUN_HOST_MAX <? zlen payload then take (Z.to_nat TUN_HOST_MAX) payload else payload in
  if tu_kiss_mode (n_tun n) && negb (tu_ble_connected (n_tun n)) then
    match kiss_encode KISS_CMD_DATA payload (2 * KISS_MAX_FRAME + 3) with
    | Some kf => emit (ToKiss kf) n
    | None => n
    end
  else emit (ToHost (hdlc_write (tunnel_envelope src payload))) n.

Definition sar_start (dst : NodeId) (payload : bytes) (n : Node) : Node :=
  n <| n_sartx ::= λ t, t <| st_blob := payload |> <| st_crc := sar_crc32 payload |>
         <| st_xfer_id := u16 (st_xfer_id t + 1) |> <| st_dst := dst |>
         <| st_count := sar_frag_count (zlen payload) |> <| st_idx := 0 |> <| st_active := true |> |>.

Definition sar_sending (t : SarTx) : bool := st_active t || st_resend_active t.

(** [dup] in [tunnel_send]: the payload is already airing or queued. *)
Definition tq_at (u : Tunnel) (k : Z) : TunPending :=
  default (mkTunPending nid_zero []) (tu_q u !! Z.to_nat ((tu_head u + k) mod TQ_CAP)).
Definition tun_dup (dst : NodeId) (payload : bytes) (t : SarTx) (u : Tunnel) : bool :=
  sar_sending t && nid_eqb (st_dst t) dst && bool_decide (st_blob t = payload)
  || existsb (λ k, nid_eqb (tp_dst (tq_at u k)) dst && bool_decide (tp_buf (tq_at u k) = payload))
       (seqZ 0 (tu_count u)).

Definition tq_push (dst : NodeId) (payload : bytes) (u : Tunnel) : Tunnel :=
  u <| tu_q ::= <[Z.to_nat ((tu_head u + tu_count u) mod TQ_CAP) := mkTunPending dst payload]> |>
    <| tu_count := u8 (tu_count u + 1) |>.

Definition tunnel_send (now : Z) (dst : NodeId) (payload : bytes) (n : Node) : Node :=
  let plen := zlen payload in
  if nid_eqb dst (n_id n) then tunnel_emit (n_id n) payload n else
  if plen <=? DATA_MAX then send_data_bytes now dst payload n else
  if negb (sar_sending (n_sartx n)) && (tu_count (n_tun n) =? 0) && (plen <=? SAR_MAX_FILE)
  then sar_start dst payload n else
  if (tu_count (n_tun n) <? TQ_CAP) && (plen <=? TUN_HOST_MAX) then
    if tun_dup dst payload (n_sartx n) (n_tun n) then n else n <| n_tun ::= tq_push dst payload |>
  else n.

(** A rejected envelope is reported on the console and dropped. *)
Definition tunnel_rx_frame (now : Z) (f : bytes) (n : Node) : res Node :=
  match tunnel_parse f with
  | Ok (dst, payload) => Ok (tunnel_send now dst payload n)
  | Rej => Ok n
  | Oob => Oob
  end.

(** ** Sender *)

Definition link_clear (n : Node) : bool :=
  negb (busy (n_radio n)) && negb (0 <? tx_count (n_txq n)) && negb (0 <? pending_count (n_arq n)).

(** The index this tick sends, and the state after it was picked. *)
Definition sar_next (now : Z) (t : SarTx) : Z * SarTx :=
  if st_active t then
    let t' := t <| st_idx := u16 (st_idx t + 1) |> in
    (st_idx t, if st_count t' <=? st_idx t' then t' <| st_active := false |> <| st_done_ms := now |> else t')
  else
    let t' := t <| st_resend_idx := u16 (st_resend_idx t + 1) |> in
    (default 0 (st_resend t !! Z.to_nat (st_resend_idx t)),
     if zlen (st_resend t') <=? st_resend_idx t' then t' <| st_resend_active := false |> <| st_done_ms := now |> else t').

(** sizeof(frag) *)
Definition FRAG_BUF : Z := 1 + SAR_HDR_BYTES + SAR_CHUNK.
Definition sar_tx_tick (now : Z) (n : Node) : Node :=
  if negb (sar_sending (n_sartx n)) then n else
  if negb (link_clear n) then n else
  if negb (st_resend_active (n_sartx n)) && sar_rx_busy now (n_sarrx n) then n else
  let '(idx, t) := sar_next now (n_sartx n) in
  let n := n <| n_sartx := t |> in
  match sar_build_fragment (st_blob t) (st_xfer_id t) (st_crc t) idx FRAG_BUF with
  | Some frag => send_data_bytes now (st_dst t) frag n
  | None => n
  end.

Definition tun_queue_tick (now : Z) (n : Node) : Node :=
  let u := n_tun n in
  if (tu_count u =? 0) || sar_sending (n_sartx n) then n else
  if i32 (now - st_done_ms (n_sartx n)) <? TQ_DRAIN_GRACE_MS then n else
  if sar_rx_busy now (n_sarrx n) then n else
  let p := tq_at u 0 in
  let n := sar_start (tp_dst p) (tp_buf p) n in
  n <| n_tun ::= λ u, u <| tu_head := u8 ((tu_head u + 1) mod TQ_CAP) |> <| tu_count := u8 (tu_count u - 1) |> |>.

(** ** Receiver *)

Definition sar_rx_tick (now rnd : Z) (n : Node) : Node :=
  let x := n_sarrx n in
  if negb (sr_active (sx_rx x)) || sar_complete (sx_rx x) then n else
  if i32 (now - sx_last_ms x) <? i32 (SAR_NACK_TIMEOUT_MS + sx_nack_jit x) then n else
  if SAR_MAX_NACK_ROUNDS <=? sx_nack_rounds x then n else
  let miss := sar_missing SAR_MAX_FRAGS (sx_rx x) in
  if zlen miss =? 0 then n else
  let nack := default [] (sar_build_nack (sr_xfer_id (sx_rx x)) miss DATA_MAX) in
  let n := send_data_bytes now (sx_sender x) nack n in
  let n := n <| n_sarrx ::= λ x, sar_nack_rearm now rnd (n_id n) (x <| sx_nack_rounds := u8 (sx_nack_rounds x + 1) |>) |> in
  hush now n.

(** ** A delivered DATA payload *)

Definition sar_on_done (now : Z) (pay : bytes) (n : Node) : res Node :=
  xid ← sar_parse_done pay;
  let t := n_sartx n in
  if (xid =? st_xfer_id t) && negb (st_active t) && negb (st_resend_active t)
  then Ok (n <| n_sartx ::= λ t, t <| st_done_ms := u32 (now - (TQ_DRAIN_GRACE_MS - TQ_DONE_GAP_MS)) |> |>)
  else Ok n.

Definition sar_on_nack (src : NodeId) (pay : bytes) (n : Node) : res Node :=
  r ← sar_parse_nack pay SAR_MAX_FRAGS;
  let '(xid, req) := r : Z * list Z in
  let t := n_sartx n in
  if (xid =? st_xfer_id t) && (0 <? zlen (st_blob t)) && (0 <? zlen req)
  then Ok (n <| n_sartx ::= λ t, t <| st_resend := req |> <| st_resend_idx := 0 |>
                                   <| st_resend_active := true |> <| st_dst := src |> |>)
  else Ok n.

(** The transfer verified: hand it to the host, confirm it once. *)
Definition sar_delivered (now : Z) (n : Node) : Node :=
  let x := n_sarrx n in
  let n := if host_tunnel_active n then tunnel_emit (sx_sender x) (sar_data (sx_rx x)) n else n in
  if negb (sr_xfer_id (sx_rx x) =? sx_done_sent_xfer x) then
    let n := match sar_build_done (sr_xfer_id (sx_rx x)) SAR_DONE_BYTES with
      | Some fin => send_data_bytes now (sx_sender x) fin n
      | None => n
      end in
    n <| n_sarrx ::= λ x, x <| sx_done_sent_xfer := sr_xfer_id (sx_rx x) |> |>
  else n.

Definition sar_on_fragment (now rnd : Z) (src : NodeId) (pay : bytes) (n : Node) : res Node :=
  xf ← rd_u16 pay 4;
  let n := if negb (xf =? sx_last_xfer (n_sarrx n))
           then n <| n_sarrx ::= λ x, x <| sx_last_xfer := xf |> <| sx_nack_rounds := 0 |> |> else n in
  r ← sar_add pay (sx_rx (n_sarrx n));
  let n := n <| n_sarrx ::= λ x, sar_nack_rearm now rnd (n_id n) (x <| sx_rx := r.1 |> <| sx_sender := src |>) |> in
  let n := hush now n in
  Ok (if sar_verify (sx_rx (n_sarrx n)) then sar_delivered now n else n).

(** [payload[64]] of the console line. *)
Definition data_deliver (now rnd : Z) (net : NetHeader) (pay : bytes) (n : Node) : res Node :=
  if sar_is_done pay then sar_on_done now pay n else
  if sar_is_nack pay then sar_on_nack (nh_src net) pay n else
  if sar_is_fragment pay then sar_on_fragment now rnd (nh_src net) pay n else
  if host_tunnel_active n then Ok (tunnel_emit (nh_src net) pay n) else
  Ok (emit (DataLine (nh_src net) (nh_pkt_id net) (take 63 pay)) n).

(** ** Every branch keeps the invariant *)

Lemma tunnel_emit_node src payload n : node_ok n → node_ok (tunnel_emit src payload n).
Proof. intros Hn. unfold tunnel_emit. repeat case_match; auto using node_ok_emit. Qed.

Lemma sar_start_ok dst payload t : sartx_ok t → wf_nid dst → zlen payload <= SAR_MAX_FILE →
  sartx_ok (t <| st_blob := payload |> <| st_crc := sar_crc32 payload |>
              <| st_xfer_id := u16 (st_xfer_id t + 1) |> <| st_dst := dst |>
              <| st_count := sar_frag_count (zlen payload) |> <| st_idx := 0 |> <| st_active := true |>).
Proof. intros [] Hd Hp. split; simpl; try done. apply u16_range. Qed.
Lemma sar_start_node dst payload n : node_ok n → wf_nid dst → zlen payload <= SAR_MAX_FILE →
  node_ok (sar_start dst payload n).
Proof. intros Hn Hd Hp. apply node_ok_sartx; [done|]. by apply sar_start_ok; [apply nok_sartx|..]. Qed.

(** The tunnel queue as a list. *)
Lemma tq_at_repr u l k p : tun_repr u l → l !! k = Some p → tq_at u (Z.of_nat k) = p.
Proof. intros [Hr _] Hk. unfold tq_at. by rewrite (rr_at _ _ _ _ Hr k p Hk). Qed.

Lemma tq_push_repr dst payload u l : tun_repr u l → zlen l < TQ_CAP →
  tun_repr (tq_push dst payload u) (l ++ [mkTunPending dst payload]).
Proof.
  intros [Hr Hc] Hl. pose proof (zlen_nonneg l). split; simpl.
  - rewrite Hc. by apply ring_push.
  - rewrite Hc, zlen_app, zlen_cons, (zlen_nil (A:=TunPending)), u8_small; unfold TQ_CAP in *; zlia.
Qed.

Lemma tq_pop_repr u p l : tun_repr u (p :: l) →
  tq_at u 0 = p ∧
  tun_repr (u <| tu_head := u8 ((tu_head u + 1) mod TQ_CAP) |> <| tu_count := u8 (tu_count u - 1) |>) l.
Proof.
  intros Hu. split; [by apply (tq_at_repr u _ 0 p Hu)|]. destruct Hu as [Hr Hc].
  destruct (ring_pop _ _ _ _ _ Hr) as [_ Hr']. pose proof (rr_len _ _ _ _ Hr) as Hlen.
  pose proof (zlen_nonneg l). rewrite zlen_cons in *. unfold TQ_CAP in *. split; simpl.
  - rewrite u8_small; [done|]. pose proof (rr_head _ _ _ _ Hr'). zlia.
  - rewrite Hc, u8_small by zlia. lia.
Qed.

Lemma tunnel_send_node now dst payload n : node_ok n → wf_nid dst → node_ok (tunnel_send now dst payload n).
Proof.
  intros Hn Hd. unfold tunnel_send. destruct (nid_eqb dst (n_id n)); [by apply tunnel_emit_node|].
  destruct (Z.leb_spec (zlen payload) DATA_MAX); [by apply send_data_node|].
  destruct (negb _ && _ && _) eqn:Hs; [bools; by apply sar_start_node|].
  destruct ((_ <? TQ_CAP) && _) eqn:Hq; [|done]. bools. case_match; [done|].
  apply node_ok_tun; [done|]. destruct (nok_tun n Hn) as [(l & Hr & Hl) Hk]. split; [|done].
  exists (l ++ [mkTunPending dst payload]). destruct (Hr) as [_ Hc]. split.
  - apply tq_push_repr; [done|]. lia.
  - apply Forall_app. split; [done|]. by apply Forall_singleton.
Qed.

Lemma tunnel_rx_node now f n : node_ok n → wf_bytes f → zlen f < 65536 → safe (tunnel_rx_frame now f n) node_ok.
Proof.
  intros Hn Hf Hl. unfold tunnel_rx_frame. pose proof (tunnel_parse_spec f Hf Hl) as Hp.
  destruct (tunnel_parse f) as [[dst p]| |]; [|done|done]. simpl in *. apply tunnel_send_node; [done|]. apply Hp.
Qed.

Lemma sar_next_ok now t : sartx_ok t → sartx_ok (sar_next now t).2.
Proof.
  intros [H1 H2 H3 H4 [H5 H5'] [H6 H7]]. unfold sar_next. pose proof (u16_range (st_idx t + 1)).
  destruct (st_active t) eqn:Ha; simpl.
  - destruct (_ <=? _); split; simpl; done.
  - destruct (Z.leb_spec (zlen (st_resend t)) (u16 (st_resend_idx t + 1))); split; simpl; try done.
    all: pose proof (u16_range (st_resend_idx t + 1)); split; [zlia|]; intros; done || lia.
Qed.

Lemma sar_tx_tick_node now n : node_ok n → node_ok (sar_tx_tick now n).
Proof.
  intros Hn. unfold sar_tx_tick. destruct (negb (sar_sending _)); [done|]. destruct (negb (link_clear n)); [done|].
  destruct (negb (st_resend_active (n_sartx n)) && _); [done|].
  pose proof (sar_next_ok now _ (nok_sartx n Hn)) as Hs. destruct (sar_next now (n_sartx n)) as [idx t]. simpl in Hs.
  assert (node_ok (n <| n_sartx := t |>)) as H1 by (by apply node_ok_sartx).
  case_match; [|done]. apply send_data_node; [done|]. by destruct Hs.
Qed.

Lemma tun_queue_tick_node now n : node_ok n → node_ok (tun_queue_tick now n).
Proof.
  intros Hn. unfold tun_queue_tick. destruct (_ || _) eqn:H1; [done|]. destruct (_ <? TQ_DRAIN_GRACE_MS); [done|].
  destruct (sar_rx_busy _ _); [done|]. bools. destruct (nok_tun n Hn) as [(l & Hr & Hl) Hk].
  destruct l as [|p l]; [by destruct Hr as [_ Hc]|].
  destruct (tq_pop_repr _ _ _ Hr) as [-> Hr']. apply Forall_cons in Hl as [[Hp Hlen] Hl].
  set (n1 := sar_start _ _ n). assert (node_ok n1) as Hn1.
  { apply sar_start_node; [done|done|]. unfold TUN_HOST_MAX, SAR_MAX_FILE in *. lia. }
  apply node_ok_tun; [done|]. split; [|done]. by exists l.
Qed.

Lemma rearm_ok now rnd me x : sarrx_ok x → sarrx_ok (sar_nack_rearm now rnd me x).
Proof. by intros []. Qed.
Lemma hush_node now n : node_ok n → node_ok (hush now n).
Proof. intros. by apply node_ok_timers. Qed.

Lemma sar_rx_tick_node now rnd n : node_ok n → node_ok (sar_rx_tick now rnd n).
Proof.
  intros Hn. unfold sar_rx_tick. destruct (_ || _); [done|]. destruct (_ <? _); [done|].
  destruct (_ <=? _); [done|]. destruct (_ =? 0); [done|].
  destruct (nok_sarrx n Hn) as [Hx Hs Hr]. set (n1 := send_data_bytes _ _ _ n).
  assert (node_ok n1) as H1 by (by apply send_data_node). apply hush_node, node_ok_sarrx; [done|].
  apply rearm_ok. destruct (nok_sarrx n1 H1). split; simpl; try done. apply u8_range.
Qed.

Lemma sar_on_done_node now pay n : node_ok n → wf_bytes pay → safe (sar_on_done now pay n) node_ok.
Proof.
  intros Hn Hb. unfold sar_on_done. apply safe_bind. unfold sar_parse_done.
  assert (∀ v, safe (if (v =? st_xfer_id (n_sartx n)) && negb (st_active (n_sartx n)) && negb (st_resend_active (n_sartx n))
      then Ok (n <| n_sartx ::= λ t, t <| st_done_ms := u32 (now - (TQ_DRAIN_GRACE_MS - TQ_DONE_GAP_MS)) |> |>) else Ok n) node_ok) as Hv.
  { intros v. case_match; [|done]. apply node_ok_sartx; [done|]. by destruct (nok_sartx n Hn). }
  destruct (negb (sar_is_done pay)) eqn:Hd; [apply Hv|].
  unfold sar_is_done, SAR_DONE_BYTES in Hd. bools. apply safe_rd_u16; [done|lia|lia|auto].
Qed.

Lemma sar_on_nack_node src pay n : node_ok n → wf_bytes pay → wf_nid src → safe (sar_on_nack src pay n) node_ok.
Proof.
  intros Hn Hb Hs. unfold sar_on_nack. apply safe_bind. eapply safe_mono; [by apply sar_parse_nack_good|].
  intros [xid req] (_ & Hreq & Hu). case_match; [|done]. bools. apply node_ok_sartx; [done|].
  destruct (nok_sartx n Hn). by split.
Qed.

Lemma sar_delivered_node now n : node_ok n → node_ok (sar_delivered now n).
Proof.
  intros Hn. unfold sar_delivered. pose proof (sxk_sender _ (nok_sarrx n Hn)) as Hs.
  set (n1 := if host_tunnel_active n then _ else n).
  assert (node_ok n1) as H1 by (unfold n1; case_match; auto using tunnel_emit_node).
  case_match; [|done]. set (n2 := match sar_build_done _ _ with Some _ => _ | None => _ end).
  assert (node_ok n2) as H2 by (unfold n2; case_match; auto using send_data_node).
  apply node_ok_sarrx; [done|]. by destruct (nok_sarrx n2 H2).
Qed.

Lemma sar_add_safe pay s : sar_ok s → wf_bytes pay → zlen pay < 65536 → safe (sar_add pay s) (λ r, sar_ok r.1).
Proof.
  intros Hs Hb Hl. pose proof (sar_parse_safe pay Hb Hl) as Hp.
  destruct (sar_parse pay) as [f| |] eqn:Hpf; [|by unfold sar_add; rewrite Hpf|done]. destruct Hp as [Hp _].
  rewrite (sar_add_parsed _ _ _ Hpf Hp). by apply sar_accept_ok.
Qed.

Lemma sar_on_fragment_node now rnd src pay n : node_ok n → wf_bytes pay → zlen pay < 65536 → wf_nid src →
  sar_is_fragment pay = true → safe (sar_on_fragment now rnd src pay n) node_ok.
Proof.
  intros Hn Hb Hl Hs Hf. unfold sar_is_fragment, SAR_HDR_BYTES in Hf. bools. unfold sar_on_fragment.
  apply safe_bind, safe_rd_u16; [done|lia|lia|]. intros xf Hxf.
  set (n1 := if negb _ then _ else n).
  assert (node_ok n1) as H1.
  { unfold n1. case_match; [|done]. apply node_ok_sarrx; [done|]. by destruct (nok_sarrx n Hn). }
  clearbody n1. destruct (nok_sarrx n1 H1) as [Hx _ Hr].
  apply safe_bind. eapply safe_mono; [by apply sar_add_safe|]. intros r Hro. apply safe_ok.
  set (n2 := n1 <| n_sarrx ::= _ |>).
  assert (node_ok (hush now n2)) as H2 by (apply hush_node, node_ok_sarrx; [done|]; by split).
  case_match; [by apply sar_delivered_node|done].
Qed.

Lemma data_deliver_node now rnd net pay n : node_ok n → wf_bytes pay → zlen pay < 65536 → wf_nid (nh_src net) →
  safe (data_deliver now rnd net pay n) node_ok.
Proof.
  intros Hn Hb Hl Hs. unfold data_deliver.
  destruct (sar_is_done pay); [by apply sar_on_done_node|].
  destruct (sar_is_nack pay); [by apply sar_on_nack_node|].
  destruct (sar_is_fragment pay) eqn:Hf; [by apply sar_on_fragment_node|].
  destruct (host_tunnel_active n); [by apply tunnel_emit_node|by apply node_ok_emit].
Qed.

(** ** The ingest queue as a list *)

Lemma tun_dup_spec dst payload t u l : tun_repr u l →
  tun_dup dst payload t u = true ↔
  (sar_sending t = true ∧ st_dst t = dst ∧ st_blob t = payload) ∨ mkTunPending dst payload ∈ l.
Proof.
  intros Hu. pose proof Hu as [_ Hc]. unfold tun_dup. rewrite orb_true_iff, !andb_true_iff, existsb_exists.
  rewrite nid_eqb_eq, bool_decide_eq_true. split.
  - intros [[[H1 H2] H3]|(k & Hk & [Hd Hb]%andb_true_iff)]; [by left|right].
    apply list_elem_of_In, elem_of_seqZ in Hk. rewrite Hc in Hk.
    destruct (lookup_lt_is_Some_2 l (Z.to_nat k)) as [p Hp]; [unfold zlen in Hk; lia|].
    pose proof (tq_at_repr u l _ p Hu Hp) as Hat. rewrite Z2Nat.id in Hat by lia. rewrite Hat in *.
    apply nid_eqb_eq in Hd. apply bool_decide_eq_true in Hb. destruct p; simpl in *; subst.
    by eapply list_elem_of_lookup_2.
  - intros [(H1 & H2 & H3)|[k Hk]%list_elem_of_lookup]; [by left|right].
    exists (Z.of_nat k). pose proof (lookup_lt_Some _ _ _ Hk). rewrite <- list_elem_of_In, elem_of_seqZ, Hc.
    split; [unfold zlen; lia|]. rewrite (tq_at_repr u l k _ Hu Hk). simpl.
    rewrite nid_eqb_refl. by apply bool_decide_eq_true.
Qed.

#[export] Instance TunPending_eq_dec : EqDecision TunPending.
Proof. solve_decision. Defined.

(** What the host sees of the queue: payloads waiting, oldest first. *)
Inductive Ingest := Loopback | OneFrame | Start | Queued | Duplicate | Dropped.
Definition spec_ingest (me dst : NodeId) (payload : bytes) (t : SarTx) (l : list TunPending) : Ingest :=
  if decide (dst = me) then Loopback else
  if decide (zlen payload <= DATA_MAX) then OneFrame else
  if decide (sar_sending t = false ∧ l = [] ∧ zlen payload <= SAR_MAX_FILE) then Start else
  if decide (zlen l < TQ_CAP ∧ zlen payload <= TUN_HOST_MAX) then
    if decide ((sar_sending t = true ∧ st_dst t = dst ∧ st_blob t = payload) ∨ mkTunPending dst payload ∈ l)
    then Duplicate else Queued
  else Dropped.

(** C34: the host's payloads are a queue. With the waiting payloads
    read as a list, oldest first, [tunnel_send] does one of six things, decided
    by the specification: loop a self-addressed payload back, send a small one in
    one frame, start a transfer when idle, append it to the list when busy, and
    change nothing for a copy of a payload that is airing or waiting, or when
    four wait already or it is too long to wait. [tun_queue_tick] takes the oldest
    one, exactly when no transfer airs, the grace time since the last has passed
    and no inbound transfer needs the air. *)
Theorem tunnel_queue_refines (now : Z) (dst : NodeId) (payload : bytes) (n : Node) (l : list TunPending)
    (Hr : tun_repr (n_tun n) l) :
  let n' := tunnel_send now dst payload n in
  match spec_ingest (n_id n) dst payload (n_sartx n) l with
  | Loopback => n' = tunnel_emit (n_id n) payload n
  | OneFrame => n' = send_data_bytes now dst payload n
  | Start => n' = sar_start dst payload n
  | Queued => n' = n <| n_tun := n_tun n' |> ∧ tun_repr (n_tun n') (l ++ [mkTunPending dst payload])
  | Duplicate | Dropped => n' = n
  end ∧
  let n'' := tun_queue_tick now n in
  match l with
  | p :: l' =>
      if sar_sending (n_sartx n) || (i32 (now - st_done_ms (n_sartx n)) <? TQ_DRAIN_GRACE_MS)
         || sar_rx_busy now (n_sarrx n)
      then n'' = n
      else n'' = (sar_start (tp_dst p) (tp_buf p) n) <| n_tun := n_tun n'' |> ∧ tun_repr (n_tun n'') l'
  | [] => n'' = n
  end.
Proof.
  pose proof Hr as [_ Hc]. pose proof (zlen_nonneg l). split.
  - unfold tunnel_send, spec_ingest. destruct (nid_eqb_spec dst (n_id n)) as [->|Hne];
      [by rewrite decide_True|rewrite decide_False by done].
    destruct (Z.leb_spec (zlen payload) DATA_MAX); [by rewrite decide_True|rewrite decide_False by lia].
    assert ((tu_count (n_tun n) =? 0) = bool_decide (l = [])) as ->.
    { rewrite Hc. destruct l as [|p l]; [done|]. rewrite zlen_cons, bool_decide_eq_false_2 by done.
      pose proof (zlen_nonneg l). apply Z.eqb_neq. lia. }
    case_decide as Hst.
    { destruct Hst as (-> & -> & Hm). by rewrite (proj2 (Z.leb_le _ _) Hm). }
    destruct (negb _ && _ && _) eqn:E.
    { exfalso. apply andb_true_iff in E as [[E1%negb_true_iff E2%bool_decide_eq_true]%andb_true_iff E3%Z.leb_le]. by apply Hst. }
    rewrite Hc. case_decide as Hq.
    2: { destruct ((zlen l <? TQ_CAP) && _) eqn:E2; [|reflexivity].
         apply andb_true_iff in E2 as [E2%Z.ltb_lt E3%Z.leb_le]. by destruct Hq. }
    destruct Hq as [H1 H2]. rewrite (proj2 (Z.ltb_lt _ _) H1), (proj2 (Z.leb_le _ _) H2). cbn [andb].
    pose proof (tun_dup_spec dst payload (n_sartx n) _ l Hr) as Hd. case_decide as Hdup.
    + by rewrite (proj2 Hd Hdup).
    + destruct (tun_dup _ _ _ _); [by destruct (Hdup (proj1 Hd eq_refl))|]. split; [by destruct n|].
      by apply tq_push_repr.
  - unfold tun_queue_tick. rewrite Hc. destruct l as [|p l]; [done|].
    assert ((zlen (p :: l) =? 0) = false) as -> by (apply Z.eqb_neq; rewrite zlen_cons; pose proof (zlen_nonneg l); lia).
    cbn [orb]. destruct (sar_sending (n_sartx n)); [done|]. destruct (_ <? TQ_DRAIN_GRACE_MS); [done|].
    destruct (sar_rx_busy now (n_sarrx n)); [done|]. cbn [orb].
    destruct (tq_pop_repr _ _ _ Hr) as [-> Hr']. split; [by destruct n|]. exact Hr'.
Qed.

(** A node that is sending, with one payload waiting. *)
Definition sending_node : Node :=
  tunnel_send 0 (nid_from_u32 9) (replicate 300 2)
    (tunnel_send 0 (nid_from_u32 9) (replicate 300 1) (Node_new (nid_from_u32 1) None RadioHal_new 0 None None)).

Example tunnel_queue_refines_witness :
  let p2 := mkTunPending (nid_from_u32 9) (replicate 300 2) in
  let n3 := tunnel_send 5 (nid_from_u32 9) (replicate 300 3) sending_node in
  tun_repr (n_tun sending_node) [p2] ∧
  tun_repr (n_tun n3) [p2; mkTunPending (nid_from_u32 9) (replicate 300 3)] ∧
  tunnel_send 5 (nid_from_u32 9) (replicate 300 2) sending_node = sending_node.
Proof.
  intros p2 n3. assert (tun_repr (n_tun sending_node) [p2]) as Hr.
  { split; [|by vm_compute]. split; [by vm_compute|split; by vm_compute|by vm_compute|].
    intros [|i] x Hx; [|done]. injection Hx as <-. by vm_compute. }
  split; [exact Hr|].
  pose proof (tunnel_queue_refines 5 (nid_from_u32 9) (replicate 300 3) sending_node [p2] Hr) as [H3 _].
  pose proof (tunnel_queue_refines 5 (nid_from_u32 9) (replicate 300 2) sending_node [p2] Hr) as [H2 _].
  split.
  - destruct (spec_ingest (n_id sending_node) (nid_from_u32 9) (replicate 300 3) (n_sartx sending_node) [p2]) eqn:E;
      try (vm_compute in E; discriminate E). exact (proj2 H3).
  - destruct (spec_ingest (n_id sending_node) (nid_from_u32 9) (replicate 300 2) (n_sartx sending_node) [p2]) eqn:E;
      try (vm_compute in E; discriminate E). exact H2.
Defined.

(** A KISS TNC with neither a BLE client nor the tunnel attached: what it
    receives is printed as console text, not framed. *)
Lemma kiss_receive_is_text now rnd net pay n : tu_kiss_mode (n_tun n) = true → host_tunnel_active n = false →
  sar_is_done pay = false → sar_is_nack pay = false → sar_is_fragment pay = false →
  data_deliver now rnd net pay n = Ok (emit (DataLine (nh_src net) (nh_pkt_id net) (take 63 pay)) n).
Proof. intros _ Ha H1 H2 H3. unfold data_deliver. by rewrite H1, H2, H3, Ha. Qed.
