(* ===== verification/SarTransfer.v ===== *)
(** Payload transport between two nodes: the sender's paced fragments, the
    receiver's delivery and confirmation, and the repair of losses. *)
From S2P Require Import Prelude Update Reader SlotTable MeshTypes Router RouterWf Forwarder LinkArq Packet Kiss Sar RadioHal TxQueue Hdlc Node Transmit NodeOk LocService SarSession.

(** ** Sender *)

(** The fragments still to send: the rest of the first pass, then the resends. *)
Definition sar_todo (t : SarTx) : list Z :=
  (if st_active t then seqZ (st_idx t) (st_count t - st_idx t) else [])
  ++ (if st_resend_active t then drop (Z.to_nat (st_resend_idx t)) (st_resend t) else []).
Definition sar_live (t : SarTx) : Prop :=
  st_active t = true → 0 <= st_idx t < st_count t ∧ is_u16 (st_count t).
(** What a transfer is: these never change while it airs. *)
Definition same_transfer (t t' : SarTx) : Prop :=
  st_blob t' = st_blob t ∧ st_xfer_id t' = st_xfer_id t ∧ st_crc t' = st_crc t ∧ st_dst t' = st_dst t.

Lemma sar_todo_nil t : sar_sending t = false → sar_todo t = [].
Proof. unfold sar_sending, sar_todo. intros [-> ->]%orb_false_iff. done. Qed.
Lemma sar_todo_done t : sartx_ok t → sar_live t → sar_todo t = [] → sar_sending t = false.
Proof.
  intros Ht Hl. unfold sar_todo, sar_sending. intros [Ha Hr]%app_eq_nil. apply orb_false_iff. split.
  - destruct (st_active t) eqn:E; [|done]. destruct (Hl E) as [Hi _].
    apply (f_equal length) in Ha. rewrite length_seqZ in Ha. simpl in Ha. lia.
  - destruct (st_resend_active t) eqn:E; [|done]. destruct (stk_resend_idx t Ht) as [H0 Hi]. specialize (Hi E).
    apply (f_equal length) in Hr. rewrite length_drop in Hr. unfold zlen in Hi. simpl in Hr. lia.
Qed.

Lemma sar_next_todo now t : sartx_ok t → sar_live t → sar_sending t = true →
  let '(i, t') := sar_next now t in
  sar_todo t = i :: sar_todo t' ∧ sar_live t' ∧ same_transfer t t'.
Proof.
  intros Ht Hl Hs. unfold sar_next, sar_sending in *. destruct (st_active t) eqn:Ha; simpl in Hs.
  - destruct (Hl Ha) as [Hi Hc]. simpl. rewrite (u16_small (st_idx t + 1)) by (unfold is_u16 in *; lia).
    unfold sar_todo at 1. rewrite Ha, seqZ_cons by lia. unfold sar_todo, sar_live. simpl.
    destruct (Z.leb_spec (st_count t) (st_idx t + 1)); simpl; rewrite ?Ha; simpl.
    + assert (Z.pred (st_count t - st_idx t) = 0) as -> by lia. by split.
    + assert (Z.pred (st_count t - st_idx t) = st_count t - (st_idx t + 1)) as -> by lia.
      split; [done|]. split; [|done]. intros _. cbn [st_idx st_count update st_idx_upd]. split; [lia|done].
  - destruct (stk_resend_idx t Ht) as [H0 Hi]. specialize (Hi Hs). pose proof (stk_resend t Ht) as [Hz _].
    change SAR_MAX_FRAGS with 53 in Hz. rewrite (u16_small (st_resend_idx t + 1)) by (unfold is_u16; lia).
    unfold sar_todo at 1. rewrite Ha, Hs. simpl.
    destruct (lookup_lt_is_Some_2 (st_resend t) (Z.to_nat (st_resend_idx t))) as [i Hx]; [unfold zlen in Hi; lia|].
    rewrite Hx. simpl. rewrite (drop_S _ _ _ Hx). unfold sar_todo, sar_live.
    destruct (Z.leb_spec (zlen (st_resend t)) (st_resend_idx t + 1)); simpl; rewrite Ha, ?Hs; simpl.
    + rewrite drop_ge by (unfold zlen in *; lia). split; [done|]. split; [|done]. done.
    + replace (Z.to_nat (st_resend_idx t + 1)) with (S (Z.to_nat (st_resend_idx t))) by lia.
      split; [done|]. split; [|done]. done.
Qed.

(** [f] is a DATA frame from [me] to [dst] that carries fragment [i]. *)
Definition carries (me dst : NodeId) (t : SarTx) (i : Z) (f : bytes) : Prop :=
  ∃ p seq, sar_build_fragment (st_blob t) (st_xfer_id t) (st_crc t) i FRAG_BUF = Some p ∧
    net_read f 4 = Ok (mkNet (net_ver_type PKT_DATA) 0 DEFAULT_TTL dst me seq) ∧ drop 41 f = p.

Lemma frag_some t i : 0 <= i < sar_frag_count (zlen (st_blob t)) → zlen (st_blob t) <= SAR_MAX_FILE →
  ∃ p, sar_build_fragment (st_blob t) (st_xfer_id t) (st_crc t) i FRAG_BUF = Some p ∧ zlen p <= FRAG_BUF.
Proof.
  intros Hi Hlen. unfold sar_build_fragment. rewrite (proj2 (Z.leb_gt _ _)) by lia.
  set (chunk := if u32 _ <? SAR_CHUNK then _ else _).
  assert (0 <= chunk <= 160) as Hc.
  { unfold chunk, SAR_CHUNK. pose proof (u32_range (zlen (st_blob t) - u32 (i * 160))) as Hu. unfold is_u32 in Hu.
    destruct (Z.ltb_spec (u32 (zlen (st_blob t) - u32 (i * 160))) 160); lia. }
  unfold FRAG_BUF, SAR_HDR_BYTES, SAR_CHUNK. rewrite (proj2 (Z.ltb_ge _ _)) by lia.
  eexists. split; [done|]. rewrite !zlen_app, !zlen_put_u16, !zlen_put_u32. change (zlen MAGIC) with 4.
  unfold zlen at 1. rewrite length_take. lia.
Qed.

Lemma queue_empty n : node_ok n → link_clear n = true → txq_repr (n_txq n) [] ∧ busy (n_radio n) = false.
Proof.
  intros Hn [[Hb Hc]%andb_true_iff _]%andb_true_iff. bools. split; [|done].
  destruct (tk_queue n (nok_tx n Hn)) as (l & Hq & _). destruct l as [|f l]; [done|].
  destruct Hq as [_ Hcount _]. rewrite zlen_cons in Hcount. pose proof (zlen_nonneg l). lia.
Qed.

(** One tick with a free link sends one fragment. *)
Lemma sar_tick_sends now n : node_ok n → sar_live (n_sartx n) → link_clear n = true →
  sar_sending (n_sartx n) = true → sar_rx_busy now (n_sarrx n) = false →
  Forall (λ i, 0 <= i < sar_frag_count (zlen (st_blob (n_sartx n)))) (sar_todo (n_sartx n)) →
  let n' := sar_tx_tick now n in
  ∃ i f, sar_todo (n_sartx n) = i :: sar_todo (n_sartx n') ∧ sar_live (n_sartx n') ∧
    same_transfer (n_sartx n) (n_sartx n') ∧ txq_repr (n_txq n') [f] ∧
    carries (n_id n) (st_dst (n_sartx n)) (n_sartx n) i f ∧
    n_id n' = n_id n ∧ n_radio n' = n_radio n ∧ n_sarrx n' = n_sarrx n ∧ n_tun n' = n_tun n.
Proof.
  intros Hn Hl Hc Hs Hb Hi n'. unfold n', sar_tx_tick. rewrite Hs, Hc, Hb, andb_false_r. cbn [negb].
  destruct (queue_empty n Hn Hc) as [Hq _].
  pose proof (sar_next_todo now _ (nok_sartx n Hn) Hl Hs) as Hnx.
  pose proof (sar_next_ok now _ (nok_sartx n Hn)) as Hok.
  destruct (sar_next now (n_sartx n)) as [i t]. destruct Hnx as (Htodo & Hl' & Hsame). simpl in Hok.
  pose proof Hsame as (Eb & Ex & Ec & Ed).
  rewrite Htodo in Hi. apply Forall_cons in Hi as [Hi _].
  destruct (frag_some (n_sartx n) i Hi (stk_len _ (nok_sartx n Hn))) as (p & Hp & Hpl).
  rewrite Eb, Ex, Ec, Ed, Hp. set (n1 := n <| n_sartx := t |>).
  destruct (send_data_queue now (st_dst (n_sartx n)) p n1 [] Hq) as (f & Hf & Hnet & Hd & _);
    [done|apply (nok_sartx n Hn)|apply (nok_id n Hn)|apply (nok_seq n Hn)|].
  destruct (send_data_ok now (st_dst (n_sartx n)) p n1) as [_ Ho];
    [by eapply tx_ok_eq; [apply (nok_tx n Hn)|]|apply (nok_sartx n Hn)|apply (nok_id n Hn)|].
  set (n2 := send_data_bytes _ _ _ n1) in *.
  assert (n_sartx n2 = t ∧ n_id n2 = n_id n ∧ n_radio n2 = n_radio n ∧ n_sarrx n2 = n_sarrx n ∧ n_tun n2 = n_tun n)
    as (E1 & E2 & E3 & E4 & E5) by (rewrite Ho; done).
  exists i, f. rewrite E1. split; [done|]. split; [done|]. split; [done|]. split; [done|]. split; [|done].
  exists p, (n_data_seq n). split; [done|]. split; [done|]. rewrite Hd. apply take_ge.
  unfold zlen, FRAG_BUF, SAR_HDR_BYTES, SAR_CHUNK, DATA_MAX, MAX_PAYLOAD, HEADER_BYTES in *. lia.
Qed.

(** The queued frames in order. *)
Definition txq_list (q : TxQ) : list bytes :=
  (λ k, default [] (tx_items q !! Z.to_nat ((tx_head q + k) mod TXQ_DEPTH))) <$> seqZ 0 (tx_count q).
Lemma txq_list_repr q l : txq_repr q l → txq_list q = l.
Proof.
  intros [Hr Hc _]. unfold txq_list. rewrite Hc. apply list_eq. intros i. rewrite list_lookup_fmap.
  destruct (decide (i < length l)%nat) as [Hi|Hi].
  - rewrite lookup_seqZ_lt by (unfold zlen; lia). simpl. rewrite Z.add_0_l.
    destruct (lookup_lt_is_Some_2 l i Hi) as [x Hx]. by rewrite (rr_at _ _ _ _ Hr i x Hx), Hx.
  - rewrite !lookup_ge_None_2; [done|lia|]. rewrite length_seqZ. unfold zlen. lia.
Qed.

(** Between two ticks: the queued frames were aired and acknowledged. *)
Definition settle (n : Node) : Node :=
  n <| n_txq := TxQ_init |> <| n_arq ::= λ a, mkArq (pd_clear <$> arq_slots a) (arq_seq_ctr a) (arq_acked a) (arq_dropped a) |>.
Fixpoint sar_pass (times : list Z) (n : Node) : Node * list bytes :=
  match times with
  | [] => (n, [])
  | now :: times =>
      let n := sar_tx_tick now n in
      let '(n', fs) := sar_pass times (settle n) in (n', txq_list (n_txq n) ++ fs)
  end.

Lemma settle_node n : node_ok n → node_ok (settle n).
Proof.
  intros Hn. pose proof (nok_tx n Hn) as [_ Hr Hl Ha].
  apply node_ok_arq; [apply (node_ok_tx n Hn)|..]; simpl.
  - split; simpl; try done. exists []. split; [apply txq_init_repr|done].
  - by destruct n.
  - by rewrite length_fmap.
  - apply Forall_fmap. eapply Forall_impl; [exact Ha|]. intros p _ Hp. done.
Qed.
Lemma settle_clear n : busy (n_radio n) = false → link_clear (settle n) = true.
Proof.
  intros Hb. unfold link_clear, settle. simpl. rewrite Hb. simpl.
  unfold pending_count. simpl. rewrite count_if_zero; [done|]. by intros p (q & -> & _)%list_elem_of_fmap.
Qed.

(** A run of ticks sends exactly the fragments due, in order. *)
Lemma sar_pass_sends times n : node_ok n → sar_live (n_sartx n) → link_clear n = true →
  length times = length (sar_todo (n_sartx n)) →
  Forall (λ now, sar_rx_busy now (n_sarrx n) = false) times →
  Forall (λ i, 0 <= i < sar_frag_count (zlen (st_blob (n_sartx n)))) (sar_todo (n_sartx n)) →
  let '(n', fs) := sar_pass times n in
  node_ok n' ∧ sar_sending (n_sartx n') = false ∧ same_transfer (n_sartx n) (n_sartx n') ∧
  n_id n' = n_id n ∧ Forall2 (carries (n_id n) (st_dst (n_sartx n)) (n_sartx n)) (sar_todo (n_sartx n)) fs.
Proof.
  revert n. induction times as [|now times IH]; intros n Hn Hl Hc Hlen Hb Hi; cbn [sar_pass].
  { destruct (sar_todo (n_sartx n)) eqn:Ht; [|done]. split; [done|].
    split; [by apply sar_todo_done; [apply nok_sartx|..]|]. done. }
  apply Forall_cons in Hb as [Hb0 Hb].
  assert (sar_sending (n_sartx n) = true) as Hs.
  { destruct (sar_sending (n_sartx n)) eqn:E; [done|]. by rewrite (sar_todo_nil _ E) in Hlen. }
  destruct (sar_tick_sends now n Hn Hl Hc Hs Hb0 Hi) as (i & f & Ht & Hl' & Hsame & Hq & Hf & Eid & Er & Ex & _).
  pose proof (sar_tx_tick_node now n Hn) as Hn'. set (n1 := sar_tx_tick now n) in *.
  pose proof Hsame as (Eb & Exf & Ecr & Ed).
  assert (n_sartx (settle n1) = n_sartx n1 ∧ n_sarrx (settle n1) = n_sarrx n1 ∧ n_id (settle n1) = n_id n1) as (S1 & S2 & S3) by done.
  specialize (IH (settle n1) (settle_node n1 Hn')). rewrite S1, S2, S3, Ex, Eb, Eid, Ed in IH.
  destruct (sar_pass times (settle n1)) as [n' fs]. rewrite Ht in Hlen, Hi. simpl in Hlen. injection Hlen as Hlen.
  apply Forall_cons in Hi as [_ Hi]. destruct IH as (H1 & H2 & H3 & H4 & H5); try done.
  { apply settle_clear. rewrite Er. by apply (queue_empty n Hn Hc). }
  split; [done|]. split; [done|]. split.
  { destruct H3 as (? & ? & ? & ?). unfold same_transfer. repeat split; congruence. }
  split; [done|]. rewrite Ht, (txq_list_repr _ _ Hq). simpl. apply Forall2_cons. split; [done|].
  eapply Forall2_impl; [exact H5|]. intros j g (p & seq & Hp & Hnet & Hd). exists p, seq. by rewrite Eb, Exf, Ecr in Hp.
Qed.

(** ** Receiver *)

(** What a node does with a DATA frame addressed to it. *)
Definition hear (now rnd : Z) (f : bytes) (n : Node) : res Node :=
  net ← net_read f 4; data_deliver now rnd net (drop (Z.to_nat HEADER_BYTES) f) n.
Definition hear_all (fs : list (Z * Z * bytes)) (n : Node) : res Node :=
  foldl (λ m ev, n ← m; hear ev.1.1 ev.1.2 ev.2 n) (Ok n) fs.

Lemma hear_all_cons ev fs n :
  hear_all (ev :: fs) n = (n ← hear ev.1.1 ev.1.2 ev.2 n; hear_all fs n).
Proof.
  unfold hear_all. simpl. destruct (hear _ _ _ n); simpl; [done|..]; induction fs; done.
Qed.

(** Ready for a transfer, or holding a part of it. *)
Definition receiving (t : SarTx) (seen : list Z) (s : SarReassembler) : Prop :=
  (seen = [] ∧ length (sr_buf s) = Z.to_nat SAR_MAX_FILE ∧ (sr_active s = false ∨ sr_xfer_id s ≠ st_xfer_id t)) ∨
  holds (st_blob t) (st_xfer_id t) (st_crc t) seen s.
(** A transfer that can be sent: its checksum is the blob's. *)
Record sendable (t : SarTx) : Prop := {
  se_len : 1 <= zlen (st_blob t) <= SAR_MAX_FILE;
  se_wf : wf_bytes (st_blob t);
  se_xfer : is_u16 (st_xfer_id t);
  se_crc : st_crc t = sar_crc32 (st_blob t) }.
(** What reception leaves alone until a payload is complete. *)
Definition rx_quiet (n n' : Node) : Prop :=
  n_host n' = n_host n ∧ n_txq n' = n_txq n ∧ n_tun n' = n_tun n ∧ n_id n' = n_id n ∧
  n_data_seq n' = n_data_seq n ∧ n_fwd n' = n_fwd n ∧ n_sartx n' = n_sartx n ∧
  sx_done_sent_xfer (n_sarrx n') = sx_done_sent_xfer (n_sarrx n).

(** The three messages of a transfer are told apart by their magic. *)
Lemma fragment_kind p : sar_is_fragment p = true → sar_is_done p = false ∧ sar_is_nack p = false.
Proof.
  unfold sar_is_fragment, sar_is_done, sar_is_nack, has_magic. intros [_ Hm%bool_decide_eq_true]%andb_true_iff.
  rewrite Hm. split; apply andb_false_r.
Qed.

Lemma sar_parse_head p f : sar_parse p = Ok f → sar_is_fragment p = true ∧ rd_u16 p 4 = Ok (fg_xfer f).
Proof.
  unfold sar_parse. destruct (sar_is_fragment p); [|done]. cbn [guard mbind res_bind].
  destruct (rd_u16 p 4) as [x| |]; [|done|done]. cbn [mbind res_bind].
  intros H. split; [done|]. unfold guard, mbind, res_bind in H. repeat (case_match; try done). all: by simplify_eq.
Qed.

Lemma carries_index me dst t i f : carries me dst t i f → i < sar_frag_count (zlen (st_blob t)).
Proof.
  intros (p & seq & Hp & _). unfold sar_build_fragment in Hp.
  destruct (Z.leb_spec (sar_frag_count (zlen (st_blob t))) i); [done|lia].
Qed.

Lemma hear_fragment now rnd me dst t i f seen n : sendable t → carries me dst t i f → 0 <= i →
  receiving t seen (sx_rx (n_sarrx n)) →
  ∃ n1, hear now rnd f n = Ok (if sar_verify (sx_rx (n_sarrx n1)) then sar_delivered now n1 else n1) ∧
    holds (st_blob t) (st_xfer_id t) (st_crc t) (i :: seen) (sx_rx (n_sarrx n1)) ∧
    sx_sender (n_sarrx n1) = me ∧ rx_quiet n n1.
Proof.
  intros [Hlen Hwf Hx Hc] (p & seq & Hp & Hnet & Hd) Hi Hr.
  assert (is_u32 (st_crc t)) as Hcr by (rewrite Hc; by apply sar_crc32_range).
  destruct (sar_build_parse _ _ _ _ _ _ Hlen Hx Hcr Hi Hp) as (Hn & _ & _ & Hparse).
  destruct (sar_parse_head _ _ Hparse) as [Hf Hxf]. destruct (fragment_kind p Hf) as [Hnd Hnn].
  unfold hear. rewrite Hnet. cbn [mbind res_bind]. change (Z.to_nat HEADER_BYTES) with 41%nat. rewrite Hd.
  unfold data_deliver. rewrite Hnd, Hnn, Hf. unfold sar_on_fragment. rewrite Hxf. cbn [mbind res_bind fg_xfer].
  set (n0 := if negb _ then _ else n).
  assert (sx_rx (n_sarrx n0) = sx_rx (n_sarrx n) ∧ rx_quiet n n0) as [E0 Hq0] by (unfold n0; by case_match).
  rewrite (sar_add_parsed _ _ _ Hparse) by (by apply built_frag_ok). cbn [mbind res_bind]. set (f0 := mkFrag _ _ _ _ _ _ _).
  assert (holds (st_blob t) (st_xfer_id t) (st_crc t) (i :: seen) (sar_accept f0 (sx_rx (n_sarrx n0))).1) as Hh.
  { rewrite E0. destruct Hr as [(-> & Hbuf & Hnew)|Hh].
    - by apply accept_first.
    - by apply accept_same. }
  set (n1 := n0 <| n_sarrx ::= _ |>). exists (hush now n1). split; [done|]. split; [exact Hh|]. split; [done|].
  destruct Hq0 as (? & ? & ? & ? & ? & ? & ? & ?). repeat split; done.
Qed.

(** A host is attached, over HDLC. *)
Definition host_attached (n : Node) : Prop :=
  host_tunnel_active n = true ∧ tu_kiss_mode (n_tun n) && negb (tu_ble_connected (n_tun n)) = false.

Lemma delivered_effect now n t me dst l : sendable t → zlen (st_blob t) <= TUN_HOST_MAX → host_attached n →
  sar_data (sx_rx (n_sarrx n)) = st_blob t → sr_xfer_id (sx_rx (n_sarrx n)) = st_xfer_id t →
  sx_done_sent_xfer (n_sarrx n) ≠ st_xfer_id t → sx_sender (n_sarrx n) = me → n_id n = dst →
  txq_repr (n_txq n) l → zlen l < TXQ_DEPTH → wf_nid me → wf_nid dst → is_u16 (n_data_seq n) →
  let n' := sar_delivered now n in
  n_host n' = n_host n ++ [ToHost (hdlc_write (tunnel_envelope me (st_blob t)))] ∧
  ∃ f, txq_repr (n_txq n') (l ++ [f]) ∧
    net_read f 4 = Ok (mkNet (net_ver_type PKT_DATA) 0 DEFAULT_TTL me dst (n_data_seq n)) ∧
    drop 41 f = DMAGIC ++ put_u16 (st_xfer_id t).
Proof.
  intros Ht Hlen [Ha Hk] Hd Hx Hdone Hs Hid Hq Hroom Hme Hdst Hseq n'. unfold n', sar_delivered.
  rewrite Ha, Hd, Hx, Hs. rewrite (proj2 (Z.eqb_neq (st_xfer_id t) _)) by congruence. cbn [negb].
  unfold tunnel_emit. rewrite Hk, (proj2 (Z.ltb_ge TUN_HOST_MAX _)) by done.
  set (n1 := emit _ n). change (sar_build_done (st_xfer_id t) SAR_DONE_BYTES) with (Some (DMAGIC ++ put_u16 (st_xfer_id t))).
  subst dst. destruct (send_data_queue now me (DMAGIC ++ put_u16 (st_xfer_id t)) n1 l Hq Hroom Hme Hdst Hseq)
    as (f & Hf & Hnet & Hdr & _).
  split.
  - trans (n_host (send_data_bytes now me (DMAGIC ++ put_u16 (st_xfer_id t)) n1)); [done|by rewrite send_data_only].
  - exists f. split; [exact Hf|]. split; [exact Hnet|]. by rewrite Hdr.
Qed.

(** Hearing the missing fragments, each once and in any order: nothing reaches
    the host before the last, and then the payload does, once. *)
Lemma hear_all_delivers me dst t idxs evs seen n l : sendable t → zlen (st_blob t) <= TUN_HOST_MAX →
  wf_nid me → wf_nid dst → Forall2 (λ i ev, carries me dst t i ev.2) idxs evs →
  receiving t seen (sx_rx (n_sarrx n)) → idxs ≠ [] → NoDup idxs → Forall (λ i, (i ∉ seen) ∧ 0 <= i) idxs →
  (∀ i, 0 <= i < sar_frag_count (zlen (st_blob t)) → i ∈ idxs ∨ i ∈ seen) →
  host_attached n → sx_done_sent_xfer (n_sarrx n) ≠ st_xfer_id t → n_id n = dst → is_u16 (n_data_seq n) →
  txq_repr (n_txq n) l → zlen l < TXQ_DEPTH →
  ∃ n', hear_all evs n = Ok n' ∧
    n_host n' = n_host n ++ [ToHost (hdlc_write (tunnel_envelope me (st_blob t)))] ∧
    ∃ f, txq_repr (n_txq n') (l ++ [f]) ∧
      net_read f 4 = Ok (mkNet (net_ver_type PKT_DATA) 0 DEFAULT_TTL me dst (n_data_seq n)) ∧
      drop 41 f = DMAGIC ++ put_u16 (st_xfer_id t).
Proof.
  intros Ht Hlen Hme Hdst Hev. revert seen n. induction Hev as [|i [[now rnd] f] idxs evs Hf Hev IH]; [done|].
  intros seen n Hr _ [Hni Hnd]%NoDup_cons [[His Hi] Hdis]%Forall_cons Hall Hh Hdone Hid Hseq Hq Hroom. simpl in Hf.
  destruct (hear_fragment now rnd me dst t i f seen n Ht Hf Hi Hr) as (n1 & Hhear & Hhold & Hs & Hquiet).
  rewrite hear_all_cons. simpl. rewrite Hhear. cbn [mbind res_bind].
  destruct Hquiet as (Q1 & Q2 & Q3 & Q4 & Q5 & _ & _ & Q8).
  pose proof (holds_complete _ _ _ (se_len t Ht) _ _ Hhold) as Hcomp.
  destruct idxs as [|j idxs].
  - inversion Hev; subst. assert (∀ k, 0 <= k < sar_frag_count (zlen (st_blob t)) → k ∈ i :: seen) as Hfull.
    { intros k Hk. destruct (Hall k Hk) as [[->|[]%elem_of_nil]%elem_of_cons|]; [by left|by right]. }
    pose proof (holds_data _ _ _ (se_len t Ht) _ _ Hhold Hfull) as Hdata.
    assert (sar_verify (sx_rx (n_sarrx n1)) = true) as ->.
    { unfold sar_verify. rewrite (proj2 Hcomp Hfull), Hdata, (ho_crc _ _ _ _ _ Hhold), (se_crc t Ht). apply Z.eqb_refl. }
    eexists. split; [done|].
    destruct (delivered_effect now n1 t (sx_sender (n_sarrx n1)) (n_id n) l) as [H1 H2]; rewrite ?Q2, ?Q4, ?Q5, ?Q8; try done.
    + unfold host_attached, host_tunnel_active in *. by rewrite Q3.
    + apply Hhold.
    + split; [by rewrite H1, Q1|]. by rewrite Q5 in H2.
  - assert (sar_verify (sx_rx (n_sarrx n1)) = false) as ->.
    { unfold sar_verify. apply andb_false_iff. left. destruct (sar_complete _) eqn:E; [|done]. exfalso.
      apply Forall_cons in Hdis as [[Hjs Hj] _]. apply NoDup_cons in Hnd as [_ _].
      assert (0 <= j < sar_frag_count (zlen (st_blob t))) as Hjb
        by (split; [done|]; inversion Hev; subst; by eapply carries_index).
      apply (proj1 Hcomp eq_refl j) in Hjb. apply elem_of_cons in Hjb as [->|Hjb]; [|done]. by apply Hni; left. }
    destruct (IH (i :: seen) n1) as (n' & H1 & H2 & f' & H3 & H4 & H5);
      rewrite ?Q2, ?Q4, ?Q5, ?Q8; try done.
    + by right.
    + rewrite Forall_forall in *. intros k Hk. destruct (Hdis k Hk) as [Hks Hk0]. split; [|done].
      intros [->|?]%elem_of_cons; done.
    + intros k Hk. destruct (Hall k Hk) as [[->|?]%elem_of_cons|]; [by right; left|by left|by right; right].
    + unfold host_attached, host_tunnel_active in *. by rewrite Q3.
    + exists n'. split; [done|]. split; [by rewrite H2, Q1|]. exists f'. by rewrite Q5 in H4.
Qed.

(** ** End to end *)

Lemma carries_perm me dst t idxs fs (evs : list (Z * Z * bytes)) : Forall2 (carries me dst t) idxs fs →
  evs.*2 ≡ₚ fs → ∃ idxs', idxs' ≡ₚ idxs ∧ Forall2 (λ i ev, carries me dst t i ev.2) idxs' evs.
Proof.
  intros Hf%Forall2_flip Hp. destruct (Permutation_Forall2 (Permutation_sym Hp) Hf) as (idxs' & Hp' & Hf').
  exists idxs'. split; [by symmetry|]. apply Forall2_flip in Hf'. exact (proj1 (Forall2_fmap_r snd (carries me dst t) idxs' evs) Hf').
Qed.

(** A confirmation releases the sender's queue a short gap later. *)
Lemma hear_done t rnd fin n net : net_read fin 4 = Ok net → drop 41 fin = DMAGIC ++ put_u16 (st_xfer_id (n_sartx n)) →
  is_u16 (st_xfer_id (n_sartx n)) → sar_sending (n_sartx n) = false →
  ∃ n', hear t rnd fin n = Ok n' ∧ st_done_ms (n_sartx n') = u32 (t - 8500) ∧ sar_sending (n_sartx n') = false.
Proof.
  intros Hnet Hd Hx [Ha Hr]%orb_false_iff. unfold hear. rewrite Hnet. cbn [mbind res_bind].
  change (Z.to_nat HEADER_BYTES) with 41%nat. rewrite Hd.
  destruct (done_back (st_xfer_id (n_sartx n)) SAR_DONE_BYTES Hx) as (fin' & _ & -> & Hi & Hp & _); [done|].
  unfold data_deliver. rewrite Hi. unfold sar_on_done. rewrite Hp. cbn [mbind res_bind].
  rewrite Z.eqb_refl, Ha, Hr. cbn [negb andb]. eexists. split; [done|]. split; [done|].
  unfold sar_sending. simpl. by rewrite Ha, Hr.
Qed.

(** The indices of a transfer. *)
Lemma seqZ_range c : Forall (λ i, 0 <= i < c) (seqZ 0 c).
Proof. apply Forall_forall. intros i Hi%elem_of_seqZ. lia. Qed.

(** C3: a large payload crosses the mesh. A host hands an idle node a
    payload too big for one frame (215 to 768 bytes). The node's ticks send
    exactly its fragments, one per tick with a free link, and then stop. Let the
    addressed node hear these frames, each once and in any order: its host gets
    the payload exactly once, in one tunnel envelope naming the sender, when the
    last fragment arrives, and one DONE is queued; hearing that, the sender will
    start its next queued transfer after a 1.5 s gap. *)
Theorem tunnel_end_to_end (now : Z) (payload : bytes) (src dst : Node) (times : list Z)
    (evs : list (Z * Z * bytes)) (l : list bytes)
    (Hsrc : node_ok src) (Hdst : node_ok dst) (Hwf : wf_bytes payload)
    (Hlen : DATA_MAX < zlen payload <= TUN_HOST_MAX) (Hids : n_id dst ≠ n_id src)
    (Hidle : sar_sending (n_sartx src) = false) (Hnoq : tu_count (n_tun src) = 0)
    (Hlink : link_clear src = true)
    (Htimes : length times = Z.to_nat (sar_frag_count (zlen payload)))
    (Hfree : Forall (λ t, sar_rx_busy t (n_sarrx src) = false) times)
    (Hnew : sr_active (sx_rx (n_sarrx dst)) = false ∨
            sr_xfer_id (sx_rx (n_sarrx dst)) ≠ u16 (st_xfer_id (n_sartx src) + 1))
    (Hfresh : sx_done_sent_xfer (n_sarrx dst) ≠ u16 (st_xfer_id (n_sartx src) + 1))
    (Hhost : host_attached dst) (Hq : txq_repr (n_txq dst) l) (Hroom : zlen l < TXQ_DEPTH)
    (Hair : evs.*2 ≡ₚ (sar_pass times (tunnel_send now (n_id dst) payload src)).2) :
  let src' := (sar_pass times (tunnel_send now (n_id dst) payload src)).1 in
  zlen evs = sar_frag_count (zlen payload) ∧ sar_sending (n_sartx src') = false ∧
  ∃ dst' fin, hear_all evs dst = Ok dst' ∧
    n_host dst' = n_host dst ++ [ToHost (hdlc_write (tunnel_envelope (n_id src) payload))] ∧
    txq_repr (n_txq dst') (l ++ [fin]) ∧
    ∀ t rnd, ∃ src'', hear t rnd fin src' = Ok src'' ∧ st_done_ms (n_sartx src'') = u32 (t - 8500).
Proof.
  assert (tunnel_send now (n_id dst) payload src = sar_start (n_id dst) payload src) as Hsend.
  { unfold tunnel_send. rewrite (proj2 (nid_eqb_neq _ _) Hids), (proj2 (Z.leb_gt _ DATA_MAX)), Hidle, Hnoq by lia.
    unfold TUN_HOST_MAX, SAR_MAX_FILE in *. by rewrite (proj2 (Z.leb_le (zlen payload) 8192)) by lia. }
  rewrite Hsend in *. set (n1 := sar_start (n_id dst) payload src) in *.
  assert (zlen payload <= SAR_MAX_FILE) as Hmax by (unfold TUN_HOST_MAX, SAR_MAX_FILE in *; lia).
  assert (node_ok n1) as Hn1 by (apply sar_start_node; [done|apply nok_id|]; done).
  assert (1 <= zlen payload <= SAR_MAX_FILE) as Hl1 by (unfold DATA_MAX, MAX_PAYLOAD, HEADER_BYTES in *; lia).
  destruct (frag_count_small (zlen payload)) as [Hfc Hfb]; [lia|].
  set (c := sar_frag_count (zlen payload)) in *.
  assert (0 < c) as Hc0 by (rewrite Hfc; Z.div_mod_to_equations; lia).
  assert (sar_todo (n_sartx n1) = seqZ 0 c) as Htodo.
  { apply orb_false_iff in Hidle as [_ Hr]. unfold sar_todo, n1, sar_start. simpl. rewrite Hr, app_nil_r. f_equal. lia. }
  assert (sendable (n_sartx n1)) as Hse by (split; simpl; try done; apply u16_range).
  pose proof (sar_pass_sends times n1 Hn1) as Hpass. rewrite Htodo in Hpass.
  change (n_sarrx n1) with (n_sarrx src) in Hpass. change (link_clear n1) with (link_clear src) in Hpass.
  destruct (sar_pass times n1) as [src' fs]. simpl in Hair.
  destruct Hpass as (Hn' & Hdone & (Eb & Ex & Ecr & Ed) & Eid & Hcar); try done.
  { intros _. simpl. fold c. split; [lia|]. zlia. }
  { by rewrite Htimes, length_seqZ. }
  { apply seqZ_range. }
  destruct (carries_perm _ _ _ _ _ evs Hcar Hair) as (idxs & Hperm & Hev).
  assert (∀ i, i ∈ idxs ↔ 0 <= i < c) as Hidx by (intros i; rewrite Hperm, elem_of_seqZ; lia).
  split.
  { unfold zlen. rewrite <- (Forall2_length _ _ _ Hev), Hperm, length_seqZ. lia. }
  split; [exact Hdone|].
  destruct (hear_all_delivers (n_id n1) (n_id dst) (n_sartx n1) idxs evs [] dst l) as (dst' & H1 & H2 & fin & H3 & H4 & H5);
    try done.
  - by destruct Hlen.
  - apply (nok_id src Hsrc).
  - apply (nok_id dst Hdst).
  - left. split; [done|]. split; [|done]. apply (sxk_rx _ (nok_sarrx dst Hdst)).
  - intros ->. specialize (proj2 (Hidx 0) ltac:(lia)). by intros ?%elem_of_nil.
  - rewrite Hperm. apply NoDup_seqZ.
  - apply Forall_forall. intros i Hi%Hidx. split; [|lia]. apply not_elem_of_nil.
  - intros i Hi. left. by apply Hidx.
  - apply (nok_seq dst Hdst).
  - exists dst', fin. split; [done|]. split; [exact H2|]. split; [done|]. intros t rnd.
    destruct (hear_done t rnd fin src' _ H4) as (s'' & Hs & Hd & _); [by rewrite Ex|rewrite Ex; apply Hse|exact Hdone|].
    by exists s''.
Qed.

Definition host_node : Node := (Node_new (nid_from_u32 2) None RadioHal_new 0 None None) <| n_tun ::= λ u, u <| tu_mode := true |> |>.
Lemma host_node_ok : node_ok host_node.
Proof.
  apply node_ok_tun; [by apply Node_new_ok; [apply wf_nid_u32|apply hal_new_ok|]|].
  by destruct tun_init_ok.
Qed.
Definition big_payload : bytes := replicate 215 7.

(** The two fragments arrive in the wrong order. *)
Example tunnel_end_to_end_witness :
  let frames := (sar_pass [10; 20] (tunnel_send 0 (n_id host_node) big_payload node_ex)).2 in
  let evs := (λ f, (5000, 0, f)) <$> reverse frames in
  DATA_MAX < zlen big_payload <= TUN_HOST_MAX ∧ sar_frag_count (zlen big_payload) = 2 ∧
  ∃ dst', hear_all evs host_node = Ok dst' ∧
    n_host dst' = [ToHost (hdlc_write (tunnel_envelope (n_id node_ex) big_payload))].
Proof.
  intros frames evs.
  assert (DATA_MAX < zlen big_payload <= TUN_HOST_MAX) as Hlen by (split; by vm_compute).
  assert (sar_frag_count (zlen big_payload) = 2) as Hc by (by vm_compute).
  split; [exact Hlen|]. split; [exact Hc|].
  assert (evs.*2 ≡ₚ frames) as Hair.
  { unfold evs. rewrite <- list_fmap_compose. change (snd ∘ _) with (id : bytes → bytes).
    rewrite list_fmap_id. apply reverse_Permutation. }
  assert (wf_bytes big_payload) as Hwf by (by apply wf_bytes_check; vm_compute).
  assert (n_id host_node ≠ n_id node_ex) as Hne by (by vm_compute).
  assert (link_clear node_ex = true) as Hlk by (by vm_compute).
  assert (length [10; 20] = Z.to_nat (sar_frag_count (zlen big_payload))) as Ht by (by rewrite Hc).
  assert (Forall (λ t, sar_rx_busy t (n_sarrx node_ex) = false) [10; 20]) as Hfree by (by repeat constructor).
  assert (sx_done_sent_xfer (n_sarrx host_node) ≠ u16 (st_xfer_id (n_sartx node_ex) + 1)) as Hd by (by vm_compute).
  assert (host_attached host_node) as Hh by (split; by vm_compute).
  destruct (tunnel_end_to_end 0 big_payload node_ex host_node [10; 20] evs [] node_ex_ok host_node_ok Hwf Hlen Hne
    eq_refl eq_refl Hlk Ht Hfree (or_introl eq_refl) Hd Hh txq_init_repr eq_refl Hair)
    as (_ & _ & dst' & fin & H1 & H2 & _).
  exists dst'. split; [exact H1|exact H2].
Defined.

(** ** Losses *)

(** The indices a receiver that holds [seen] lacks. *)
Definition lacking (seen : list Z) (t : SarTx) : list Z :=
  filter (λ i, i ∉ seen) (seqZ 0 (sar_frag_count (zlen (st_blob t)))).

Lemma lacking_spec seen t : sendable t →
  Forall is_u16 (lacking seen t) ∧ zlen (lacking seen t) <= 52 ∧ NoDup (lacking seen t) ∧
  ∀ i, i ∈ lacking seen t ↔ (i ∉ seen) ∧ 0 <= i < sar_frag_count (zlen (st_blob t)).
Proof.
  intros Ht. destruct (frag_count_small (zlen (st_blob t))) as [_ Hb]; [pose proof (se_len t Ht); lia|].
  assert (∀ i, i ∈ lacking seen t ↔ (i ∉ seen) ∧ 0 <= i < sar_frag_count (zlen (st_blob t))) as Hin.
  { intros i. unfold lacking. rewrite list_elem_of_filter, elem_of_seqZ. by rewrite Z.add_0_l. }
  split; [|split; [|split; [|exact Hin]]].
  - apply Forall_forall. intros i [_ Hi]%Hin. zlia.
  - unfold zlen at 1, lacking. etrans; [apply inj_le, length_filter|]. rewrite length_seqZ. lia.
  - apply NoDup_filter, NoDup_seqZ.
Qed.

(** A receiver that lacks fragments and has waited long enough asks for them. *)
Definition nack_due (now : Z) (x : SarRx) : Prop :=
  i32 (SAR_NACK_TIMEOUT_MS + sx_nack_jit x) <= i32 (now - sx_last_ms x) ∧ sx_nack_rounds x < SAR_MAX_NACK_ROUNDS.

Lemma rx_tick_nacks now rnd t seen n l : sendable t → holds (st_blob t) (st_xfer_id t) (st_crc t) seen (sx_rx (n_sarrx n)) →
  lacking seen t ≠ [] → nack_due now (n_sarrx n) → node_ok n → txq_repr (n_txq n) l → zlen l < TXQ_DEPTH →
  let n' := sar_rx_tick now rnd n in
  ∃ f, txq_repr (n_txq n') (l ++ [f]) ∧ net_read f 4 = Ok (data_net (sx_sender (n_sarrx n)) n) ∧
    sar_build_nack (st_xfer_id t) (lacking seen t) DATA_MAX = Some (drop 41 f) ∧
    sx_rx (n_sarrx n') = sx_rx (n_sarrx n) ∧ n_host n' = n_host n ∧ n_tun n' = n_tun n ∧ n_id n' = n_id n ∧
    n_data_seq n' = u16 (n_data_seq n + 1) ∧ sx_done_sent_xfer (n_sarrx n') = sx_done_sent_xfer (n_sarrx n).
Proof.
  intros Ht Hh Hne [Hdue Hrounds] Hn Hq Hroom n'. unfold n', sar_rx_tick.
  destruct (lacking_spec seen t Ht) as (Hu & Hz & _ & Hin).
  pose proof (holds_complete _ _ _ (se_len t Ht) _ _ Hh) as Hcomp.
  rewrite (ho_active _ _ _ _ _ Hh). cbn [negb orb]. destruct (sar_complete (sx_rx (n_sarrx n))) eqn:Ec.
  { exfalso. destruct (lacking seen t) as [|i k]; [done|]. destruct (Hin i) as [[Hi1 Hi2] _]; [by left|].
    by apply Hi1, (proj1 Hcomp eq_refl). }
  rewrite (proj2 (Z.ltb_ge _ _) Hdue), (proj2 (Z.leb_gt _ _) Hrounds).
  assert (sar_missing SAR_MAX_FRAGS (sx_rx (n_sarrx n)) = lacking seen t) as ->.
  { apply (holds_missing _ _ _ (se_len t Ht) _ _ _ Hh).
    destruct (frag_count_small (zlen (st_blob t))); [pose proof (se_len t Ht); lia|]. change SAR_MAX_FRAGS with 53. lia. }
  assert (zlen (lacking seen t) ≠ 0) as Hnz.
  { destruct (lacking seen t) as [|i k]; [done|]. rewrite zlen_cons. pose proof (zlen_nonneg k). lia. }
  rewrite (proj2 (Z.eqb_neq _ _) Hnz), (ho_xfer _ _ _ _ _ Hh).
  destruct (nack_back (st_xfer_id t) DATA_MAX (lacking seen t) (se_xfer t Ht) Hu) as (m & Hm & Hml & _);
    [change SAR_MAX_FRAGS with 53; lia|by split|]. rewrite Hm. simpl default.
  destruct (send_data_queue now (sx_sender (n_sarrx n)) m n l Hq Hroom) as (f & Hf & Hnet & Hd & _);
    [apply (nok_sarrx n Hn)|apply (nok_id n Hn)|apply (nok_seq n Hn)|].
  exists f. split; [exact Hf|]. split; [exact Hnet|].
  split. { rewrite Hd, take_ge; [done|]. unfold zlen in *. lia. }
  unfold hush. rewrite send_data_only. done.
Qed.

Lemma hear_nack t rnd f n src missing : net_read f 4 = Ok src →
  sar_build_nack (st_xfer_id (n_sartx n)) missing DATA_MAX = Some (drop 41 f) →
  sendable (n_sartx n) → Forall is_u16 missing → 1 <= zlen missing <= 52 →
  hear t rnd f n = Ok (n <| n_sartx ::= λ x, x <| st_resend := missing |> <| st_resend_idx := 0 |>
                             <| st_resend_active := true |> <| st_dst := nh_src src |> |>).
Proof.
  intros Hnet Hd Hse Hu Hz. unfold hear. rewrite Hnet. cbn [mbind res_bind].
  destruct (nack_back (st_xfer_id (n_sartx n)) DATA_MAX missing (se_xfer _ Hse) Hu) as (m & Hm & _ & Hi & Hp & Hnd & _);
    [change SAR_MAX_FRAGS with 53; lia|by split|].
  rewrite Hm in Hd. injection Hd as ->. change (Z.to_nat HEADER_BYTES) with 41%nat.
  unfold data_deliver. rewrite Hnd, Hi. unfold sar_on_nack. rewrite Hp. cbn [mbind res_bind].
  rewrite take_ge by (change (Z.to_nat ((DATA_MAX - SAR_NACK_HDR) / 2)) with 103%nat; unfold zlen in Hz; lia).
  pose proof (se_len _ Hse). rewrite Z.eqb_refl, (proj2 (Z.ltb_lt 0 (zlen (st_blob (n_sartx n))))),
    (proj2 (Z.ltb_lt 0 (zlen missing))) by lia. done.
Qed.

(** C13: one NACK round repairs any loss. A receiver that got some of
    a payload's fragments, but not all, and has heard nothing for the timeout
    queues one NACK to the sender. A sender that still holds the payload, and has
    nothing else to send, then has exactly the lacking fragments to send, and its
    ticks send them. Let the receiver hear those, each once and in any order:
    the host gets the payload, once, and a DONE is queued. *)
Theorem sar_nack_repairs (now rnd : Z) (seen : list Z) (src dst : Node) (l : list bytes)
    (Hsrc : node_ok src) (Hdst : node_ok dst) (Hse : sendable (n_sartx src))
    (Hlen : zlen (st_blob (n_sartx src)) <= TUN_HOST_MAX)
    (Hidle : sar_sending (n_sartx src) = false) (Hlink : link_clear src = true)
    (Hpart : holds (st_blob (n_sartx src)) (st_xfer_id (n_sartx src)) (st_crc (n_sartx src)) seen (sx_rx (n_sarrx dst)))
    (Hlack : lacking seen (n_sartx src) ≠ []) (Hfrom : sx_sender (n_sarrx dst) = n_id src)
    (Hdue : nack_due now (n_sarrx dst)) (Hhost : host_attached dst)
    (Hfresh : sx_done_sent_xfer (n_sarrx dst) ≠ st_xfer_id (n_sartx src))
    (Hq : txq_repr (n_txq dst) l) (Hroom : zlen l + 1 < TXQ_DEPTH) :
  let dst1 := sar_rx_tick now rnd dst in
  ∃ nack, txq_repr (n_txq dst1) (l ++ [nack]) ∧
  ∀ t r, ∃ src1, hear t r nack src = Ok src1 ∧
  ∀ times evs, Forall (λ t, sar_rx_busy t (n_sarrx src) = false) times →
    length times = length (lacking seen (n_sartx src)) → evs.*2 ≡ₚ (sar_pass times src1).2 →
    zlen evs = zlen (lacking seen (n_sartx src)) ∧ sar_sending (n_sartx (sar_pass times src1).1) = false ∧
    ∃ dst' fin, hear_all evs dst1 = Ok dst' ∧
      n_host dst' = n_host dst ++ [ToHost (hdlc_write (tunnel_envelope (n_id src) (st_blob (n_sartx src))))] ∧
      txq_repr (n_txq dst') (l ++ [nack; fin]) ∧ drop 41 fin = DMAGIC ++ put_u16 (st_xfer_id (n_sartx src)).
Proof.
  intros dst1. destruct (lacking_spec seen _ Hse) as (Hu & Hz & Hnd & Hin).
  assert (1 <= zlen (lacking seen (n_sartx src)) <= 52) as Hz1.
  { destruct (lacking seen (n_sartx src)) as [|i k]; [done|]. rewrite zlen_cons in *. pose proof (zlen_nonneg k). lia. }
  destruct (rx_tick_nacks now rnd _ seen dst l Hse Hpart Hlack Hdue Hdst Hq) as
    (nack & Hn1 & Hnet & Hnk & Erx & Eh & Et & Ei & Es & Ed); [lia|].
  exists nack. split; [exact Hn1|]. intros t r. eexists. split; [by eapply hear_nack|].
  intros times evs Hfree Htimes Hair. set (src1 := src <| n_sartx ::= _ |>) in *.
  set (L := lacking seen (n_sartx src)) in *.
  assert (node_ok src1) as Hsrc1.
  { apply node_ok_sartx; [done|]. destruct (nok_sartx src Hsrc). split; simpl; try done; [apply (nok_id dst Hdst)| |].
    - split; [change SAR_MAX_FRAGS with 53; lia|done].
    - split; [done|]. lia. }
  apply orb_false_iff in Hidle as [Ha Hr].
  assert (sar_todo (n_sartx src1) = L) as Htodo by (unfold sar_todo, src1; simpl; by rewrite Ha).
  pose proof (sar_pass_sends times src1 Hsrc1) as Hpass. rewrite Htodo in Hpass.
  change (n_sarrx src1) with (n_sarrx src) in Hpass. change (link_clear src1) with (link_clear src) in Hpass.
  destruct (sar_pass times src1) as [src' fs]. simpl in Hair.
  destruct Hpass as (_ & Hdone & _ & _ & Hcar); try done.
  { unfold sar_live, src1. simpl. by rewrite Ha. }
  { apply Forall_forall. by intros i [_ Hi]%Hin. }
  destruct (carries_perm _ _ _ _ _ evs Hcar Hair) as (idxs & Hperm & Hev).
  split. { unfold zlen. by rewrite <- (Forall2_length _ _ _ Hev), Hperm. }
  split; [exact Hdone|].
  destruct (hear_all_delivers (n_id src) (n_id dst) (n_sartx src1) idxs evs seen dst1 (l ++ [nack]))
    as (dst' & H1 & H2 & fin & H3 & _ & H5); try done.
  - by destruct Hse.
  - apply (nok_id src Hsrc).
  - apply (nok_id dst Hdst).
  - right. fold dst1 in Erx. by rewrite Erx.
  - intros ->. apply Permutation_nil_l in Hperm. done.
  - by rewrite Hperm.
  - apply Forall_forall. intros i Hi. rewrite Hperm in Hi. apply Hin in Hi. split; [|lia]. by destruct Hi.
  - intros i Hi. destruct (decide (i ∈ seen)) as [|Hns]; [by right|left]. rewrite Hperm. by apply Hin.
  - unfold host_attached, host_tunnel_active in *. fold dst1 in Et. by rewrite Et.
  - fold dst1 in Ed. by rewrite Ed.
  - fold dst1 in Es. rewrite Es. apply u16_range.
  - rewrite zlen_app, zlen_cons, (zlen_nil (A:=bytes)). lia.
  - exists dst', fin. split; [done|]. split; [by rewrite H2, <- Eh|]. by rewrite <- app_assoc in H3.
Qed.

(** The sender after its first pass, and a receiver that got the first fragment only. *)
Definition sent_src : Node :=
  node_ex <| n_sartx := mkSarTx big_payload (sar_crc32 big_payload) 1 false (nid_from_u32 2) 2 2 [] 0 false 0 |>.
Definition half_rx : SarReassembler :=
  (sar_accept (mkFrag 1 0 2 215 (sar_crc32 big_payload) 0 (sar_chunk big_payload 0)) SarReassembler_init).1.
Definition half_dst : Node := host_node <| n_sarrx := mkSarRx half_rx (nid_from_u32 1) 0 1 0 0 65535 |>.

Lemma sent_src_ok : node_ok sent_src ∧ sendable (n_sartx sent_src).
Proof.
  assert (zlen big_payload = 215) as Hz by done.
  split; [apply node_ok_sartx; [apply node_ex_ok|]|]; split; try done; try apply wf_nid_u32; try by vm_compute.
  by apply wf_bytes_check; vm_compute.
Qed.
Lemma half_rx_holds :
  holds big_payload 1 (sar_crc32 big_payload) [0] half_rx.
Proof.
  assert (1 <= zlen big_payload <= SAR_MAX_FILE) as Hl by (split; by vm_compute).
  assert (0 <= 0 < sar_frag_count (zlen big_payload)) as Hi by (split; by vm_compute).
  destruct (accept_first big_payload 1 (sar_crc32 big_payload) Hl SarReassembler_init 0 Hi eq_refl (or_introl eq_refl)) as [_ H].
  exact H.
Qed.
Lemma half_dst_ok : node_ok half_dst.
Proof.
  apply node_ok_sarrx; [apply host_node_ok|]. split; [|apply wf_nid_u32|by vm_compute].
  apply sar_accept_ok; [|apply sar_init_ok]. split; simpl; by vm_compute.
Qed.

Example sar_nack_repairs_witness :
  lacking [0] (n_sartx sent_src) = [1] ∧
  ∃ nack src1, txq_repr (n_txq (sar_rx_tick 7000 0 half_dst)) [nack] ∧ hear 9000 0 nack sent_src = Ok src1 ∧
    let evs := (λ f, (9500, 0, f)) <$> (sar_pass [9100] src1).2 in
    zlen evs = 1 ∧ ∃ dst', hear_all evs (sar_rx_tick 7000 0 half_dst) = Ok dst' ∧
      n_host dst' = [ToHost (hdlc_write (tunnel_envelope (nid_from_u32 1) big_payload))].
Proof.
  destruct sent_src_ok as [Hs Hse]. assert (lacking [0] (n_sartx sent_src) = [1]) as Hl by (by vm_compute).
  split; [exact Hl|].
  assert (zlen (st_blob (n_sartx sent_src)) <= TUN_HOST_MAX) as Hlen by (by vm_compute).
  assert (link_clear sent_src = true) as Hlk by (by vm_compute).
  assert (lacking [0] (n_sartx sent_src) ≠ []) as Hne by (by rewrite Hl).
  assert (nack_due 7000 (n_sarrx half_dst)) as Hdue by (split; by vm_compute).
  assert (host_attached half_dst) as Hh by (split; by vm_compute).
  assert (sx_done_sent_xfer (n_sarrx half_dst) ≠ st_xfer_id (n_sartx sent_src)) as Hd by (by vm_compute).
  destruct (sar_nack_repairs 7000 0 [0] sent_src half_dst [] Hs half_dst_ok Hse Hlen eq_refl Hlk half_rx_holds Hne
    eq_refl Hdue Hh Hd txq_init_repr eq_refl) as (nack & Hn & Hall).
  destruct (Hall 9000 0) as (src1 & Hh1 & Hrun). exists nack, src1. split; [exact Hn|]. split; [exact Hh1|]. intros evs.
  assert (Forall (λ t, sar_rx_busy t (n_sarrx sent_src) = false) [9100]) as Hfree by (by repeat constructor).
  assert (length [9100] = length (lacking [0] (n_sartx sent_src))) as Ht by (by rewrite Hl).
  assert (evs.*2 ≡ₚ (sar_pass [9100] src1).2) as Hair.
  { unfold evs. rewrite <- list_fmap_compose. change (snd ∘ _) with (id : bytes → bytes). by rewrite list_fmap_id. }
  destruct (Hrun [9100] evs Hfree Ht Hair) as (Hz & _ & dst' & fin & H1 & H2 & _).
  split; [by rewrite Hz, Hl|]. exists dst'. split; [exact H1|exact H2].
Defined.

(** ** Transfer numbers *)

(** C37: a transfer number used by two senders misattributes the payload.
    Every node numbers its transfers from 1, and the receiver tells transfers
    apart by the number alone. After one transfer was completed, a fragment of
    another sender's transfer of the same number but other content is not
    stored: instead the host gets the OLD payload once more, under the NEW
    sender's id, and no DONE is sent. *)
Theorem xfer_collision_misdelivers (now rnd : Z) (t u : SarTx) (me dst : NodeId) (i : Z) (f : bytes)
    (seen : list Z) (n : Node)
    (Ht : sendable t) (Hu : sendable u) (Hlen : zlen (st_blob t) <= TUN_HOST_MAX)
    (Hold : holds (st_blob t) (st_xfer_id t) (st_crc t) seen (sx_rx (n_sarrx n)))
    (Hfull : ∀ k, 0 <= k < sar_frag_count (zlen (st_blob t)) → k ∈ seen)
    (Hsent : sx_done_sent_xfer (n_sarrx n) = st_xfer_id t)
    (Hsame : st_xfer_id u = st_xfer_id t) (Hdiff : st_crc u ≠ st_crc t)
    (Hf : carries me dst u i f) (Hi : 0 <= i) (Hhost : host_attached n) :
  ∃ n', hear now rnd f n = Ok n' ∧ sx_rx (n_sarrx n') = sx_rx (n_sarrx n) ∧ n_txq n' = n_txq n ∧
    n_host n' = n_host n ++ [ToHost (hdlc_write (tunnel_envelope me (st_blob t)))].
Proof.
  destruct Hf as (p & seq & Hp & Hnet & Hd).
  assert (is_u32 (st_crc u)) as Hcr by (rewrite (se_crc u Hu); apply sar_crc32_range, Hu).
  destruct (sar_build_parse _ _ _ _ _ _ (se_len u Hu) (se_xfer u Hu) Hcr Hi Hp) as (Hlt & _ & _ & Hparse).
  destruct (sar_parse_head _ _ Hparse) as [Hfr Hxf]. destruct (fragment_kind p Hfr) as [Hnd Hnn].
  unfold hear. rewrite Hnet. cbn [mbind res_bind]. change (Z.to_nat HEADER_BYTES) with 41%nat. rewrite Hd.
  unfold data_deliver. rewrite Hnd, Hnn, Hfr. unfold sar_on_fragment. rewrite Hxf. cbn [mbind res_bind fg_xfer].
  set (n0 := if negb _ then _ else n).
  assert (sx_rx (n_sarrx n0) = sx_rx (n_sarrx n) ∧ rx_quiet n n0) as [E0 Hq0] by (unfold n0; by case_match).
  rewrite (sar_add_parsed _ _ _ Hparse) by (apply built_frag_ok; [apply Hu|done]). cbn [mbind res_bind]. set (f0 := mkFrag _ _ _ _ _ _ _).
  assert (sar_accept f0 (sx_rx (n_sarrx n0)) = (sx_rx (n_sarrx n), false)) as Hacc.
  { rewrite E0. unfold sar_accept. rewrite (ho_active _ _ _ _ _ Hold), (ho_xfer _ _ _ _ _ Hold), (ho_crc _ _ _ _ _ Hold).
    unfold f0. cbn [fg_xfer fg_count fg_tlen fg_tcrc]. rewrite Hsame, Z.eqb_refl, (proj2 (Z.eqb_neq _ _) Hdiff). cbn [negb orb].
    by rewrite orb_true_r. }
  rewrite Hacc. set (n1 := n0 <| n_sarrx ::= _ |>). eexists. split; [done|].
  pose proof (holds_complete _ _ _ (se_len t Ht) _ _ Hold) as Hcomp.
  pose proof (holds_data _ _ _ (se_len t Ht) _ _ Hold Hfull) as Hdata.
  change (sx_rx (n_sarrx (hush now n1))) with (sx_rx (n_sarrx n)).
  assert (sar_verify (sx_rx (n_sarrx n)) = true) as ->.
  { unfold sar_verify. rewrite (proj2 Hcomp Hfull), Hdata, (ho_crc _ _ _ _ _ Hold), (se_crc t Ht). apply Z.eqb_refl. }
  destruct Hq0 as (Q1 & Q2 & Q3 & _ & _ & _ & _ & Q8). destruct Hhost as [Ha Hk].
  unfold sar_delivered. change (sx_rx (n_sarrx (hush now n1))) with (sx_rx (n_sarrx n)).
  change (sx_sender (n_sarrx (hush now n1))) with me.
  change (sx_done_sent_xfer (n_sarrx (hush now n1))) with (sx_done_sent_xfer (n_sarrx n0)).
  assert (host_tunnel_active (hush now n1) = true) as ->
    by (unfold host_tunnel_active in *; simpl; by rewrite Q3).
  rewrite Q8, Hsent, (ho_xfer _ _ _ _ _ Hold), Z.eqb_refl. cbn [negb].
  unfold tunnel_emit. change (n_tun (hush now n1)) with (n_tun n0). rewrite Q3, Hk, Hdata, (proj2 (Z.ltb_ge TUN_HOST_MAX _)) by done.
  split; [done|]. split; [done|]. simpl. by rewrite Q1.
Qed.

Definition one_frag (blob : bytes) (xfer : Z) : SarTx :=
  mkSarTx blob (sar_crc32 blob) xfer false (nid_from_u32 2) 1 1 [] 0 false 0.
Definition full_rx : SarReassembler :=
  (sar_accept (mkFrag 1 0 1 3 (sar_crc32 [1; 2; 3]) 0 (sar_chunk [1; 2; 3] 0)) SarReassembler_init).1.
Definition full_dst : Node := host_node <| n_sarrx := mkSarRx full_rx (nid_from_u32 1) 0 1 0 0 1 |>.
Definition other_frag : bytes :=
  link_bytes (mkLink 1 2 0 0) ++ net_bytes (mkNet (net_ver_type PKT_DATA) 0 DEFAULT_TTL (nid_from_u32 2) (nid_from_u32 9) 5)
  ++ default [] (sar_build_fragment [4; 5; 6] 1 (sar_crc32 [4; 5; 6]) 0 FRAG_BUF).

Example xfer_collision_misdelivers_witness :
  host_attached full_dst ∧ ∃ n', hear 100 0 other_frag full_dst = Ok n' ∧
    n_host n' = [ToHost (hdlc_write (tunnel_envelope (nid_from_u32 9) [1; 2; 3]))].
Proof.
  assert (host_attached full_dst) as Hh by (split; by vm_compute). split; [exact Hh|].
  assert (sendable (one_frag [1; 2; 3] 1)) as Ht by (split; [done|by apply wf_bytes_check|by vm_compute|done]).
  assert (sendable (one_frag [4; 5; 6] 1)) as Hu by (split; [done|by apply wf_bytes_check|by vm_compute|done]).
  assert (holds [1; 2; 3] 1 (sar_crc32 [1; 2; 3]) [0] full_rx) as Hold.
  { destruct (accept_first [1; 2; 3] 1 (sar_crc32 [1; 2; 3]) (se_len _ Ht) SarReassembler_init 0) as [_ H];
      [split; by vm_compute|done|by left|exact H]. }
  assert (∀ k, 0 <= k < sar_frag_count (zlen [1; 2; 3]) → k ∈ [0]) as Hfull.
  { intros k Hk. change (sar_frag_count (zlen [1; 2; 3])) with 1 in Hk. assert (k = 0) as -> by lia. by left. }
  assert (zlen (st_blob (one_frag [1; 2; 3] 1)) <= TUN_HOST_MAX) as Hlen by (by vm_compute).
  assert (st_crc (one_frag [4; 5; 6] 1) ≠ st_crc (one_frag [1; 2; 3] 1)) as Hdiff by (by vm_compute).
  assert (carries (nid_from_u32 9) (nid_from_u32 2) (one_frag [4; 5; 6] 1) 0 other_frag) as Hf.
  { exists (default [] (sar_build_fragment [4; 5; 6] 1 (sar_crc32 [4; 5; 6]) 0 FRAG_BUF)), 5.
    split; [by vm_compute|]. split; by vm_compute. }
  destruct (xfer_collision_misdelivers 100 0 (one_frag [1; 2; 3] 1) (one_frag [4; 5; 6] 1) (nid_from_u32 9) (nid_from_u32 2)
    0 other_frag [0] full_dst Ht Hu Hlen Hold Hfull eq_refl eq_refl Hdiff Hf (Z.le_refl 0) Hh) as (n' & H1 & _ & _ & H2).
  exists n'. split; [exact H1|exact H2].
Defined.
