(* ===== verification/Rx.v ===== *)
(** src/main.cpp, [on_rx]: everything a received frame can do. *)
From S2P Require Import Prelude Update Reader SlotTable Float32 MeshTypes LinkMetric NeighborTable RoutingTable Router RouterWf Crypto AnnounceCodec Forwarder LinkArq Packet Sar NodeTable Telemetry Control LocatorDir RadioHal TxQueue Hdlc Node Transmit NodeOk LocService TelemService CtrlPlane SarSession.

Section rx.
Context `{Crypto}.
(** AGN_FW_VERSION, with its NUL *)
Variable (fw_version : bytes).

(** ** Beacons *)

(** Verify-once: the signature is checked only for an id that is not verified. *)
Definition rx_identity (now : Z) (src : NodeId) (region : bytes) (a : Announce) (n : Node) : res Node :=
  let bl := announce_body_len a in
  if zlen region <? u16 (bl + ANNOUNCE_SIG_TAIL) then Ok n else
  let '(t, r) := intern src now (n_ids n) in
  let n := n <| n_ids := t |> in
  if verified r t then Ok n else
  let bl := Z.to_nat bl in
  match announce_verify (take bl region) (drop bl region) with
  | Oob => Oob
  | Ok pub =>
      if nid_eqb (nid_from_pubkey pub) src
      then Ok (emit (AnnLine src (Some pub)) (n <| n_ids ::= mark_verified r pub |>))
      else Ok (emit (AnnLine src None) n)
  | Rej => Ok (emit (AnnLine src None) n)
  end.

Definition rx_announce (buf : bytes) : res (option Announce) :=
  if BEACON_BASE <? zlen buf then
    match announce_deserialize (drop (Z.to_nat BEACON_BASE) buf) with
    | Ok a => Ok (Some a)
    | Rej => Ok None
    | Oob => Oob
    end
  else Ok None.

Definition rx_beacon (now : Z) (buf : bytes) (rssi snr : f32) (net : NetHeader) (n : Node) : res Node :=
  let q := quality_from_rf snr rssi in
  ann ← rx_announce buf;
  let a := default Announce_default ann in
  let n := n <| n_router ::= on_beacon (nh_src net) q a now |> in
  n ← match ann with
      | Some a => rx_identity now (nh_src net) (drop (Z.to_nat BEACON_BASE) buf) a n
      | None => Ok n
      end;
  bpp ← (if BEACON_BASE <=? zlen buf
         then bp ← beacon_read buf HEADER_BYTES; Ok (bp_batt_pct_plus1 bp) else Ok 0);
  Ok (n <| n_tel ::= λ t, t <| te_ann ::= ann_cache_put now (nh_src net) a rssi snr bpp |> |>).

(** ** DATA *)

Definition on_data_rx (now rnd : Z) (buf : bytes) (net : NetHeader) (lh : LinkHeader) (n : Node) : res Node :=
  let '(f, d) := decide_packet (packet_ref net) (n_router n) (n_fwd n) in
  let n := n <| n_fwd := f |> in
  match dc_action d with
  | DELIVER => data_deliver now rnd net (drop (Z.to_nat HEADER_BYTES) buf) n
  | FORWARD =>
      if lh_next_hop lh =? LINK_ADDR_BROADCAST then Ok n
      else Ok (hush now (forward_frame now buf (dc_next_hop d) (dc_out_ttl d) n))
  | _ => Ok n
  end.

(** ** Dispatch *)

(** The neighbour a directed frame came from; zero for a broadcast frame. *)
Definition rx_link_from (lh : LinkHeader) (n : Node) : NodeId :=
  if negb (lh_next_hop lh =? LINK_ADDR_BROADCAST)
  then link_sender (lh_next_hop lh) (lh_prev_hop lh) (n_router n) else nid_zero.
Definition has_flag (flag : Z) (lh : LinkHeader) : bool := negb (Z.land (lh_flags lh) flag =? 0).

Definition rx_dispatch (e : ChipEnv) (now rnd : Z) (buf : bytes) (net : NetHeader) (lh : LinkHeader) (n : Node) : res Node :=
  let type := net_type_of (nh_ver_type net) in
  if type =? PKT_LOC then on_loc_rx now buf net lh n else
  if type =? PKT_TELEM then on_telem_rx fw_version now buf net lh n else
  if type =? PKT_CONTROL then on_control_rx e now buf net lh n else
  if type =? PKT_DATA then on_data_rx now rnd buf net lh n else
  Ok n.

Definition on_rx (e : ChipEnv) (now rnd : Z) (buf : bytes) (rssi snr : f32) (n : Node) : res Node :=
  if zlen buf <? HEADER_BYTES then Ok n else
  net ← net_read buf 4;
  let rx_ver := net_ver_of (nh_ver_type net) in
  if negb (rx_ver =? PROTO_VERSION) then Ok (n <| n_ver ::= on_foreign rx_ver |>) else
  if nid_eqb (nh_src net) (n_id n) then Ok n else
  n ← (if net_type_of (nh_ver_type net) =? PKT_BEACON then rx_beacon now buf rssi snr net n else Ok n);
  lh ← link_read buf 0;
  let link_from := rx_link_from lh n in
  if negb (lh_next_hop lh =? LINK_ADDR_BROADCAST) && is_zero link_from then Ok n else
  if has_flag LINK_FLAG_IS_ACK lh then Ok (n <| n_arq ::= λ a, (on_ack (lh_link_seq lh) a).1 |>) else
  let n := if has_flag LINK_FLAG_ACK_REQ lh && negb (is_zero link_from)
           then send_ack link_from (lh_link_seq lh) n else n in
  rx_dispatch e now rnd buf net lh n.

(** ** Every frame is handled safely *)

Lemma drop_frame buf (k : nat) : frame_fits buf → zlen (drop k buf) < 65536.
Proof. unfold frame_fits, RADIO_MAX_FRAME, zlen. rewrite length_drop. lia. Qed.

Lemma rx_announce_good buf : wf_bytes buf → frame_fits buf →
  safe (rx_announce buf) (λ ann, ∀ a, ann = Some a → announce_good (drop (Z.to_nat BEACON_BASE) buf) a).
Proof.
  intros Hb Hf. unfold rx_announce. case_match; [|by apply safe_ok].
  pose proof (announce_deserialize_good (drop (Z.to_nat BEACON_BASE) buf) (Forall_drop _ _ _ Hb) (drop_frame _ _ Hf)) as Hg.
  destruct (announce_deserialize _) as [a| |]; [|done|done]. intros a' [= <-]. exact Hg.
Qed.

Lemma rx_identity_node now src region a n : node_ok n → wf_nid src → wf_bytes region → zlen region < 1000 →
  announce_good region a → safe (rx_identity now src region a n) node_ok.
Proof.
  intros Hn Hs Hb Hz Ha. unfold rx_identity. pose proof (ag_body _ _ Ha) as Hbl.
  destruct (Z.ltb_spec (zlen region) (u16 (announce_body_len a + ANNOUNCE_SIG_TAIL))) as [|Hlen]; [done|].
  unfold ANNOUNCE_SIG_TAIL in Hlen. rewrite u16_small in Hlen by zlia.
  pose proof (intern_ok src now (n_ids n) (nok_ids n Hn)) as Ht.
  destruct (intern src now (n_ids n)) as [t r]. simpl in Ht.
  assert (node_ok (n <| n_ids := t |>)) as H1 by (by apply node_ok_ids).
  destruct (verified r t); [done|]. set (bl := Z.to_nat (announce_body_len a)).
  assert (safe (announce_verify (take bl region) (drop bl region)) (λ _, True)) as Hv.
  { apply announce_verify_safe; [by apply Forall_drop|]. unfold zlen in *. rewrite length_drop. unfold bl. lia. }
  destruct (announce_verify _ _) as [pub| |]; [|by apply node_ok_emit|done].
  case_match; [|by apply node_ok_emit]. apply node_ok_emit, node_ok_ids; [done|]. by apply nd_update_ok.
Qed.

Lemma rx_beacon_node now buf rssi snr net n : node_ok n → wf_bytes buf → frame_fits buf → wf_nid (nh_src net) →
  ffinite snr = true → safe (rx_beacon now buf rssi snr net n) node_ok.
Proof.
  intros Hn Hb Hf Hs Hq. unfold rx_beacon. apply safe_bind. eapply safe_mono; [by apply rx_announce_good|].
  intros ann Hann. set (a := default Announce_default ann). set (n1 := n <| n_router ::= _ |>).
  assert (announce_sane a ∧ announce_ids a ∧ Forall (λ p, wf_nid (rep_id p)) (an_reports a)) as (Hsane & Hids & Hreps).
  { unfold a. destruct ann as [a'|]; simpl; [|split; [split|split]; constructor].
    destruct (Hann a' eq_refl). by split. }
  assert (node_ok n1) as H1.
  { apply node_ok_router; [done|..].
    - apply on_beacon_ok; [apply (nok_router n Hn)|by apply quality_from_rf_in_q|done].
    - apply on_beacon_wf; [apply (nok_rwf n Hn)| |done|done].
      rewrite (ok_id _ _ (nok_router n Hn)). apply (nok_id n Hn). }
  apply safe_bind. eapply (safe_mono _ node_ok).
  { destruct ann as [a'|]; [|done]. apply rx_identity_node; try done; [by apply Forall_drop| |by apply Hann].
    unfold frame_fits, RADIO_MAX_FRAME, zlen in *. rewrite length_drop. lia. }
  intros n2 H2. apply safe_bind. eapply (safe_mono _ (λ _, True)).
  { unfold BEACON_BASE, HEADER_BYTES. destruct (Z.leb_spec (41 + 4) (zlen buf)); [|done].
    unfold beacon_read. repeat (safe_step; try lia). }
  intros bpp _. apply safe_ok, node_ok_tel; [done|]. apply ann_cache_put_ok; [by apply nok_tel|done..].
Qed.

Lemma on_data_rx_node now rnd buf net lh n : node_ok n → wf_bytes buf → frame_fits buf → wf_nid (nh_src net) →
  safe (on_data_rx now rnd buf net lh n) node_ok.
Proof.
  intros Hn Hb Hf Hs. unfold on_data_rx.
  pose proof (decide_ok (packet_ref net) (n_router n) (n_fwd n) (nok_fwd n Hn)) as Hw.
  destruct (decide_packet _ _ _) as [f d]. simpl in Hw.
  assert (node_ok (n <| n_fwd := f |>)) as H1 by (by apply node_ok_fwd).
  destruct (dc_action d); try done.
  - apply data_deliver_node; [done|by apply Forall_drop|by apply drop_frame|done].
  - case_match; [done|]. by apply hush_node, forward_frame_node.
Qed.

Lemma rx_dispatch_node e now rnd buf net lh n : node_ok n → wf_bytes buf → frame_fits buf → wf_nid (nh_src net) →
  safe (rx_dispatch e now rnd buf net lh n) node_ok.
Proof.
  intros Hn Hb Hf Hs. unfold rx_dispatch.
  destruct (_ =? PKT_LOC); [by apply on_loc_rx_node|]. destruct (_ =? PKT_TELEM); [by apply on_telem_rx_node|].
  destruct (_ =? PKT_CONTROL); [by apply on_control_rx_node|]. destruct (_ =? PKT_DATA); [by apply on_data_rx_node|done].
Qed.

Lemma on_ack_arq seq n : node_ok n → node_ok (n <| n_arq ::= λ a, (on_ack seq a).1 |>).
Proof.
  intros Hn. destruct (nok_tx n Hn) as [_ _ Hl Ha]. apply node_ok_arq; [done|..]; unfold on_ack; case_match; simpl; try done.
  - by rewrite length_alter.
  - apply Forall_alter; [done|]. intros p _ Hp. done.
Qed.

Lemma link_sender_wf a b r : router_wf r → wf_nid (link_sender a b r).
Proof.
  intros [Hw _]. unfold link_sender, neighbor_by_link. case_match; [apply wf_nid_zero|].
  destruct (find_index _ _) as [i|]; simpl; [|apply wf_nid_zero].
  destruct (nt_slots (ro_neighbors r) !! i) as [nb|] eqn:Hi; [|apply wf_nid_zero].
  unfold nt_wf in Hw. rewrite Forall_forall in Hw. apply Hw. by eapply list_elem_of_lookup_2.
Qed.

Lemma on_rx_node e now rnd buf rssi snr n : node_ok n → wf_bytes buf → zlen buf <= RADIO_MAX_FRAME →
  ffinite snr = true → safe (on_rx e now rnd buf rssi snr n) node_ok.
Proof.
  intros Hn Hb Hl Hq. unfold on_rx. destruct (Z.ltb_spec (zlen buf) HEADER_BYTES) as [|Hh]; [done|].
  assert (frame_fits buf) as Hf by done. unfold HEADER_BYTES in Hh.
  apply safe_bind, safe_net_read; [done|lia|lia|]. intros net (_ & _ & _ & _ & Hs & _).
  destruct (negb _); [by apply node_ok_ver|]. destruct (nid_eqb _ _); [done|].
  apply safe_bind. eapply (safe_mono _ node_ok); [case_match; [by apply rx_beacon_node|done]|]. intros n1 H1.
  apply safe_bind, safe_link_read; [done|lia|lia|]. intros lh _.
  destruct (negb _ && _); [done|]. destruct (has_flag LINK_FLAG_IS_ACK lh); [by apply on_ack_arq|].
  apply rx_dispatch_node; try done. case_match; [|done]. apply send_ack_node; [done|].
  unfold rx_link_from. case_match; [|apply wf_nid_zero]. apply link_sender_wf, (nok_rwf n1 H1).
Qed.

(** A handler never gives up on a frame half-way: malformed parts are values of
    the parsers, handled where the code handles them. *)
Lemma parse_n_ne_rej {A} (p : bytes → Z → res A) size k b o : (∀ o, p b o ≠ Rej) → parse_n p size k b o ≠ Rej.
Proof. intros Hp. revert o. induction k as [|k IH]; intros o; [done|]. repeat (apply bind_ne_rej; [auto|intros ?]). done. Qed.
Lemma sar_add_ne_rej pay r : sar_add pay r ≠ Rej.
Proof.
  unfold sar_add, sar_write. case_match; [|done|done]. destruct (sar_accept _ _) as [r' []]; [|done].
  apply bind_ne_rej; [|done]. apply bind_ne_rej; auto with no_rej.
Qed.
Lemma data_deliver_ne_rej now rnd net pay n : data_deliver now rnd net pay n ≠ Rej.
Proof.
  unfold data_deliver, sar_on_done, sar_on_nack, sar_on_fragment, sar_parse_done, sar_parse_nack.
  destruct (sar_is_done pay) eqn:Hd; [|destruct (sar_is_nack pay) eqn:Hk; [|by repeat case_match;
    repeat (apply bind_ne_rej; [first [by auto with no_rej|apply sar_add_ne_rej|by case_match]|intros ?])]].
  - apply bind_ne_rej; [simpl; auto with no_rej|]. intros v. by case_match.
  - cbn [guard mbind res_bind]. apply bind_ne_rej; [|intros [xid req]; by case_match].
    repeat (apply bind_ne_rej; [first [by auto with no_rej|apply parse_n_ne_rej; auto with no_rej]|intros ?]). done.
Qed.
Lemma rx_identity_ne_rej now src region a n : rx_identity now src region a n ≠ Rej.
Proof. unfold rx_identity. case_match; [done|]. destruct (intern _ _ _). by repeat case_match. Qed.
Lemma rx_beacon_ne_rej now buf rssi snr net n : rx_beacon now buf rssi snr net n ≠ Rej.
Proof.
  unfold rx_beacon, rx_announce, beacon_read. apply bind_ne_rej; [by repeat case_match|]. intros ann.
  apply bind_ne_rej; [case_match; [apply rx_identity_ne_rej|done]|]. intros n1.
  apply bind_ne_rej; [|done]. case_match; [|done]. repeat (apply bind_ne_rej; [|intros ?]); auto with no_rej.
Qed.
Lemma on_control_ne_rej e now buf net lh n : on_control_rx e now buf net lh n ≠ Rej.
Proof.
  unfold on_control_rx. case_match; [|by case_match]. case_match; [|done]. apply bind_ne_rej; [|done].
  unfold ctrl_command, ctrl_for_me. apply bind_ne_rej; [case_match; [|done]; apply bind_ne_rej; auto with no_rej|].
  intros []; [|done]. apply bind_ne_rej; [apply ctrl_verify_no_rej|]. by intros [[] []].
Qed.
Lemma on_rx_ne_rej e now rnd buf rssi snr n : on_rx e now rnd buf rssi snr n ≠ Rej.
Proof.
  unfold on_rx, net_read, link_read, rx_dispatch, on_loc_rx, on_telem_rx, on_data_rx. case_match; [done|].
  apply bind_ne_rej; [repeat (apply bind_ne_rej; [auto with no_rej|intros ?]); done|]. intros net.
  case_match; [done|]. case_match; [done|].
  apply bind_ne_rej; [case_match; [apply rx_beacon_ne_rej|done]|]. intros n1.
  apply bind_ne_rej; [repeat (apply bind_ne_rej; [auto with no_rej|intros ?]); done|]. intros lh.
  repeat first [done|apply on_control_ne_rej|apply data_deliver_ne_rej|case_match].
Qed.

(** C11: no radio input can break the node. Whatever up to 255 bytes
    the radio hands over, [on_rx] runs to its end and reads only inside them, and
    every invariant of the node holds afterwards: the frames in the queue and in
    the retry slots still fit the radio, ring indices are in range, tables have no
    duplicate keys, aliases are unique, metrics are numbers in range, no transfer
    state is inconsistent. *)
Theorem on_rx_safe (e : ChipEnv) (now rnd : Z) (buf : bytes) (rssi snr : f32) (n : Node)
    (Hn : node_ok n) (Hb : wf_bytes buf) (Hl : zlen buf <= RADIO_MAX_FRAME) (Hsnr : ffinite snr = true) :
  ∃ n', on_rx e now rnd buf rssi snr n = Ok n' ∧ node_ok n'.
Proof.
  apply safe_total; [by apply on_rx_node|apply on_rx_ne_rej].
Qed.
End rx.

(** The firmware's two neighbours: a beacon of [signer] heard by node 2. *)
Definition heard_beacon : bytes := @beacon_frame toy_crypto 9000 signer.
Definition env_quiet : ChipEnv := mkChipEnv 0 0 false 0 (λ _, (0, [])) f0 f0 7 (λ _, 0).

Lemma heard_beacon_wf : wf_bytes heard_beacon ∧ zlen heard_beacon <= RADIO_MAX_FRAME.
Proof. split; [by apply wf_bytes_check; vm_compute|by vm_compute]. Qed.

Example on_rx_safe_witness :
  node_ok node_ex ∧ zlen heard_beacon = 233 ∧
  ∃ n', @on_rx toy_crypto [50; 0] env_quiet 100 0 heard_beacon (f32_of_Z (-80)) (f32_of_Z 9) node_ex = Ok n' ∧ node_ok n'.
Proof.
  assert (node_ok node_ex) as Hn by apply node_ex_ok. split; [exact Hn|]. split; [by vm_compute|].
  destruct heard_beacon_wf as [Hw Hl]. assert (ffinite (f32_of_Z 9) = true) as Hq by (by vm_compute).
  exact (@on_rx_safe toy_crypto [50; 0] env_quiet 100 0 heard_beacon (f32_of_Z (-80)) (f32_of_Z 9) node_ex Hn Hw Hl Hq).
Defined.
