(* ===== verification/Beaconing.v ===== *)
(** Beacons between two nodes: what a beacon tells a receiver's router, and what it has
    no room for. *)
From S2P Require Import Prelude Update Reader SlotTable Float32 MeshTypes LinkMetric NeighborTable RoutingTable Router RouterWf Learning Crypto AnnounceCodec Forwarder LinkArq Packet NodeTable RadioHal TxQueue Node Transmit NodeOk LocService Rx.

(** What the beacon of a node carries of its announce. *)
Definition told (n : Node) : Announce := carried (build_announce (n_router n) Announce_default) (beacon_cap (n_key n)).

Definition entry_of (id : NodeId) (mine theirs : Z) (n : Node) : Prop :=
  ∃ e, nt_get id (ro_neighbors (n_router n)) = Some e ∧ nb_my_alias e = mine ∧ nb_their_alias e = theirs.
(** [A] calls [B] by the alias [B] gave it, and the other way round. *)
Definition linked (A B : Node) (a b : Z) : Prop := entry_of (n_id B) a b A ∧ entry_of (n_id A) b a B.

(** A beacon reports every neighbour of a node that has at most six. *)
Lemma told_reports me n : router_ok me (n_router n) → nt_count (ro_neighbors (n_router n)) <= 6 →
  (∀ p, p ∈ an_reports (told n) → ∃ e, nt_get (rep_id p) (ro_neighbors (n_router n)) = Some e ∧ rep_alias p = nb_my_alias e) ∧
  (∀ id e, nt_get id (ro_neighbors (n_router n)) = Some e → ∃ p, p ∈ an_reports (told n) ∧ rep_id p = id).
Proof.
  intros Hok Hc. destruct (build_announce_exact me (n_router n) Announce_default Hok) as (_ & _ & _ & _ & Hrep & _).
  pose proof (reports_count me _ Hok) as Hz.
  assert (an_reports (told n) = quant_report <$> an_reports (build_announce (n_router n) Announce_default)) as ->.
  { unfold told, carried. cbn [an_reports]. rewrite take_ge; [done|].
    change (announce_hdr _) with 4. assert (6 <= (beacon_cap (n_key n) - 4) / ANNOUNCE_REPORT_BYTES) as H6.
    { destruct (beacon_cap_range (n_key n)) as [-> | ->]; by vm_compute. }
    unfold zlen in Hz. lia. }
  split.
  - intros p (p0 & -> & Hp)%list_elem_of_fmap. apply Hrep in Hp as (e & He & _ & Ha). by exists e.
  - intros id e He. set (p := mkReport id (nb_q_rx e) (nb_my_alias e)). exists (quant_report p). split; [|done].
    apply list_elem_of_fmap. exists p. split; [done|]. apply Hrep. by exists e.
Qed.

(** ** Room in a beacon *)

Section beaconing.
Context `{CryptoLaws}.

(** With [k] neighbours a signed beacon has room for this many of them, and
    then for this many routes. *)
Definition route_room (k : Z) : Z := (111 - 18 * Z.min 6 k) / 35.

Lemma told_sizes me n : router_ok me (n_router n) → n_key n ≠ None →
  let k := nt_count (ro_neighbors (n_router n)) in
  zlen (an_reports (told n)) = Z.min 6 k ∧
  an_routes (told n) = quant_route <$> take (Z.to_nat (route_room k)) (an_routes (build_announce (n_router n) Announce_default)).
Proof.
  intros Hok Hk k. unfold told. destruct (n_key n) as [key|]; [|done]. change (beacon_cap (Some key)) with 115.
  pose proof (reports_count me _ Hok) as Hc. fold k in Hc. unfold carried.
  change (an_has_caps (build_announce _ _)) with true. change (announce_hdr true) with 4. cbn [an_reports an_routes].
  set (reps := an_reports _) in *. change ((115 - 4) / ANNOUNCE_REPORT_BYTES) with 6.
  assert (zlen (take (Z.to_nat 6) reps) = Z.min 6 k) as Ht by (unfold zlen in *; rewrite length_take; lia).
  split; [unfold zlen in *; by rewrite length_fmap|]. by rewrite Ht.
Qed.

(** At most 3 routes; at most one from three neighbours on, and none from five. *)
Lemma route_room_small k : 0 <= k →
  0 <= route_room k <= 3 ∧ (3 <= k → route_room k <= 1) ∧ (route_room k <= 0 ↔ 5 <= k).
Proof. intros Hk. unfold route_room. Z.div_mod_to_equations. lia. Qed.

(** ** A beacon, heard *)

(** What a beacon leaves alone: everything unicast traffic depends on. *)
Definition untouched (n n' : Node) : Prop :=
  n_txq n' = n_txq n ∧ n_arq n' = n_arq n ∧ n_fwd n' = n_fwd n ∧ n_tun n' = n_tun n ∧ n_data_seq n' = n_data_seq n.

(** Only the router learns from the announce; the identity check and the
    telemetry cache do not touch it. *)
Lemma rx_identity_router now src region a n n' : rx_identity now src region a n = Ok n' →
  n_router n' = n_router n ∧ n_id n' = n_id n ∧ n_key n' = n_key n ∧ n_beacon_seq n' = n_beacon_seq n ∧ untouched n n'.
Proof.
  unfold rx_identity. case_match; [by intros [= <-]|]. destruct (intern _ _ _) as [u r].
  repeat case_match; by intros [= <-].
Qed.
Lemma rx_beacon_router now buf rssi snr net a n n' : rx_announce buf = Ok (Some a) →
  rx_beacon now buf rssi snr net n = Ok n' →
  n_router n' = on_beacon (nh_src net) (quality_from_rf snr rssi) a now (n_router n) ∧ n_id n' = n_id n ∧
  n_key n' = n_key n ∧ n_beacon_seq n' = n_beacon_seq n ∧ untouched n n'.
Proof.
  intros Ha. unfold rx_beacon. rewrite Ha. cbn [mbind res_bind default].
  set (n1 := n <| n_router ::= _ |>). destruct (rx_identity _ _ _ a n1) as [n2| |] eqn:Hi; [|done|done].
  apply rx_identity_router in Hi as (E1 & E2 & E3 & E4 & E5). cbn [mbind res_bind].
  destruct (if _ : bool then _ else _) as [bpp| |]; [|done|done]. intros [= <-]. simpl.
  rewrite E1, E2, E3, E4. split_and!; done || apply E5.
Qed.

(** The beacon of a node with a key pair (or none) is a list of bytes. *)
Definition keyed (n : Node) : Prop := ∀ sk pk, n_key n = Some (sk, pk) → pk = ed25519_public sk.

Lemma flat_map_wf {A} (f : A → bytes) (P : A → Prop) l : (∀ x, P x → wf_bytes (f x)) → Forall P l → wf_bytes (flat_map f l).
Proof. intros Hf. induction 1 as [|x l Hx _ IH]; [constructor|]. simpl. apply Forall_app. split; [by apply Hf|done]. Qed.

Lemma announce_serialize_bytes a cap : announce_wf a →
  wf_bytes (announce_serialize a cap).
Proof.
  intros [Hr Hv _ _ _]. unfold announce_serialize. case_match; [constructor|]. unfold announce_body.
  apply Forall_app. split; [by repeat (constructor; [apply u8_range|])|].
  apply Forall_app. split; [case_match; [apply wf_put_u16|constructor]|].
  apply Forall_app. split.
  - apply (flat_map_wf _ report_wf); [|by apply Forall_fits]. intros q [Hq Ha]. unfold report_bytes.
    apply Forall_app. split; [by apply wf_nid_write|]. constructor; [apply q_to_byte_range|]. by constructor.
  - apply (flat_map_wf _ route_wf); [|by apply Forall_fits]. intros v (Hd & Hn & Ha). unfold route_bytes.
    apply Forall_app. split; [by apply wf_nid_write|]. apply Forall_app. split; [by apply wf_nid_write|].
    apply Forall_app. split; [apply wf_put_u16|]. by constructor.
Qed.

Lemma beacon_frame_bytes t n : node_ok n → keyed n → is_u16 (n_beacon_seq n) →
  wf_bytes (beacon_frame t n) ∧ frame_fits (beacon_frame t n).
Proof.
  intros Hn Hk Hs. pose proof (build_announce_wf _ _ Announce_default (nok_router n Hn) (nok_rwf n Hn)) as Ha. split.
  - unfold beacon_frame. apply Forall_app. split.
    { apply wf_link_bytes. unfold wf_link. simpl. split_and!; first [apply u8_range|zlia|by vm_compute]. }
    apply Forall_app. split.
    { apply wf_net_bytes. split; [|split; [|split; [|split; [|split]]]]; simpl; try done; try (by vm_compute).
      - apply wf_nid_broadcast. - apply (nok_id n Hn). }
    apply Forall_app. split.
    { unfold beacon_bytes, batt_byte. simpl. constructor; [zlia|]. constructor; [case_match; [apply u8_range|zlia]|].
      apply wf_put_u16. }
    apply Forall_app. split; [by apply announce_serialize_bytes|]. unfold beacon_tail.
    destruct (n_key n) as [[sk pk]|] eqn:E; [|constructor]. rewrite (Hk sk pk E). unfold announce_sign. case_match; simpl.
    + apply Forall_replicate. zlia.
    + apply Forall_app. split; [apply public_wf|apply sign_wf].
  - apply (beacon_frame_fits (n_id n)); [apply (nok_router n Hn)|apply (nok_rwf n Hn)|apply (nok_id n Hn)|].
    intros sk pk E. rewrite (Hk sk pk E). apply public_len.
Qed.

Lemma on_rx_beacon fw_version e now rnd rssi snr t A B : node_ok A → node_ok B → is_u16 (n_beacon_seq A) →
  n_id A ≠ n_id B → keyed A → ffinite snr = true →
  ∃ B', on_rx fw_version e now rnd (beacon_frame t A) rssi snr B = Ok B' ∧ node_ok B' ∧ n_id B' = n_id B ∧
    n_router B' = on_beacon (n_id A) (quality_from_rf snr rssi) (told A) now (n_router B) ∧
    n_key B' = n_key B ∧ n_beacon_seq B' = n_beacon_seq B ∧ announce_sane (told A) ∧ untouched B B'.
Proof.
  intros HA HB Hseq Hne Hk Hsnr. destruct (beacon_frame_bytes t A HA Hk Hseq) as [Hw Hf].
  destruct (safe_total _ _ (on_rx_node fw_version e now rnd _ rssi snr B HB Hw (proj2 Hf) Hsnr)
    (on_rx_ne_rej fw_version e now rnd _ rssi snr B)) as (B' & Hrx & HB').
  exists B'. split; [exact Hrx|]. split; [exact HB'|]. revert Hrx.
  set (net := mkNet (net_ver_type PKT_BEACON) 0 1 NODE_ID_BROADCAST (n_id A) (n_beacon_seq A)).
  assert (wf_net net) as Hnet.
  { split; [|split; [|split; [|split; [|split]]]]; simpl; try done; try (by vm_compute).
    - apply wf_nid_broadcast. - apply (nok_id A HA). }
  set (lk := mkLink LINK_ADDR_NONE LINK_ADDR_BROADCAST (u8 (n_beacon_seq A)) 0).
  set (f := beacon_frame t A) in *.
  destruct (frame_headers_roundtrip lk net (drop 41 f) Hnet) as [Hl Hn].
  assert (link_bytes lk ++ net_bytes net ++ drop 41 f = f) as Ef.
  { unfold f, beacon_frame. fold net lk. do 2 f_equal.
    change 41%nat with (4 + 37)%nat. rewrite <- drop_drop. change (drop 4 (link_bytes _ ++ ?x)) with x.
    rewrite drop_app_length'; [done|].
    pose proof (zlen_net_bytes net wf_nid_broadcast (nok_id A HA)) as Hz. unfold zlen in Hz. lia. }
  rewrite Ef in Hl, Hn.
  assert (rx_announce f = Ok (Some (told A))) as Ha.
  { pose proof (beacon_body_small (n_id A) A (nok_router A HA) (nok_rwf A HA)) as Hb. cbv zeta in Hb.
    set (body := announce_serialize (build_announce (n_router A) Announce_default) (beacon_cap (n_key A))) in *.
    assert (drop 45 f = body ++ beacon_tail body (n_key A)) as Hd.
    { unfold f, beacon_frame. fold body net lk. change 45%nat with (4 + (37 + 4))%nat.
      rewrite <- !drop_drop. change (drop 4 (link_bytes _ ++ ?x)) with x. rewrite drop_app_length'; [done|].
      pose proof (zlen_net_bytes net wf_nid_broadcast (nok_id A HA)) as Hz. unfold zlen in Hz. lia. }
    unfold rx_announce. change (Z.to_nat BEACON_BASE) with 45%nat. rewrite (proj2 (Z.ltb_lt _ _)).
    - rewrite Hd. destruct (announce_carried (build_announce (n_router A) Announce_default) (beacon_cap (n_key A))
        (beacon_tail body (n_key A)) (build_announce_wf _ _ _ (nok_router A HA) (nok_rwf A HA))) as (Hdes & _); [|fold body in Hdes; by rewrite Hdes].
      change (announce_hdr _) with 4. destruct (beacon_cap_range (n_key A)) as [-> | ->]; lia.
    - change BEACON_BASE with 45. apply (f_equal zlen) in Hd. rewrite zlen_app in Hd.
      pose proof (zlen_nonneg (beacon_tail body (n_key A))). unfold zlen in *. rewrite length_drop in Hd. lia. }
  unfold on_rx. rewrite (proj2 (Z.ltb_ge (zlen f) HEADER_BYTES)) by apply Hf. rewrite Hn, Hl. cbn [mbind res_bind].
  change (net_ver_of (nh_ver_type net) =? PROTO_VERSION) with true. change (net_type_of (nh_ver_type net) =? PKT_BEACON) with true.
  change (nh_src net) with (n_id A). cbn [negb]. rewrite (proj2 (nid_eqb_neq _ _) Hne).
  destruct (rx_beacon now f rssi snr net B) as [n1| |] eqn:Hb; [|done|done]. cbn [mbind res_bind].
  change (rx_link_from lk n1) with nid_zero. change (has_flag LINK_FLAG_IS_ACK lk) with false.
  change (has_flag LINK_FLAG_ACK_REQ lk) with false. change (lh_next_hop lk =? LINK_ADDR_BROADCAST) with true.
  cbn [negb andb]. unfold rx_dispatch. change (net_type_of (nh_ver_type net)) with PKT_BEACON.
  cbn [Z.eqb PKT_BEACON PKT_LOC PKT_TELEM PKT_CONTROL PKT_DATA Pos.eqb]. intros [= <-].
  apply (rx_beacon_router _ _ _ _ _ _ _ _ Ha) in Hb as (E1 & E2 & E3 & E4 & E5).
  pose proof (rx_announce_good f Hw Hf) as Hg. rewrite Ha in Hg. destruct (Hg (told A) eq_refl). done.
Qed.

(** What the receiver takes of it. *)
Lemma told_nodup me n : router_ok me (n_router n) → NoDup (adv_dst <$> an_routes (told n)).
Proof.
  intros Hok. unfold told, carried, build_announce. cbn [an_routes].
  rewrite !fmap_take, <- !list_fmap_compose. do 2 apply nodup_take.
  apply (unique_keys_nodup _ (rt_dsts _ (ok_rt _ _ Hok))).
Qed.

(** C8: beacons teach routes. Of the routes a beacon carries, the receiver takes every one
    that does not lead to or through itself, is within the hop and cost limits,
    and is not worse than one it has through another neighbour: afterwards its
    table routes the destination through the sender, at the advertised cost plus
    the cost of the link to the sender, one hop further, fresh from now. *)
Theorem beacon_teaches_routes (fw_version : bytes) (e : ChipEnv) (now rnd t : Z) (rssi snr : f32) (A B : Node)
    (HA : node_ok A) (HB : node_ok B) (Hseq : is_u16 (n_beacon_seq A)) (Hne : n_id A ≠ n_id B)
    (Hkey : keyed A) (Hopen : n_id A ∉ ro_blocked (n_router B)) (Hsnr : ffinite snr = true)
    (Hroom : rt_count (ro_routes (n_router B)) + zlen (an_routes (told A)) <= 64) :
  ∃ B', on_rx fw_version e now rnd (beacon_frame t A) rssi snr B = Ok B' ∧
    let link := tx_cost (n_id A) (ro_neighbors (n_router B')) in
    ∀ v, v ∈ an_routes (told A) → taken (n_id B) (n_id A) link (ro_routes (n_router B)) v →
      rt_get (adv_dst v) (ro_routes (n_router B')) =
        Some (mkRoute (adv_dst v) (n_id A) (fadd link (adv_cost v)) (u8 (adv_hops v + 1)) now true).
Proof.
  destruct (on_rx_beacon fw_version e now rnd rssi snr t A B) as (B' & Hrx & _ & _ & Hr & _); try done.
  exists B'. split; [exact Hrx|]. cbv zeta. rewrite Hr. pose proof (nok_router B HB) as HBr. unfold on_beacon.
  rewrite (ok_id _ _ HBr), (proj2 (nid_eqb_neq _ _) Hne), (proj2 (is_blocked_false _ _) Hopen). cbn [ro_neighbors ro_routes].
  set (link := tx_cost _ _). intros v Hv (H1 & H2 & H3 & H4 & H5).
  pose proof (set_self_ok now _ (ok_rt _ _ HBr)) as Hok. pose proof (set_self_abs now _ (ok_rt _ _ HBr)) as Habs.
  pose proof (set_self_count now _ (ok_rt _ _ HBr)) as Hc. rewrite (ok_self _ _ HBr) in Hok, Habs, Hc.
  apply relax_fold_takes; try done; [apply set_self_self|apply (told_nodup (n_id A) A (nok_router A HA))|by rewrite Hc|].
  split_and!; try done. intros x. rewrite rt_get_abs, Habs, lookup_insert_ne by congruence. rewrite <- rt_get_abs. apply H5.
Qed.

(** ** Three beacons *)

Lemma on_beacon_blocked from q a now r : ro_blocked (on_beacon from q a now r) = ro_blocked r.
Proof. unfold on_beacon. by repeat case_match. Qed.

Section pairing.
Variables (fw_version : bytes) (e : ChipEnv) (rssi snr : f32).

(** [B] hears [A]'s beacon of time [t]. *)
Definition hear_beacon (t : Z) (A B : Node) : res Node := on_rx fw_version e t 0 (beacon_frame t A) rssi snr B.

(** Nodes that can pair: sound, with a beacon that reports all neighbours, and
    not blocking each other. *)
Record pairable (from : NodeId) (n : Node) : Prop := {
  pa_ok : node_ok n;
  pa_key : keyed n;
  pa_seq : is_u16 (n_beacon_seq n);
  pa_other : from ≠ n_id n;
  pa_open : from ∉ ro_blocked (n_router n) }.

(** What one beacon does to the receiver. *)
Lemma hear_spec t A B : node_ok A → keyed A → is_u16 (n_beacon_seq A) → pairable (n_id A) B → ffinite snr = true →
  nt_count (ro_neighbors (n_router A)) <= 6 → nt_count (ro_neighbors (n_router B)) < 32 →
  ∃ B', hear_beacon t A B = Ok B' ∧ pairable (n_id A) B' ∧ n_id B' = n_id B ∧
    nt_count (ro_neighbors (n_router B')) <= nt_count (ro_neighbors (n_router B)) + 1 ∧
    ∃ m, nt_get (n_id A) (ro_neighbors (n_router B')) = Some m ∧
      (∀ m0, nt_get (n_id A) (ro_neighbors (n_router B)) = Some m0 → nb_my_alias m = nb_my_alias m0) ∧
      (∀ b, nt_get (n_id B) (ro_neighbors (n_router A)) = Some b → nb_their_alias m = nb_my_alias b).
Proof.
  intros HA HkA HsA [HB HkB HsB Hne Hop] Hsnr HcA HcB.
  destruct (on_rx_beacon fw_version e t 0 rssi snr t A B HA HB HsA Hne HkA Hsnr)
    as (B' & Hrx & HB' & Hid & Hr & Hk & Hs & Hsane & _).
  exists B'. split; [exact Hrx|]. pose proof (nok_router B HB) as HrB.
  assert (in_q (quality_from_rf snr rssi)) as Hq by (by apply quality_from_rf_in_q).
  split; [|split; [exact Hid|split]].
  - split; [done| |by rewrite Hs|by rewrite Hid|by rewrite Hr, on_beacon_blocked].
    intros sk pk. rewrite Hk. apply HkB.
  - rewrite Hr. by apply (on_beacon_count (n_id B)).
  - destruct (on_beacon_entry (n_id B) (n_id A) _ (told A) t (n_router B) HrB Hne Hop Hq Hsane HcB) as (m & Hm & Hmy & Hth & _).
    rewrite <- Hr in Hm. exists m. split; [exact Hm|]. split.
    + intros m0 Hm0. by rewrite Hm0 in Hmy.
    + intros b Hb. destruct (told_reports (n_id A) A (nok_router A HA) HcA) as [Hr1 Hr2]. apply Hth.
      * destruct (Hr2 _ _ Hb) as (p & Hp & Hpid). by exists p.
      * intros p Hp Hpid. destruct (Hr1 p Hp) as (b' & Hb' & ->). congruence.
Qed.

(** Three beacons make a link. Two nodes with at most five neighbours each, that
    do not block each other, hear each other's beacons: first [B] hears [A], then [A]
    hears [B], then [B] hears [A] again. Whatever they knew of each other before, each
    then calls the other by the alias the other assigned to it, so that the frames
    they direct to each other are recognised. *)
Theorem beacons_link (t0 t1 t2 : Z) (A B : Node)
    (HA : pairable (n_id B) A) (HB : pairable (n_id A) B) (Hsnr : ffinite snr = true)
    (HcA : nt_count (ro_neighbors (n_router A)) <= 5) (HcB : nt_count (ro_neighbors (n_router B)) <= 5) :
  ∃ B1 A1 B2 a b, hear_beacon t0 A B = Ok B1 ∧ hear_beacon t1 B1 A = Ok A1 ∧ hear_beacon t2 A1 B1 = Ok B2 ∧ linked A1 B2 a b.
Proof.
  destruct (hear_spec t0 A B) as (B1 & H1 & HB1 & Hid1 & Hc1 & m1 & Hm1 & _); try apply HA; try done; [lia..|].
  assert (pairable (n_id B1) A) as HA' by (by rewrite Hid1).
  destruct (hear_spec t1 B1 A) as (A1 & H2 & HA1 & Hid2 & Hc2 & m2 & Hm2 & _ & Hth2); try apply HB1; try done; [lia..|].
  assert (pairable (n_id A1) B1) as HB1' by (by rewrite Hid2).
  destruct (hear_spec t2 A1 B1) as (B2 & H3 & HB2 & Hid3 & Hc3 & m3 & Hm3 & Hmy3 & Hth3); try apply HA1; try done; [lia..|].
  rewrite Hid2 in *. exists B1, A1, B2, (nb_my_alias m2), (nb_my_alias m1).
  split; [done|]. split; [done|]. split; [done|]. split.
  - exists m2. rewrite Hid3. split; [done|]. split; [done|]. by apply Hth2.
  - exists m3. rewrite Hid2. split; [done|]. split; [by apply Hmy3|]. by apply Hth3.
Qed.
End pairing.

(** ** What a beacon has no room for *)

Lemma announce_self_first me r : router_ok me r → self_first (ro_routes r) →
  ∃ v vs, an_routes (build_announce r Announce_default) = v :: vs ∧ adv_dst v = me.
Proof.
  intros Hok (x & Hx & Hu & Hd). unfold build_announce. cbn [an_routes].
  destruct (rt_slots (ro_routes r)) as [|y l]; [done|]. injection Hx as ->. rewrite filter_cons, Hu. simpl.
  eexists _, _. split; [done|]. simpl. rewrite Hd. apply (ok_self _ _ Hok).
Qed.

(** C7: how dense a node may be. In every reachable state, a node that signs its
    beacons advertises itself exactly while it has at most four neighbours; with
    three or four it advertises nothing else, so that no one routes through it;
    and it never advertises more than three routes. *)
Theorem self_advertised_iff (n : Node) (Hr : router_reachable (n_id n) (n_router n)) (Hwf : router_wf (n_router n))
    (Hsigns : n_key n ≠ None) :
  let k := nt_count (ro_neighbors (n_router n)) in
  ∃ a, announce_deserialize (announce_serialize (build_announce (n_router n) Announce_default) (beacon_cap (n_key n))) = Ok a ∧
    a = told n ∧
    (n_id n ∈ (adv_dst <$> an_routes a) ↔ k <= 4) ∧
    (3 <= k → ∀ d, d ∈ (adv_dst <$> an_routes a) → d = n_id n) ∧
    zlen (an_routes a) <= 3.
Proof.
  intros k. pose proof (reachable_ok _ _ Hr) as Hok. exists (told n). split.
  { destruct (announce_carried (build_announce (n_router n) Announce_default) (beacon_cap (n_key n)) []
      (build_announce_wf _ _ _ Hok Hwf)) as (Hd & _); [|by rewrite app_nil_r in Hd].
    change (announce_hdr _) with 4. destruct (beacon_cap_range (n_key n)) as [-> | ->]; lia. }
  split; [done|].
  destruct (told_sizes (n_id n) n Hok Hsigns) as [_ ->]. fold k.
  destruct (announce_self_first _ _ Hok (reachable_self_first _ _ Hr)) as (v & vs & -> & Hv).
  assert (0 <= k) as Hk by apply count_if_bounds. destruct (route_room_small k Hk) as (H3 & H1 & H5).
  set (m := route_room k) in *. split; [|split].
  - split.
    + intros Hin. destruct (decide (k <= 4)); [done|]. exfalso. assert (m <= 0) as Hm by (apply H5; lia).
      replace (Z.to_nat m) with 0%nat in Hin by lia. by apply elem_of_nil in Hin.
    + intros Hk4. destruct (Z.to_nat m) as [|m'] eqn:Em; [exfalso; assert (5 <= k) by (apply H5; lia); lia|].
      simpl. rewrite Hv. by left.
  - intros Hk3 d. assert (m <= 1) as Hm by auto. destruct (Z.to_nat m) as [|[|m']] eqn:Em; [| |lia]; simpl.
    + by intros ?%elem_of_nil.
    + rewrite Hv. by intros ?%list_elem_of_singleton.
  - unfold zlen. rewrite !length_fmap, length_take. lia.
Qed.

(** C6: a dense node disappears from the network. Once a node that signs its
    beacons has five neighbours, their reports and the signature fill the frame:
    the beacon carries no route at all, not even the one to the node itself. Who
    hears it, however well and however often, neither learns nor refreshes any
    route from it: no destination but the receiver's own has a changed entry. With
    the 90 s route timeout the node, and everything behind it, is then
    unreachable by unicast, although each of its neighbours hears it. *)
Theorem dense_node_unreachable (fw_version : bytes) (e : ChipEnv) (now rnd t : Z) (rssi snr : f32) (A B : Node)
    (HA : node_ok A) (HB : node_ok B) (Hseq : is_u16 (n_beacon_seq A)) (Hne : n_id A ≠ n_id B)
    (Hkey : keyed A) (Hsigns : n_key A ≠ None) (Hdense : 5 <= nt_count (ro_neighbors (n_router A)))
    (Hsnr : ffinite snr = true) :
  ∃ B', on_rx fw_version e now rnd (beacon_frame t A) rssi snr B = Ok B' ∧
    ∀ d, d ≠ n_id B → rt_get d (ro_routes (n_router B')) = rt_get d (ro_routes (n_router B)).
Proof.
  destruct (on_rx_beacon fw_version e now rnd rssi snr t A B) as (B' & Hrx & _ & _ & Hr & _); try done.
  exists B'. split; [exact Hrx|]. intros d Hd. rewrite Hr. pose proof (nok_router B HB) as HBr.
  destruct (told_sizes (n_id A) A (nok_router A HA) Hsigns) as [_ Hz].
  assert (an_routes (told A) = []) as Hnil.
  { rewrite Hz. destruct (route_room_small (nt_count (ro_neighbors (n_router A)))) as (_ & _ & Hk); [lia|].
    by replace (Z.to_nat (route_room _)) with 0%nat by lia. }
  unfold on_beacon. rewrite Hnil. destruct (nid_eqb _ _); [done|]. destruct (is_blocked _ _); [done|]. simpl.
  rewrite !rt_get_abs. pose proof (set_self_abs now _ (ok_rt _ _ HBr)) as Hs. rewrite (ok_self _ _ HBr) in Hs.
  rewrite (ok_id _ _ HBr), Hs. by rewrite lookup_insert_ne by congruence.
Qed.
End beaconing.

(** Nodes that have heard others once, at full quality. *)
Definition hears (ids : list NodeId) (n : Node) : Node :=
  fold_left (λ n id, n <| n_router ::= on_beacon id f1 Announce_default 10 |>) ids n.
Lemma hears_ok ids n : node_ok n → Forall wf_nid ids → node_ok (hears ids n).
Proof.
  intros Hn Hi. revert n Hn. induction Hi as [|id ids Hid _ IH]; intros n Hn; [done|]. apply IH.
  apply node_ok_router; [done|..].
  - apply on_beacon_ok; [apply (nok_router n Hn)|by split|]. split; constructor.
  - apply on_beacon_wf; [apply (nok_rwf n Hn)| |done|constructor].
    rewrite (ok_id _ _ (nok_router n Hn)). apply (nok_id n Hn).
Qed.

Definition dense_node : Node :=
  hears (nid_from_u32 <$> [2; 3; 4; 5; 6]) (Node_new signer_id (Some ([7], @ed25519_public toy_crypto [7])) RadioHal_new 0 None None).

Lemma dense_node_ok : node_ok dense_node ∧ @keyed toy_crypto dense_node.
Proof.
  split.
  - apply hears_ok; [|apply Forall_fmap; each; apply wf_nid_u32].
    apply Node_new_ok; [apply wf_signer_id|apply hal_new_ok|]. by intros sk pk [= <- <-].
  - by intros sk pk [= <- <-].
Qed.

Example dense_node_unreachable_witness :
  5 <= nt_count (ro_neighbors (n_router dense_node)) ∧
  ∃ B', @on_rx toy_crypto [50; 0] env_quiet 100 0 (@beacon_frame toy_crypto 9000 dense_node) (f32_of_Z (-80)) (f32_of_Z 9) node_ex = Ok B' ∧
    next_hop signer_id (n_router B') = nid_zero.
Proof.
  assert (5 <= nt_count (ro_neighbors (n_router dense_node))) as H5 by (by vm_compute). split; [exact H5|].
  destruct dense_node_ok as [Hd Hk]. assert (is_u16 (n_beacon_seq dense_node)) as Hs by (split; by vm_compute).
  assert (n_id dense_node ≠ n_id node_ex) as Hne by (by vm_compute).
  assert (ffinite (f32_of_Z 9) = true) as Hq by (by vm_compute).
  assert (n_key dense_node ≠ None) as Hn by discriminate.
  destruct (@dense_node_unreachable toy_crypto toy_laws [50; 0] env_quiet 100 0 9000 (f32_of_Z (-80)) (f32_of_Z 9) dense_node node_ex
    Hd node_ex_ok Hs Hne Hk Hn H5 Hq) as (B' & Hrx & Hr).
  exists B'. split; [exact Hrx|]. unfold next_hop, rt_next_hop. rewrite Hr by exact Hne. by vm_compute.
Defined.

Definition peer_ex : Node := Node_new (nid_from_u32 2) None RadioHal_new 0 None None.

Example beacons_link_witness :
  @pairable toy_crypto (n_id peer_ex) node_ex ∧ @pairable toy_crypto (n_id node_ex) peer_ex ∧
  ∃ B1 A1 B2 a b, @hear_beacon toy_crypto [50; 0] env_quiet (f32_of_Z (-80)) (f32_of_Z 9) 100 node_ex peer_ex = Ok B1 ∧
    @hear_beacon toy_crypto [50; 0] env_quiet (f32_of_Z (-80)) (f32_of_Z 9) 200 B1 node_ex = Ok A1 ∧
    @hear_beacon toy_crypto [50; 0] env_quiet (f32_of_Z (-80)) (f32_of_Z 9) 300 A1 B1 = Ok B2 ∧ linked A1 B2 a b.
Proof.
  assert (∀ k, k = 1 ∨ k = 2 → let n := Node_new (nid_from_u32 k) None RadioHal_new 0 None None in
    ∀ id, id ≠ n_id n → @pairable toy_crypto id n) as Hp.
  { intros k Hk n id Hid. split; [|done|split; by vm_compute|exact Hid|apply not_elem_of_nil].
    apply Node_new_ok; [apply wf_nid_u32|apply hal_new_ok|done]. }
  assert (@pairable toy_crypto (n_id peer_ex) node_ex) as HA by (apply (Hp 1); [by left|by vm_compute]).
  assert (@pairable toy_crypto (n_id node_ex) peer_ex) as HB by (apply (Hp 2); [by right|by vm_compute]).
  split; [exact HA|]. split; [exact HB|].
  assert (ffinite (f32_of_Z 9) = true) as Hq by (by vm_compute).
  apply (@beacons_link toy_crypto toy_laws [50; 0] env_quiet (f32_of_Z (-80)) (f32_of_Z 9) 100 200 300 node_ex peer_ex HA HB Hq);
    by vm_compute.
Defined.

Example self_advertised_iff_witness :
  router_reachable (n_id dense_node) (n_router dense_node) ∧ ¬ (n_id dense_node ∈ (adv_dst <$> an_routes (told dense_node))) ∧
  n_id signer ∈ (adv_dst <$> an_routes (told signer)).
Proof.
  assert (∀ ids n, router_reachable (n_id n) (n_router n) → router_reachable (n_id (hears ids n)) (n_router (hears ids n))) as Hh.
  { intros ids. induction ids as [|id ids IH]; intros n Hn; [exact Hn|]. apply IH. simpl.
    eapply reach_step; [exact Hn|]. apply step_beacon; [by split|]. split; constructor. }
  assert (router_reachable (n_id dense_node) (n_router dense_node)) as Hd by (apply Hh; apply reach_init).
  assert (router_reachable (n_id signer) (n_router signer)) as Hs.
  { eapply reach_step; [apply reach_init|]. apply step_beacon; [by split|]. split; simpl; [done|]. each. zlia. }
  assert (n_key dense_node ≠ None) as Hkd by discriminate. assert (n_key signer ≠ None) as Hks by discriminate.
  pose proof (nok_rwf _ (proj1 dense_node_ok)) as Hwd. destruct signer_ok as [_ Hws].
  split; [exact Hd|]. split.
  - intros Hin. destruct (self_advertised_iff dense_node Hd Hwd Hkd) as (a & _ & -> & [H4 _] & _). specialize (H4 Hin). vm_compute in H4. by apply H4.
  - destruct (self_advertised_iff signer Hs Hws Hks) as (a & _ & -> & [_ H4] & _). apply H4. by vm_compute.
Defined.

Example beacon_teaches_routes_witness :
  let v := mkAdv signer_id signer_id f0 0 in
  v ∈ an_routes (told signer) ∧
  ∃ B', @on_rx toy_crypto [50; 0] env_quiet 100 0 heard_beacon (f32_of_Z (-80)) (f32_of_Z 9) node_ex = Ok B' ∧
    next_hop signer_id (n_router B') = signer_id.
Proof.
  intros v. assert (v ∈ an_routes (told signer)) as Hv.
  { apply list_elem_of_lookup. exists 0%nat. by vm_compute. }
  split; [exact Hv|]. destruct signer_ok as [Hr Hwf].
  assert (node_ok signer) as Hs.
  { apply node_ok_router; [|exact Hr|exact Hwf].
    apply Node_new_ok; [apply wf_signer_id|apply hal_new_ok|]. by intros sk pk [= <- <-]. }
  assert (@keyed toy_crypto signer) as Hk by (by intros sk pk [= <- <-]).
  assert (is_u16 (n_beacon_seq signer)) as Hq by (split; by vm_compute).
  assert (n_id signer ≠ n_id node_ex) as Hne by (by vm_compute).
  assert (ffinite (f32_of_Z 9) = true) as Hf by (by vm_compute).
  assert (n_id signer ∉ ro_blocked (n_router node_ex)) as Ho by (apply not_elem_of_nil).
  assert (rt_count (ro_routes (n_router node_ex)) + zlen (an_routes (told signer)) <= 64) as Hroom by (by vm_compute).
  destruct (@beacon_teaches_routes toy_crypto toy_laws [50; 0] env_quiet 100 0 9000 (f32_of_Z (-80)) (f32_of_Z 9) signer node_ex
    Hs node_ex_ok Hq Hne Hk Ho Hf Hroom) as (B' & Hrx & Hall).
  exists B'. split; [exact Hrx|]. unfold next_hop, rt_next_hop. change signer_id with (adv_dst v) at 1. rewrite (Hall v Hv); [done|].
  destruct (@on_rx_beacon toy_crypto toy_laws [50; 0] env_quiet 100 0 (f32_of_Z (-80)) (f32_of_Z 9) 9000 signer node_ex
    Hs node_ex_ok Hq Hne Hk Hf) as (B2 & Hrx2 & _ & _ & Hr2 & _).
  rewrite Hrx in Hrx2. injection Hrx2 as <-. rewrite Hr2.
  split; [by vm_compute|]. split; [by vm_compute|]. split; [by vm_compute|]. split; [by vm_compute|].
  intros x Hx. vm_compute in Hx. discriminate Hx.
Defined.
