(* ===== verification/Guard.v ===== *)
(** What a stranger's frame cannot do: change the node's configuration, or bind
    an identity to a key it does not hold. *)
From S2P Require Import Prelude Update Reader SlotTable Float32 MeshTypes LinkMetric Router Crypto AnnounceCodec Forwarder LinkArq Packet Sar NodeTable Telemetry Control LocatorDir RadioHal TxQueue Hdlc Node Transmit NodeOk LocService TelemService CtrlPlane SarSession Rx.

(** ** What most handlers leave alone *)

Definition is_ann (o : HostOut) : bool := match o with AnnLine _ _ => true | _ => false end.
Definition bindings (n : Node) : list HostOut := filter (λ o, is_ann o = true) (n_host n).

(** The identity table, and the binding lines printed. *)
Definition quiet_ids (n n' : Node) : Prop :=
  n_ids n' = n_ids n ∧ bindings n' = bindings n.
(** What only the host commands may set: beacon period, battery calibration,
    mobile flag, name, KISS mode, PIN, and their saved records. *)
Definition settings_of (n : Node) :=
  (tm_net_beacon_cfg (n_timers n), (te_batt_scale (n_tel n), te_mobile (n_tel n), te_name (n_tel n)),
   (tu_kiss_mode (n_tun n), tu_kiss_dst (n_tun n)), co_pin (n_con n),
   (co_batt_saved (n_con n), co_kiss_saved (n_con n), co_node_saved (n_con n), co_net_saved (n_con n), co_key_saved (n_con n)), (n_id n, n_key n)).
Definition quiet_set (n n' : Node) : Prop := settings_of n' = settings_of n.
(** Control state, radio, block list and settings. *)
Definition quiet_ctl (n n' : Node) : Prop :=
  n_ctrl n' = n_ctrl n ∧ n_radio n' = n_radio n ∧ ro_blocked (n_router n') = ro_blocked (n_router n) ∧ n_id n' = n_id n ∧
  quiet_set n n'.
Definition calm (n n' : Node) : Prop := quiet_ids n n' ∧ quiet_ctl n n'.

#[export] Instance quiet_ids_pre : PreOrder quiet_ids.
Proof. split; [done|]. intros ??? [] []. split; congruence. Qed.
#[export] Instance calm_pre : PreOrder calm.
Proof.
  split; [done|]. intros ??? [[] (?&?&?&?&?)] [[] (?&?&?&?&?)]. unfold quiet_set in *. split; [split; congruence|].
  split; [congruence|]. split; [congruence|]. split; [congruence|]. split; congruence.
Qed.
#[export] Instance quiet_set_pre : PreOrder quiet_set.
Proof. split; [done|]. unfold quiet_set. congruence. Qed.
Lemma calm_set n n' : calm n n' → quiet_set n n'.
Proof. by intros (_ & _ & _ & _ & _ & ?). Qed.

Lemma calm_tx n n' : tx_only n n' → calm n n'.
Proof. intros Ho. unfold calm, quiet_ids, quiet_ctl, quiet_set, settings_of, bindings. by rewrite Ho. Qed.
Lemma calm_emit o n : is_ann o = false → calm n (emit o n).
Proof.
  intros Ho. split; [|done]. split; [done|]. unfold bindings. simpl. rewrite filter_app, filter_cons, Ho. simpl.
  apply app_nil_r.
Qed.
Lemma calm_fwd f n : calm n (n <| n_fwd := f |>).
Proof. done. Qed.
Lemma calm_push f n : calm n (push f n).
Proof. done. Qed.
Lemma calm_unicast now f nh n : calm n (tx_unicast now f nh n).
Proof. apply calm_tx, tx_unicast_only. Qed.
Lemma calm_send_data now dst p n : calm n (send_data_bytes now dst p n).
Proof. unfold calm, quiet_ids, quiet_ctl, quiet_set, settings_of, bindings. by rewrite send_data_only. Qed.
Lemma calm_loc_unicast now dst msg pt n : calm n (send_loc_unicast now dst msg pt n).
Proof.
  unfold send_loc_unicast. case_match; [done|]. set (f := link_bytes _ ++ _). set (n1 := n <| n_fwd ::= _ |>).
  pose proof (calm_unicast now f (next_hop dst (n_router n)) n1) as Hc. exact Hc.
Qed.
Lemma calm_forward now buf next ttl n : calm n (forward_frame now buf next ttl n).
Proof. unfold forward_frame. case_match; [done|]. apply calm_unicast. Qed.
Lemma calm_flood_on buf net n : calm n (flood_on buf net n).
Proof. unfold flood_on, loc_reflood. by repeat case_match. Qed.
Lemma calm_gate net n n' : flood_gate net n = Some n' → calm n n'.
Proof. unfold flood_gate. case_match; [done|]. by intros [= <-]. Qed.
Lemma calm_unicast_rx now buf net lh deliver n : (∀ n, calm n (deliver n)) → calm n (unicast_rx now buf net lh deliver n).
Proof.
  intros Hd. unfold unicast_rx. destruct (decide_packet _ _ _) as [f d].
  trans (n <| n_fwd := f |>); [done|]. destruct (dc_action d); try done. case_match; [apply calm_forward|done].
Qed.
Create HintDb calm.
#[export] Hint Resolve calm_emit calm_push calm_unicast calm_send_data calm_loc_unicast calm_forward calm_flood_on : calm.

(** ** Handlers *)

Section calm.
Context `{Crypto}.
Variable (fw_version : bytes).

(** A result that is calm, or an error. *)
Definition calm_res (n : Node) (r : res Node) : Prop := ∀ n', r = Ok n' → calm n n'.
Lemma calm_ok n n' : calm n n' → calm_res n (Ok n').
Proof. by intros Hc ? [= <-]. Qed.
Lemma calm_bind {A} n (m : res A) f : (∀ a, calm_res n (f a)) → calm_res n (a ← m; f a).
Proof. intros Hf. by destruct m; simpl; try done. Qed.

Lemma calm_loc_query now net m n : calm n (loc_on_query now net m n).
Proof.
  unfold loc_on_query. destruct (lookup_full _ _ _) as [d b]. set (n1 := n <| n_loc ::= _ |>).
  repeat case_match; try done. trans n1; [done|apply calm_loc_unicast].
Qed.
Lemma calm_loc_register now net m n : calm n (loc_on_register now net m n).
Proof.
  unfold loc_on_register. destruct (lookup_full _ _ _) as [d b]. destruct (loc_upsert _ _ _ _ _ _ _) as [d' taken].
  repeat case_match; try done;
    match goal with |- calm _ (loc_push_notify _ _ ?x) => trans x; [done|by apply calm_emit] end.
Qed.
Lemma calm_loc now buf net lh n : calm_res n (on_loc_rx now buf net lh n).
Proof.
  unfold on_loc_rx. destruct (loc_parse _) as [m| |]; [|by apply calm_ok|done]. apply calm_ok. unfold on_loc_msg.
  case_match.
  - destruct (flood_gate net n) as [n1|] eqn:Hg; [|done]. apply calm_gate in Hg. trans n1; [done|].
    match goal with |- calm _ (flood_on _ _ ?x) => trans x; [|apply calm_flood_on] end.
    repeat case_match; [apply calm_loc_register|apply calm_loc_query|done].
  - apply calm_unicast_rx. intros n1. unfold loc_on_reply. case_match; [|done].
    match goal with |- calm _ (loc_push_notify _ _ ?x) => trans x; [|by apply calm_emit] end. done.
Qed.

Lemma calm_telem_query now net m n : calm n (telem_on_query fw_version now net m n).
Proof.
  unfold telem_on_query. case_match; [|done]. set (n1 := n <| n_tel ::= _ |>).
  case_match; [|done]. trans n1; [done|apply calm_loc_unicast].
Qed.
Lemma calm_telem now buf net lh n : calm_res n (on_telem_rx fw_version now buf net lh n).
Proof.
  unfold on_telem_rx. destruct (telem_parse _) as [m| |]; [|by apply calm_ok|done]. apply calm_ok. unfold on_telem_msg.
  case_match.
  - destruct (flood_gate net n) as [n1|] eqn:Hg; [|done]. apply calm_gate in Hg. trans n1; [done|].
    match goal with |- calm _ (flood_on _ _ ?x) => trans x; [|apply calm_flood_on] end.
    repeat case_match; [done|apply calm_telem_query|done].
  - apply calm_unicast_rx. intros n1. unfold telem_deliver. case_match; [|done].
    trans (telem_record now net m n1); [done|by apply calm_emit].
Qed.

Lemma calm_tunnel_emit src p n : calm n (tunnel_emit src p n).
Proof. unfold tunnel_emit. repeat case_match; by try apply calm_emit. Qed.
Lemma calm_delivered now n : calm n (sar_delivered now n).
Proof.
  unfold sar_delivered. set (n1 := if host_tunnel_active n then _ else n).
  assert (calm n n1) as H1 by (unfold n1; case_match; [apply calm_tunnel_emit|done]).
  case_match; [|done]. set (n2 := match sar_build_done _ _ with Some _ => _ | None => _ end).
  trans n2; [|done]. trans n1; [done|]. unfold n2. case_match; [apply calm_send_data|done].
Qed.
Lemma calm_data_deliver now rnd net pay n : calm_res n (data_deliver now rnd net pay n).
Proof.
  unfold data_deliver, sar_on_done, sar_on_nack, sar_on_fragment.
  destruct (sar_is_done pay); [apply calm_bind; intros; by case_match; apply calm_ok|].
  destruct (sar_is_nack pay); [apply calm_bind; intros []; by case_match; apply calm_ok|].
  destruct (sar_is_fragment pay); [|case_match; apply calm_ok; [apply calm_tunnel_emit|by apply calm_emit]].
  apply calm_bind. intros xf. set (n1 := if negb _ then _ else n). assert (calm n n1) as H1 by (unfold n1; by case_match).
  apply calm_bind. intros r. apply calm_ok. set (n2 := hush now _). trans n1; [done|]. trans n2; [done|].
  case_match; [apply calm_delivered|done].
Qed.
Lemma calm_data now rnd buf net lh n : calm_res n (on_data_rx now rnd buf net lh n).
Proof.
  unfold on_data_rx. destruct (decide_packet _ _ _) as [f d].
  assert (calm n (n <| n_fwd := f |>)) as H1 by done.
  destruct (dc_action d); try by apply calm_ok.
  - intros n' Hr. trans (n <| n_fwd := f |>); [done|]. by eapply calm_data_deliver.
  - case_match; apply calm_ok; [done|]. trans (n <| n_fwd := f |>); [done|].
    set (n1 := forward_frame _ _ _ _ _). trans n1; [apply calm_forward|done].
Qed.

(** ** Received frames, by what they may touch *)

Lemma bindings_power e dbm n : quiet_ids n (ctrl_apply_power e dbm false n).
Proof. unfold ctrl_apply_power. destruct (apply_config _ _ _) as [[h ops] st]. by case_match. Qed.
Lemma bindings_ack now m to a p n n' : quiet_ids n n' → quiet_ids n (ctrl_ack now m to a p n').
Proof.
  intros Hq. trans n'; [done|]. unfold ctrl_ack. repeat case_match; try done. apply calm_loc_unicast.
Qed.
Lemma verified_ids e now m to n : quiet_ids n (ctrl_apply_verified e now m to n).
Proof.
  unfold ctrl_apply_verified. set (n1 := ctrl_accept now m n). trans n1; [done|]. clearbody n1.
  unfold apply_power_cmd, apply_confirm, apply_block, apply_unblock, apply_ble, apply_retune, rf_save.
  repeat case_match; try done; try apply bindings_ack; try done.
  all: try match goal with |- context [ctrl_apply_power ?e0 ?d false ?x] => exact (bindings_power e0 d x) end.
  all: try (match goal with |- quiet_ids _ (?r <| n_ctrl ::= _ |>) => trans r; [|done] end;
    apply bindings_ack; done).
Qed.

Lemma power_set e dbm n : quiet_set n (ctrl_apply_power e dbm false n).
Proof. unfold ctrl_apply_power. destruct (apply_config _ _ _) as [[h ops] st]. by case_match. Qed.
Lemma ack_set now m to a p n n' : quiet_set n n' → quiet_set n (ctrl_ack now m to a p n').
Proof. intros Hq. trans n'; [done|]. unfold ctrl_ack. repeat case_match; try done. apply calm_set, calm_loc_unicast. Qed.
Lemma verified_set e now m to n : quiet_set n (ctrl_apply_verified e now m to n).
Proof.
  unfold ctrl_apply_verified. set (n1 := ctrl_accept now m n). trans n1; [done|]. clearbody n1.
  unfold apply_power_cmd, apply_confirm, apply_block, apply_unblock, apply_ble, apply_retune, rf_save.
  repeat case_match; try done; try apply ack_set; try done.
  all: try match goal with |- context [ctrl_apply_power ?e0 ?d false ?x] => exact (power_set e0 d x) end.
  all: try (match goal with |- quiet_set _ (?r <| n_ctrl ::= _ |>) => trans r; [|done] end; apply ack_set; done).
Qed.
Lemma control_set e now buf net lh n n' : on_control_rx e now buf net lh n = Ok n' → quiet_set n n'.
Proof.
  unfold on_control_rx. case_match.
  - destruct (flood_gate net n) as [n1|] eqn:Hg; [|by intros [= <-]]. apply calm_gate, calm_set in Hg.
    destruct (ctrl_command _ _ _ _ _) as [n2| |] eqn:Hc; simpl; [|done|done]. intros [= <-].
    trans n1; [done|]. trans n2; [|apply calm_set, calm_flood_on].
    apply ctrl_command_cases in Hc as [->|(m & -> & _)]; [done|apply verified_set].
  - destruct (ctrl_parse_ack _); try done; intros [= <-]; apply calm_set, calm_unicast_rx; intros n1; by try apply calm_emit.
Qed.

Lemma control_ids e now buf net lh n n' : on_control_rx e now buf net lh n = Ok n' → quiet_ids n n'.
Proof.
  unfold on_control_rx. case_match.
  - destruct (flood_gate net n) as [n1|] eqn:Hg; [|by intros [= <-]]. apply calm_gate in Hg as [Hg _].
    destruct (ctrl_command _ _ _ _ _) as [n2| |] eqn:Hc; simpl; [|done|done]. intros [= <-].
    trans n1; [done|]. trans n2; [|apply calm_flood_on].
    apply ctrl_command_cases in Hc as [->|(m & -> & _)]; [done|apply verified_ids].
  - destruct (ctrl_parse_ack _); try done; intros [= <-]; apply calm_unicast_rx; intros n1; by try apply calm_emit.
Qed.

Lemma rx_identity_ctl now src region a n n' : rx_identity now src region a n = Ok n' → quiet_ctl n n'.
Proof.
  unfold rx_identity. case_match; [by intros [= <-]|]. destruct (intern _ _ _) as [t r].
  repeat case_match; by intros [= <-].
Qed.
Lemma rx_beacon_ctl now buf rssi snr net n n' : rx_beacon now buf rssi snr net n = Ok n' → quiet_ctl n n'.
Proof.
  unfold rx_beacon. destruct (rx_announce buf) as [ann| |]; cbn [mbind res_bind]; cbv zeta; [|done|done]. set (n1 := n <| n_router ::= _ |>).
  assert (quiet_ctl n n1) as H1 by (unfold quiet_ctl, n1, on_beacon; simpl; by repeat case_match).
  assert (∀ n2, match ann with Some a => rx_identity now (nh_src net) (drop (Z.to_nat BEACON_BASE) buf) a n1
    | None => Ok n1 end = Ok n2 → quiet_ctl n1 n2) as H2.
  { intros n2. destruct ann; [apply rx_identity_ctl|by intros [= <-]]. }
  destruct (match ann with Some _ => _ | None => _ end) as [n2| |]; simpl; [|done|done].
  destruct (H2 n2 eq_refl) as (A & B & C & D & E). destruct H1 as (A1 & B1 & C1 & D1 & E1).
  match goal with |- context [(if ?b then ?x else ?y) ≫= _] => destruct (if b then x else y) as [bpp| |] end; simpl; [|done|done].
  intros [= <-]. unfold quiet_ctl. simpl. rewrite A, B, C, D. unfold quiet_set in *. rewrite <- E1, <- E. done.
Qed.

(** A frame that is not calm is a beacon of another node, heard before anything
    else happens, or a CONTROL frame. *)
Lemma on_rx_cases e now rnd buf rssi snr n n' : on_rx fw_version e now rnd buf rssi snr n = Ok n' →
  calm n n' ∨ HEADER_BYTES <= zlen buf ∧ ∃ net, net_read buf 4 = Ok net ∧
    ((net_type_of (nh_ver_type net) = PKT_BEACON ∧ ∃ n1, rx_beacon now buf rssi snr net n = Ok n1 ∧ calm n1 n') ∨
     (net_type_of (nh_ver_type net) = PKT_CONTROL ∧ ∃ lh n1, calm n n1 ∧ on_control_rx e now buf net lh n1 = Ok n')).
Proof.
  unfold on_rx. destruct (Z.ltb_spec (zlen buf) HEADER_BYTES) as [|Hh]; [intros [= <-]; by left|]. destruct (net_read buf 4) as [net| |]; simpl; [|done|done].
  destruct (negb _); [intros [= <-]; by left|]. destruct (nid_eqb (nh_src net) (n_id n)); [intros [= <-]; by left|].
  set (ty := net_type_of (nh_ver_type net)) in *. intros Hrx.
  assert (∀ n1, (lh ← link_read buf 0;
    if negb (lh_next_hop lh =? LINK_ADDR_BROADCAST) && is_zero (rx_link_from lh n1) then Ok n1 else
    if has_flag LINK_FLAG_IS_ACK lh then Ok (n1 <| n_arq ::= λ a, (on_ack (lh_link_seq lh) a).1 |>) else
    rx_dispatch fw_version e now rnd buf net lh
      (if has_flag LINK_FLAG_ACK_REQ lh && negb (is_zero (rx_link_from lh n1))
       then send_ack (rx_link_from lh n1) (lh_link_seq lh) n1 else n1)) = Ok n' →
    calm n1 n' ∨ ty = PKT_CONTROL ∧ ∃ lh n2, calm n1 n2 ∧ on_control_rx e now buf net lh n2 = Ok n') as Hrest.
  { clear Hrx. intros n1. destruct (link_read buf 0) as [lh| |]; simpl; [|done|done].
    case_match; [intros [= <-]; by left|]. case_match; [intros [= <-]; by left|].
    set (n2 := if _ && _ then _ else n1). assert (calm n1 n2) as Hn12 by (unfold n2; by case_match).
    unfold rx_dispatch. fold ty.
    case_match; [intros Hl; left; trans n2; [done|by eapply calm_loc]|].
    case_match; [intros Hl; left; trans n2; [done|by eapply calm_telem]|].
    destruct (Z.eqb_spec ty PKT_CONTROL) as [Hty|]; [intros Hl; right; eauto|].
    case_match; [intros Hl; left; trans n2; [done|by eapply calm_data]|]. intros [= <-]. by left. }
  destruct (Z.eqb_spec ty PKT_BEACON) as [Hb|Hnb].
  - destruct (rx_beacon now buf rssi snr net n) as [n1| |] eqn:Hbr; simpl in Hrx; [|done|done].
    apply Hrest in Hrx as [Hc|[Hc _]]; [|by rewrite Hb in Hc]. right. split; [done|]. exists net. eauto 8.
  - simpl in Hrx. apply Hrest in Hrx as [Hc|[Hc Hd]]; [by left|]. right. split; [done|]. exists net. eauto 8.
Qed.
Lemma on_rx_settings e now rnd buf rssi snr n n' : on_rx fw_version e now rnd buf rssi snr n = Ok n' →
  quiet_set n n'.
Proof.
  intros [Hc|(_ & net & _ & [[_ (n1 & Hb & Hc)]|[_ (lh & n1 & Hc & Hr)]])]%on_rx_cases; [by apply calm_set|..].
  - apply rx_beacon_ctl in Hb as (_ & _ & _ & _ & Hb). trans n1; [done|by apply calm_set].
  - trans n1; [by apply calm_set|by eapply control_set].
Qed.
End calm.

(** ** The directory of verified identities *)

Section identity.
Context `{Crypto}.

(** Every verified entry is bound to the key its id is the hash of. *)
Definition ids_sound (t : NodeTable) : Prop := ∀ id pub, (id, pub) ∈ for_each_verified t → nid_from_pubkey pub = id.

Lemma for_each_verified_spec t id pub : (id, pub) ∈ for_each_verified t ↔
  ∃ s, s ∈ nd_slots t ∧ nd_used s = true ∧ nd_verified s = true ∧ nd_id s = id ∧ nd_pub s = pub.
Proof.
  unfold for_each_verified. rewrite list_elem_of_fmap. split.
  - intros (s & [= -> ->] & [Hs Hin]%list_elem_of_filter). apply andb_true_iff in Hs as [Hu Hv]. eauto 8.
  - intros (s & Hin & Hu & Hv & <- & <-). exists s. split; [done|]. apply list_elem_of_filter. by rewrite Hu, Hv.
Qed.

(** The handle [intern] returns, when live, is the entry of the id asked for;
    interning verifies nothing. *)
Lemma intern_entry id now t s : nd_ok t → nd_live (intern id now t).2 (intern id now t).1 = Some s → nd_id s = id.
Proof.
  intros Hok. assert (∀ i x (l : list NdSlot), nd_slots t !! i = Some x → u8 (Z.of_nat i) = Z.of_nat i) as Hidx.
  { intros i x _ Hi%lookup_lt_Some. rewrite (ndk_len _ Hok) in Hi. zlia. }
  destruct (intern_spec id now t) as [i x Hx Hu Hid|i x Hf Hx Hu|i x Hf Hx Hp Hall|Hf Hall];
    intros (Hc & Hs & _)%nd_live_Some; cbn [nd_slots ref_idx] in Hs; [..|by unfold NODE_TABLE_CAP in Hc];
    rewrite (Hidx i x []), Nat2Z.id, list_lookup_insert_eq in Hs by (done || by eapply lookup_lt_Some);
    by injection Hs as <-.
Qed.
Lemma intern_verified id now t p : p ∈ for_each_verified (intern id now t).1 → p ∈ for_each_verified t.
Proof.
  destruct p as [i' pub]. rewrite !for_each_verified_spec. intros (s & Hin & Hu & Hv & Hid & Hpub).
  destruct (intern_spec id now t) as [i x Hx Hux _|i x _ Hx _|i x _ Hx _ _|_ _]; cbn [nd_slots] in Hin; [..|by exists s].
  all: apply list_elem_of_lookup in Hin as [j [(<- & <- & _)|[_ Hj]]%list_lookup_insert_Some]; [try done|].
  1: exists x; split; [by eapply list_elem_of_lookup_2|by simpl in *].
  all: exists s; split; [by eapply list_elem_of_lookup_2|done].
Qed.
Lemma mark_verified_entries r pub t p s : nd_live r t = Some s → p ∈ for_each_verified (mark_verified r pub t) →
  p ∈ for_each_verified t ∨ p = (nd_id s, pub).
Proof.
  intros Hl. unfold mark_verified, nd_update. rewrite Hl. apply nd_live_Some in Hl as (_ & Hs & Hu & _).
  destruct p as [i' pub']. rewrite !for_each_verified_spec. cbn [nd_slots]. intros (x & Hin & Hux & Hv & Hid & Hpub).
  rewrite (alter_insert _ _ _ _ Hs) in Hin.
  apply list_elem_of_lookup in Hin as [j [(<- & <- & _)|[_ Hj]]%list_lookup_insert_Some].
  - right. simpl in *. by subst.
  - left. exists x. split; [by eapply list_elem_of_lookup_2|done].
Qed.

(** The announce body [a] was parsed from is signed under [pub], in [region]. *)
Definition signed_by (region : bytes) (a : Announce) (pub : bytes) : Prop :=
  ∃ body sig rest, region = body ++ pub ++ sig ++ rest ∧ zlen body = announce_body_len a ∧
    zlen pub = 32 ∧ zlen sig = 64 ∧ ed25519_check sig pub (ann_view pub body) = true.

(** What a frame must be to bind [id] to [pub]: a beacon of [id], whose announce
    is signed under [pub], [id] being the hash of [pub]. *)
Definition proved (buf : bytes) (id : NodeId) (pub : bytes) : Prop :=
  let region := drop (Z.to_nat BEACON_BASE) buf in
  ∃ net a, net_read buf 4 = Ok net ∧ net_type_of (nh_ver_type net) = PKT_BEACON ∧ nh_src net = id ∧
    announce_deserialize region = Ok a ∧ nid_from_pubkey pub = id ∧ signed_by region a pub.

(** New bindings, printed or in the directory, satisfy [P]. *)
Definition binds (P : NodeId → bytes → Prop) (n n' : Node) : Prop :=
  ∃ lines, bindings n' = bindings n ++ lines ∧ (length lines <= 1)%nat ∧
    (∀ p, p ∈ for_each_verified (n_ids n') → p ∈ for_each_verified (n_ids n) ∨ AnnLine p.1 (Some p.2) ∈ lines) ∧
    ∀ id pub, AnnLine id (Some pub) ∈ lines → P id pub.

Lemma binds_none P n n' l : l = [] ∨ (∃ id, l = [AnnLine id None]) → bindings n' = bindings n ++ l →
  (∀ p, p ∈ for_each_verified (n_ids n') → p ∈ for_each_verified (n_ids n)) → binds P n n'.
Proof.
  intros Hl Hb Hids. exists l. split; [done|]. split; [destruct Hl as [-> | [? ->]]; simpl; lia|].
  split; [eauto|]. intros id pub Hin.
  destruct Hl as [-> | [? ->]]; [by apply not_elem_of_nil in Hin|by apply list_elem_of_singleton in Hin].
Qed.
Lemma binds_quiet P n n' : quiet_ids n n' → binds P n n'.
Proof. intros [Hi Hb]. apply (binds_none _ _ _ []); [by left|by rewrite app_nil_r|by rewrite Hi]. Qed.
Lemma binds_then P n n1 n' : binds P n n1 → quiet_ids n1 n' → binds P n n'.
Proof. intros (l & Hb & Hrest) [Hi Hb']. exists l. by rewrite Hb', Hi. Qed.
Lemma binds_mono (P Q : NodeId → bytes → Prop) n n' : (∀ id pub, P id pub → Q id pub) → binds P n n' → binds Q n n'.
Proof. intros HPQ (l & Hb & Hl & Hd & Hp). exists l. eauto 8. Qed.

Lemma announce_verify_parts body tail pub : announce_verify body tail = Ok pub →
  ∃ sig rest, tail = pub ++ sig ++ rest ∧ zlen pub = 32 ∧ zlen sig = 64 ∧ ed25519_check sig pub (ann_view pub body) = true.
Proof.
  unfold announce_verify. case_match; [done|].
  destruct (rdn tail 0 32) as [pk| |] eqn:Hp; cbn [mbind res_bind]; [|done|done].
  destruct (rdn tail 32 64) as [sg| |] eqn:Hs; cbn [mbind res_bind]; [|done|done].
  destruct (into _ _) as [v| |] eqn:Hv; cbn [mbind res_bind]; [|done|done]. apply into_inv in Hv as [-> _].
  case_match; [|done]. intros [= <-]. apply rdn_seg in Hp as [Hp Hpl]. apply rdn_seg in Hs as [Hs Hsl].
  exists sg, (drop 96 tail). split; [|done]. rewrite <- Hp at 1. rewrite <- Hs. unfold seg.
  rewrite drop_0. change (Z.to_nat 32) with 32%nat. change (Z.to_nat 64) with 64%nat.
  replace (drop 96 tail) with (drop 64 (drop 32 tail)) by (by rewrite drop_drop). by rewrite !take_drop.
Qed.

Lemma bindings_emit o n : is_ann o = true → bindings (emit o n) = bindings n ++ [o].
Proof. intros Ho. unfold bindings. simpl. by rewrite filter_app, filter_cons, Ho. Qed.

(** One beacon's effect on the directory and the printed bindings. *)
Lemma rx_identity_binds now src region a n n' : nd_ok (n_ids n) → announce_good region a →
  rx_identity now src region a n = Ok n' →
  binds (λ id pub, id = src ∧ nid_from_pubkey pub = src ∧ signed_by region a pub) n n'.
Proof.
  intros Hn Ha. unfold rx_identity. case_match; [intros [= <-]; by apply binds_quiet|].
  pose proof (intern_entry src now (n_ids n)) as Hent. pose proof (intern_verified src now (n_ids n)) as Hver.
  destruct (intern src now (n_ids n)) as [t r]. cbn [fst snd] in *. set (n1 := n <| n_ids := t |>).
  destruct (verified r t); [intros [= <-]; by apply (binds_none _ _ _ []); [left|rewrite app_nil_r|]|].
  destruct (announce_verify _ _) as [pub| |] eqn:Hv; [destruct (nid_eqb _ src) eqn:Hk| |done].
  2,3: intros [= <-]; apply (binds_none _ _ _ [AnnLine src None]); [eauto|by rewrite bindings_emit|done].
  apply nid_eqb_eq in Hk. intros [= <-]. exists [AnnLine src (Some pub)].
  split; [by rewrite bindings_emit|]. split; [done|]. split.
  - intros p Hp. change (n_ids _) with (mark_verified r pub t) in Hp. destruct (nd_live r t) as [s|] eqn:Hl.
    + apply (mark_verified_entries r pub t p s Hl) in Hp as [Hp| ->]; [left; by apply Hver|right].
      simpl. rewrite (Hent s Hn eq_refl). by constructor.
    + unfold mark_verified, nd_update in Hp. rewrite Hl in Hp. left. by apply Hver.
  - intros id pub' [= -> ->]%list_elem_of_singleton. split; [done|]. split; [done|].
    apply announce_verify_parts in Hv as (sig & rest & Htail & Hpl & Hsl & Hck).
    eexists _, sig, rest. rewrite <- Htail, take_drop. pose proof (ag_body _ _ Ha) as Hbl.
    split; [done|]. split; [|done]. unfold zlen in *. rewrite length_take. lia.
Qed.

Lemma rx_beacon_binds now buf rssi snr net n n' : node_ok n → wf_bytes buf → frame_fits buf →
  net_read buf 4 = Ok net → net_type_of (nh_ver_type net) = PKT_BEACON →
  rx_beacon now buf rssi snr net n = Ok n' → binds (proved buf) n n'.
Proof.
  intros Hn Hb Hf Hnet Hty. unfold rx_beacon. pose proof (rx_announce_good buf Hb Hf) as Hg.
  destruct (rx_announce buf) as [ann| |] eqn:Hra; cbn [mbind res_bind]; cbv zeta; [|done|done].
  set (n1 := n <| n_router ::= _ |>). simpl in Hg.
  assert (∀ n2, match ann with Some a => rx_identity now (nh_src net) (drop (Z.to_nat BEACON_BASE) buf) a n1
    | None => Ok n1 end = Ok n2 → binds (proved buf) n n2) as H2.
  { intros n2. destruct ann as [a|]; [|intros [= <-]; by apply binds_quiet]. intros Hid.
    assert (announce_deserialize (drop (Z.to_nat BEACON_BASE) buf) = Ok a) as Ha.
    { unfold rx_announce in Hra. destruct (_ <? _); [|done]. destruct (announce_deserialize _); try done. by injection Hra as ->. }
    apply rx_identity_binds in Hid; [|apply (nok_ids n Hn)|by apply Hg].
    eapply (binds_mono _ _ n1 n2); [|exact Hid]. intros id pub (-> & Hk & Hs). exists net, a. done. }
  destruct (match ann with Some _ => _ | None => _ end) as [n2| |]; cbn [mbind res_bind]; [|done|done].
  match goal with |- context [(if ?b then ?x else ?y) ≫= _] => destruct (if b then x else y) as [bpp| |] end;
    cbn [mbind res_bind]; [|done|done].
  intros [= <-]. eapply binds_then; [by apply H2|done].
Qed.
End identity.

(** What a command may change: the control state (power rails, key, replay floor,
    block timers, saved records), the radio, and the block list. *)
Definition config_same (n n' : Node) : Prop :=
  n_ctrl n' = n_ctrl n ∧ n_radio n' = n_radio n ∧ ro_blocked (n_router n') = ro_blocked (n_router n).

Section guard.
Context `{Crypto}.
Variable (fw_version : bytes).

(** C2: no identity without its key. Whatever frame arrives, the
    directory keeps binding ids only to keys they are the hash of; a pair in it
    afterwards was there before, or this frame is a beacon of that id whose
    announce body, exactly as parsed, is signed by that key; and the same
    holds of the one line at most printed. *)
Theorem identity_proved (e : ChipEnv) (now rnd : Z) (buf : bytes) (rssi snr : f32) (n n' : Node)
    (Hn : node_ok n) (Hb : wf_bytes buf) (Hl : zlen buf <= RADIO_MAX_FRAME) (Hids : ids_sound (n_ids n))
    (Hrx : on_rx fw_version e now rnd buf rssi snr n = Ok n') :
  ids_sound (n_ids n') ∧
  (∀ id pub, (id, pub) ∈ for_each_verified (n_ids n') →
     (id, pub) ∈ for_each_verified (n_ids n) ∨ proved buf id pub) ∧
  ∃ lines, bindings n' = bindings n ++ lines ∧ (length lines <= 1)%nat ∧
    ∀ id pub, AnnLine id (Some pub) ∈ lines → proved buf id pub.
Proof.
  assert (binds (proved buf) n n') as (lines & Hlines & Hlen & Hdir & Hp).
  { apply on_rx_cases in Hrx as [[Hq _]|(Hh & net & Hnet & [[Hty (n1 & Hbr & [Hq _])]|[_ (lh & n1 & [Hq1 _] & Hc)]])].
    - by apply binds_quiet.
    - eapply binds_then; [by eapply rx_beacon_binds|done].
    - apply binds_quiet. trans n1; [done|by eapply control_ids]. }
  assert (∀ id pub, (id, pub) ∈ for_each_verified (n_ids n') →
    (id, pub) ∈ for_each_verified (n_ids n) ∨ proved buf id pub) as Hnew.
  { intros id pub Hin. destruct (Hdir _ Hin) as [|Hline]; [by left|right]. by apply Hp. }
  split; [|eauto]. intros id pub Hin. destruct (Hnew id pub Hin) as [|(net & a & _ & _ & _ & _ & Hk & _)]; [by apply Hids|done].
Qed.

(** C1: only a signed, fresh command for this node changes its
    configuration. Whatever frame arrives, the settings of the host (beacon
    period, calibration, name, mobile flag, KISS mode, PIN, and what flash holds
    of them) and the identity are as before; and either the control state (power
    rails, key, replay floor, block timers, saved records), the radio and the
    block list are as before, or the node is provisioned and the frame is a
    broadcast CONTROL frame whose payload starts with a known command for this
    very node, signed under the provisioned key, with a counter above the floor;
    the floor then moves to that counter, in memory and in flash. *)
Theorem control_needs_signature (e : ChipEnv) (now rnd : Z) (buf : bytes) (rssi snr : f32) (n n' : Node)
    (Hb : wf_bytes buf) (Hl : zlen buf <= RADIO_MAX_FRAME)
    (Hrx : on_rx fw_version e now rnd buf rssi snr n = Ok n') :
  let pay := drop (Z.to_nat HEADER_BYTES) buf in
  settings_of n' = settings_of n ∧
  (config_same n n' ∨
  cs_have_key (n_ctrl n) = true ∧
  (∃ net, net_read buf 4 = Ok net ∧ net_type_of (nh_ver_type net) = PKT_CONTROL ∧ nh_dst net = NODE_ID_BROADCAST) ∧
  ∃ m, known_cmd (ct_cmd m) = true ∧ ct_target m = n_id n ∧
    take (Z.to_nat (unsigned_len (ct_cmd m))) pay = ctrl_unsigned m ∧
    ed25519_check (seg pay (unsigned_len (ct_cmd m)) 64) (cs_pubkey (n_ctrl n)) (DOMAIN ++ ctrl_unsigned m) = true ∧
    cs_counter (n_ctrl n) < ct_counter m ∧
    cs_counter (n_ctrl n') = ct_counter m ∧
    cs_saved (n_ctrl n') = Some (cs_pubkey (n_ctrl n), ct_counter m)).
Proof.
  intros pay. split; [by eapply on_rx_settings|]. apply on_rx_cases in Hrx as [[_ (A & B & C & _)]|(Hh & net & Hnet & [[_ (n1 & Hbr & _ & Hc)]|[Hty (lh & n1 & [_ (A & B & C & D & _)] & Hc)]])].
  - by left.
  - left. apply rx_beacon_ctl in Hbr as (A & B & C & _). destruct Hc as (A' & B' & C' & _). split; [congruence|]. split; congruence.
  - assert (frame_fits buf) as Hf by done.
    pose proof (control_rx_signed e now buf net lh n1 n' Hb Hf Hc) as [(A' & B' & C')|(Hbc & Hk & m & Hm)].
    + left. unfold config_same. rewrite A', B', C'. done.
    + right. rewrite A, D in *. split; [done|]. split; [eauto|]. exists m. exact Hm.
Qed.
End guard.

Example identity_proved_witness :
  ids_sound (H := toy_crypto) (n_ids node_ex) ∧
  ∃ n', on_rx (H := toy_crypto) [50; 0] env_quiet 100 0 heard_beacon (f32_of_Z (-80)) (f32_of_Z 9) node_ex = Ok n' ∧
    for_each_verified (n_ids n') = [(signer_id, @ed25519_public toy_crypto [7])] ∧
    proved (H := toy_crypto) heard_beacon signer_id (@ed25519_public toy_crypto [7]).
Proof.
  assert (for_each_verified (n_ids node_ex) = []) as Hnone by (by vm_compute).
  assert (ids_sound (H := toy_crypto) (n_ids node_ex)) as Hs by (intros id pub; rewrite Hnone; by intros ?%not_elem_of_nil).
  split; [exact Hs|]. destruct heard_beacon_wf as [Hw Hl].
  destruct (on_rx (H := toy_crypto) [50; 0] env_quiet 100 0 heard_beacon (f32_of_Z (-80)) (f32_of_Z 9) node_ex) as [n'| |] eqn:E.
  - exists n'. split; [reflexivity|].
    assert (for_each_verified (n_ids n') = [(signer_id, @ed25519_public toy_crypto [7])]) as Hv.
    { apply (f_equal (λ r, match r with Ok x => for_each_verified (n_ids x) | _ => [] end)) in E.
      cbv beta iota in E. rewrite <- E. by vm_compute. }
    split; [exact Hv|].
    destruct (@identity_proved toy_crypto [50; 0] env_quiet 100 0 heard_beacon (f32_of_Z (-80)) (f32_of_Z 9) node_ex n'
      node_ex_ok Hw Hl Hs E) as (_ & Hd & _).
    destruct (Hd signer_id (@ed25519_public toy_crypto [7])) as [Hin|Hp]; [rewrite Hv; apply list_elem_of_here| |exact Hp].
    exfalso. rewrite Hnone in Hin. exact (not_elem_of_nil _ Hin).
  - exfalso. vm_compute in E. discriminate E.
  - exfalso. vm_compute in E. discriminate E.
Defined.

Example control_needs_signature_witness :
  ∃ n', on_rx (H := toy_crypto) [50; 0] env_quiet 100 0 (ctl_buf 7) f0 f0 ctl_node = Ok n' ∧
    cs_counter (n_ctrl ctl_node) = 3 ∧ cs_counter (n_ctrl n') = 7.
Proof.
  destruct ctl_buf_ok as [Hw [_ Hl]].
  destruct (on_rx (H := toy_crypto) [50; 0] env_quiet 100 0 (ctl_buf 7) f0 f0 ctl_node) as [n'| |] eqn:E.
  - exists n'. split; [reflexivity|]. split; [done|].
    assert (cs_counter (n_ctrl n') = 7) as H7.
    { apply (f_equal (λ r, match r with Ok x => cs_counter (n_ctrl x) | _ => 0 end)) in E.
      cbv beta iota in E. rewrite <- E. by vm_compute. }
    destruct (@control_needs_signature toy_crypto [50; 0] env_quiet 100 0 (ctl_buf 7) f0 f0 ctl_node n' Hw Hl E)
      as [_ [(Hc & _)|(_ & _ & m & _ & _ & _ & _ & _ & Hm & _)]]; [|exact H7].
    rewrite Hc in H7. discriminate H7.
  - exfalso. vm_compute in E. discriminate E.
  - exfalso. vm_compute in E. discriminate E.
Defined.
