(* ===== verification/Flood.v ===== *)
(** Floods across nodes: a frame heard once is handled once, and a registration
    spreads over a mesh as far as its hop budget. *)
From S2P Require Import Prelude Update Reader SlotTable Float32 MeshTypes Router RouterWf Crypto Forwarder LinkArq Packet Sar Telemetry Control LocatorDir RadioHal TxQueue Hdlc Node Transmit NodeOk LocService TelemService CtrlPlane SarSession SarTransfer Rx.

Section flood.
Context `{Crypto}.
Variable (fw_version : bytes).

Definition is_flood_type (pt : Z) : Prop := pt = PKT_LOC ∨ pt = PKT_TELEM ∨ pt = PKT_CONTROL.
Definition flood_net (ttl pt : Z) (src : NodeId) (pid : Z) : NetHeader :=
  mkNet (net_ver_type pt) 0 ttl NODE_ID_BROADCAST src pid.

Lemma flood_net_wf ttl pt src pid : is_u8 ttl → wf_nid src → is_u16 pid → wf_net (flood_net ttl pt src pid).
Proof.
  intros Ht Hs Hp. split; [apply u8_range|]. split; [done|]. split; [done|].
  split; [apply wf_nid_broadcast|by split].
Qed.

(** A flood frame passes the header checks and reaches its handler. *)
Lemma on_rx_flood e now rnd rssi snr seq ttl pt src pid msg n : is_flood_type pt → is_u8 ttl → wf_nid src →
  is_u16 pid → src ≠ n_id n →
  on_rx fw_version e now rnd (flood_bytes seq ttl pt src pid msg) rssi snr n =
  rx_dispatch fw_version e now rnd (flood_bytes seq ttl pt src pid msg) (flood_net ttl pt src pid)
    (mkLink LINK_ADDR_NONE LINK_ADDR_BROADCAST seq 0) n.
Proof.
  intros Hpt Ht Hs Hp Hne. pose proof (flood_net_wf ttl pt src pid Ht Hs Hp) as Hnet.
  destruct (frame_headers_roundtrip (mkLink LINK_ADDR_NONE LINK_ADDR_BROADCAST seq 0) _ msg Hnet) as [Hl Hn].
  change (link_bytes _ ++ net_bytes _ ++ msg) with (flood_bytes seq ttl pt src pid msg) in Hl, Hn.
  set (f := flood_bytes seq ttl pt src pid msg) in *. unfold on_rx.
  assert (zlen f = HEADER_BYTES + zlen msg) as Hz by (by apply zlen_flood_bytes). pose proof (zlen_nonneg msg).
  rewrite (proj2 (Z.ltb_ge (zlen f) HEADER_BYTES)) by lia. rewrite Hn, Hl. cbn [mbind res_bind].
  assert (0 <= pt < 16 ∧ pt ≠ PKT_BEACON) as [Hb Hnb] by (unfold is_flood_type, PKT_LOC, PKT_TELEM, PKT_CONTROL, PKT_BEACON in *; lia).
  destruct (net_ver_type_parts pt Hb) as [Ety Ever]. cbn [flood_net nh_ver_type nh_src].
  rewrite Ever, Ety, (proj2 (Z.eqb_neq pt PKT_BEACON)) by done. cbn [negb Z.eqb].
  change (PROTO_VERSION =? PROTO_VERSION) with true. cbn [negb].
  by rewrite (proj2 (nid_eqb_neq _ _) Hne).
Qed.

(** Its own flood, coming back, is dropped. *)
Lemma on_rx_own e now rnd rssi snr seq ttl pt src pid msg n : is_flood_type pt → is_u8 ttl → wf_nid src →
  is_u16 pid → n_id n = src →
  on_rx fw_version e now rnd (flood_bytes seq ttl pt src pid msg) rssi snr n = Ok n.
Proof.
  intros Hpt Ht Hs Hp He. pose proof (flood_net_wf ttl pt src pid Ht Hs Hp) as Hnet.
  destruct (frame_headers_roundtrip (mkLink LINK_ADDR_NONE LINK_ADDR_BROADCAST seq 0) _ msg Hnet) as [_ Hn].
  change (link_bytes _ ++ net_bytes _ ++ msg) with (flood_bytes seq ttl pt src pid msg) in Hn.
  set (f := flood_bytes seq ttl pt src pid msg) in *. unfold on_rx.
  assert (zlen f = HEADER_BYTES + zlen msg) as Hz by (by apply zlen_flood_bytes). pose proof (zlen_nonneg msg).
  rewrite (proj2 (Z.ltb_ge (zlen f) HEADER_BYTES)) by lia. rewrite Hn. cbn [mbind res_bind].
  assert (0 <= pt < 16) as Hb by (unfold is_flood_type, PKT_LOC, PKT_TELEM, PKT_CONTROL in *; lia).
  destruct (net_ver_type_parts pt Hb) as [_ Ever]. cbn [flood_net nh_ver_type nh_src]. rewrite Ever.
  change (PROTO_VERSION =? PROTO_VERSION) with true. cbn [negb]. by rewrite He, nid_eqb_refl.
Qed.

Lemma flood_payload seq ttl pt src pid msg : wf_nid src →
  drop (Z.to_nat HEADER_BYTES) (flood_bytes seq ttl pt src pid msg) = msg.
Proof.
  intros Hs. unfold flood_bytes. change (Z.to_nat HEADER_BYTES) with (4 + 37)%nat. rewrite <- drop_drop.
  change (drop 4 (link_bytes _ ++ ?x)) with x. rewrite drop_app_length'; [done|].
  pose proof (zlen_net_bytes (flood_net ttl pt src pid) wf_nid_broadcast Hs) as Hz. unfold zlen, flood_net in Hz. lia.
Qed.

(** ** Once *)

Lemma on_rx_seen e now rnd rssi snr seq ttl pt src pid msg n : is_flood_type pt → is_u8 ttl → wf_nid src →
  is_u16 pid → src ≠ n_id n → wf_bytes msg → zlen msg <= DATA_MAX → loc_flood_seen src pid (n_loc n) = true →
  on_rx fw_version e now rnd (flood_bytes seq ttl pt src pid msg) rssi snr n = Ok n.
Proof.
  intros Hpt Ht Hs Hp Hne Hw Hm Hseen. rewrite on_rx_flood by done. unfold rx_dispatch. cbn [flood_net nh_ver_type].
  assert (0 <= pt < 16) as Hb by (unfold is_flood_type, PKT_LOC, PKT_TELEM, PKT_CONTROL in *; lia).
  destruct (net_ver_type_parts pt Hb) as [-> _].
  pose proof (flood_payload seq ttl pt src pid msg Hs) as Hd.
  assert (zlen msg < 65536) as Hm' by (unfold DATA_MAX, MAX_PAYLOAD, HEADER_BYTES in Hm; lia).
  destruct Hpt as [-> | [-> | ->]]; cbn [Z.eqb PKT_LOC PKT_TELEM PKT_CONTROL Pos.eqb].
  - unfold on_loc_rx. rewrite Hd. pose proof (loc_parse_spec msg Hw Hm') as Hsafe.
    destruct (loc_parse msg); [|done|done]. unfold on_loc_msg, flood_gate. cbn [flood_net nh_dst nh_src nh_pkt_id].
    by rewrite nid_eqb_refl, Hseen.
  - unfold on_telem_rx. rewrite Hd. pose proof (telem_parse_good msg Hw) as Hsafe.
    destruct (telem_parse msg); [|done|done]. unfold on_telem_msg, flood_gate. cbn [flood_net nh_dst nh_src nh_pkt_id].
    by rewrite nid_eqb_refl, Hseen.
  - unfold on_control_rx, flood_gate. cbn [flood_net nh_dst nh_src nh_pkt_id]. by rewrite nid_eqb_refl, Hseen.
Qed.

(** The ring of remembered floods after more floods were taken up. *)
Definition marks (ms : list (NodeId * Z)) (l : Loc) : Loc := foldl (λ l m, loc_flood_mark m.1 m.2 l) l ms.

Lemma marks_keep ms l j k x : length (lo_seen l) = 16%nat → lo_seen l !! Z.to_nat j = Some x → 0 <= j < 16 →
  0 <= k → k + zlen ms <= 15 → lo_seen_i l = (j + 1 + k) mod 16 →
  lo_seen (marks ms l) !! Z.to_nat j = Some x.
Proof.
  revert l k. induction ms as [|m ms IH]; intros l k Hl Hx Hj Hk Hms Hi; [done|].
  rewrite zlen_cons in Hms. pose proof (zlen_nonneg ms). apply (IH _ (k + 1)); simpl; try lia.
  - by rewrite length_insert.
  - rewrite list_lookup_insert_ne; [done|]. rewrite Hi. intros E. apply Z2Nat.inj in E; Z.div_mod_to_equations; lia.
  - rewrite Hi, u8_small by (pose proof (Z.mod_pos_bound ((j + 1 + k) mod 16 + 1) 16); zlia).
    rewrite Z.add_mod_idemp_l by lia. f_equal. lia.
Qed.

Lemma marks_seen ms src pid l : loc_ok l → zlen ms <= 15 →
  loc_flood_seen src pid (marks ms (loc_flood_mark src pid l)) = true.
Proof.
  intros Hl Hms. pose proof (lok_seen l Hl) as Hlen. pose proof (lok_seen_i l Hl) as Hi.
  assert (lo_seen (marks ms (loc_flood_mark src pid l)) !! Z.to_nat (lo_seen_i l) = Some (mkLSeen src pid true)) as Hx.
  { apply (marks_keep ms _ (lo_seen_i l) 0); simpl; try lia.
    - by rewrite length_insert.
    - apply list_lookup_insert_eq. lia.
    - rewrite u8_small, Z.add_0_r; [done|]. pose proof (Z.mod_pos_bound (lo_seen_i l + 1) 16). zlia. }
  unfold loc_flood_seen. case_match eqn:Hf; [done|]. rewrite find_index_None in Hf.
  specialize (Hf _ _ Hx). simpl in Hf. by rewrite nid_eqb_refl, Z.eqb_refl in Hf.
Qed.

(** A flood is handled at most once. Once the gate has let a flood
    through, any later copy of it (same origin and number, whatever its hop
    budget, link sequence number and even content) leaves the node as it is,
    until sixteen other floods have been taken up. *)
Theorem flood_handled_once (e : ChipEnv) (now rnd : Z) (rssi snr : f32) (seq ttl pt : Z) (src : NodeId) (pid : Z)
    (msg : bytes) (net : NetHeader) (ms : list (NodeId * Z)) (n n1 n2 : Node)
    (Hn : node_ok n) (Hgate : flood_gate net n = Some n1) (Hnet : nh_src net = src ∧ nh_pkt_id net = pid)
    (Hms : zlen ms <= 15) (Hring : lo_seen (n_loc n2) = lo_seen (marks ms (n_loc n1)))
    (Hpt : is_flood_type pt) (Httl : is_u8 ttl) (Hsrc : wf_nid src) (Hpid : is_u16 pid) (Hne : src ≠ n_id n2)
    (Hmsg : wf_bytes msg) (Hlen : zlen msg <= DATA_MAX) :
  on_rx fw_version e now rnd (flood_bytes seq ttl pt src pid msg) rssi snr n2 = Ok n2.
Proof.
  apply on_rx_seen; try done. unfold flood_gate in Hgate. destruct Hnet as [E1 E2].
  rewrite E1, E2 in Hgate. destruct (loc_flood_seen src pid (n_loc n)); [done|]. injection Hgate as <-.
  unfold loc_flood_seen. rewrite Hring. apply (marks_seen ms src pid (n_loc n) (nok_loc n Hn) Hms).
Qed.

(** ** A registration, one hop *)

Definition reg_msg (epoch seq ttl_s : Z) (id : bytes) : LocMsg := mkLoc LOC_REGISTER 0 epoch seq ttl_s nid_zero id.
(** A node for which the registration is news. *)
Record newcomer (now : Z) (src : NodeId) (pid : Z) (id : bytes) (n : Node) : Prop := {
  nc_ok : node_ok n;
  nc_queue : txq_repr (n_txq n) [];
  nc_other : n_id n ≠ src;
  nc_unseen : loc_flood_seen src pid (n_loc n) = false;
  nc_unbound : unbound now id (lo_dir (n_loc n)) }.
(** It answers its host's next lookup, and told it unasked. *)
Definition learned (now : Z) (src : NodeId) (id : bytes) (n n' : Node) : Prop :=
  (loc_lookup id now (lo_dir (n_loc n'))).2 = Some src ∧ n_host n' = n_host n ++ [LocLine id src].

Lemma reg_msg_wf epoch seq ttl_s id : is_u16 epoch → is_u16 seq → is_u16 ttl_s → 1 <= zlen id <= LOC_ID_MAX →
  wf_bytes id → loc_wf (reg_msg epoch seq ttl_s id).
Proof. intros He Hs Ht Hi Hw. split; [left|by split]. do 5 (split; [done|]). done. Qed.

Lemma reg_fits m : loc_wf m → lm_kind m = LOC_REGISTER → wf_bytes (loc_encode m) ∧ zlen (loc_encode m) <= DATA_MAX.
Proof.
  intros Hm Hkind. pose proof Hm as [_ [[Hi0 Hi] Hw]]. split.
  { unfold loc_encode. rewrite Hkind. cbn [Z.eqb LOC_REGISTER Pos.eqb]. unfold wf_bytes in *. rewrite !Forall_app.
    split; [each; unfold LOC_REGISTER; zlia|]. split; [split; [|split]; apply wf_put_u16|]. split; [each; unfold LOC_ID_MAX in *; zlia|done]. }
  rewrite zlen_loc_encode by done.
  unfold loc_len. rewrite Hkind. simpl. unfold LOC_ID_MAX, DATA_MAX, MAX_PAYLOAD, HEADER_BYTES in *. lia.
Qed.

Lemma loc_on_register_id now net m n : n_id (loc_on_register now net m n) = n_id n.
Proof.
  unfold loc_on_register, loc_push_notify. destruct (lookup_full _ _ _) as [d prev].
  destruct (loc_upsert _ _ _ _ _ _ _) as [d' taken]. by case_match.
Qed.

Lemma on_rx_register e now rnd rssi snr lseq ttl src pid m n : wf_nid src → is_u16 pid → is_u8 ttl →
  loc_wf m → lm_kind m = LOC_REGISTER → newcomer now src pid (lm_id m) n → 0 < lm_ttl_s m →
  ∃ n', on_rx fw_version e now rnd (flood_bytes lseq ttl PKT_LOC src pid (loc_encode m)) rssi snr n = Ok n' ∧
    learned now src (lm_id m) n n' ∧ loc_flood_seen src pid (n_loc n') = true ∧ n_id n' = n_id n ∧
    txq_repr (n_txq n') (if 1 <? ttl then [flood_bytes lseq (ttl - 1) PKT_LOC src pid (loc_encode m)] else []).
Proof.
  intros Hs Hp Ht Hm Hk [Hn Hq Hne Hseen Hub] Hpos. pose proof Hm as [Hkind [Hid Hidw]].
  assert (is_u16 (lm_ttl_s m)) as Httl by (destruct Hkind as [(_ & _ & _ & _ & ? & _)|[(E & _)|(E & _)]]; [done|by rewrite Hk in E..]).
  rewrite on_rx_flood by (done || by left). unfold rx_dispatch.
  change (net_type_of (nh_ver_type (flood_net ttl PKT_LOC src pid))) with PKT_LOC. cbn [Z.eqb PKT_LOC Pos.eqb].
  set (f := flood_bytes lseq ttl PKT_LOC src pid (loc_encode m)).
  destruct (reg_fits m Hm Hk) as [_ Hml].
  unfold on_loc_rx.
  pose proof (flood_payload lseq ttl PKT_LOC src pid (loc_encode m) Hs) as Hpay. fold f in Hpay.
  rewrite Hpay, loc_parse_encode by done. eexists. split; [done|].
  unfold on_loc_msg, flood_gate. cbn [flood_net nh_dst nh_src nh_pkt_id]. rewrite nid_eqb_refl, Hseen, Hk.
  cbn [Z.eqb LOC_REGISTER Pos.eqb].
  set (n1 := n <| n_loc ::= _ |>).
  assert (node_ok n1) as H1 by (apply node_ok_loc; eauto with node).
  destruct (loc_on_register_learns now (flood_net ttl PKT_LOC src pid) m n1 H1 Hid Hub Httl) as ((ent & He & Hloc & Hexp) & Hh & Hqq & Hring).
  pose proof (loc_on_register_id now (flood_net ttl PKT_LOC src pid) m n1) as Hid2. change (n_id n1) with (n_id n) in Hid2.
  set (n2 := loc_on_register _ _ _ n1) in *.
  assert (loc_flood_seen src pid (n_loc n2) = true) as Hs2.
  { pose proof (marks_seen [] src pid (n_loc n) (nok_loc n Hn) ltac:(done)) as Hm1.
    unfold loc_flood_seen in *. by rewrite Hring. }
  assert (txq_repr (n_txq n2) []) as Hq2 by (by rewrite Hqq).
  assert (node_ok n2) as Hn2 by (by apply loc_on_register_node).
  assert ((loc_lookup (lm_id m) now (lo_dir (n_loc n2))).2 = Some src) as Hlook.
  { pose proof (loc_lookup_spec (lo_dir (n_loc n2)) (lm_id m) now (lok_dir _ (nok_loc _ Hn2))) as Hl.
    destruct (loc_lookup _ _ _) as [d r]. destruct Hl as (_ & Hl & _). apply Hl. exists ent. split; [done|]. split; [|done].
    unfold le_expired. rewrite Hexp. apply Z.leb_gt. zlia. }
  unfold flood_on. cbn [flood_net nh_ttl]. destruct (Z.ltb_spec 1 ttl) as [Hlt|].
  - pose proof (flood_on_bytes lseq ttl PKT_LOC src pid (loc_encode m) (flood_net ttl PKT_LOC src pid) n2 Hs Hml eq_refl) as Hfo.
    unfold flood_on in Hfo. cbn [flood_net nh_ttl] in Hfo. rewrite (proj2 (Z.ltb_lt 1 ttl) Hlt) in Hfo. fold f in Hfo.
    rewrite Hfo by zlia. split; [by split|]. split; [done|]. split; [done|]. apply (push_repr _ _ []); [done|done|].
    split; rewrite zlen_flood_bytes by done; pose proof (zlen_nonneg (loc_encode m));
      unfold DATA_MAX, MAX_PAYLOAD, HEADER_BYTES, RADIO_MAX_FRAME in *; lia.
  - split; [by split|]. by split.
Qed.

Lemma loc_register_floods now micros id n : node_ok n → txq_repr (n_txq n) [] → 1 <= zlen id <= LOC_ID_MAX →
  ∃ epoch seq, is_u16 epoch ∧ is_u16 seq ∧
    n_id (loc_register now micros id n) = n_id n ∧
    txq_repr (n_txq (loc_register now micros id n))
      [flood_bytes (u8 (lo_pktid (n_loc n))) LOC_FLOOD_TTL PKT_LOC (n_id n) (lo_pktid (n_loc n))
         (loc_encode (reg_msg epoch seq LOC_TTL_S id))].
Proof.
  intros Hn Hq Hid. unfold loc_register. rewrite (proj2 (loc_id_bad_false id) Hid).
  set (n1 := n <| n_loc ::= _ |>). set (n2 := n1 <| n_loc ::= _ |>).
  exists (lo_epoch (n_loc n2)), (lo_seq (n_loc n2)).
  split; [apply (lok_epoch _ (loc_epoch_ok micros (n_id n) _ (nok_loc n Hn)))|]. split; [apply u16_range|].
  set (n3 := match reg_slot id _ with Some _ => _ | None => _ end). set (n4 := n3 <| n_loc ::= _ |>).
  assert (n_id n4 = n_id n ∧ n_txq n4 = n_txq n ∧ lo_pktid (n_loc n4) = lo_pktid (n_loc n)) as (E1 & E2 & E3).
  { unfold n4, n3. destruct (reg_slot _ _); simpl; unfold loc_epoch_draw; by case_match. }
  clearbody n4. unfold loc_build_register. rewrite (proj2 (loc_id_bad_false id) Hid). unfold LOC_ID_MAX in *.
  rewrite u16_small, (proj2 (Z.ltb_ge (8 + 16) _)) by zlia.
  unfold send_loc_flood. set (msg := [LOC_REGISTER] ++ _).
  assert (zlen msg = 8 + zlen id) as Hz by (unfold msg; rewrite !zlen_app, !zlen_put_u16, !zlen_cons, !(zlen_nil (A:=Z)); lia).
  rewrite Hz. unfold HEADER_BYTES. rewrite u16_small, (proj2 (Z.ltb_ge FRAME_BUF _)) by (unfold FRAME_BUF, MAX_PAYLOAD; zlia).
  rewrite flood_frame_bytes, E1, E3. set (f := flood_bytes _ _ _ _ _ _).
  split; [exact E1|]. apply (push_repr _ _ []); [simpl; by rewrite E2|done|].
  unfold f. split; rewrite zlen_flood_bytes by apply (nok_id n Hn); unfold HEADER_BYTES, RADIO_MAX_FRAME; lia.
Qed.

(** ** A mesh *)

Fixpoint all_ok {A} (l : list (res A)) : res (list A) :=
  match l with
  | [] => Ok []
  | x :: l => a ← x; l ← all_ok l; Ok (a :: l)
  end.
Lemma all_ok_total {A} (l : list (res A)) : Forall (λ x, ∃ a, x = Ok a) l → ∃ l', l = Ok <$> l' ∧ all_ok l = Ok l'.
Proof.
  induction 1 as [|x l (a & ->) _ (l' & -> & IH)]; [by exists []|]. exists (a :: l'). split; [done|]. cbn [all_ok]. by rewrite IH.
Qed.

(** The frame a node puts on air, if its queue holds one, and the node after. *)
Definition airing (n : Node) : option bytes := head (txq_list (n_txq n)).
Definition sent_head (n : Node) : Node := match airing n with Some _ => n <| n_txq ::= txq_pop |> | None => n end.

(** A node hears frames one after the other. *)
Fixpoint hear_copies (e : ChipEnv) (now : Z) (rssi snr : f32) (fs : list bytes) (n : Node) : res Node :=
  match fs with
  | [] => Ok n
  | f :: fs => n ← on_rx fw_version e now 0 f rssi snr n; hear_copies e now rssi snr fs n
  end.

Section mesh.
(** [adj j i]: node [i] hears node [j]. *)
Variable (adj : nat → nat → bool).

(** What node [i] hears when every node that has a frame queued sends it. *)
Definition in_earshot (ns : list Node) (i : nat) : list bytes :=
  omap (λ '(j, n), if adj j i then airing n else None) (imap pair ns).
(** One round: the queued frames go out, and every node hears its neighbours'. *)
Definition flood_round (e : ChipEnv) (now : Z) (rssi snr : f32) (ns : list Node) : res (list Node) :=
  all_ok (imap (λ i n, hear_copies e now rssi snr (in_earshot ns i) (sent_head n)) ns).
(** Rounds from number [r] on, each at its time. *)
Fixpoint flood_rounds (e : ChipEnv) (t : nat → Z) (rssi snr : f32) (k r : nat) (ns : list Node) : res (list Node) :=
  match k with
  | O => Ok ns
  | S k => ns ← flood_round e (t r) rssi snr ns; flood_rounds e t rssi snr k (S r) ns
  end.

(** Within [k] hops of node [o], and at exactly [k]. *)
Fixpoint within (size o k i : nat) : bool :=
  match k with
  | O => bool_decide (i = o)
  | S k => within size o k i || existsb (λ j, within size o k j && adj j i) (seq 0 size)
  end.
Definition at_hops (size o k i : nat) : bool :=
  within size o k i && match k with O => true | S k => negb (within size o k i) end.

Lemma within_mono size o k k' i : (k <= k')%nat → within size o k i = true → within size o k' i = true.
Proof. induction 1 as [|k' _ IH]; [done|]. intros Hw. simpl. by rewrite IH. Qed.
Lemma within_step size o k i : within size o (S k) i = true ↔
  within size o k i = true ∨ ∃ j, (j < size)%nat ∧ at_hops size o k j = true ∧ adj j i = true.
Proof.
  simpl. rewrite orb_true_iff, existsb_exists. unfold at_hops. split.
  - intros [Hw|(j & Hj & [Hw Ha]%andb_true_iff)]; [by left|]. apply in_seq in Hj.
    destruct k as [|k]; [right; exists j; rewrite Hw; split; [lia|done]|].
    destruct (within size o k j) eqn:Hk; [left|right; exists j; rewrite Hw, Hk; split; [lia|done]].
    simpl. apply orb_true_iff. right. apply existsb_exists. exists j. split; [apply in_seq; lia|by rewrite Hk].
  - intros [Hw|(j & Hj & [Hw _]%andb_true_iff & Ha)]; [by left|right]. exists j.
    split; [apply in_seq; lia|by rewrite Hw].
Qed.

Lemma at_hops_unique size o k k' i : at_hops size o k i = true → at_hops size o k' i = true → k = k'.
Proof.
  assert (∀ k k', (k < k')%nat → at_hops size o k i = true → at_hops size o k' i = true → False) as Hlt.
  { clear k k'. intros k [|k'] Hk; [lia|]. unfold at_hops. intros [Hw _]%andb_true_iff [_ Hn]%andb_true_iff.
    by rewrite (within_mono size o k k') in Hn by (lia || done). }
  intros H1 H2. destruct (Nat.lt_trichotomy k k') as [Hk|[Hk|Hk]]; [|done|]; exfalso; eauto.
Qed.
Lemma at_hops_origin size o k : at_hops size o k o = (k =? 0)%nat.
Proof.
  unfold at_hops. assert (∀ k, within size o k o = true) as Hw.
  { intros k'. apply (within_mono size o 0); [lia|by apply bool_decide_eq_true_2]. }
  destruct k; by rewrite !Hw.
Qed.

Lemma in_earshot_spec ns i g : g ∈ in_earshot ns i ↔ ∃ j n, ns !! j = Some n ∧ adj j i = true ∧ airing n = Some g.
Proof.
  unfold in_earshot. rewrite list_elem_of_omap. split.
  - intros ([j n] & (j' & n' & [= -> ->] & Hj)%elem_of_lookup_imap_1 & Hg). exists j', n'. by destruct (adj j' i).
  - intros (j & n & Hj & Ha & Hg). exists (j, n). split; [by apply (elem_of_lookup_imap_2 pair)|]. by rewrite Ha.
Qed.

Lemma flood_round_spec e now rssi snr ns (P : nat → Node → Prop) :
  (∀ i n, ns !! i = Some n → ∃ n', hear_copies e now rssi snr (in_earshot ns i) (sent_head n) = Ok n' ∧ P i n') →
  ∃ ns', flood_round e now rssi snr ns = Ok ns' ∧ length ns' = length ns ∧
    ∀ i n', ns' !! i = Some n' → P i n'.
Proof.
  intros Hh. unfold flood_round. destruct (all_ok_total (imap (λ i n, hear_copies e now rssi snr (in_earshot ns i) (sent_head n)) ns))
    as (ns' & Hi & ->).
  { apply Forall_lookup. intros i x Hx. rewrite list_lookup_imap in Hx. apply fmap_Some in Hx as (n & Hn & ->).
    destruct (Hh i n Hn) as (n' & -> & _). by eexists. }
  exists ns'. split; [done|]. split; [by rewrite <- (length_fmap Ok ns'), <- Hi, length_imap|].
  intros i n' Hn'. assert ((Ok <$> ns') !! i = Some (Ok n')) as Hx by (by rewrite list_lookup_fmap, Hn').
  rewrite <- Hi, list_lookup_imap in Hx. apply fmap_Some in Hx as (n & Hn & Hx).
  destruct (Hh i n Hn) as (n'' & E & HP). rewrite E in Hx. by injection Hx as ->.
Qed.

Section spread.
Context (e : ChipEnv) (t : nat → Z) (rssi snr : f32) (lseq : Z) (src : NodeId) (pid : Z) (m : LocMsg).
Context (Hs : wf_nid src) (Hp : is_u16 pid) (Hm : loc_wf m) (Hkind : lm_kind m = LOC_REGISTER) (Hpos : 0 < lm_ttl_s m).

(** The registration with [k] hops left. *)
Let copy (k : nat) : bytes := flood_bytes lseq (Z.of_nat k) PKT_LOC src pid (loc_encode m).

(** Copies are lost on the origin and on a node that has heard one. *)
Lemma copies_own now k fs n : (k < 256)%nat → Forall (λ f, f = copy k) fs → n_id n = src → hear_copies e now rssi snr fs n = Ok n.
Proof.
  intros Hk Hf He. induction Hf as [|f fs -> _ IH]; [done|]. cbn [hear_copies].
  unfold copy. rewrite on_rx_own by (done || (by left) || (unfold is_u8; lia)). exact IH.
Qed.
Lemma copies_seen now k fs n : (k < 256)%nat → Forall (λ f, f = copy k) fs → n_id n ≠ src →
  loc_flood_seen src pid (n_loc n) = true → hear_copies e now rssi snr fs n = Ok n.
Proof.
  intros Hk Hf He Hseen. destruct (reg_fits m Hm Hkind) as [Hw Hl]. induction Hf as [|f fs -> _ IH]; [done|]. cbn [hear_copies].
  unfold copy. rewrite on_rx_seen by (done || (by left) || (unfold is_u8; lia)). exact IH.
Qed.

(** A newcomer takes the first one, and relays it if it has hops left. *)
Lemma copies_first now k f fs n : (k < 256)%nat → Forall (λ f, f = copy k) (f :: fs) → newcomer now src pid (lm_id m) n →
  ∃ n', hear_copies e now rssi snr (f :: fs) n = Ok n' ∧ learned now src (lm_id m) n n' ∧
    loc_flood_seen src pid (n_loc n') = true ∧ n_id n' ≠ src ∧
    txq_repr (n_txq n') (if (1 <? k)%nat then [copy (k - 1)] else []).
Proof.
  intros Hk [-> Hf]%Forall_cons Hn. assert (is_u8 (Z.of_nat k)) as Hu by (unfold is_u8; lia).
  destruct (on_rx_register e now 0 rssi snr lseq (Z.of_nat k) src pid m n Hs Hp Hu Hm Hkind Hn Hpos)
    as (n' & Hrx & Hl & Hseen & Hid & Hq).
  assert (n_id n' ≠ src) as Hne by (rewrite Hid; by eapply nc_other).
  exists n'. cbn [hear_copies]. unfold copy at 1. rewrite Hrx. cbn [mbind res_bind].
  split; [by apply (copies_seen now k)|]. split; [done|]. split; [done|]. split; [done|].
  unfold copy. destruct (Nat.ltb_spec 1 k).
  - rewrite (proj2 (Z.ltb_lt _ _)) in Hq by lia. by replace (Z.of_nat (k - 1)) with (Z.of_nat k - 1) by lia.
  - by rewrite (proj2 (Z.ltb_ge _ _)) in Hq by lia.
Qed.

(** Node [i], [n0] before the flood, when [r] rounds have passed. *)
Definition spread_at (size o r i : nat) (n0 n : Node) : Prop :=
  if decide (i = o) then n_id n = src ∧ txq_repr (n_txq n) (if r =? 0 then [copy 4] else [])%nat
  else if within size o (r `min` 4) i then
    ∃ s, (s < r `min` 4)%nat ∧ at_hops size o (S s) i = true ∧ learned (t s) src (lm_id m) n0 n ∧
      loc_flood_seen src pid (n_loc n) = true ∧ n_id n ≠ src ∧
      txq_repr (n_txq n) (if (S s =? r) && (r <? 4) then [copy (4 - r)] else [])%nat
  else n = n0.

Lemma spread_airing size o r i n0 n : spread_at size o r i n0 n → (i ≠ o → txq_repr (n_txq n0) []) →
  ∃ q, txq_repr (n_txq n) q ∧ q = if at_hops size o r i && (r <? 4)%nat then [copy (4 - r)] else [].
Proof.
  unfold spread_at. intros Hsp H0. destruct (decide (i = o)) as [->|Hne].
  { destruct Hsp as [_ Hq]. eexists. split; [exact Hq|]. rewrite at_hops_origin. by destruct r. }
  specialize (H0 Hne). destruct (within size o (r `min` 4) i) eqn:Hw.
  - destruct Hsp as (s & Hsr & Hat & _ & _ & _ & Hq). eexists. split; [exact Hq|].
    destruct (Nat.eqb_spec (S s) r) as [<-|Hsne]; [by rewrite Hat|]. cbn [andb].
    destruct (at_hops size o r i) eqn:Hr; [|done]. by destruct Hsne; apply (at_hops_unique size o _ _ i).
  - subst n. eexists. split; [exact H0|]. destruct (Nat.ltb_spec r 4); [|by rewrite andb_false_r].
    unfold at_hops. rewrite Nat.min_l in Hw by lia. by rewrite Hw.
Qed.

Lemma airing_repr n q : txq_repr (n_txq n) q → airing n = head q.
Proof. intros Hq. unfold airing. by rewrite (txq_list_repr _ _ Hq). Qed.
Lemma sent_head_repr n q : txq_repr (n_txq n) q →
  txq_repr (n_txq (sent_head n)) (tail q) ∧ n_id (sent_head n) = n_id n ∧ n_loc (sent_head n) = n_loc n ∧
  n_host (sent_head n) = n_host n ∧ (q = [] → sent_head n = n).
Proof.
  intros Hq. unfold sent_head. rewrite (airing_repr _ _ Hq). destruct q as [|f q]; [done|]. cbn [head].
  split; [by eapply txq_pop_repr|done].
Qed.

(** Who hears a copy in round [r]: those next to a node [r] hops away. *)
Lemma spread_earshot size o r (ns0 ns : list Node) i : length ns = size →
  (∀ j n, ns !! j = Some n → ∃ n0, ns0 !! j = Some n0 ∧ spread_at size o r j n0 n) →
  (∀ j n0, j ≠ o → ns0 !! j = Some n0 → txq_repr (n_txq n0) []) →
  Forall (λ f, f = copy (4 - r)) (in_earshot ns i) ∧
  (in_earshot ns i ≠ [] ↔ (r < 4)%nat ∧ ∃ j, (j < size)%nat ∧ at_hops size o r j = true ∧ adj j i = true).
Proof.
  intros Hlen Hns Hq0.
  assert (∀ j n, ns !! j = Some n → airing n = if at_hops size o r j && (r <? 4)%nat then Some (copy (4 - r)) else None) as Hair.
  { intros j n Hj. destruct (Hns j n Hj) as (n0 & Hj0 & Hsp). destruct (spread_airing _ _ _ _ _ _ Hsp) as (q & Hq & ->); [by eauto|].
    rewrite (airing_repr _ _ Hq). by destruct (_ && _). }
  split.
  - apply Forall_forall. intros g (j & n & Hj & _ & Hg)%in_earshot_spec. rewrite (Hair j n Hj) in Hg.
    destruct (_ && _); [by injection Hg|done].
  - split.
    + destruct (in_earshot ns i) as [|g l] eqn:He; [done|]. intros _.
      destruct (proj1 (in_earshot_spec ns i g)) as (j & n & Hj & Ha & Hg); [rewrite He; by left|].
      rewrite (Hair j n Hj) in Hg. destruct (at_hops size o r j && (r <? 4)%nat) eqn:Hc; [|done].
      apply andb_true_iff in Hc as [Hat Hr%Nat.ltb_lt]. split; [done|]. exists j.
      split; [rewrite <- Hlen; by eapply lookup_lt_Some|done].
    + intros (Hr & j & Hjs & Hat & Ha) He. destruct (lookup_lt_is_Some_2 ns j) as [n Hj]; [lia|].
      assert (copy (4 - r) ∈ in_earshot ns i) as Hin.
      { apply in_earshot_spec. exists j, n. split; [done|]. split; [done|]. rewrite (Hair j n Hj), Hat.
        by rewrite (proj2 (Nat.ltb_lt _ _) Hr). }
      rewrite He in Hin. by apply not_elem_of_nil in Hin.
Qed.

Lemma spread_round size o r (ns0 ns : list Node) : length ns = size →
  (∀ j n, ns !! j = Some n → ∃ n0, ns0 !! j = Some n0 ∧ spread_at size o r j n0 n) →
  (∀ j n0, j ≠ o → ns0 !! j = Some n0 → txq_repr (n_txq n0) [] ∧ ((r < 4)%nat → newcomer (t r) src pid (lm_id m) n0)) →
  ∃ ns', flood_round e (t r) rssi snr ns = Ok ns' ∧ length ns' = size ∧
    ∀ j n, ns' !! j = Some n → ∃ n0, ns0 !! j = Some n0 ∧ spread_at size o (S r) j n0 n.
Proof.
  intros Hlen Hns Hnew. rewrite <- Hlen. apply flood_round_spec. intros i n Hi. rewrite Hlen.
  destruct (Hns i n Hi) as (n0 & Hi0 & Hsp). assert (∀ j n0, j ≠ o → ns0 !! j = Some n0 → txq_repr (n_txq n0) []) as Hq0
    by (intros j x Hj Hx; exact (proj1 (Hnew j x Hj Hx))).
  destruct (spread_earshot size o r ns0 ns i Hlen Hns Hq0) as [Hall Hsome]. set (fs := in_earshot ns i) in *.
  destruct (spread_airing _ _ _ _ _ _ Hsp) as (q & Hq & Eq); [by eauto|].
  destruct (sent_head_repr n q Hq) as (Hq' & Eid & Eloc & Ehost & Enone).
  assert (tail q = []) as Ht by (subst q; by destruct (_ && _)). rewrite Ht in Hq'.
  unfold spread_at in Hsp. destruct (decide (i = o)) as [->|Hne].
  { destruct Hsp as [Hid _]. exists (sent_head n). split; [apply (copies_own _ (4 - r)); [lia|done|by rewrite Eid]|].
    exists n0. split; [done|]. unfold spread_at. rewrite decide_True by done. by rewrite Eid. }
  destruct (within size o (r `min` 4) i) eqn:Hw.
  { destruct Hsp as (s & Hsr & Hat & Hl & Hseen & Hid & _). exists (sent_head n).
    split; [apply (copies_seen _ (4 - r)); [lia|done|by rewrite Eid|by rewrite Eloc]|]. exists n0. split; [done|].
    unfold spread_at. rewrite decide_False by done. rewrite (within_mono size o (r `min` 4)) by (lia || done).
    exists s. split; [lia|]. split; [done|]. unfold learned. rewrite Eloc, Ehost, Eid. split; [done|]. split; [done|]. split; [done|].
    by rewrite (proj2 (Nat.eqb_neq (S s) (S r))) by lia. }
  subst n. rewrite Enone by (by apply txq_list_repr in Hq; rewrite <- Hq; eapply txq_list_repr, Hq0; eauto).
  destruct fs as [|f fs'] eqn:Hfs.
  - exists n0. split; [done|]. exists n0. split; [done|]. unfold spread_at. rewrite decide_False by done.
    assert (within size o (S r `min` 4) i = false) as ->; [|done].
    destruct (decide (r < 4)%nat) as [Hr|]; [|by rewrite Nat.min_r in * by lia]. rewrite Nat.min_l in * by lia.
    apply not_true_iff_false. intros [Hw'|Hj]%within_step; [congruence|]. by apply Hsome.
  - destruct (proj1 Hsome) as (Hr & Hj); [done|].
    destruct (copies_first (t r) (4 - r) f fs' n0) as (n' & Hh & Hl & Hseen & Hid & Hqn); [lia|done|by apply (proj2 (Hnew i n0 Hne Hi0))|].
    exists n'. split; [done|]. exists n0. split; [done|]. unfold spread_at. rewrite decide_False by done.
    rewrite !Nat.min_l in * by lia. rewrite (proj2 (within_step size o r i)) by (by right).
    exists r. split; [lia|]. split; [unfold at_hops; by rewrite (proj2 (within_step size o r i)), Hw by (by right)|].
    split; [done|]. split; [done|]. split; [done|]. rewrite Nat.eqb_refl. cbn [andb].
    replace (4 - S r)%nat with (4 - r - 1)%nat by lia.
    by replace (S r <? 4)%nat with (1 <? 4 - r)%nat by (destruct (Nat.ltb_spec 1 (4 - r)), (Nat.ltb_spec (S r) 4); lia).
Qed.

Lemma spread_rounds size o k r (ns0 ns : list Node) : length ns = size →
  (∀ j n, ns !! j = Some n → ∃ n0, ns0 !! j = Some n0 ∧ spread_at size o r j n0 n) →
  (∀ j n0, j ≠ o → ns0 !! j = Some n0 → txq_repr (n_txq n0) [] ∧ ∀ r, (r < 4)%nat → newcomer (t r) src pid (lm_id m) n0) →
  ∃ ns', flood_rounds e t rssi snr k r ns = Ok ns' ∧ length ns' = size ∧
    ∀ j n, ns' !! j = Some n → ∃ n0, ns0 !! j = Some n0 ∧ spread_at size o (k + r) j n0 n.
Proof.
  revert r ns. induction k as [|k IH]; intros r ns Hlen Hns Hnew; [by exists ns|]. cbn [flood_rounds].
  destruct (spread_round size o r ns0 ns Hlen Hns) as (ns1 & -> & Hlen1 & Hns1).
  { intros j n0 Hj Hn0. destruct (Hnew j n0 Hj Hn0) as [Hq0 Hnc]. split; [done|]. by apply Hnc. }
  cbn [mbind res_bind].
  replace (S k + r)%nat with (k + S r)%nat by lia. by apply IH.
Qed.
End spread.
End mesh.

(** In rounds the copies of a flood arrive in the order of their hop counts.
    Where they do not, a longer way can starve a node: one that first hears a
    copy without hops left drops the later copy that had some, and never relays
    the flood. *)
Lemma late_copy_not_relayed e now rssi snr lseq ttl src pid m n : wf_nid src → is_u16 pid → is_u8 ttl →
  loc_wf m → lm_kind m = LOC_REGISTER → newcomer now src pid (lm_id m) n → 0 < lm_ttl_s m →
  ∃ n', hear_copies e now rssi snr [flood_bytes lseq 1 PKT_LOC src pid (loc_encode m); flood_bytes lseq ttl PKT_LOC src pid (loc_encode m)] n
    = Ok n' ∧ learned now src (lm_id m) n n' ∧ txq_repr (n_txq n') [].
Proof.
  intros Hs Hp Ht Hm Hk Hn Hpos. assert (is_u8 1) as H1 by zlia.
  destruct (on_rx_register e now 0 rssi snr lseq 1 src pid m n Hs Hp H1 Hm Hk Hn Hpos) as (n' & Hrx & Hl & Hseen & Hid & Hq).
  assert (n_id n' ≠ src) as Hne by (rewrite Hid; by eapply nc_other).
  destruct (reg_fits m Hm Hk) as [Hw Hz]. exists n'. cbn [hear_copies]. rewrite Hrx. cbn [mbind res_bind].
  by rewrite on_rx_seen by (done || by left).
Qed.

(** C15: a registration reaches four hops. A node registers an identity for its
    host and floods it over a mesh of nodes for which it is news, whatever the
    topology. In rounds, where every node with a frame queued sends it and every
    node hears each neighbour's, the nodes that learn it are exactly those within
    four hops: a node [s + 1] hops away learns it in round [s], from then on
    answers its host's lookup of the identity with the registering node, and has
    told its host so, unasked and once, however many copies it hears. The nodes
    further away are as they were, and no copy is left in a queue: the flood dies
    out. *)
Theorem register_flood_reaches (adj : nat → nat → bool) (e : ChipEnv) (t : nat → Z) (now micros : Z) (rssi snr : f32)
    (id : bytes) (o k : nat) (origin : Node) (ns : list Node)
    (Ho : ns !! o = Some origin) (Hok : node_ok origin) (Hq : txq_repr (n_txq origin) [])
    (Hid : 1 <= zlen id <= LOC_ID_MAX) (Hw : wf_bytes id)
    (Hnew : ∀ i n r, i ≠ o → ns !! i = Some n → (r < 4)%nat →
      newcomer (t r) (n_id origin) (lo_pktid (n_loc origin)) id n) (Hk : (4 <= k)%nat) :
  ∃ ns', flood_rounds adj e t rssi snr k 0 (<[o := loc_register now micros id origin]> ns) = Ok ns' ∧
    length ns' = length ns ∧ Forall (λ n, txq_list (n_txq n) = []) ns' ∧
    ∀ i n n', i ≠ o → ns !! i = Some n → ns' !! i = Some n' →
      if within adj (length ns) o 4 i
      then ∃ s, (s < 4)%nat ∧ at_hops adj (length ns) o (S s) i = true ∧ learned (t s) (n_id origin) id n n'
      else n' = n.
Proof.
  destruct (loc_register_floods now micros id origin Hok Hq Hid) as (epoch & seq & He & Hs & Eid & Hq1).
  set (n1 := loc_register now micros id origin) in *.
  assert (loc_wf (reg_msg epoch seq LOC_TTL_S id)) as Hm by (by apply reg_msg_wf). set (m := reg_msg _ _ _ _) in *.
  set (lseq := u8 (lo_pktid (n_loc origin))) in *. set (src := n_id origin) in *. set (pid := lo_pktid (n_loc origin)) in *.
  pose proof (lookup_lt_Some _ _ _ Ho) as Hol.
  destruct (spread_rounds adj e t rssi snr lseq src pid m (nok_id _ Hok) (lok_pktid _ (nok_loc _ Hok)) Hm eq_refl eq_refl
    (length ns) o k 0 ns (<[o := n1]> ns)) as (ns' & Hf & Hlen & Hall).
  { apply length_insert. }
  { intros j n Hj. destruct (decide (j = o)) as [->|Hne].
    - rewrite list_lookup_insert_eq in Hj by done. injection Hj as <-. exists origin. split; [done|].
      unfold spread_at. by rewrite decide_True by done.
    - rewrite list_lookup_insert_ne in Hj by done. exists n. split; [done|]. unfold spread_at.
      rewrite decide_False by done. cbn [Nat.min within]. by rewrite bool_decide_eq_false_2. }
  { intros j n0 Hj Hn0. split; [eapply nc_queue, (Hnew j n0 0%nat Hj Hn0); lia|]. intros r Hr. by apply (Hnew j). }
  exists ns'. split; [exact Hf|]. split; [done|]. rewrite Nat.add_0_r in Hall.
  assert (k `min` 4 = 4)%nat as E4 by lia. split.
  - apply Forall_lookup. intros i n' Hi. destruct (Hall i n' Hi) as (n0 & Hn0 & Hsp). apply txq_list_repr.
    destruct (spread_airing _ _ _ _ _ _ _ _ _ _ _ _ Hsp) as (q & Hqq & ->).
    { intros Hne. eapply nc_queue, (Hnew i n0 0%nat Hne Hn0). lia. }
    by rewrite (proj2 (Nat.ltb_ge k 4)), andb_false_r in Hqq.
  - intros i n n' Hne Hn Hn'. destruct (Hall i n' Hn') as (n0 & Hn0 & Hsp). assert (n0 = n) as -> by congruence.
    unfold spread_at in Hsp. rewrite decide_False, E4 in Hsp by done.
    destruct (within adj (length ns) o 4 i); [|done]. destruct Hsp as (s & Hs4 & Hat & Hl & _). by exists s.
Qed.
End flood.

(** Seven nodes: 1 and 2 hear node 0 and one another, node 3 hears both of them and they hear it,
    then a line 4, 5, 6. *)
Definition mesh_adj (j i : nat) : bool :=
  existsb (λ '(a, b), (a =? j) && (b =? i) || (a =? i) && (b =? j))%nat
    [(0, 1); (0, 2); (1, 2); (1, 3); (2, 3); (3, 4); (4, 5); (5, 6)]%nat.
Definition mesh_node (k : Z) : Node := Node_new (nid_from_u32 (10 + k)) None RadioHal_new 0 None None.
Definition mesh_nodes : list Node := node_ex :: (mesh_node <$> [1; 2; 3; 4; 5; 6]).

Lemma mesh_newcomer t i n : (i ≠ 0)%nat → mesh_nodes !! i = Some n →
  newcomer t (n_id node_ex) (lo_pktid (n_loc node_ex)) [104; 105] n.
Proof.
  intros Hi Hn. destruct i as [|i]; [done|]. change ((mesh_node <$> [1; 2; 3; 4; 5; 6]) !! i = Some n) in Hn.
  rewrite list_lookup_fmap in Hn. apply fmap_Some in Hn as (x & Hx & ->).
  assert (nid_from_u32 (10 + x) ≠ n_id node_ex) as Hne.
  { assert (Forall (λ x, bool_decide (nid_from_u32 (10 + x) ≠ n_id node_ex) = true) [1; 2; 3; 4; 5; 6]) as Hall
      by (repeat constructor).
    eapply Forall_lookup in Hall; [|exact Hx]. by apply bool_decide_eq_true_1 in Hall. }
  assert (node_ok (mesh_node x)) as Hok by (apply Node_new_ok; [apply wf_nid_u32|apply hal_new_ok|done]).
  split; [exact Hok|apply txq_init_repr|exact Hne|done|].
  intros e He. exfalso. vm_compute in He. discriminate He.
Qed.

Example register_flood_reaches_witness :
  ∃ ns', flood_rounds (H := toy_crypto) [50; 0] mesh_adj env_quiet (λ r, 500 + Z.of_nat r) f0 f0 4 0
      (<[0%nat := loc_register 500 77 [104; 105] node_ex]> mesh_nodes) = Ok ns' ∧
    (∃ n3, ns' !! 3%nat = Some n3 ∧ (loc_lookup [104; 105] 501 (lo_dir (n_loc n3))).2 = Some (nid_from_u32 1)) ∧
    ns' !! 6%nat = Some (mesh_node 6).
Proof.
  assert (txq_repr (n_txq node_ex) []) as Hq by apply txq_init_repr.
  assert (wf_bytes [104; 105]) as Hw by (by apply wf_bytes_check).
  assert (1 <= zlen [104; 105] <= LOC_ID_MAX) as Hid by (split; by vm_compute).
  destruct (@register_flood_reaches toy_crypto [50; 0] mesh_adj env_quiet (λ r, 500 + Z.of_nat r) 500 77 f0 f0 [104; 105]
    0 4 node_ex mesh_nodes eq_refl node_ex_ok Hq Hid Hw (λ i n r Hi Hn _, mesh_newcomer _ i n Hi Hn) (le_n 4))
    as (ns' & Hf & Hlen & _ & Hall).
  exists ns'. split; [exact Hf|].
  destruct (lookup_lt_is_Some_2 ns' 3) as [n3 H3]; [rewrite Hlen; simpl; lia|].
  destruct (lookup_lt_is_Some_2 ns' 6) as [n6 H6]; [rewrite Hlen; simpl; lia|].
  split.
  - exists n3. split; [exact H3|]. pose proof (Hall 3%nat (mesh_node 3) n3 ltac:(lia) eq_refl H3) as H3'.
    change (within mesh_adj (length mesh_nodes) 0 4 3) with true in H3'. destruct H3' as (s & _ & Hat & Hl & _).
    assert (s = 1)%nat as -> by (by assert (S s = 2)%nat as [= ->] by (by apply (at_hops_unique mesh_adj 7 0 _ _ 3))).
    exact Hl.
  - rewrite H6. f_equal. pose proof (Hall 6%nat (mesh_node 6) n6 ltac:(lia) eq_refl H6) as H6'.
    change (within mesh_adj (length mesh_nodes) 0 4 6) with false in H6'. exact H6'.
Defined.

Example flood_handled_once_witness :
  let m := loc_encode (reg_msg 1 1 600 [104; 105]) in
  let net := flood_net 4 PKT_LOC (nid_from_u32 9) 70 in
  ∃ n1, flood_gate net node_ex = Some n1 ∧
    @on_rx toy_crypto [50; 0] env_quiet 500 0 (flood_bytes 3 2 PKT_LOC (nid_from_u32 9) 70 m) f0 f0 n1 = Ok n1.
Proof.
  intros m net. destruct (flood_gate net node_ex) as [n1|] eqn:Hg; [|vm_compute in Hg; discriminate Hg].
  exists n1. split; [reflexivity|].
  assert (wf_bytes m) as Hw by (by apply wf_bytes_check; vm_compute).
  assert (zlen m <= DATA_MAX) as Hl by (by vm_compute).
  assert (zlen (@nil (NodeId * Z)) <= 15) as H15 by (by vm_compute).
  assert (is_u8 2) as H2 by zlia. assert (is_u16 70) as H70 by zlia.
  assert (nid_from_u32 9 ≠ n_id n1) as Hne by (injection Hg as <-; by vm_compute).
  exact (@flood_handled_once toy_crypto [50; 0] env_quiet 500 0 f0 f0 3 2 PKT_LOC (nid_from_u32 9) 70 m net [] node_ex n1 n1
    node_ex_ok Hg (conj eq_refl eq_refl) H15 eq_refl (or_introl eq_refl) H2 (wf_nid_u32 9) H70 Hne Hw Hl).
Defined.
