(* ===== verification/Unicast.v ===== *)
(** Unicast DATA across nodes: one acknowledged hop, and a payload's way along a
    route. *)
From S2P Require Import Prelude Update Reader SlotTable Float32 MeshTypes NeighborTable RoutingTable Router RouterWf Crypto Forwarder LinkArq Packet Sar LocatorDir RadioHal TxQueue Hdlc Node Transmit NodeOk LocService TelemService CtrlPlane SarSession SarTransfer Rx Beaconing Flood.

(** ** Frames *)

Definition data_frame (l : LinkHeader) (ttl : Z) (dst src : NodeId) (pid : Z) (p : bytes) : bytes :=
  link_bytes l ++ net_bytes (mkNet (net_ver_type PKT_DATA) 0 ttl dst src pid) ++ p.

Lemma zlen_data_frame l ttl dst src pid p : wf_nid dst → wf_nid src →
  zlen (data_frame l ttl dst src pid p) = HEADER_BYTES + zlen p.
Proof. intros Hd Hs. by apply zlen_frame. Qed.
Lemma data_frame_link l ttl dst src pid p : frame_link (data_frame l ttl dst src pid p) = l.
Proof. apply frame_link_bytes. Qed.
Lemma data_frame_set_link l' l ttl dst src pid p :
  set_link l' (data_frame l ttl dst src pid p) = data_frame l' ttl dst src pid p.
Proof. done. Qed.
Lemma data_frame_set_ttl t l ttl dst src pid p :
  set_ttl t (data_frame l ttl dst src pid p) = data_frame l t dst src pid p.
Proof. done. Qed.
Lemma data_frame_payload l ttl dst src pid p : wf_nid dst → wf_nid src →
  drop (Z.to_nat HEADER_BYTES) (data_frame l ttl dst src pid p) = p.
Proof.
  intros Hd Hs. change (Z.to_nat HEADER_BYTES) with (4 + 37)%nat. rewrite <- drop_drop.
  change (drop 4 (data_frame _ _ _ _ _ _)) with (net_bytes (mkNet (net_ver_type PKT_DATA) 0 ttl dst src pid) ++ p).
  rewrite drop_app_length'; [done|].
  pose proof (zlen_net_bytes (mkNet (net_ver_type PKT_DATA) 0 ttl dst src pid) Hd Hs) as Hz. unfold zlen in Hz. lia.
Qed.

(** ** Neighbours that know each other's aliases *)

Lemma entry_alias id a b n : router_ok (n_id n) (n_router n) → entry_of id a b n → 1 <= a <= 254.
Proof.
  intros Hn (e & (i & _ & Hi & Hu & _)%nt_get_Some & <- & _).
  apply (nb_ok_alias _ (nt_entries _ (ok_nt _ _ Hn) i e Hi Hu)).
Qed.
Lemma entry_addr id a b n : entry_of id a b n → ro_my_alias_for id (n_router n) = a ∧ link_addr_for id (n_router n) = b.
Proof.
  intros (e & He & <- & <-). unfold ro_my_alias_for, my_alias_for, link_addr_for, their_alias_for. by rewrite He.
Qed.
Lemma entry_sender id a b n : router_ok (n_id n) (n_router n) → is_zero id = false → entry_of id a b n → link_sender a b (n_router n) = id.
Proof.
  intros Hn Hz (e & He & Ha & Hb). unfold link_sender. apply neighbor_by_link_iff; [apply (ok_nt _ _ Hn)| |eauto].
  intros ->. discriminate Hz.
Qed.
Lemma or_broadcast_alias a : 1 <= a <= 254 → or_broadcast a = a ∧ (a =? LINK_ADDR_BROADCAST) = false.
Proof.
  intros Ha. unfold or_broadcast, LINK_ADDR_NONE, LINK_ADDR_BROADCAST.
  rewrite (proj2 (Z.eqb_neq a 0)), (proj2 (Z.eqb_neq a 255)) by lia. done.
Qed.

(** ** Sending to a neighbour, and its acknowledgement *)

Lemma count_if_none {A} (p : A → bool) l : count_if p l = 0 → Forall (λ x, p x = false) l.
Proof.
  induction l as [|x l IH]; [done|]. simpl. pose proof (count_if_bounds p l). destruct (p x) eqn:Hx; [lia|].
  intros Hc. constructor; [done|]. apply IH. lia.
Qed.
Lemma arq_idle a : pending_count a = 0 → length (arq_slots a) = 4%nat →
  ∃ p ps, arq_slots a = p :: ps ∧ pd_used p = false ∧ Forall (λ q, pd_used q = false) ps.
Proof.
  intros Hc%count_if_none Hl. destruct (arq_slots a) as [|p ps]; [done|]. apply Forall_cons in Hc as [Hp Hps]. by exists p, ps.
Qed.

(** From an idle engine: the frame takes the first slot, and the acknowledgement
    of its number frees it again. *)
Lemma arq_handshake a nh f now : pending_count a = 0 → length (arq_slots a) = 4%nat → zlen f <= ARQ_FRAME_MAX →
  let '(a1, s) := arq_next_seq a in
  let a2 := (arq_track s nh f now ARQ_TIMEOUT_MS ARQ_MAX_RETRIES a1).1 in
  pending_count a2 = 1 ∧ length (arq_slots a2) = 4%nat ∧ pending_count (on_ack s a2).1 = 0 ∧ (on_ack s a2).2 = true.
Proof.
  intros Hc Hl Hf. destruct (arq_idle a Hc Hl) as (p & ps & Hs & Hp & Hps). unfold arq_next_seq.
  destruct (next_seq_some a) as [c ->]. simpl. unfold arq_track. rewrite (proj2 (Z.ltb_ge _ _)) by done. simpl.
  rewrite Hs. simpl. rewrite Hp. simpl. unfold on_ack, pending_count. simpl. rewrite Z.eqb_refl. simpl.
  rewrite Hs in Hl. simpl in Hl.
  assert (count_if pd_used ps = 0) as H0 by (apply count_if_zero; by apply Forall_forall).
  split_and!; lia || done.
Qed.

Lemma arq_next_seq_u8 a a' s : arq_next_seq a = (a', s) → is_u8 s.
Proof.
  unfold arq_next_seq, next_seq. cbn [next_seq_loop].
  repeat case_match; simpl in *; intros; simplify_eq; apply u8_range || zlia.
Qed.

(** A directed frame sent from an idle engine: what is queued, and that its
    acknowledgement will leave the engine idle again. *)
Lemma tx_unicast_idle now f nh n l : pending_count (n_arq n) = 0 → length (arq_slots (n_arq n)) = 4%nat →
  txq_repr (n_txq n) l → zlen l < TXQ_DEPTH → frame_fits f →
  (lh_next_hop (frame_link f) =? LINK_ADDR_BROADCAST) = false → lh_flags (frame_link f) = 0 →
  ∃ s, let n' := tx_unicast now f nh n in
    tx_only n n' ∧
    txq_repr (n_txq n') (l ++ [set_link (mkLink (lh_prev_hop (frame_link f)) (lh_next_hop (frame_link f)) s LINK_FLAG_ACK_REQ) f]) ∧
    pending_count (on_ack s (n_arq n')).1 = 0 ∧ is_u8 s.
Proof.
  intros Hp Hl Hq Hroom Hz Hb Hf. unfold frame_fits, HEADER_BYTES, RADIO_MAX_FRAME in Hz. pose proof (tx_unicast_only now f nh n) as Ho. revert Ho.
  unfold tx_unicast. rewrite Hb, Hf. cbn [negb]. change (u8 (Z.lor 0 LINK_FLAG_ACK_REQ)) with LINK_FLAG_ACK_REQ.
  destruct (arq_next_seq (n_arq n)) as [a1 s] eqn:Ha. intros Ho. exists s. cbv zeta.
  set (f' := set_link _ f) in *. split; [exact Ho|].
  assert (zlen f' = zlen f) as Hz' by (apply zlen_set_link; lia).
  pose proof (arq_handshake (n_arq n) nh f' now Hp Hl) as Hh. rewrite Ha in Hh.
  destruct Hh as (_ & _ & Hh & _); [unfold ARQ_FRAME_MAX; lia|]. split; [|split; [exact Hh|]; by eapply arq_next_seq_u8].
  apply push_repr; [done|done|]. unfold frame_fits, HEADER_BYTES, RADIO_MAX_FRAME. lia.
Qed.

Section unicast.
Context `{Crypto}.
Variable (fw_version : bytes).

Definition ack_net (to me : NodeId) (s : Z) : NetHeader := mkNet (net_ver_type PKT_ACK) 0 1 to me s.
Definition data_hdr (ttl : Z) (dst src : NodeId) (pid : Z) : NetHeader :=
  mkNet (net_ver_type PKT_DATA) 0 ttl dst src pid.

(** A directed frame from a linked neighbour: an acknowledgement settles the
    engine, anything else is acknowledged first and then handled. *)
Lemma on_rx_directed e now rnd rssi snr B A_id a b s fl h p : router_ok (n_id B) (n_router B) → is_zero A_id = false →
  entry_of A_id b a B → wf_net h → net_ver_of (nh_ver_type h) = PROTO_VERSION →
  (net_type_of (nh_ver_type h) =? PKT_BEACON) = false → nh_src h ≠ n_id B →
  fl = LINK_FLAG_ACK_REQ ∨ fl = LINK_FLAG_IS_ACK →
  let f := link_bytes (mkLink a b s fl) ++ net_bytes h ++ p in
  on_rx fw_version e now rnd f rssi snr B =
  if has_flag LINK_FLAG_IS_ACK (mkLink a b s fl) then Ok (B <| n_arq ::= λ q, (on_ack s q).1 |>)
  else rx_dispatch fw_version e now rnd f h (mkLink a b s fl) (send_ack A_id s B).
Proof.
  intros Hr Hz He Hh Hv Ht Hne Hfl f. destruct (frame_headers_roundtrip (mkLink a b s fl) h p Hh) as [Hl Hn].
  change (link_bytes _ ++ net_bytes _ ++ p) with f in Hl, Hn.
  assert (zlen f = HEADER_BYTES + zlen p) as Hlen by (apply zlen_frame; apply Hh). pose proof (zlen_nonneg p).
  unfold on_rx. rewrite (proj2 (Z.ltb_ge (zlen f) HEADER_BYTES)) by lia. rewrite Hn, Hl. cbn [mbind res_bind].
  rewrite Hv, Ht. change (PROTO_VERSION =? PROTO_VERSION) with true. cbn [negb].
  rewrite (proj2 (nid_eqb_neq _ _) Hne). cbn [mbind res_bind]. unfold rx_link_from. cbn [lh_next_hop lh_prev_hop lh_link_seq].
  destruct (or_broadcast_alias b (entry_alias A_id b a B Hr He)) as [_ ->]. cbn [negb andb].
  rewrite (entry_sender A_id b a B Hr Hz He), Hz. cbn [negb].
  destruct Hfl as [-> | ->]; [|done]. by rewrite andb_true_r.
Qed.

(** The acknowledgement [B] queues, heard by [A]. *)
Lemma ack_heard e now rnd rssi snr A B a b s : router_ok (n_id A) (n_router A) → router_ok (n_id B) (n_router B) →
  wf_nid (n_id A) → wf_nid (n_id B) → is_zero (n_id B) = false → n_id A ≠ n_id B → linked A B a b → is_u16 s →
  on_rx fw_version e now rnd (ack_frame (n_id A) s B) rssi snr A = Ok (A <| n_arq ::= λ q, (on_ack s q).1 |>).
Proof.
  intros HA HB HwA HwB Hz Hne [H1 H2] Hs. unfold ack_frame. destruct (entry_addr _ _ _ _ H2) as [-> ->].
  destruct (or_broadcast_alias a (entry_alias _ _ _ _ HA H1)) as [-> _].
  rewrite <- (app_nil_r (net_bytes _)).
  rewrite (on_rx_directed e now rnd rssi snr A (n_id B) b a s LINK_FLAG_IS_ACK (ack_net (n_id A) (n_id B) s)); try done.
  by right.
Qed.

(** ** One hop *)

(** A node that takes no part in anything yet and has not seen the packet. *)
Record ready (src : NodeId) (pid : Z) (n : Node) : Prop := {
  rd_ok : node_ok n;
  rd_queue : txq_repr (n_txq n) [];
  rd_arq : pending_count (n_arq n) = 0;
  rd_id : is_zero (n_id n) = false;
  rd_other : n_id n ≠ src;
  rd_me : fw_me (n_fwd n) = n_id n;
  rd_new : (seen_or_insert src pid (n_fwd n)).2 = false }.
#[local] Hint Resolve rd_ok rd_queue : node.

Lemma data_hdr_wf ttl dst src pid : is_u8 ttl → wf_nid dst → wf_nid src → is_u16 pid → wf_net (data_hdr ttl dst src pid).
Proof. intros Ht Hd Hs Hp. split; [|split; [|split; [|split; [|split]]]]; simpl; try done; by vm_compute. Qed.

(** Everything but the queue, the retry engine, the packets seen and the
    beacon hush is as before. *)
Definition hop_kept (n n' : Node) : Prop := n_id n' = n_id n ∧ n_router n' = n_router n ∧ n_tun n' = n_tun n.

Lemma on_data_hop e now rnd rssi snr A B a b s ttl dst src pid p : ready src pid B → is_zero (n_id A) = false →
  linked A B a b → is_u8 ttl → wf_nid dst → wf_nid src → is_u16 pid →
  let f := data_frame (mkLink a b s LINK_FLAG_ACK_REQ) ttl dst src pid p in
  on_rx fw_version e now rnd f rssi snr B =
  on_data_rx now rnd f (data_hdr ttl dst src pid) (mkLink a b s LINK_FLAG_ACK_REQ) (send_ack (n_id A) s B).
Proof.
  intros [HB _ _ _ Hne _ _] Hz [_ He] Ht Hd Hs Hp f.
  pose proof (on_rx_directed e now rnd rssi snr B (n_id A) a b s LINK_FLAG_ACK_REQ (data_hdr ttl dst src pid) p
    (nok_router B HB) Hz He (data_hdr_wf ttl dst src pid Ht Hd Hs Hp) eq_refl eq_refl (not_eq_sym Hne) (or_introl eq_refl)) as Hrx.
  exact Hrx.
Qed.

Lemma zlen_ack to s n : wf_nid to → wf_nid (n_id n) → frame_fits (ack_frame to s n).
Proof.
  intros Ht Hn. unfold ack_frame. rewrite <- (app_nil_r (net_bytes _)). unfold frame_fits. rewrite zlen_frame by done.
  unfold HEADER_BYTES, RADIO_MAX_FRAME. rewrite (zlen_nil (A:=Z)). lia.
Qed.
Lemma ready_acked src pid to s n : ready src pid n → wf_nid to →
  txq_repr (n_txq (send_ack to s n)) [ack_frame to s n].
Proof.
  intros Hr Ht. apply (push_repr _ _ []); [apply Hr|done|]. apply zlen_ack; [done|]. apply (nok_id n), Hr.
Qed.

(** At the node it is for: acknowledged, and handed to the host. *)
Lemma hop_delivers e now rnd rssi snr A B a b s ttl src pid p : ready src pid B → is_zero (n_id A) = false → wf_nid (n_id A) →
  linked A B a b → is_u8 ttl → wf_nid src → is_u16 pid → host_attached B →
  zlen p <= DATA_MAX → sar_is_done p = false → sar_is_nack p = false → sar_is_fragment p = false →
  ∃ B', on_rx fw_version e now rnd (data_frame (mkLink a b s LINK_FLAG_ACK_REQ) ttl (n_id B) src pid p) rssi snr B = Ok B' ∧
    txq_list (n_txq B') = [ack_frame (n_id A) s B] ∧ pending_count (n_arq B') = 0 ∧
    n_host B' = n_host B ++ [ToHost (hdlc_write (tunnel_envelope src p))].
Proof.
  intros HB Hz HwA Hl Ht Hs Hp [Hha Hhk] Hlen H1 H2 H3. pose proof (nok_id B (rd_ok _ _ _ HB)) as HwB.
  rewrite (on_data_hop e now rnd rssi snr A B a b) by done. unfold on_data_rx, decide_packet. cbn [packet_ref data_hdr nh_src nh_dst nh_pkt_id nh_ttl pr_src pr_dst pr_pkt_id pr_ttl].
  change (n_fwd (send_ack (n_id A) s B)) with (n_fwd B).
  rewrite (rd_me _ _ _ HB), (proj2 (nid_eqb_neq _ _) (not_eq_sym (rd_other _ _ _ HB))).
  pose proof (rd_new _ _ _ HB) as Hnew. destruct (seen_or_insert src pid (n_fwd B)) as [f dup] eqn:Hf. cbn [snd] in Hnew. subst dup.
  assert (fw_me f = n_id B) as ->.
  { destruct (nok_fwd B (rd_ok _ _ _ HB)) as [w Hw]. destruct (seen_or_insert_spec _ _ src pid Hw) as (_ & _ & E).
    rewrite Hf in E. by rewrite <- (rd_me _ _ _ HB). }
  rewrite nid_eqb_refl. cbn [orb dc_action]. unfold data_deliver. rewrite (data_frame_payload _ _ _ _ _ _ HwB Hs), H1, H2, H3.
  set (B1 := _ <| n_fwd := f |>). change (host_tunnel_active B1) with (host_tunnel_active B). rewrite Hha.
  eexists. split; [done|]. unfold tunnel_emit. change (n_tun B1) with (n_tun B). rewrite Hhk.
  rewrite (proj2 (Z.ltb_ge TUN_HOST_MAX (zlen p))) by (unfold TUN_HOST_MAX, DATA_MAX, MAX_PAYLOAD, HEADER_BYTES in *; lia).
  split; [|split; [apply (rd_arq _ _ _ HB)|done]]. apply txq_list_repr. apply (ready_acked src pid); done.
Qed.

(** At a relay: acknowledged, and queued for the next neighbour with one hop
    less; the relay then waits for that neighbour's acknowledgement. *)
Lemma hop_relays e now rnd rssi snr A B a b c d C_id s ttl dst src pid p : ready src pid B → is_zero (n_id A) = false →
  wf_nid (n_id A) → linked A B a b → 1 < ttl <= 255 → wf_nid dst → wf_nid src → is_u16 pid → zlen p <= DATA_MAX →
  n_id B ≠ dst → dst ≠ NODE_ID_BROADCAST → next_hop dst (n_router B) = C_id → is_zero C_id = false → entry_of C_id c d B →
  1 <= d <= 254 →
  ∃ B' s', on_rx fw_version e now rnd (data_frame (mkLink a b s LINK_FLAG_ACK_REQ) ttl dst src pid p) rssi snr B = Ok B' ∧
    txq_list (n_txq B') = [ack_frame (n_id A) s B; data_frame (mkLink c d s' LINK_FLAG_ACK_REQ) (ttl - 1) dst src pid p] ∧
    pending_count (on_ack s' (n_arq B')).1 = 0 ∧ is_u8 s' ∧
    n_host B' = n_host B ∧ n_id B' = n_id B ∧ n_router B' = n_router B.
Proof.
  intros HB Hz HwA Hl Ht Hd Hs Hp Hlen Hne Hnb Hnh HzC Hc Hd4. pose proof (rd_ok _ _ _ HB) as HBok.
  assert (is_u8 ttl) as Httl by zlia.
  rewrite (on_data_hop e now rnd rssi snr A B a b) by done. unfold on_data_rx, decide_packet.
  cbn [packet_ref data_hdr nh_src nh_dst nh_pkt_id nh_ttl pr_src pr_dst pr_pkt_id pr_ttl].
  change (n_fwd (send_ack (n_id A) s B)) with (n_fwd B). change (n_router (send_ack (n_id A) s B)) with (n_router B).
  rewrite (rd_me _ _ _ HB), (proj2 (nid_eqb_neq _ _) (not_eq_sym (rd_other _ _ _ HB))).
  pose proof (rd_new _ _ _ HB) as Hnew. destruct (seen_or_insert src pid (n_fwd B)) as [f dup] eqn:Hf. cbn [snd] in Hnew. subst dup.
  assert (fw_me f = n_id B) as ->.
  { destruct (nok_fwd B HBok) as [w Hw]. destruct (seen_or_insert_spec _ _ src pid Hw) as (_ & _ & E).
    rewrite Hf in E. by rewrite <- (rd_me _ _ _ HB). }
  rewrite (proj2 (nid_eqb_neq _ _) (not_eq_sym Hne)), (proj2 (nid_eqb_neq dst BCAST_ID) Hnb), (proj2 (Z.leb_gt ttl 1)) by lia.
  cbn [orb]. rewrite Hnh, HzC. cbn [dc_action dc_next_hop dc_out_ttl lh_next_hop].
  destruct (or_broadcast_alias b (entry_alias _ _ _ _ (nok_router B HBok) (proj2 Hl))) as [_ ->].
  rewrite u8_small by zlia. set (B1 := _ <| n_fwd := f |>).
  unfold forward_frame. set (buf := data_frame _ _ _ _ _ _).
  assert (zlen buf = HEADER_BYTES + zlen p) as Hzb by (by apply zlen_data_frame). pose proof (zlen_nonneg p).
  unfold DATA_MAX, MAX_PAYLOAD, HEADER_BYTES in *. rewrite (proj2 (Z.ltb_ge FRAME_BUF (zlen buf))) by (unfold FRAME_BUF, MAX_PAYLOAD; lia).
  change (n_router B1) with (n_router B). destruct (entry_addr _ _ _ _ Hc) as [-> ->].
  destruct (or_broadcast_alias d Hd4) as [-> Hdb].
  unfold buf at 2. rewrite data_frame_set_link, data_frame_set_ttl. set (out := data_frame _ _ _ _ _ _).
  destruct (tx_unicast_idle now out C_id B1 [ack_frame (n_id A) s B]) as (s' & Ho & Hq & Hp' & Hs').
  - apply (rd_arq _ _ _ HB).
  - apply (tk_arq_len B (nok_tx B HBok)).
  - by apply (ready_acked src pid).
  - done.
  - unfold frame_fits, out. rewrite zlen_data_frame by done. unfold HEADER_BYTES, RADIO_MAX_FRAME. lia.
  - exact Hdb.
  - done.
  - set (B2 := tx_unicast now out C_id B1) in *. exists (hush now B2), s'. split; [done|].
    split; [apply txq_list_repr; exact Hq|]. split; [exact Hp'|].
    split; [exact Hs'|]. rewrite Ho. done.
Qed.

(** ** Along a route *)

(** [f] was queued by [A]. The next node hears it; the acknowledgement it queues
    first is heard by [A], and the frame it queues after that travels on. *)
Fixpoint travel (e : ChipEnv) (now : Z) (rssi snr : f32) (f : bytes) (A : Node) (path : list Node) : res (list Node) :=
  match path with
  | [] => Ok [A]
  | B :: path =>
      B' ← on_rx fw_version e now 0 f rssi snr B;
      match txq_list (n_txq B') with
      | [] => Ok (A :: B' :: path)
      | ack :: fs =>
          A' ← on_rx fw_version e now 0 ack rssi snr A;
          match fs with
          | [] => Ok (A' :: B' :: path)
          | g :: _ => rest ← travel e now rssi snr g B' path; Ok (A' :: rest)
          end
      end
  end.

(** Each node's routing table names the next one, and the two know each other's
    aliases. *)
Fixpoint route (dst : NodeId) (A : Node) (path : list Node) : Prop :=
  match path with
  | [] => n_id A = dst
  | B :: path => n_id A ≠ dst ∧ n_id A ≠ n_id B ∧ next_hop dst (n_router A) = n_id B ∧
      (∃ a b, linked A B a b) ∧ route dst B path
  end.

Definition deliverable (p : bytes) : Prop :=
  zlen p <= DATA_MAX ∧ sar_is_done p = false ∧ sar_is_nack p = false ∧ sar_is_fragment p = false.

(** The node's engine waits for nothing, and its host got the payload if it is
    the last one. *)
Definition hop_done (src : NodeId) (p : bytes) (last : bool) (n n' : Node) : Prop :=
  pending_count (n_arq n') = 0 ∧
  n_host n' = n_host n ++ if last then [ToHost (hdlc_write (tunnel_envelope src p))] else [].

Lemma travel_delivers e now rssi snr src dst pid p path : wf_nid src → wf_nid dst → is_u16 pid → dst ≠ NODE_ID_BROADCAST →
  deliverable p → Forall (ready src pid) path →
  ∀ A B ttl s a b, ready src pid B → router_ok (n_id A) (n_router A) → wf_nid (n_id A) → is_zero (n_id A) = false →
    is_u16 s → n_id A ≠ n_id B → linked A B a b → route dst B path → zlen path < ttl <= 255 →
    pending_count (on_ack s (n_arq A)).1 = 0 → (∀ n, last (B :: path) = Some n → host_attached n) →
    ∃ res, travel e now rssi snr (data_frame (mkLink a b s LINK_FLAG_ACK_REQ) ttl dst src pid p) A (B :: path) = Ok res ∧
      length res = S (S (length path)) ∧
      ∀ i n n', (A :: B :: path) !! i = Some n → res !! i = Some n' →
        hop_done src p (bool_decide (i = S (length path))) n n'.
Proof.
  intros Hsrc Hdst Hpid Hnb Hp Hpath. induction Hpath as [|C path HC Hpath IH];
    intros A B ttl s a b HB HrA HwA HzA Hs Hne Hl Hroute Httl Harq Hlast; pose proof Hp as (Hlen & H1 & H2 & H3).
  - simpl in Hroute. assert (is_u8 ttl) as Hu by (rewrite (zlen_nil (A:=Node)) in Httl; zlia).
    rewrite <- Hroute. destruct (hop_delivers e now 0 rssi snr A B a b s ttl src pid p) as (B' & Hrx & Hq & Hpc & Hh); try done.
    { by apply Hlast. }
    cbn [travel]. rewrite Hrx. cbn [mbind res_bind]. rewrite Hq.
    pose proof (rd_ok _ _ _ HB) as HBok. pose proof (nok_id B HBok). pose proof (nok_router B HBok).
    rewrite (ack_heard e now 0 rssi snr A B a b s) by (done || apply HB). cbn [mbind res_bind].
    eexists. split; [done|]. split; [done|]. intros [|[|i]] n n' Hn Hn'; simpl in *; [| |done].
    + injection Hn as <-. injection Hn' as <-. split; [exact Harq|]. by rewrite app_nil_r.
    + injection Hn as <-. injection Hn' as <-. by split.
  - simpl in Hroute. destruct Hroute as (HBd & HBC & Hnh & (c & d & HcB & HcC) & Hroute). rewrite zlen_cons in Httl.
    pose proof (zlen_nonneg path). pose proof (rd_ok _ _ _ HB) as HBok. pose proof (nok_id B HBok). pose proof (nok_router B HBok).
    pose proof (entry_alias _ _ _ _ (nok_router C (rd_ok _ _ _ HC)) HcC) as Hd4.
    destruct (hop_relays e now 0 rssi snr A B a b c d (n_id C) s ttl dst src pid p) as (B' & s' & Hrx & Hq & Hpc & Hs' & Hh & Hid & Hro);
      try done; [lia|apply HC|].
    cbn [travel]. rewrite Hrx. cbn [mbind res_bind]. rewrite Hq.
    rewrite (ack_heard e now 0 rssi snr A B a b s) by (done || apply HB). cbn [mbind res_bind].
    destruct (IH B' C (ttl - 1) s' c d) as (res & Hres & Hlen' & Hall); try done; try (rewrite ?Hid, ?Hro; done).
    + rewrite Hid. apply HB.
    + zlia.
    + unfold linked, entry_of. by rewrite Hid, Hro.
    + lia.
    + cbn [travel] in Hres. rewrite Hres. cbn [mbind res_bind]. eexists. split; [done|]. split; [simpl; by rewrite Hlen'|].
      intros [|i] n n' Hn Hn'; simpl in Hn, Hn'.
      * injection Hn as <-. injection Hn' as <-. split; [exact Harq|]. by rewrite app_nil_r.
      * specialize (Hall i). simpl. destruct i as [|i].
        { injection Hn as <-. specialize (Hall B' n' eq_refl Hn'). unfold hop_done in *. rewrite Hh in Hall. exact Hall. }
        specialize (Hall n n' Hn Hn'). erewrite bool_decide_ext; [exact Hall|]. lia.
Qed.

(** What [tunnel_send] queues for a payload that fits one frame. *)
Lemma tunnel_send_idle now dst p B_id a b n : node_ok n → txq_repr (n_txq n) [] → pending_count (n_arq n) = 0 →
  n_id n ≠ dst → wf_nid dst → zlen p <= DATA_MAX → next_hop dst (n_router n) = B_id → is_zero B_id = false →
  entry_of B_id a b n → 1 <= b <= 254 →
  ∃ s, let n' := tunnel_send now dst p n in
    txq_list (n_txq n') = [data_frame (mkLink a b s LINK_FLAG_ACK_REQ) DEFAULT_TTL dst (n_id n) (n_data_seq n) p] ∧
    pending_count (on_ack s (n_arq n')).1 = 0 ∧ is_u8 s ∧
    n_host n' = n_host n ∧ n_id n' = n_id n ∧ n_router n' = n_router n.
Proof.
  intros Hn Hq Hp Hne Hd Hlen Hnh Hz He Hb. unfold tunnel_send.
  rewrite (proj2 (nid_eqb_neq _ _) (not_eq_sym Hne)), (proj2 (Z.leb_le (zlen p) DATA_MAX) Hlen).
  unfold send_data_bytes. rewrite (proj2 (Z.ltb_ge DATA_MAX (zlen p)) Hlen). unfold unicast_link. rewrite Hnh, Hz. cbn [negb].
  destruct (entry_addr _ _ _ _ He) as [-> ->]. destruct (or_broadcast_alias b Hb) as [-> Hbb].
  set (n1 := n <| n_fwd ::= _ |>). change (link_bytes ?l ++ net_bytes (mkNet _ 0 ?t ?d ?s ?i) ++ ?q) with (data_frame l t d s i q).
  set (f := data_frame _ _ _ _ _ _).
  destruct (tx_unicast_idle now f B_id n1 []) as (s & Ho & Hq' & Hp' & Hs'); try done.
  - apply (tk_arq_len n (nok_tx n Hn)).
  - unfold frame_fits, f. rewrite zlen_data_frame by (done || apply (nok_id n Hn)). pose proof (zlen_nonneg p).
    unfold DATA_MAX, MAX_PAYLOAD, HEADER_BYTES, RADIO_MAX_FRAME in *. lia.
  - exists s. cbv zeta. split; [apply txq_list_repr; exact Hq'|]. split; [exact Hp'|]. split; [exact Hs'|].
    simpl. rewrite Ho. done.
Qed.

(** The whole way, hop by hop. *)
Lemma unicast_way (e : ChipEnv) (now : Z) (rssi snr : f32) (dst : NodeId) (p : bytes) (O : Node) (path : list Node)
    (HO : node_ok O) (HOq : txq_repr (n_txq O) []) (HOa : pending_count (n_arq O) = 0) (HOz : is_zero (n_id O) = false)
    (Hdst : wf_nid dst) (Hnb : dst ≠ NODE_ID_BROADCAST) (Hp : deliverable p)
    (Hroute : route dst O path) (Hpath : Forall (ready (n_id O) (n_data_seq O)) path)
    (Hlen : 1 <= zlen path <= DEFAULT_TTL) (Hhost : ∀ n, last path = Some n → host_attached n) :
  let O' := tunnel_send now dst p O in
  ∃ f res, txq_list (n_txq O') = [f] ∧ travel e now rssi snr f O' path = Ok res ∧ length res = S (length path) ∧
    ∀ i n n', (O :: path) !! i = Some n → res !! i = Some n' →
      hop_done (n_id O) p (bool_decide (i = length path)) n n'.
Proof.
  destruct path as [|B path]; [rewrite (zlen_nil (A:=Node)) in Hlen; lia|]. intros O'.
  destruct Hroute as (HOd & HOB & Hnh & (a & b & Hl) & Hroute). apply Forall_cons in Hpath as [HB Hpath].
  pose proof (entry_alias _ _ _ _ (nok_router B (rd_ok _ _ _ HB)) (proj2 Hl)) as Hb.
  destruct (tunnel_send_idle now dst p (n_id B) a b O) as (s & Hq & Ha & Hs & Hh & Hid & Hro); try done.
  { apply Hp. } { apply HB. } { apply Hl. }
  fold O' in Hq, Ha, Hh, Hid, Hro. rewrite zlen_cons in Hlen. unfold DEFAULT_TTL in *.
  destruct (travel_delivers e now rssi snr (n_id O) dst (n_data_seq O) p path (nok_id O HO) Hdst (nok_seq O HO) Hnb Hp Hpath
    O' B 16 s a b HB) as (res & Hres & Hrl & Hall); try done.
  - rewrite Hid, Hro. apply (nok_router O HO).
  - rewrite Hid. apply (nok_id O HO).
  - by rewrite Hid.
  - zlia.
  - by rewrite Hid.
  - unfold linked, entry_of. by rewrite Hid, Hro.
  - lia.
  - eexists _, res. split; [exact Hq|]. split; [exact Hres|]. split; [exact Hrl|]. intros [|i] n n' Hn Hn'.
    + injection Hn as <-. specialize (Hall 0%nat O' n' eq_refl Hn'). unfold hop_done in *. by rewrite Hh in Hall.
    + exact (Hall (S i) n n' Hn Hn').
Qed.

(** C5: a payload reaches its destination's host. The host of an idle node hands
    it a payload of at most 214 bytes for [dst]. If the routing tables on the way
    name each next node, neighbours know each other's link aliases, the way has at
    most 16 hops and nobody on it has seen the packet, then every hop is
    acknowledged (no retry engine waits for anything at the end), and the
    destination's host gets exactly the HDLC envelope of the payload under the
    sender's id; the hosts on the way get nothing. *)
Theorem unicast_delivers (e : ChipEnv) (now : Z) (rssi snr : f32) (dst : NodeId) (p : bytes) (O : Node) (path : list Node)
    (HO : node_ok O) (HOq : txq_repr (n_txq O) []) (HOa : pending_count (n_arq O) = 0) (HOz : is_zero (n_id O) = false)
    (Hdst : wf_nid dst) (Hnb : dst ≠ NODE_ID_BROADCAST) (Hp : deliverable p)
    (Hroute : route dst O path) (Hpath : Forall (ready (n_id O) (n_data_seq O)) path)
    (Hlen : 1 <= zlen path <= DEFAULT_TTL) (Hhost : ∀ n, last path = Some n → host_attached n) :
  let O' := tunnel_send now dst p O in
  ∃ f res, txq_list (n_txq O') = [f] ∧ travel e now rssi snr f O' path = Ok res ∧ length res = S (length path) ∧
    ∀ i n n', (O :: path) !! i = Some n → res !! i = Some n' →
      hop_done (n_id O) p (bool_decide (i = length path)) n n'.
Proof. by apply unicast_way. Qed.

(** ** A lost acknowledgement *)

Lemma set_fwd_id (n : Node) : n <| n_fwd := n_fwd n |> = n.
Proof. by destruct n. Qed.
Lemma decide_seen f w q r : fw_repr f w → pr_key q ∈ w →
  ∃ d, decide_packet q r f = (f, d) ∧ (dc_action d = DROP_OWN ∨ dc_action d = DROP_DUP).
Proof.
  intros Hf Hk. unfold decide_packet. destruct (nid_eqb _ _); [eauto|].
  pose proof (fw_find_iff f w (pr_src q) (pr_pkt_id q) Hf) as [_ Hin]. unfold seen_or_insert.
  destruct (Hin Hk) as [j ->]. eauto.
Qed.

(** C33: a retransmission is acknowledged and nothing else. Once a node's forwarder
    has taken a packet up, any copy of it that a neighbour sends again within the next 63
    packets (because the acknowledgement was lost, or along another way; with any
    link number and hop budget) only makes the node queue an acknowledgement: it
    is neither delivered nor forwarded a second time, and no other part of the
    node changes. *)
Theorem retransmission_only_acked (e : ChipEnv) (now rnd : Z) (rssi snr : f32) (A_id : NodeId) (a b s ttl : Z)
    (dst src : NodeId) (pid : Z) (p : bytes) (f : Forwarder) (w : list key) (q : PacketRef) (r : Router)
    (es : list fw_event) (n : Node)
    (Hn : node_ok n) (Hz : is_zero A_id = false) (Hlink : entry_of A_id b a n) (Hne : src ≠ n_id n)
    (Httl : is_u8 ttl) (Hdst : wf_nid dst) (Hsrc : wf_nid src) (Hpid : is_u16 pid)
    (Hf : fw_repr f w) (Hkey : pr_key q = (src, pid))
    (Hown : dc_action (decide_packet q r f).2 ≠ DROP_OWN) (Hdup : dc_action (decide_packet q r f).2 ≠ DROP_DUP)
    (Hes : (length es <= 63)%nat) (Hnow : n_fwd n = fold_left fw_step es (decide_packet q r f).1) :
  on_rx fw_version e now rnd (data_frame (mkLink a b s LINK_FLAG_ACK_REQ) ttl dst src pid p) rssi snr n =
  Ok (send_ack A_id s n).
Proof.
  destruct (decide_marks f w q r Hf Hown Hdup) as (w1 & Hr1 & H0 & _).
  destruct (fw_run_window _ _ es Hr1) as (w2 & Hr2 & _ & Hk). rewrite <- Hnow in Hr2.
  assert ((src, pid) ∈ w2) as Hin by (rewrite <- Hkey; apply (Hk 0%nat); [done|lia]).
  pose proof (on_rx_directed e now rnd rssi snr n A_id a b s LINK_FLAG_ACK_REQ (data_hdr ttl dst src pid) p
    (nok_router n Hn) Hz Hlink (data_hdr_wf ttl dst src pid Httl Hdst Hsrc Hpid) eq_refl eq_refl Hne (or_introl eq_refl)) as Hrx.
  etrans; [exact Hrx|]. change (rx_dispatch _ _ _ _ _ _ _ ?m) with
    (on_data_rx now rnd (data_frame (mkLink a b s LINK_FLAG_ACK_REQ) ttl dst src pid p) (data_hdr ttl dst src pid)
       (mkLink a b s LINK_FLAG_ACK_REQ) m).
  unfold on_data_rx. destruct (decide_seen (n_fwd n) w2 (packet_ref (data_hdr ttl dst src pid))
    (n_router n) Hr2 Hin) as (d & Hd & Ha).
  change (n_fwd (send_ack A_id s n)) with (n_fwd n). change (n_router (send_ack A_id s n)) with (n_router n). rewrite Hd.
  destruct Ha as [-> | ->]; exact (f_equal Ok (set_fwd_id (send_ack A_id s n))).
Qed.
End unicast.

(** Three nodes in a row that know their neighbours, the aliases they use for each
    other, and the routes; the last one has a host attached. *)
Definition knows (id : NodeId) (theirs : Z) (routes : list RouteAdv) (n : Node) : Node :=
  n <| n_router ::= on_beacon id f1 (mkAnnounce nid_zero [mkReport (n_id n) f1 theirs] routes 0 true) 10 |>.
Definition adv_ex (k hops : Z) : RouteAdv := mkAdv (nid_from_u32 k) (nid_from_u32 k) (f32_of_Z hops) hops.
Definition fresh_ex (k : Z) : Node := Node_new (nid_from_u32 k) None RadioHal_new 0 None None.
Definition first_ex : Node := knows (nid_from_u32 2) 224 [adv_ex 2 0; adv_ex 3 1] (fresh_ex 1).
Definition relay_ex : Node := knows (nid_from_u32 3) 135 [adv_ex 3 0] (knows (nid_from_u32 1) 211 [adv_ex 1 0] (fresh_ex 2)).
Definition tunnel_on (n : Node) : Node := n <| n_tun ::= λ u, u <| tu_mode := true |> |>.
Definition last_ex : Node :=
  tunnel_on (knows (nid_from_u32 2) 225 [adv_ex 2 0; adv_ex 1 1] (fresh_ex 3)).

Lemma knows_ok k theirs routes n : node_ok n →
  Forall (λ v, is_u8 (adv_hops v) ∧ wf_nid (adv_dst v) ∧ wf_nid (adv_next_hop v)) routes →
  node_ok (knows (nid_from_u32 k) theirs routes n).
Proof.
  intros Hn Hr. apply node_ok_router; [done|..].
  - apply on_beacon_ok; [apply (nok_router n Hn)|by split|]. split; simpl; [by each|].
    eapply Forall_impl; [exact Hr|]. by intros v [? _].
  - apply on_beacon_wf; [apply (nok_rwf n Hn)| |apply wf_nid_u32|].
    + rewrite (ok_id _ _ (nok_router n Hn)). apply (nok_id n Hn).
    + eapply Forall_impl; [exact Hr|]. by intros v (_ & ? & ?).
Qed.
Lemma fresh_ex_ok k : node_ok (fresh_ex k).
Proof. apply Node_new_ok; [apply wf_nid_u32|apply hal_new_ok|done]. Qed.
Lemma adv_ex_ok k h : is_u8 h → is_u8 (adv_hops (adv_ex k h)) ∧ wf_nid (adv_dst (adv_ex k h)) ∧ wf_nid (adv_next_hop (adv_ex k h)).
Proof. intros Hh. split; [exact Hh|]. split; apply wf_nid_u32. Qed.

Lemma row_ok : node_ok first_ex ∧ node_ok relay_ex ∧ node_ok last_ex.
Proof.
  assert (is_u8 0 ∧ is_u8 1) as [H0 H1] by (split; zlia).
  split; [|split].
  - apply knows_ok; [apply fresh_ex_ok|]. each; by apply adv_ex_ok.
  - apply knows_ok; [apply knows_ok; [apply fresh_ex_ok|]|]; each; by apply adv_ex_ok.
  - apply node_ok_tun; [apply knows_ok; [apply fresh_ex_ok|each; by apply adv_ex_ok]|].
    pose proof (nok_tun _ (fresh_ex_ok 3)) as [(l & [? ?] & ?) ?]. split; [|done]. exists l. split; [by split|done].
Qed.

Lemma row_ready : Forall (ready (n_id first_ex) (n_data_seq first_ex)) [relay_ex; last_ex].
Proof.
  destruct row_ok as (_ & H2 & H3). each; split; [exact H2|apply txq_init_repr| | | | | |exact H3|apply txq_init_repr| | | | |].
  all: by vm_compute.
Qed.
Lemma entry_known id a b n : nt_get id (ro_neighbors (n_router n)) ≠ None →
  ro_my_alias_for id (n_router n) = a → link_addr_for id (n_router n) = b → entry_of id a b n.
Proof.
  unfold ro_my_alias_for, my_alias_for, link_addr_for, their_alias_for, entry_of.
  destruct (nt_get id _) as [m|]; [|done]. intros _ <- <-. by exists m.
Qed.
Lemma row_route : route (nid_from_u32 3) first_ex [relay_ex; last_ex].
Proof.
  split; [by vm_compute|]. split; [by vm_compute|]. split; [by vm_compute|]. split.
  { exists 211, 224. split; apply entry_known; by vm_compute. }
  split; [by vm_compute|]. split; [by vm_compute|]. split; [by vm_compute|]. split; [|by vm_compute].
  exists 225, 135. split; apply entry_known; by vm_compute.
Qed.

Example unicast_delivers_witness :
  let O' := tunnel_send 100 (nid_from_u32 3) [104; 105] first_ex in
  deliverable [104; 105] ∧ route (nid_from_u32 3) first_ex [relay_ex; last_ex] ∧
  ∃ f res n', txq_list (n_txq O') = [f] ∧ @travel toy_crypto [50; 0] env_quiet 100 f0 f0 f O' [relay_ex; last_ex] = Ok res ∧
    res !! 2%nat = Some n' ∧ n_host n' = [ToHost (hdlc_write (tunnel_envelope (nid_from_u32 1) [104; 105]))].
Proof.
  intros O'. destruct row_ok as (H1 & _ & _).
  assert (deliverable [104; 105]) as Hp by (split; [by vm_compute|done]). split; [exact Hp|].
  split; [exact row_route|].
  assert (wf_nid (nid_from_u32 3)) as Hw by apply wf_nid_u32.
  assert (txq_repr (n_txq first_ex) []) as Hq by apply txq_init_repr.
  assert (pending_count (n_arq first_ex) = 0) as Ha by (by vm_compute).
  assert (is_zero (n_id first_ex) = false) as Hz by (by vm_compute).
  assert (nid_from_u32 3 ≠ NODE_ID_BROADCAST) as Hb by (by vm_compute).
  assert (1 <= zlen [relay_ex; last_ex] <= DEFAULT_TTL) as Hl by (split; by vm_compute).
  assert (∀ n, last [relay_ex; last_ex] = Some n → host_attached n) as Hh.
  { intros n [= <-]. split; by vm_compute. }
  destruct (@unicast_delivers toy_crypto [50; 0] env_quiet 100 f0 f0 (nid_from_u32 3) [104; 105] first_ex [relay_ex; last_ex]
    H1 Hq Ha Hz Hw Hb Hp row_route row_ready Hl Hh) as (f & res & Hf & Hres & Hlen & Hall).
  destruct (lookup_lt_is_Some_2 res 2) as [n' Hn']; [rewrite Hlen; simpl; lia|].
  exists f, res, n'. split; [exact Hf|]. split; [exact Hres|]. split; [exact Hn'|].
  exact (proj2 (Hall 2%nat last_ex n' eq_refl Hn')).
Defined.

Example retransmission_only_acked_witness :
  let q := mkPacketRef (nid_from_u32 9) (nid_from_u32 3) 70 5 in
  let n := relay_ex <| n_fwd := fold_left fw_step [EvMark (nid_from_u32 2) 1] (decide_packet q (n_router relay_ex) (n_fwd relay_ex)).1 |> in
  dc_action (decide_packet q (n_router relay_ex) (n_fwd relay_ex)).2 = FORWARD ∧
  @on_rx toy_crypto [50; 0] env_quiet 500 0
    (data_frame (mkLink 211 224 9 LINK_FLAG_ACK_REQ) 5 (nid_from_u32 3) (nid_from_u32 9) 70 [1; 2]) f0 f0 n =
  Ok (send_ack (nid_from_u32 1) 9 n).
Proof.
  intros q n. assert (dc_action (decide_packet q (n_router relay_ex) (n_fwd relay_ex)).2 = FORWARD) as Hd by (by vm_compute).
  split; [exact Hd|]. destruct row_ok as (_ & H2 & _). destruct (nok_fwd _ H2) as [w Hw].
  assert (node_ok n) as Hn.
  { apply node_ok_fwd; [exact H2|]. destruct (decide_ok q (n_router relay_ex) (n_fwd relay_ex) (nok_fwd _ H2)) as [w1 H1].
    destruct (fw_run_window _ _ [EvMark (nid_from_u32 2) 1] H1) as (w2 & Hw2 & _). by exists w2. }
  assert (entry_of (nid_from_u32 1) 224 211 n) as He.
  { apply entry_known; by vm_compute. }
  assert (is_zero (nid_from_u32 1) = false) as Hz by (by vm_compute).
  assert (nid_from_u32 9 ≠ n_id n) as Hne by (by vm_compute).
  assert (is_u8 5) as H5 by zlia. assert (is_u16 70) as H70 by zlia.
  assert (dc_action (decide_packet q (n_router relay_ex) (n_fwd relay_ex)).2 ≠ DROP_OWN) as Ho by (by rewrite Hd).
  assert (dc_action (decide_packet q (n_router relay_ex) (n_fwd relay_ex)).2 ≠ DROP_DUP) as Hdd by (by rewrite Hd).
  assert ((length [EvMark (nid_from_u32 2) 1] <= 63)%nat) as Hl by (simpl; lia).
  exact (@retransmission_only_acked toy_crypto [50; 0] env_quiet 500 0 f0 f0 (nid_from_u32 1) 211 224 9 5 (nid_from_u32 3)
    (nid_from_u32 9) 70 [1; 2] (n_fwd relay_ex) w q (n_router relay_ex) [EvMark (nid_from_u32 2) 1] n
    Hn Hz He Hne H5 (wf_nid_u32 3) (wf_nid_u32 9) H70 Hw eq_refl Ho Hdd Hl eq_refl).
Defined.
