(* ===== verification/FirstContact.v ===== *)
(** Two strangers in radio range: three beacons, and their hosts can talk. *)
From S2P Require Import Prelude Update Reader SlotTable Float32 MeshTypes LinkMetric NeighborTable RoutingTable Router RouterWf Learning Crypto AnnounceCodec Forwarder LinkArq Packet Sar NodeTable RadioHal TxQueue Hdlc Node Transmit NodeOk LocService SarSession SarTransfer Rx Beaconing Unicast.

(** ** The cost of a link just rated *)

(** [tx_cost] as a function of the stored quality. *)
Definition link_cost (q : f32) : f32 :=
  let q := if fgt q f0 then q else Q_MIN in
  let q := if flt q Q_MIN then Q_MIN else q in fdiv f1 q.
Lemma tx_cost_of id t m : nt_get id t = Some m → tx_cost id t = link_cost (nb_q_tx m).
Proof. intros Hm. unfold tx_cost. by rewrite Hm. Qed.

(** What a node advertises for itself, at wire precision. *)
Definition self_cost : f32 := u16_to_cost (cost_to_u16 f0).

Definition first_cost_ok (b : Z) : bool :=
  negb (fge (fadd (link_cost (ewma_quality Q_UNKNOWN (byte_to_q b) EWMA_ALPHA)) self_cost) COST_INF).

(** Never rated, or rated once by a report off the air. *)
Definition fresh_quality (q : f32) : Prop :=
  q = Q_UNKNOWN ∨ ∃ p, q = ewma_quality Q_UNKNOWN (rep_q (quant_report p)) EWMA_ALPHA.

Lemma fresh_cost q : fresh_quality q → fge (fadd (link_cost q) self_cost) COST_INF = false.
Proof.
  intros [-> |[p ->]]; [by vm_compute|]. apply negb_true_iff. cbn [rep_q quant_report].
  apply (all_below_spec first_cost_ok 256 0); [by vm_compute|]. pose proof (q_to_byte_range (rep_q p)). zlia.
Qed.

Section contact.
Context `{CryptoLaws}.
Variable (fw_version : bytes).

(** A node with at most four neighbours advertises itself. *)
Lemma told_self n : router_ok (n_id n) (n_router n) → self_first (ro_routes (n_router n)) → n_key n ≠ None →
  nt_count (ro_neighbors (n_router n)) <= 4 →
  mkAdv (n_id n) (n_id n) self_cost 0 ∈ an_routes (told n) ∧ zlen (an_routes (told n)) <= 3.
Proof.
  intros Hok (x & Hx & Hu & Hd) Hk Hc. destruct (told_sizes (n_id n) n Hok Hk) as [_ ->].
  set (k := nt_count _) in *. assert (0 <= k) as Hk0 by apply count_if_bounds.
  destruct (route_room_small k Hk0) as (Hr & _ & H5). set (m := route_room k) in *.
  split; [|unfold zlen; rewrite length_fmap, length_take; lia].
  destruct (rt_self_route _ (ok_rt _ _ Hok)) as (y & (i & _ & Hi & Hyu & Hyd)%rt_get_Some & Hn & Hco & Hh).
  rewrite (ok_self _ _ Hok) in *.
  assert (x = y) as <-.
  { pose proof (rt_dsts _ (ok_rt _ _ Hok) 0%nat i x y Hx Hi Hu Hyu) as Hij. rewrite Hij in Hx by congruence. congruence. }
  destruct (Z.to_nat m) as [|m'] eqn:Em; [exfalso; assert (5 <= k) by (apply H5; lia); lia|].
  unfold build_announce. cbn [an_routes]. destruct (rt_slots (ro_routes (n_router n))) as [|z l]; [done|].
  injection Hx as ->. rewrite filter_cons, Hu. simpl. rewrite Hd, Hn, Hco, Hh. by left.
Qed.

(** A node that may meet [from]: it can pair with it, signs its beacons and is in
    its own announce; [from] is not rated yet, and known only as its own next hop. *)
Record contact (from : NodeId) (n : Node) : Prop := {
  co_pair : pairable from n;
  co_self : self_first (ro_routes (n_router n));
  co_signs : n_key n ≠ None;
  co_unrated : ∀ m, nt_get from (ro_neighbors (n_router n)) = Some m → nb_q_tx m = Q_UNKNOWN;
  co_way : ∀ x, rt_get from (ro_routes (n_router n)) = Some x → r_next_hop x = from }.

(** A node whose beacons tell others of it. *)
Definition speaks (n : Node) : Prop :=
  node_ok n ∧ keyed n ∧ is_u16 (n_beacon_seq n) ∧ self_first (ro_routes (n_router n)) ∧ n_key n ≠ None.
Lemma contact_speaks from n : contact from n → speaks n.
Proof. intros [[]]. by split_and!. Qed.

(** How full the tables are. *)
Definition room (k r : Z) (n : Node) : Prop :=
  nt_count (ro_neighbors (n_router n)) <= k ∧ rt_count (ro_routes (n_router n)) <= r.

Lemma relax_fold_count me from lc now vs t : rt_count (fold_left (relax me from lc now) vs t) <= rt_count t + zlen vs.
Proof.
  revert t. induction vs as [|v vs IH]; intros t; simpl; [rewrite zlen_nil; lia|]. rewrite zlen_cons.
  etrans; [apply IH|]. pose proof (relax_count me from lc now t v). lia.
Qed.
Lemma on_beacon_rt_count me from q a now r : router_ok me r →
  rt_count (ro_routes (on_beacon from q a now r)) <= rt_count (ro_routes r) + zlen (an_routes a).
Proof.
  intros Hok. pose proof (zlen_nonneg (an_routes a)). unfold on_beacon. case_match; [lia|]. case_match; [lia|]. cbn [ro_routes].
  pose proof (set_self_count now _ (ok_rt _ _ Hok)) as Hc. rewrite (ok_self _ _ Hok), <- (ok_id _ _ Hok) in Hc.
  rewrite <- Hc. apply relax_fold_count.
Qed.

(** The route to the sender itself, after its beacon. *)
Lemma on_beacon_self_route me from q a now r m : router_ok me r → from ≠ me → from ∉ ro_blocked r →
  mkAdv from from self_cost 0 ∈ an_routes a → NoDup (adv_dst <$> an_routes a) →
  rt_count (ro_routes r) + zlen (an_routes a) <= 64 →
  (∀ x, rt_get from (ro_routes r) = Some x → r_next_hop x = from) →
  nt_get from (ro_neighbors (on_beacon from q a now r)) = Some m → fresh_quality (nb_q_tx m) →
  ∃ x, rt_get from (ro_routes (on_beacon from q a now r)) = Some x ∧ r_next_hop x = from.
Proof.
  intros Hok Hne Hb Hin Hnd Hroom Hway Hm Hq. revert Hm. unfold on_beacon. rewrite (ok_id _ _ Hok).
  rewrite (proj2 (nid_eqb_neq _ _) Hne), (proj2 (is_blocked_false _ _) Hb). cbn [ro_neighbors ro_routes]. intros Hm.
  rewrite (tx_cost_of _ _ _ Hm).
  pose proof (set_self_ok now _ (ok_rt _ _ Hok)) as Hsok. pose proof (set_self_abs now _ (ok_rt _ _ Hok)) as Habs.
  pose proof (set_self_count now _ (ok_rt _ _ Hok)) as Hc. rewrite (ok_self _ _ Hok) in Hsok, Habs, Hc.
  eexists. split; [apply (relax_fold_takes _ _ _ _ _ _ (mkAdv from from self_cost 0) Hsok (set_self_self _ _ _) Hnd); [by rewrite Hc|exact Hin|]|done].
  split; [exact Hne|]. split; [exact Hne|]. split; [by vm_compute|]. split; [by apply fresh_cost|].
  intros x. rewrite rt_get_abs, Habs, lookup_insert_ne by (simpl; congruence). rewrite <- rt_get_abs. intros Hx. left. by apply Hway.
Qed.

(** One beacon: what the receiver gained. *)
Record met (t : Z) (A B B' : Node) : Prop := {
  me_id : n_id B' = n_id B;
  me_same : untouched B B';
  me_pair : pairable (n_id A) B';
  me_self : self_first (ro_routes (n_router B'));
  me_signs : n_key B' ≠ None;
  me_nbrs : nt_count (ro_neighbors (n_router B')) <= nt_count (ro_neighbors (n_router B)) + 1;
  me_routes : rt_count (ro_routes (n_router B')) <= rt_count (ro_routes (n_router B)) + 3;
  me_way : ∃ x, rt_get (n_id A) (ro_routes (n_router B')) = Some x ∧ r_next_hop x = n_id A;
  me_entry : ∃ m, nt_get (n_id A) (ro_neighbors (n_router B')) = Some m ∧
      (∀ m0, nt_get (n_id A) (ro_neighbors (n_router B)) = Some m0 → nb_my_alias m = nb_my_alias m0) ∧
      (∀ b, nt_get (n_id B) (ro_neighbors (n_router A)) = Some b → nb_their_alias m = nb_my_alias b) ∧
      (nt_get (n_id B) (ro_neighbors (n_router A)) = None → nb_q_tx m = Q_UNKNOWN) }.

Lemma told_reports_quant n p : p ∈ an_reports (told n) → ∃ p0, p = quant_report p0.
Proof. unfold told, carried. cbn [an_reports]. intros (p0 & -> & _)%list_elem_of_fmap. by exists p0. Qed.

Lemma meet e rssi snr t A B : speaks A → contact (n_id A) B → room 4 61 A → room 31 61 B → ffinite snr = true →
  ∃ B', hear_beacon fw_version e rssi snr t A B = Ok B' ∧ met t A B B'.
Proof.
  intros (HA & HkA & HsA & HfA & HgA) [[HB HkB HsB Hne Hop] HfB HgB Hun Hway] [HnA _] [HnB HrB] Hsnr.
  destruct (on_rx_beacon fw_version e t 0 rssi snr t A B HA HB HsA Hne HkA Hsnr)
    as (B' & Hrx & HB' & Hid & Hr & Hk & Hs & Hsane & Hsame).
  exists B'. split; [exact Hrx|]. pose proof (nok_router B HB) as HokB. pose proof (nok_router A HA) as HokA.
  assert (in_q (quality_from_rf snr rssi)) as Hq by (by apply quality_from_rf_in_q).
  destruct (told_self A HokA HfA HgA HnA) as [Hin Hz].
  destruct (on_beacon_entry (n_id B) (n_id A) _ (told A) t (n_router B) HokB Hne Hop Hq Hsane ltac:(lia)) as (m & Hm & Hmy & Hth & Htx).
  destruct (told_reports (n_id A) A HokA ltac:(lia)) as [Hr1 Hr2].
  assert (match nt_get (n_id A) (ro_neighbors (n_router B)) with Some e0 => nb_q_tx e0 | None => Q_UNKNOWN end = Q_UNKNOWN) as Hq0
    by (destruct (nt_get _ _) as [m0|] eqn:E; [by apply Hun|done]).
  cbv zeta in Htx. rewrite Hq0 in Htx.
  split; [done|done| | | | | | |].
  - split; [done| |by rewrite Hs|by rewrite Hid|by rewrite Hr, on_beacon_blocked].
    intros sk pk. rewrite Hk. apply HkB.
  - rewrite Hr. by apply (self_first_on_beacon (n_id B)).
  - by rewrite Hk.
  - rewrite Hr. by apply (on_beacon_count (n_id B)).
  - rewrite Hr. pose proof (on_beacon_rt_count (n_id B) (n_id A) (quality_from_rf snr rssi) (told A) t _ HokB). lia.
  - rewrite Hr. apply (on_beacon_self_route (n_id B) (n_id A) _ _ _ _ m); try done; [by apply (told_nodup (n_id A))|lia|].
    destruct Htx as [[-> _]|(p & Hp & _ & ->)]; [by left|right].
    destruct (told_reports_quant A p Hp) as [p0 ->]. by exists p0.
  - rewrite Hr. exists m. split; [exact Hm|]. split; [intros m0 Hm0; by rewrite Hm0 in Hmy|]. split.
    + intros b Hb. apply Hth.
      * destruct (Hr2 _ _ Hb) as (p & Hp & Hpid). by exists p.
      * intros p Hp Hpid. destruct (Hr1 p Hp) as (b' & Hb' & ->). congruence.
    + intros Hno. destruct Htx as [[-> _]|(p & Hp & Hpid & _)]; [done|].
      destruct (Hr1 p Hp) as (b' & Hb' & _). congruence.
Qed.

Lemma met_contact t A B B' : met t A B B' → nt_get (n_id B) (ro_neighbors (n_router A)) = None → contact (n_id A) B'.
Proof.
  intros Hm Hno. destruct (me_entry _ _ _ _ Hm) as (m & Hg & _ & _ & Hq). destruct (me_way _ _ _ _ Hm) as (x & Hx & Hn).
  split; [apply Hm|apply Hm|apply Hm| |].
  - intros m' Hm'. rewrite Hg in Hm'. injection Hm' as <-. by apply Hq.
  - intros x' Hx'. congruence.
Qed.
Lemma met_speaks t A B B' : met t A B B' → speaks B'.
Proof. intros Hm. destruct (me_pair _ _ _ _ Hm). split_and!; try done; apply Hm. Qed.

(** Three beacons between strangers. *)
Lemma three_beacons e rssi snr t0 t1 t2 A B : contact (n_id B) A → contact (n_id A) B →
  nt_get (n_id B) (ro_neighbors (n_router A)) = None → room 3 55 A → room 3 55 B → ffinite snr = true →
  ∃ B1 A1 B2 a b, hear_beacon fw_version e rssi snr t0 A B = Ok B1 ∧ hear_beacon fw_version e rssi snr t1 B1 A = Ok A1 ∧
    hear_beacon fw_version e rssi snr t2 A1 B1 = Ok B2 ∧
    n_id A1 = n_id A ∧ n_id B2 = n_id B ∧ untouched A A1 ∧ untouched B B2 ∧ node_ok A1 ∧ node_ok B2 ∧
    entry_of (n_id B) a b A1 ∧ entry_of (n_id A) b a B2 ∧
    next_hop (n_id B) (n_router A1) = n_id B ∧ next_hop (n_id A) (n_router B2) = n_id A.
Proof.
  intros HA HB HnoA [HA1 HA2] [HB1 HB2] Hsnr.
  destruct (meet e rssi snr t0 A B) as (B1 & W1 & M1); try done; [by eapply contact_speaks|split; lia..|].
  pose proof (me_id _ _ _ _ M1) as Hid1. pose proof (me_nbrs _ _ _ _ M1). pose proof (me_routes _ _ _ _ M1).
  destruct (meet e rssi snr t1 B1 A) as (A1 & W2 & M2); try done; [by eapply met_speaks|by rewrite Hid1|split; lia..|].
  pose proof (me_id _ _ _ _ M2) as Hid2. pose proof (me_nbrs _ _ _ _ M2). pose proof (me_routes _ _ _ _ M2).
  destruct (meet e rssi snr t2 A1 B1) as (B2 & W3 & M3); try done;
    [by eapply met_speaks|rewrite Hid2; by eapply met_contact|split; lia..|].
  pose proof (me_id _ _ _ _ M3) as Hid3.
  destruct (me_entry _ _ _ _ M1) as (m1 & Hm1 & _). destruct (me_entry _ _ _ _ M2) as (m2 & Hm2 & _ & Hth2 & _).
  destruct (me_entry _ _ _ _ M3) as (m3 & Hm3 & Hmy3 & Hth3 & _).
  destruct (me_way _ _ _ _ M2) as (x2 & Hx2 & Hn2). destruct (me_way _ _ _ _ M3) as (x3 & Hx3 & Hn3).
  rewrite Hid1 in *. rewrite Hid2 in *. exists B1, A1, B2, (nb_my_alias m2), (nb_my_alias m1).
  split; [done|]. split; [done|]. split; [done|]. split; [done|]. split; [by rewrite Hid3|]. split; [apply M2|]. split.
  { destruct (me_same _ _ _ _ M1) as (E1 & E2 & E3 & E4 & E5), (me_same _ _ _ _ M3) as (F1 & F2 & F3 & F4 & F5).
    split_and!; congruence. }
  split; [apply (pa_ok _ _ (me_pair _ _ _ _ M2))|]. split; [apply (pa_ok _ _ (me_pair _ _ _ _ M3))|]. split; [|split; [|split]].
  - exists m2. split; [done|]. split; [done|]. by apply Hth2.
  - exists m3. split; [done|]. split; [by apply Hmy3|]. by apply Hth3.
  - unfold next_hop, rt_next_hop. by rewrite Hx2.
  - unfold next_hop, rt_next_hop. by rewrite Hx3.
Qed.
(** ** The first payload *)

(** The host of [X] hands it the payload [p] for [Y], which is in range: [Y]'s
    host gets it in its envelope, and neither node waits for anything. *)
Definition carries (e : ChipEnv) (now : Z) (rssi snr : f32) (p : bytes) (X Y : Node) : Prop :=
  let X' := tunnel_send now (n_id Y) p X in
  ∃ f X'' Y'', txq_list (n_txq X') = [f] ∧ travel fw_version e now rssi snr f X' [Y] = Ok [X''; Y''] ∧
    n_host Y'' = n_host Y ++ [ToHost (hdlc_write (tunnel_envelope (n_id X) p))] ∧ n_host X'' = n_host X ∧
    pending_count (n_arq X'') = 0 ∧ pending_count (n_arq Y'') = 0.

(** A node with nothing to send and a host attached. *)
Record idle (n : Node) : Prop := {
  id_queue : txq_repr (n_txq n) [];
  id_arq : pending_count (n_arq n) = 0;
  id_zero : is_zero (n_id n) = false;
  id_cast : n_id n ≠ NODE_ID_BROADCAST;
  id_me : fw_me (n_fwd n) = n_id n;
  id_host : host_attached n }.
(** [Y] has not seen the packet [X] will send next. *)
Definition unseen (X Y : Node) : Prop := (seen_or_insert (n_id X) (n_data_seq X) (n_fwd Y)).2 = false.

Lemma idle_untouched n n' : untouched n n' → n_id n' = n_id n → idle n → idle n'.
Proof.
  intros (E1 & E2 & E3 & E4 & _) Hid [Hq Ha Hz Hc Hm [Hh1 Hh2]]. split; rewrite ?E1, ?E2, ?E3, ?Hid; try done.
  unfold host_attached, host_tunnel_active in *. by rewrite E4.
Qed.
Lemma unseen_untouched X X' Y Y' : untouched X X' → untouched Y Y' → n_id X' = n_id X → unseen X Y → unseen X' Y'.
Proof. intros (_ & _ & _ & _ & E1) (_ & _ & E2 & _) Hid. unfold unseen. by rewrite E1, E2, Hid. Qed.

Lemma one_hop e now rssi snr p X Y a b : node_ok X → node_ok Y → idle X → idle Y → unseen X Y → n_id X ≠ n_id Y →
  deliverable p → next_hop (n_id Y) (n_router X) = n_id Y → linked X Y a b → carries e now rssi snr p X Y.
Proof.
  intros HX HY IX IY Hun Hne Hp Hnh Hl. unfold carries.
  assert (ready (n_id X) (n_data_seq X) Y) as Hrd by (split; try apply IY; done).
  destruct (unicast_way fw_version e now rssi snr (n_id Y) p X [Y]) as (f & res & Hq & Ht & Hlen & Hall); try done.
  all: try apply IX; try apply IY.
  - apply (nok_id Y HY).
  - split; [done|]. split; [done|]. split; [done|]. split; [by exists a, b|done].
  - by constructor.
  - intros n [= <-]. apply IY.
  - destruct res as [|X'' [|Y'' [|]]]; try done. exists f, X'', Y''.
    destruct (Hall 0%nat X X'') as [Ha1 Hh1]; [done|done|]. destruct (Hall 1%nat Y Y'') as [Ha2 Hh2]; [done|done|].
    rewrite bool_decide_eq_false_2 in Hh1 by done. rewrite bool_decide_eq_true_2 in Hh2 by done. rewrite app_nil_r in Hh1.
    by split_and!.
Qed.

(** C4: strangers in range can talk after three beacons. Two nodes that sign
    their beacons, have at most three other neighbours each and room for routes,
    have never heard of each other and do not block each other, hear a beacon of
    [A], then one of [B], then another of [A], however well they are received.
    If both are idle with a host attached, a payload of at most 214 bytes (not
    itself a transfer message) that either host then hands its node for the other
    is sent, acknowledged on the link, and delivered to the other host in its
    envelope under the sender's id; no retry engine waits for anything, and the
    sender's host hears nothing. *)
Theorem strangers_talk (e : ChipEnv) (now t0 t1 t2 : Z) (rssi snr : f32) (p : bytes) (A B : Node)
    (HA : contact (n_id B) A) (HB : contact (n_id A) B)
    (HnoA : nt_get (n_id B) (ro_neighbors (n_router A)) = None)
    (HrA : room 3 55 A) (HrB : room 3 55 B) (Hsnr : ffinite snr = true)
    (IA : idle A) (IB : idle B) (HAB : unseen A B) (HBA : unseen B A) (Hp : deliverable p) :
  ∃ B1 A1 B2, hear_beacon fw_version e rssi snr t0 A B = Ok B1 ∧ hear_beacon fw_version e rssi snr t1 B1 A = Ok A1 ∧
    hear_beacon fw_version e rssi snr t2 A1 B1 = Ok B2 ∧
    carries e now rssi snr p A1 B2 ∧ carries e now rssi snr p B2 A1.
Proof.
  destruct (three_beacons e rssi snr t0 t1 t2 A B HA HB HnoA HrA HrB Hsnr) as
    (B1 & A1 & B2 & a & b & W0 & W1 & W2 & EA & EB & UA & UB & HA1 & HB2 & La & Lb & NA & NB).
  exists B1, A1, B2. split; [done|]. split; [done|]. split; [done|].
  pose proof (pa_other _ _ (co_pair _ _ HA)) as Hne.
  pose proof (idle_untouched _ _ UA EA IA) as IA1. pose proof (idle_untouched _ _ UB EB IB) as IB2.
  rewrite <- EB in La, NA. rewrite <- EA in Lb, NB. split.
  - apply (one_hop e now rssi snr p A1 B2 a b); try done; [by apply (unseen_untouched A A1 B B2)|by rewrite EA, EB].
  - apply (one_hop e now rssi snr p B2 A1 b a); try done; [by apply (unseen_untouched B B2 A A1)|by rewrite EA, EB].
Qed.
End contact.

(** Two nodes just booted, each with its key pair and a host. *)
Definition booted_ex (k : Z) : Node :=
  tunnel_on (Node_new (@nid_from_pubkey toy_crypto (@ed25519_public toy_crypto [k])) (Some ([k], @ed25519_public toy_crypto [k])) RadioHal_new 0 None None).
Definition alice_ex : Node := booted_ex 7.
Definition bob_ex : Node := booted_ex 8.

Lemma booted_ok k from : is_u8 k → from ≠ n_id (booted_ex k) →
  nt_get from (ro_neighbors (n_router (booted_ex k))) = None → rt_get from (ro_routes (n_router (booted_ex k))) = None →
  @contact toy_crypto from (booted_ex k).
Proof.
  intros Hk Hne Hn Hr. split; [split|..]; try done.
  - assert (node_ok (Node_new (@nid_from_pubkey toy_crypto (@ed25519_public toy_crypto [k])) (Some ([k], @ed25519_public toy_crypto [k]))
      RadioHal_new 0 None None)) as Hok.
    { apply Node_new_ok; [|apply hal_new_ok|].
      - split; [done|]. simpl. constructor; [apply toy_sum_range|]. apply Forall_replicate. zlia.
      - by intros sk pk [= <- <-]. }
    apply node_ok_tun; [done|]. pose proof (nok_tun _ Hok) as [(l & [? ?] & ?) ?]. split; [|done]. exists l. split; [by split|done].
  - by intros sk pk [= <- <-].
  - by apply not_elem_of_nil.
  - eexists. split; [done|]. by split.
  - intros x Hx. pose proof (eq_trans (eq_sym Hr) Hx). done.
Qed.

Example strangers_talk_witness :
  let p := [104; 105] in
  @contact toy_crypto (n_id bob_ex) alice_ex ∧ @contact toy_crypto (n_id alice_ex) bob_ex ∧ idle alice_ex ∧ idle bob_ex ∧
  ∃ B1 A1 B2, @hear_beacon toy_crypto [50; 0] env_quiet (f32_of_Z (-80)) (f32_of_Z 9) 100 alice_ex bob_ex = Ok B1 ∧
    @hear_beacon toy_crypto [50; 0] env_quiet (f32_of_Z (-80)) (f32_of_Z 9) 200 B1 alice_ex = Ok A1 ∧
    @hear_beacon toy_crypto [50; 0] env_quiet (f32_of_Z (-80)) (f32_of_Z 9) 300 A1 B1 = Ok B2 ∧
    @carries toy_crypto [50; 0] env_quiet 400 (f32_of_Z (-80)) (f32_of_Z 9) p A1 B2 ∧
    @carries toy_crypto [50; 0] env_quiet 400 (f32_of_Z (-80)) (f32_of_Z 9) p B2 A1.
Proof.
  intros p.
  assert (@contact toy_crypto (n_id bob_ex) alice_ex) as HA by (apply booted_ok; [zlia| | |]; by vm_compute).
  assert (@contact toy_crypto (n_id alice_ex) bob_ex) as HB by (apply booted_ok; [zlia| | |]; by vm_compute).
  assert (∀ k, k = 7 ∨ k = 8 → idle (booted_ex k)) as Hidle.
  { intros k Hk. split; [apply txq_init_repr|done| | |done|by split]; destruct Hk as [-> | ->]; by vm_compute. }
  assert (idle alice_ex) as IA by (apply Hidle; by left). assert (idle bob_ex) as IB by (apply Hidle; by right).
  assert (room 3 55 alice_ex ∧ room 3 55 bob_ex) as [HrA HrB] by (by vm_compute).
  assert (ffinite (f32_of_Z 9) = true) as Hsnr by (by vm_compute).
  assert (unseen alice_ex bob_ex ∧ unseen bob_ex alice_ex) as [HAB HBA] by (split; by vm_compute).
  assert (deliverable p) as Hp by (split; [by vm_compute|done]).
  split; [exact HA|]. split; [exact HB|]. split; [exact IA|]. split; [exact IB|].
  apply (@strangers_talk toy_crypto toy_laws [50; 0] env_quiet 400 100 200 300 (f32_of_Z (-80)) (f32_of_Z 9) p alice_ex bob_ex
    HA HB eq_refl HrA HrB Hsnr IA IB HAB HBA Hp).
Defined.
