(* ===== verification/Loop.v ===== *)
(** src/main.cpp, [agn_loop_once]: one pass over everything the firmware does by
    itself, in the order of the code. The watchdog, the heartbeat line and the
    LED are left out; the bytes of the two consoles are handled in [Console]. *)
From S2P Require Import Prelude Update Reader SlotTable Float32 MeshTypes NeighborTable RoutingTable Router RouterWf Crypto Forwarder LinkArq Packet LocatorDir RadioHal TxQueue Cadence Node Transmit NodeOk LocService TelemService CtrlPlane SarSession Rx.

Definition TICK_PERIOD_MS : Z := 5000.
Definition ARQ_TICK_MS : Z := 250.
Definition BATT_READ_MS : Z := 60000.
Definition BEACON_DEFER_MS : Z := 2000.

(** What the outside answers during one pass. Time goes on while a pass runs, so
    every stage reads its own clock; the radio driver likewise. *)
Record LoopEnv := mkLoopEnv {
  le_now : nat → Z;            (* millis(), at the k-th stage *)
  le_micros : nat → Z;         (* micros() *)
  le_random : nat → Z → Z → Z; (* random(lo, hi) *)
  le_chip : nat → ChipEnv;     (* the radio driver *)
  le_raw : Z }.                (* batt_raw() *)

(** [next_batt_ms] is a static of the function itself. *)
Record LoopSt := mkLoop { lp_node : Node; lp_next_batt_ms : Z }.

Section loop.
Context `{Crypto}.
Variable (fw_version : bytes).

Definition loop_batt (now raw : Z) (s : LoopSt) : LoopSt :=
  if due now (lp_next_batt_ms s)
  then mkLoop ((lp_node s) <| n_tel ::= batt_refresh raw |>) (u32 (now + BATT_READ_MS)) else s.

(** [radio.poll()]: a received frame is handled before the receiver is re-armed. *)
Definition loop_radio (e : ChipEnv) (now rnd : Z) (n : Node) : res Node :=
  let '(h, ops, p) := poll_begin e now (n_radio n) in
  let n := log_ops ops (n <| n_radio := h |>) in
  n ← match p with
      | Received buf rssi snr => on_rx fw_version e now rnd buf rssi snr n
      | _ => Ok n
      end;
  let '(h, ops) := poll_end p (n_radio n) in
  Ok (log_ops ops (n <| n_radio := h |>)).

Definition loop_pump (e : ChipEnv) (n : Node) : Node :=
  let '(q, h, ops) := txq_pump e (n_radio n) (n_txq n) in
  log_ops ops (n <| n_txq := q |> <| n_radio := h |>).

(** A transfer in either direction keeps beacons off the air. *)
Definition beacons_hushed (now : Z) (n : Node) : bool :=
  sar_sending (n_sartx n) || (i32 (now - tm_sar_quiet_until (n_timers n)) <? 0).
Definition next_beacon_at (t : Z) (n : Node) : Node := n <| n_timers ::= λ x, x <| tm_next_beacon_ms := t |> |>.
Definition loop_beacon (random_ : Z → Z → Z) (now : Z) (n : Node) : Node :=
  if due now (tm_next_beacon_ms (n_timers n)) then
    if beacons_hushed now n then next_beacon_at (u32 (now + BEACON_DEFER_MS)) n
    else
      let n := send_beacon now n in
      next_beacon_at (schedule_next_beacon random_ now (tm_net_beacon_cfg (n_timers n)) (rc_sf (rh_cfg (n_radio n)))) n
  else n.

Definition loop_arq (now : Z) (n : Node) : Node :=
  if due now (tm_next_arq_ms (n_timers n)) then
    let '(a, frames, _) := arq_tick now (n_arq n) in
    let n := fold_left (λ n f, arq_resend f n) frames (n <| n_arq := a |>) in
    n <| n_timers ::= λ x, x <| tm_next_arq_ms := u32 (now + ARQ_TICK_MS) |> |>
  else n.

Definition loop_tick (now : Z) (n : Node) : Node :=
  if due now (tm_next_tick_ms (n_timers n)) then
    let cfg := tm_net_beacon_cfg (n_timers n) in
    let sf := rc_sf (rh_cfg (n_radio n)) in
    let n := n <| n_router ::= tick now (neighbor_timeout_ms cfg sf) (route_timeout_ms cfg sf) |> in
    n <| n_timers ::= λ x, x <| tm_next_tick_ms := u32 (now + TICK_PERIOD_MS) |> |>
  else n.

Definition loop_sar (now rnd : Z) (n : Node) : Node :=
  tun_queue_tick now (sar_rx_tick now rnd (sar_tx_tick now n)).

Definition loop_loc (now micros : Z) (n : Node) : Node :=
  let n := n <| n_loc ::= λ l, l <| lo_res ::= λ r, (loc_tick now r).1 |> |> in
  if due now (lo_next_rereg_ms (n_loc n)) then
    let n := loc_register_all now micros n in
    n <| n_loc ::= λ l, l <| lo_next_rereg_ms := u32 (now + LOC_REREG_MS) |> |>
  else n.

Definition loop_telem (random_ : Z → Z → Z) (now : Z) (n : Node) : Node :=
  let n := if te_next_batt_flood_ms (n_tel n) =? 0
           then n <| n_tel ::= λ t, t <| te_next_batt_flood_ms := u32 (now + 120000) |> |> else n in
  if fgt (te_batt_scale (n_tel n)) f0 && due now (te_next_batt_flood_ms (n_tel n)) then
    let n := telem_flood_batt now n in
    n <| n_tel ::= λ t, t <| te_next_batt_flood_ms := u32 (now + TELEM_BATT_PERIOD_MS + u32 (random_ 0 1800000)) |> |>
  else n.

Definition loop_ctrl (e : ChipEnv) (now : Z) (n : Node) : Node :=
  ctrl_heartbeat_sweep e now (ctrl_blk_sweep now (ctrl_revert_tick e now n)).

Definition loop_burst (random_ : Z → Z → Z) (now micros : Z) (n : Node) : Node :=
  if negb (lo_burst_left (n_loc n) =? 0) && due now (lo_burst_ms (n_loc n)) then
    let n := loc_register_all now micros n in
    n <| n_loc ::= λ l, l <| lo_burst_left := u8 (lo_burst_left l - 1) |>
                          <| lo_burst_ms := u32 (now + 5000 + u32 (random_ 0 5000)) |> |>
  else n.

(** [reboot_at && (int32_t)(millis() - reboot_at) >= 0] *)
Definition reboot_due (now : Z) (n : Node) : bool :=
  negb (cs_reboot_at (n_ctrl n) =? 0) && due now (cs_reboot_at (n_ctrl n)).

(** The pass; [true] when it ended in [node_reboot]. *)
Definition agn_loop_once (e : LoopEnv) (s : LoopSt) : res (LoopSt * bool) :=
  let s := loop_batt (le_now e 0) (le_raw e) s in
  n ← loop_radio (le_chip e 1) (le_now e 1) (le_random e 1 0 2000) (lp_node s);
  let n := loop_pump (le_chip e 2) n in
  let n := loop_beacon (le_random e 3) (le_now e 3) n in
  let n := loop_arq (le_now e 4) n in
  let n := loop_tick (le_now e 5) n in
  let n := loop_sar (le_now e 6) (le_random e 6 0 2000) n in
  let n := loop_loc (le_now e 7) (le_micros e 7) n in
  let n := loop_telem (le_random e 8) (le_now e 8) n in
  let n := loop_ctrl (le_chip e 9) (le_now e 9) n in
  let n := loop_burst (le_random e 10) (le_now e 10) (le_micros e 10) n in
  Ok (mkLoop n (lp_next_batt_ms s), reboot_due (le_now e 11) n).

End loop.

(** ** Every stage keeps the invariant *)

Section loop_ok.
Context `{Laws : CryptoLaws}.
Variable (fw_version : bytes).

(** What RadioLib documents: a read fills at most the bytes asked for, lengths
    are not negative, a signal-to-noise ratio is a number. *)
Record chip_ok (e : ChipEnv) : Prop := {
  chk_len : 0 <= ce_len e;
  chk_data len : 0 <= len → wf_bytes (ce_data e len).2 ∧ zlen (ce_data e len).2 <= len;
  chk_snr : ffinite (ce_snr e) = true }.
Definition env_ok (e : LoopEnv) : Prop := ∀ k, chip_ok (le_chip e k).

Lemma poll_begin_ok e now h : hal_ok h → chip_ok e → let '(h', _, p) := poll_begin e now h in
  hal_ok h' ∧ match p with
    | Received buf rssi snr => wf_bytes buf ∧ zlen buf <= RADIO_MAX_FRAME ∧ ffinite snr = true
    | _ => True
    end.
Proof.
  intros Hh [Hlen Hdata Hsnr]. pose proof (poll_moves e now h Hh) as Hm. unfold poll in Hm.
  destruct (poll_begin e now h) as [[h' ops] p] eqn:Hp.
  assert (match p with Nothing | Serviced => True | _ => hal_ok h' end ∧
    match p with Received buf _ snr => wf_bytes buf ∧ zlen buf <= RADIO_MAX_FRAME ∧ ffinite snr = true | _ => True end) as [H1 H2].
  { revert Hp. unfold poll_begin. clear Hm.
    set (r := if bool_decide (rh_state h = RX) && _ && _ && _ then _ else _). destruct r as [h1 ops1] eqn:Hr.
    assert (rh_dio1 h1 = true → h1 = h) as Hsame.
    { subst r. intros Hd. case_match eqn:Hb; [|by injection Hr]. bools. rename select (0 < _) into Hpend.
      apply Z.ltb_lt, zlen_pos_iff in Hpend. pose proof (start_cad_spec e h Hpend) as Hs. rewrite Hr in Hs. destruct Hs as (_ & Hs & _).
      congruence. }
    clear r Hr. destruct (rh_dio1 h1) eqn:Hd; simpl; [|by intros [= <- <- <-]]. rewrite (Hsame eq_refl). clear Hsame Hd.
    destruct (rh_state h) eqn:Hst.
    - set (len := if RADIO_MAX_FRAME <? ce_len e then RADIO_MAX_FRAME else ce_len e).
      assert (0 <= len <= RADIO_MAX_FRAME) as Hl.
      { unfold len. destruct (Z.ltb_spec RADIO_MAX_FRAME (ce_len e)); unfold RADIO_MAX_FRAME in *; lia. }
      destruct (Hdata len) as [Hw Hz]; [lia|]. destruct (ce_data e len) as [st buf]. simpl in Hw, Hz.
      destruct Hh as [A B C D]. case_match; intros [= <- <- <-]; (split; [|split_and?; try done; lia]);
        split; simpl; rewrite ?Hst; done.
    - by intros [= <- <- <-].
    - case_match; [by intros [= <- <- <-]|]. destruct (start_pending_tx _ _) as [h2 ops2]. by intros [= <- <- <-]. }
  split; [|done]. destruct p; try done; simpl in Hm; by destruct Hm.
Qed.
Lemma poll_end_ok p h : hal_ok h → hal_ok (poll_end p h).1.
Proof. intros [A B C D]. destruct p; simpl; try done. all: by split. Qed.

Lemma loop_batt_node now raw s : node_ok (lp_node s) → node_ok (lp_node (loop_batt now raw s)).
Proof.
  intros Hn. unfold loop_batt. case_match; [|done]. simpl. apply node_ok_tel; [done|]. by apply batt_refresh_ok, nok_tel.
Qed.
Lemma loop_radio_node e now rnd n : node_ok n → chip_ok e → safe (loop_radio fw_version e now rnd n) node_ok.
Proof.
  intros Hn He. unfold loop_radio. pose proof (poll_begin_ok e now _ (tk_radio n (nok_tx n Hn)) He) as Hp.
  destruct (poll_begin e now (n_radio n)) as [[h ops] p]. destruct Hp as [Hh Hp].
  set (n1 := log_ops ops _). assert (node_ok n1) as H1 by (by apply node_ok_ops, node_ok_radio).
  apply safe_bind. eapply (safe_mono _ node_ok).
  { destruct p; try done. destruct Hp as (Hw & Hz & Hq). by apply on_rx_node. }
  intros n2 H2. pose proof (poll_end_ok p _ (tk_radio n2 (nok_tx n2 H2))) as Hh2.
  destruct (poll_end p (n_radio n2)) as [h2 ops2]. by apply safe_ok, node_ok_ops, node_ok_radio.
Qed.
Lemma loop_pump_node e n : node_ok n → node_ok (loop_pump e n).
Proof.
  intros Hn. unfold loop_pump. destruct (nok_tx n Hn) as [(l & Hq & Hl) Hr Ha Hf].
  pose proof (txq_pump_repr e (n_radio n) (n_txq n) l Hq) as Hp.
  destruct (txq_pump e (n_radio n) (n_txq n)) as [[q h] ops].
  assert ((∃ l', txq_repr q l' ∧ Forall frame_fits l') ∧ hal_ok h) as [Hq' Hh].
  { destruct Hp as [[Hp [= -> ->]]|(f & l' & -> & Hp & Hs)]; [eauto|]. apply Forall_cons in Hl as [_ Hl].
    split; [eauto|]. pose proof (send_moves e f (n_radio n) Hr) as Hm. rewrite Hs in Hm. apply Hm. }
  apply node_ok_ops. destruct Hn. split; done.
Qed.
Lemma loop_beacon_node rnd now n : node_ok n → node_ok (loop_beacon rnd now n).
Proof.
  intros Hn. unfold loop_beacon, next_beacon_at. case_match; [|done]. case_match; apply node_ok_timers; [done|].
  unfold send_beacon.
  assert (frame_fits (beacon_frame now n)) as Hf.
  { apply (beacon_frame_fits (n_id n)); [apply (nok_router n Hn)|apply (nok_rwf n Hn)|apply (nok_id n Hn)|apply (nok_key n Hn)]. }
  pose proof (push_node n Hn (beacon_frame now n) Hf) as Hp. unfold push in Hp.
  destruct (txq_push (beacon_frame now n) (n_txq n)) as [q ok] eqn:Hq.
  assert (node_ok (n <| n_txq := q |>)) as Hm1.
  { replace q with (txq_push (beacon_frame now n) (n_txq n)).1 by (by rewrite Hq). exact Hp. }
  case_match; [by apply node_ok_bseq|done].
Qed.
Lemma loop_arq_node now n : node_ok n → node_ok (loop_arq now n).
Proof.
  intros Hn. unfold loop_arq. case_match; [|done]. destruct (nok_tx n Hn) as [_ _ Hl Ha].
  destruct (arq_tick now (n_arq n)) as [[a frames] k] eqn:Ht. apply node_ok_timers.
  assert (length (arq_slots a) = 4%nat ∧ Forall (λ p, pd_used p = true → frame_fits (pd_frame p)) (arq_slots a)
    ∧ Forall frame_fits frames) as (Hl' & Ha' & Hf).
  { unfold arq_tick in Ht. injection Ht as <- <- _. simpl. split; [by rewrite !length_fmap|]. split.
    - apply Forall_fmap, Forall_fmap. eapply Forall_impl; [exact Ha|]. intros p Hp. simpl. unfold tick_slot.
      destruct (pd_used p) eqn:Hu; simpl; [|by rewrite Hu]. specialize (Hp Hu). by repeat case_match.
    - apply Forall_forall. intros f Hin. apply list_elem_of_omap in Hin as (o & Hin & Ho). destruct o; try done.
      injection Ho as ->. apply list_elem_of_fmap in Hin as ([p' o] & Heq & Hin). simpl in Heq. subst o.
      apply list_elem_of_fmap in Hin as (p & Hp & Hin). rewrite Forall_forall in Ha. specialize (Ha p Hin).
      unfold tick_slot in Hp. destruct (pd_used p); simpl in Hp; [|done]. specialize (Ha eq_refl).
      repeat case_match; try done. by injection Hp as _ ->. }
  assert (node_ok (n <| n_arq := a |>)) as H1 by (by apply node_ok_arq). revert H1. generalize (n <| n_arq := a |>).
  clear -Hf. induction Hf as [|f frames Hf _ IH]; intros n Hn; simpl; [done|]. apply IH. by apply push_node.
Qed.
Lemma loop_tick_node now n : node_ok n → node_ok (loop_tick now n).
Proof.
  intros Hn. unfold loop_tick. case_match; [|done]. apply node_ok_timers, node_ok_router; [done|..].
  - by apply tick_ok, nok_router.
  - by apply tick_wf, nok_rwf.
Qed.
Lemma loop_sar_node now rnd n : node_ok n → node_ok (loop_sar now rnd n).
Proof. intros Hn. by apply tun_queue_tick_node, sar_rx_tick_node, sar_tx_tick_node. Qed.
Lemma node_ok_lo (f : Loc → Loc) n : node_ok n → (∀ l, loc_ok l → loc_ok (f l)) → node_ok (n <| n_loc ::= f |>).
Proof. intros Hn Hf. apply node_ok_loc; [done|]. by apply Hf, nok_loc. Qed.
Lemma loop_loc_node now micros n : node_ok n → node_ok (loop_loc now micros n).
Proof.
  intros Hn. unfold loop_loc. set (n1 := n <| n_loc ::= _ |>).
  assert (node_ok n1) as H1.
  { apply (node_ok_lo (λ l, l <| lo_res ::= λ r, (loc_tick now r).1 |>)); [done|]. intros l []. split; simpl; try done. by apply loc_tick_ok. }
  case_match; [|done].
  apply (node_ok_lo (λ l, l <| lo_next_rereg_ms := u32 (now + LOC_REREG_MS) |>)); [by apply loc_register_all_node|]. intros l []. by split.
Qed.
Lemma loop_burst_node rnd now micros n : node_ok n → node_ok (loop_burst rnd now micros n).
Proof.
  intros Hn. unfold loop_burst. case_match; [|done]. set (t := u32 (now + 5000 + _)).
  apply (node_ok_lo (λ l, l <| lo_burst_left := u8 (lo_burst_left l - 1) |> <| lo_burst_ms := t |>));
    [by apply loc_register_all_node|]. intros l []. by split.
Qed.
Lemma loop_telem_node rnd now n : node_ok n → node_ok (loop_telem rnd now n).
Proof.
  intros Hn. unfold loop_telem. set (n1 := if te_next_batt_flood_ms (n_tel n) =? 0 then _ else n).
  assert (∀ n t, node_ok n → node_ok (n <| n_tel ::= λ x, x <| te_next_batt_flood_ms := t |> |>)) as Ht.
  { intros m t Hm. apply node_ok_tel; [done|]. destruct (nok_tel m Hm). by split. }
  assert (node_ok n1) as H1 by (unfold n1; case_match; [by apply Ht|done]).
  case_match; [|done]. by apply Ht, telem_flood_batt_node.
Qed.
Lemma loop_ctrl_node e now n : node_ok n → node_ok (loop_ctrl e now n).
Proof. intros Hn. by apply ctrl_heartbeat_node, ctrl_blk_sweep_node, ctrl_revert_node. Qed.

Lemma agn_loop_once_node e s : node_ok (lp_node s) → env_ok e →
  safe (agn_loop_once fw_version e s) (λ r, node_ok (lp_node r.1)).
Proof.
  intros Hn He. unfold agn_loop_once. apply safe_bind.
  eapply safe_mono; [apply loop_radio_node; [by apply loop_batt_node|apply He]|]. intros n H1. simpl.
  by apply loop_burst_node, loop_ctrl_node, loop_telem_node, loop_loc_node, loop_sar_node, loop_tick_node,
    loop_arq_node, loop_beacon_node, loop_pump_node.
Qed.
Lemma agn_loop_once_ne_rej e s : agn_loop_once fw_version e s ≠ Rej.
Proof.
  unfold agn_loop_once, loop_radio. apply bind_ne_rej; [|done].
  destruct (poll_begin _ _ _) as [[h ops] p]. apply bind_ne_rej; [destruct p; try done; apply on_rx_ne_rej|].
  intros n. by destruct (poll_end _ _).
Qed.
End loop_ok.

(** ** Beacons *)

Section beacons.
Context `{Laws : CryptoLaws}.

Definition node_period (n : Node) : Z := beacon_period_ms (tm_net_beacon_cfg (n_timers n)) (rc_sf (rh_cfg (n_radio n))).

Lemma loop_beacon_sends rnd now n l : node_ok n → txq_repr (n_txq n) l → zlen l < TXQ_DEPTH →
  due now (tm_next_beacon_ms (n_timers n)) = true → beacons_hushed now n = false →
  let n' := loop_beacon rnd now n in
  txq_repr (n_txq n') (l ++ [beacon_frame now n]) ∧
  n_beacon_seq n' = u16 (n_beacon_seq n + 1) ∧
  tm_next_beacon_ms (n_timers n') =
    schedule_next_beacon rnd now (tm_net_beacon_cfg (n_timers n)) (rc_sf (rh_cfg (n_radio n))).
Proof.
  intros Hn Hq Hl Hd Hh n'. unfold n', loop_beacon. rewrite Hd, Hh. unfold send_beacon.
  destruct (beacon_frame_fits (n_id n) now n (nok_router n Hn) (nok_rwf n Hn) (nok_id n Hn) (nok_key n Hn)) as [_ Hf].
  destruct (txq_push_repr (n_txq n) l (beacon_frame now n) Hq) as [Hq' Hok]. unfold spec_push in *.
  rewrite (proj2 (Z.ltb_lt (zlen l) TXQ_DEPTH)) in * by done.
  rewrite (proj2 (Z.leb_le (zlen (beacon_frame now n)) TX_FRAME_MAX)) in *
    by (unfold TX_FRAME_MAX, RADIO_MAX_FRAME in *; lia).
  simpl in Hq', Hok. destruct (txq_push (beacon_frame now n) (n_txq n)) as [q ok]. simpl in Hq', Hok. subst ok. done.
Qed.

(** C23: beacon spacing. The beacon stage of a node that is due, not
    in a transfer and has room queues exactly one beacon and re-arms; until the
    period has passed it then does nothing at all; and whatever happened to the
    node in between, once a period and a quarter has passed (and less than 2^31
    ms), the next pass that is not hushed queues the next beacon. *)
Theorem beacon_cadence (random_ : Z → Z → Z) (t0 t : Z) (n n2 : Node) (l l2 : list bytes)
    (Hn : node_ok n) (Hq : txq_repr (n_txq n) l) (Hl : zlen l < TXQ_DEPTH)
    (Hcfg : period_ok (tm_net_beacon_cfg (n_timers n))) (Hrand : ∀ lo hi, lo < hi → lo <= random_ lo hi < hi)
    (Ht0 : is_u32 t0) (Hdue : due t0 (tm_next_beacon_ms (n_timers n)) = true) (Hcalm : beacons_hushed t0 n = false) :
  let period := node_period n in
  let n1 := loop_beacon random_ t0 n in
  txq_repr (n_txq n1) (l ++ [beacon_frame t0 n]) ∧
  (u32 (t - t0) < period → loop_beacon random_ t n1 = n1) ∧
  (node_ok n2 → tm_next_beacon_ms (n_timers n2) = tm_next_beacon_ms (n_timers n1) →
   period + period / 4 <= u32 (t - t0) < 2147483648 → beacons_hushed t n2 = false →
   txq_repr (n_txq n2) l2 → zlen l2 < TXQ_DEPTH →
   txq_repr (n_txq (loop_beacon random_ t n2)) (l2 ++ [beacon_frame t n2])).
Proof.
  intros period n1. destruct (loop_beacon_sends random_ t0 n l Hn Hq Hl Hdue Hcalm) as (Hq1 & _ & Hnext).
  fold n1 in Hq1, Hnext. split; [done|].
  pose proof (beacon_period_range _ (rc_sf (rh_cfg (n_radio n))) Hcfg) as Hp. fold (node_period n) in Hp. fold period in Hp.
  assert (∃ r, 0 <= r < period / 4 ∧ tm_next_beacon_ms (n_timers n1) = u32 (t0 + (period + r))) as (r & Hr & Hn1).
  { rewrite Hnext. unfold schedule_next_beacon, beacon_jitter_ms. fold (node_period n). fold period.
    assert (0 < period / 4 <= 150000) as Hj by (Z.div_mod_to_equations; lia).
    specialize (Hrand 0 (period / 4) ltac:(lia)). exists (random_ 0 (period / 4)). split; [lia|].
    rewrite (u32_small (random_ _ _)) by zlia. f_equal. lia. }
  assert (period / 4 <= 150000) as Hj by (Z.div_mod_to_equations; lia).
  pose proof (due_after t0 t (period + r) ltac:(lia)) as Hda. rewrite <- Hn1 in Hda. split.
  - intros Hel. unfold loop_beacon. rewrite Hda. by rewrite (proj2 (Z.leb_gt (period + r) (u32 (t - t0)))) by lia.
  - intros Hn2 Hsame Hel Hcalm2 Hq2 Hl2. apply loop_beacon_sends; try done. rewrite Hsame, Hda.
    rewrite (proj2 (Z.leb_le _ _)), (proj2 (Z.ltb_lt _ _)) by lia. done.
Qed.

Fixpoint beacon_run (random_ : Z → Z → Z) (times : list Z) (n : Node) : Node :=
  match times with [] => n | t :: times => beacon_run random_ times (loop_beacon random_ t n) end.

(** C24: a quiet node falls silent for 24.8 days. The hush deadline is
    compared as a signed 32-bit difference and nothing but transfer activity
    refreshes it, so between 2^31 and 2^32 ms after it no pass queues a beacon,
    however long the period has been over. A node that never took part in a
    transfer has the deadline 0: it stops beaconing at 24.8 days of uptime. *)
Theorem beacons_stop_after_24_days (random_ : Z → Z → Z) (times : list Z) (n : Node)
    (Hlate : Forall (λ t, 2147483648 <= u32 (t - tm_sar_quiet_until (n_timers n))) times) :
  let n' := beacon_run random_ times n in
  n_txq n' = n_txq n ∧ n_beacon_seq n' = n_beacon_seq n ∧
  ∀ id key radio now saved rf, tm_sar_quiet_until (n_timers (Node_new id key radio now saved rf)) = 0.
Proof.
  intros n'. unfold n'. clear n'. assert (∀ t m, 2147483648 <= u32 (t - tm_sar_quiet_until (n_timers m)) →
    let m' := loop_beacon random_ t m in n_txq m' = n_txq m ∧ n_beacon_seq m' = n_beacon_seq m ∧
      tm_sar_quiet_until (n_timers m') = tm_sar_quiet_until (n_timers m)) as Hstep.
  { intros t m Ht m'. unfold m', loop_beacon. case_match; [|done].
    assert (beacons_hushed t m = true) as ->; [|done]. unfold beacons_hushed, i32.
    rewrite (proj2 (Z.ltb_ge (u32 _) _) Ht). pose proof (u32_range (t - tm_sar_quiet_until (n_timers m))) as Hu.
    unfold is_u32 in Hu. rewrite (proj2 (Z.ltb_lt (_ - _) 0)) by lia. apply orb_true_r. }
  revert n Hlate. induction times as [|t times IH]; intros n Hlate; simpl; [done|].
  apply Forall_cons in Hlate as [Ht Hlate]. destruct (Hstep t n Ht) as (E1 & E2 & E3).
  destruct (IH (loop_beacon random_ t n)) as (F1 & F2 & _); [by rewrite E3|]. by rewrite F1, F2, E1, E2.
Qed.
End beacons.

Example beacon_cadence_witness :
  node_ok node_ex ∧ node_period node_ex = 10000 ∧
  let n1 := loop_beacon (H := toy_crypto) (λ lo _, lo) 5000 node_ex in
  txq_repr (n_txq n1) [beacon_frame (H := toy_crypto) 5000 node_ex] ∧
  loop_beacon (H := toy_crypto) (λ lo _, lo) 14999 n1 = n1 ∧
  txq_repr (n_txq (loop_beacon (H := toy_crypto) (λ lo _, lo) 17500 (n1 <| n_txq := TxQ_init |>)))
    [beacon_frame (H := toy_crypto) 17500 (n1 <| n_txq := TxQ_init |>)].
Proof.
  assert (node_ok node_ex) as Hn by apply node_ex_ok. split; [exact Hn|]. split; [reflexivity|]. intros n1.
  assert (∀ lo hi : Z, lo < hi → lo <= lo < hi) as Hr by (intros; lia).
  assert (node_ok (n1 <| n_txq := TxQ_init |>)) as Hn2.
  { assert (node_ok n1) as H1 by (by apply (loop_beacon_node (Laws := toy_laws))).
    apply (node_ok_tx n1 H1); [|by destruct n1]. destruct (nok_tx n1 H1). split; try assumption.
    exists []. split; [apply txq_init_repr|constructor]. }
  assert (node_period node_ex = 10000) as Hp by reflexivity.
  assert (zlen (A:=bytes) [] < TXQ_DEPTH) as Hz by reflexivity.
  destruct (beacon_cadence (Laws := toy_laws) (λ lo _, lo) 5000 14999 node_ex node_ex [] [] Hn txq_init_repr Hz
    (or_introl eq_refl) Hr ltac:(zlia) eq_refl eq_refl) as (Hq & Hwait & _).
  destruct (beacon_cadence (Laws := toy_laws) (λ lo _, lo) 5000 17500 node_ex (n1 <| n_txq := TxQ_init |>) [] []
    Hn txq_init_repr Hz (or_introl eq_refl) Hr ltac:(zlia) eq_refl eq_refl) as (_ & _ & Hsend).
  split; [exact Hq|]. split; [apply Hwait; rewrite Hp; reflexivity|].
  apply Hsend; [exact Hn2|reflexivity|rewrite Hp; split; [discriminate|reflexivity]|reflexivity|exact txq_init_repr|exact Hz].
Defined.

Example beacons_stop_after_24_days_witness :
  Forall (λ t, 2147483648 <= u32 (t - tm_sar_quiet_until (n_timers node_ex))) [2147483648; 3000000000; 4294967295] ∧
  n_beacon_seq (beacon_run (H := toy_crypto) (λ lo _, lo) [2147483648; 3000000000; 4294967295] node_ex) = 0 ∧
  due 3000000000 (tm_next_beacon_ms (n_timers (node_ex <| n_timers ::= λ x, x <| tm_next_beacon_ms := 2147480000 |> |>))) = true.
Proof.
  assert (Forall (λ t, 2147483648 <= u32 (t - tm_sar_quiet_until (n_timers node_ex))) [2147483648; 3000000000; 4294967295]) as Hl
    by (repeat constructor; vm_compute; discriminate).
  split; [exact Hl|]. split; [|reflexivity].
  destruct (beacons_stop_after_24_days (H := toy_crypto) (λ lo _, lo) [2147483648; 3000000000; 4294967295] node_ex Hl) as (_ & Hs & _).
  exact Hs.
Defined.
