(* ===== verification/Flash.v ===== *)
(** src/main.cpp, persistence: the eight records the firmware keeps in flash, as
    the bytes written and as what a reboot reads back.

    The file system (LittleFS, behind include/fs_compat.h) is not under src/:
    it is a parameter with the documented behaviour of [remove], [open], [read]
    and [write].  An open for writing may fail; the code then goes on without a
    record. *)
From stdpp Require Import strings.
From S2P Require Import Prelude Update Reader Float32 MeshTypes Crypto NodeTable RadioHal.
From Stdlib Require Import SpecFloat.
#[local] Open Scope Z_scope.

Class FileSystem := {
  fs : Type;
  (* File::open(path, FILE_O_READ), then everything the file holds *)
  fs_read : string → fs → option bytes;
  (* InternalFS.remove(path) *)
  fs_remove : string → fs → fs;
  (* File::open(path, FILE_O_WRITE), write, close; None: the open failed *)
  fs_write : string → bytes → fs → option fs }.
Class FileSystemLaws `{FileSystem} := {
  read_removed p s : fs_read p (fs_remove p s) = None;
  read_remove_ne p q s : p ≠ q → fs_read q (fs_remove p s) = fs_read q s;
  read_written p b s s' : fs_read p s = None → fs_write p b s = Some s' → fs_read p s' = Some b;
  read_write_ne p q b s s' : p ≠ q → fs_write p b s = Some s' → fs_read q s' = fs_read q s }.

(** Key generation, of the vendored library. *)
Class KeyGen := ed25519_key_pair : bytes → bytes * bytes.   (* seed ↦ (secret, public) *)
Class KeyGenLaws `{KeyGen} := {
  key_pair_len seed : zlen (ed25519_key_pair seed).1 = 64 ∧ zlen (ed25519_key_pair seed).2 = 32;
  key_pair_wf seed : wf_bytes (ed25519_key_pair seed).1 ∧ wf_bytes (ed25519_key_pair seed).2 }.

(** ** C strings in fixed buffers *)

(** The characters before the first NUL. *)
Fixpoint cstr (l : bytes) : bytes :=
  match l with c :: l => if c =? 0 then [] else c :: cstr l | [] => [] end.
(** The [n] bytes [strncpy(dst, src, n)] writes. *)
Definition strncpy (n : nat) (src : bytes) : bytes :=
  let c := take n (cstr src) in c ++ replicate (n - length c) 0.

(** ** The bits of a float *)

Definition sign_bit (s : bool) : Z := if s then 2147483648 else 0.
Definition f32_bits (x : f32) : Z :=
  match x with
  | S754_zero s => sign_bit s
  | S754_infinity s => sign_bit s + 2139095040
  | S754_nan => 2143289344
  | S754_finite s m e =>
      sign_bit s + (if Z.pos m <? 8388608 then Z.pos m else (e + 150) * 8388608 + (Z.pos m - 8388608))
  end.
Definition f32_of_bits (b : Z) : f32 :=
  let s := 2147483648 <=? b in
  let r := b mod 2147483648 in
  let ex := r / 8388608 in
  let fr := r mod 8388608 in
  if ex =? 255 then (if fr =? 0 then S754_infinity s else S754_nan)
  else if ex =? 0 then match fr with Zpos m => S754_finite s m (-149) | _ => S754_zero s end
  else match fr + 8388608 with Zpos m => S754_finite s m (ex - 150) | _ => S754_nan end.

Lemma f32_bits_roundtrip x : valid_binary 24 128 x = true → is_u32 (f32_bits x) ∧ f32_of_bits (f32_bits x) = x.
Proof.
  assert (∀ s r, 0 <= r < 2147483648 →
    is_u32 (sign_bit s + r) ∧ (2147483648 <=? sign_bit s + r) = s ∧ (sign_bit s + r) mod 2147483648 = r) as Hs.
  { intros [] r Hr; unfold sign_bit; (split; [zlia|]); (split; [|Z.div_mod_to_equations; lia]);
      [apply Z.leb_le|apply Z.leb_gt]; lia. }
  destruct x as [s|s| |s m e]; intros Hv.
  - destruct (Hs s 0) as (H1 & H2 & H3); [lia|]. rewrite Z.add_0_r in *. split; [done|].
    unfold f32_of_bits. simpl f32_bits. rewrite H2, H3. done.
  - destruct (Hs s 2139095040) as (H1 & H2 & H3); [lia|]. split; [done|].
    unfold f32_of_bits. simpl f32_bits. rewrite H2, H3. done.
  - done.
  - simpl in Hv. unfold bounded, canonical_mantissa in Hv. apply andb_true_iff in Hv as [Hc He].
    apply Z.eqb_eq in Hc. apply Z.leb_le in He. unfold fexp, SpecFloat.emin in Hc. simpl in He.
    assert (Hd : Z.pos m < 2 ^ Z.pos (digits2_pos m) ∧ 2 ^ (Z.pos (digits2_pos m) - 1) <= Z.pos m).
    { clear. induction m as [m [IH1 IH2]|m [IH1 IH2]|]; simpl digits2_pos; rewrite ?Pos2Z.inj_succ; [| |done];
        unfold Z.succ; rewrite Z.pow_add_r, Z.add_simpl_r by lia; change (2 ^ 1) with 2;
        replace (2 ^ Z.pos (digits2_pos m)) with (2 * 2 ^ (Z.pos (digits2_pos m) - 1))
          by (rewrite <- Z.pow_succ_r by lia; f_equal; lia);
        replace (2 ^ Z.pos (digits2_pos m)) with (2 * 2 ^ (Z.pos (digits2_pos m) - 1)) in *
          by (rewrite <- Z.pow_succ_r by lia; f_equal; lia); lia. }
    set (d := Z.pos (digits2_pos m)) in *. cbn [f32_bits].
    destruct (Z.ltb_spec (Z.pos m) 8388608) as [Hlt|Hge].
    + assert (d < 24).
      { destruct (Z.lt_ge_cases d 24) as [|H]; [done|]. pose proof (Z.pow_le_mono_r 2 23 (d - 1)). change (2 ^ 23) with 8388608 in *. lia. }
      assert (e = -149) as -> by lia.
      destruct (Hs s (Z.pos m)) as (H1 & H2 & H3); [lia|]. split; [done|]. unfold f32_of_bits.
      rewrite H2, H3, Z.div_small, Z.mod_small by lia. done.
    + assert (d = 24) as Hd24.
      { destruct (Z.lt_trichotomy d 24) as [H|[|H]]; [|done|lia].
        pose proof (Z.pow_le_mono_r 2 d 23). change (2 ^ 23) with 8388608 in *. lia. }
      rewrite Hd24 in *. change (2 ^ 24) with 16777216 in Hd.
      assert (-149 <= e <= 104) as Hr by lia.
      set (r := (e + 150) * 8388608 + (Z.pos m - 8388608)).
      destruct (Hs s r) as (H1 & H2 & H3); [unfold r; lia|]. split; [done|]. unfold f32_of_bits. rewrite H2, H3.
      assert (r / 8388608 = e + 150 ∧ r mod 8388608 = Z.pos m - 8388608) as [-> ->].
      { unfold r. split; [rewrite Z.div_add_l, Z.div_small by lia; lia|].
        rewrite Z.add_comm, Z.mod_add, Z.mod_small by lia. lia. }
      rewrite (proj2 (Z.eqb_neq (e + 150) 255)), (proj2 (Z.eqb_neq (e + 150) 0)) by lia.
      replace (Z.pos m - 8388608 + 8388608) with (Z.pos m) by lia. f_equal. lia.
Qed.

(** ** One record in one file *)

Section records.
Context `{FileSystem}.

(** The files hold bytes. *)
Definition wf_flash (s : fs) : Prop := ∀ p b, fs_read p s = Some b → wf_bytes b.

(** open; read(&rec, sizeof(rec)); close; n == sizeof(rec) && rec.magic == MAGIC *)
Definition load_rec (path : string) (size magic : Z) (s : fs) : option bytes :=
  c ← fs_read path s;
  let rec := take (Z.to_nat size) c in
  if zlen rec =? size then
    match rd_u32 rec 0 with Ok m => if m =? magic then Some (drop 4 rec) else None | _ => None end
  else None.
(** remove; if open: write(&rec, sizeof(rec)), close *)
Definition save_rec (path : string) (rec : bytes) (s : fs) : fs :=
  let s := fs_remove path s in
  match fs_write path rec s with Some s => s | None => s end.

(** ** Radio configuration: /agn_rf.cfg *)

Definition RF_PATH : string := "/agn_rf.cfg".
Definition RF_MAGIC : Z := 1179797313.
(** sizeof(RadioCfg) is 16: two bytes of padding, whatever they hold. *)
Definition rf_bytes (c : RadioCfg) (pad : bytes) : bytes :=
  put_u32 (rc_freq_hz c) ++ put_u32 (rc_bw_hz c) ++
  [rc_sf c; rc_cr c; u8 (rc_power_dbm c); rc_sync c] ++ put_u16 (rc_preamble c) ++ pad.
Definition rf_fields (b : bytes) : res RadioCfg :=
  freq ← rd_u32 b 0; bw ← rd_u32 b 4; sf ← rd b 8; cr ← rd b 9; power ← rd b 10; sync ← rd b 11;
  preamble ← rd_u16 b 12;
  Ok (mkCfg freq bw sf cr (i8 power) sync preamble).
Definition rf_read (s : fs) : option RadioCfg := b ← load_rec RF_PATH 20 RF_MAGIC s; res_opt (rf_fields b).
(** Save-if-dirty: the padding is compared too. *)
Definition fs_rf_save (c : RadioCfg) (pad : bytes) (s : fs) : fs :=
  if bool_decide (load_rec RF_PATH 20 RF_MAGIC s = Some (rf_bytes c pad)) then s
  else save_rec RF_PATH (put_u32 RF_MAGIC ++ rf_bytes c pad) s.
Definition rf_load (s : fs) : RadioCfg :=
  match rf_read s with Some c => c | None => radio_default_config end.

(** ** Battery calibration: /agn_batt.cfg *)

Definition BATT_PATH : string := "/agn_batt.cfg".
Definition BATT_MAGIC : Z := 1413629761.
Definition batt_rec (s : fs) : option f32 :=
  b ← load_rec BATT_PATH 8 BATT_MAGIC s; f32_of_bits <$> res_opt (rd_u32 b 0).
(** [batt_cfg_load]: the new value of [batt_scale]. *)
Definition batt_cfg_load (s : fs) (batt_scale : f32) : f32 :=
  match batt_rec s with Some x => x | None => batt_scale end.
Definition batt_cfg_save (batt_scale : f32) (s : fs) : fs :=
  save_rec BATT_PATH (put_u32 BATT_MAGIC ++ put_u32 (f32_bits batt_scale)) s.

(** ** KISS TNC mode: /agn_kiss.cfg *)

Definition KISS_PATH : string := "/agn_kiss.cfg".
Definition KISS_MAGIC : Z := 1397442369.
Definition kiss_fields (b : bytes) : res (NodeId * bool) :=
  dst ← nid_read b 0; enabled ← rd b 16;
  Ok (dst, negb (enabled =? 0) && negb (is_zero dst)).
Definition kiss_rec (s : fs) : option (NodeId * bool) :=
  b ← load_rec KISS_PATH 21 KISS_MAGIC s; res_opt (kiss_fields b).
Definition kiss_cfg_load (s : fs) (kiss : NodeId * bool) : NodeId * bool :=
  match kiss_rec s with Some k => k | None => kiss end.
Definition kiss_cfg_save (dst : NodeId) (kiss_mode : bool) (s : fs) : fs :=
  save_rec KISS_PATH (put_u32 KISS_MAGIC ++ nid_write dst ++ [if kiss_mode then 1 else 0]) s.

(** ** Mobile flag and name: /agn_node.cfg *)

Definition AGN_NAME_MAX : Z := 20.
Definition NODE_PATH : string := "/agn_node.cfg".
Definition NODE_MAGIC : Z := 843990849.
Definition node_fields (b : bytes) : res (bool * bytes) :=
  mobile ← rd b 0; name ← rdn b 1 20;
  Ok (negb (mobile =? 0), cstr (strncpy 20 name)).
Definition node_rec (s : fs) : option (bool * bytes) :=
  b ← load_rec NODE_PATH 26 NODE_MAGIC s; res_opt (node_fields b).
Definition node_cfg_load (s : fs) (cur : bool * bytes) : bool * bytes :=
  match node_rec s with Some v => v | None => cur end.
Definition node_cfg_save (mobile : bool) (name : bytes) (s : fs) : fs :=
  save_rec NODE_PATH (put_u32 NODE_MAGIC ++ [if mobile then 1 else 0] ++ strncpy 20 name ++ [0]) s.

(** ** Beacon period: /agn_net.cfg *)

Definition NET_PATH : string := "/agn_net.cfg".
Definition NET_MAGIC : Z := 1414416193.
Definition net_rec (s : fs) : option Z :=
  b ← load_rec NET_PATH 8 NET_MAGIC s; res_opt (rd_u32 b 0).
Definition net_cfg_load (s : fs) (net_beacon_cfg : Z) : Z :=
  match net_rec s with Some ms => ms | None => net_beacon_cfg end.
Definition net_cfg_save (net_beacon_cfg : Z) (s : fs) : fs :=
  save_rec NET_PATH (put_u32 NET_MAGIC ++ put_u32 net_beacon_cfg) s.

(** ** Identity key: /agn_key.cfg *)

Definition KEY_PATH : string := "/agn_key.cfg".
Definition KEY_MAGIC : Z := 1497713473.
Definition key_fields (b : bytes) : res (bytes * bytes) :=
  sk ← rdn b 0 64; pk ← rdn b 64 32; Ok (sk, pk).
Definition key_cfg_load (s : fs) : option (bytes * bytes) :=
  b ← load_rec KEY_PATH 100 KEY_MAGIC s; res_opt (key_fields b).
Definition key_cfg_save (sk pk : bytes) (s : fs) : fs :=
  save_rec KEY_PATH (put_u32 KEY_MAGIC ++ sk ++ pk) s.

(** ** Controller key and replay floor: /agn_ctrl.cfg *)

Definition CTRL_PATH : string := "/agn_ctrl.cfg".
Definition CTRL_MAGIC : Z := 1279477569.
Definition ctrl_fields (b : bytes) : res (bytes * Z) :=
  pub ← rdn b 0 32; counter ← rd_u32 b 32; Ok (pub, counter).
Definition ctrl_cfg_load (s : fs) : option (bytes * Z) :=
  b ← load_rec CTRL_PATH 40 CTRL_MAGIC s; res_opt (ctrl_fields b).
Definition ctrl_cfg_save (pub : bytes) (counter : Z) (s : fs) : fs :=
  save_rec CTRL_PATH (put_u32 CTRL_MAGIC ++ pub ++ put_u32 counter) s.

(** ** BLE: /agn_ble.cfg *)

Definition CFG_PATH : string := "/agn_ble.cfg".
Definition CFG_MAGIC : Z := 827213633.
Definition ble_fields (b : bytes) : res (bytes * bool) :=
  pin ← rdn b 0 7; enabled ← rd b 7; Ok (cstr (strncpy 6 pin), negb (enabled =? 0)).
Definition cfg_read (s : fs) : option (bytes * bool) :=
  b ← load_rec CFG_PATH 12 CFG_MAGIC s; res_opt (ble_fields b).
Definition ble_bytes (pin : bytes) (advertising : bool) : bytes :=
  strncpy 6 pin ++ [0; if advertising then 1 else 0].
Definition cfg_save (pin : bytes) (advertising : bool) (s : fs) : fs :=
  if bool_decide (load_rec CFG_PATH 12 CFG_MAGIC s = Some (ble_bytes pin advertising)) then s
  else save_rec CFG_PATH (put_u32 CFG_MAGIC ++ ble_bytes pin advertising) s.

(** ** The abstract store *)

(** What the next boot finds. *)
Record Saved := mkSaved {
  sv_rf : option RadioCfg;
  sv_batt : option f32;
  sv_kiss : option (NodeId * bool);
  sv_node : option (bool * bytes);
  sv_net : option Z;
  sv_key : option (bytes * bytes);
  sv_ctrl : option (bytes * Z);
  sv_ble : option (bytes * bool) }.
Definition flash_view (s : fs) : Saved :=
  mkSaved (rf_read s) (batt_rec s) (kiss_rec s) (node_rec s) (net_rec s) (key_cfg_load s)
    (ctrl_cfg_load s) (cfg_read s).

Inductive SaveReq :=
  | SaveRf (c : RadioCfg) (pad : bytes)
  | SaveBatt (x : f32)
  | SaveKiss (dst : NodeId) (on : bool)
  | SaveNode (mobile : bool) (name : bytes)
  | SaveNet (ms : Z)
  | SaveKey (sk pk : bytes)
  | SaveCtrl (pub : bytes) (counter : Z)
  | SaveBle (pin : bytes) (on : bool).

Definition req_path (q : SaveReq) : string :=
  match q with
  | SaveRf _ _ => RF_PATH | SaveBatt _ => BATT_PATH | SaveKiss _ _ => KISS_PATH | SaveNode _ _ => NODE_PATH
  | SaveNet _ => NET_PATH | SaveKey _ _ => KEY_PATH | SaveCtrl _ _ => CTRL_PATH | SaveBle _ _ => CFG_PATH
  end.
Definition do_save (q : SaveReq) (s : fs) : fs :=
  match q with
  | SaveRf c pad => fs_rf_save c pad s
  | SaveBatt x => batt_cfg_save x s
  | SaveKiss dst on => kiss_cfg_save dst on s
  | SaveNode mobile name => node_cfg_save mobile name s
  | SaveNet ms => net_cfg_save ms s
  | SaveKey sk pk => key_cfg_save sk pk s
  | SaveCtrl pub counter => ctrl_cfg_save pub counter s
  | SaveBle pin on => cfg_save pin on s
  end.

(** The record a save leaves: [Some] what the next boot reads, or none at all. *)
Definition spec_save (q : SaveReq) (kept : bool) (v : Saved) : Saved :=
  let '(mkSaved rf batt kiss node net key ctrl ble) := v in
  match q with
  | SaveRf c _ => mkSaved (if kept then Some c else None) batt kiss node net key ctrl ble
  | SaveBatt x => mkSaved rf (if kept then Some x else None) kiss node net key ctrl ble
  | SaveKiss dst on =>
      mkSaved rf batt (if kept then Some (dst, on && negb (is_zero dst)) else None) node net key ctrl ble
  | SaveNode mobile name =>
      mkSaved rf batt kiss (if kept then Some (mobile, take 20 (cstr name)) else None) net key ctrl ble
  | SaveNet ms => mkSaved rf batt kiss node (if kept then Some ms else None) key ctrl ble
  | SaveKey sk pk => mkSaved rf batt kiss node net (if kept then Some (sk, pk) else None) ctrl ble
  | SaveCtrl pub counter => mkSaved rf batt kiss node net key (if kept then Some (pub, counter) else None) ble
  | SaveBle pin on => mkSaved rf batt kiss node net key ctrl (if kept then Some (take 6 (cstr pin), on) else None)
  end.

(** The values fit the fields of the record. *)
Record cfg_wf (c : RadioCfg) : Prop := {
  cfw_freq : is_u32 (rc_freq_hz c);
  cfw_bw : is_u32 (rc_bw_hz c);
  cfw_power : is_i8 (rc_power_dbm c);
  cfw_preamble : is_u16 (rc_preamble c) }.
Definition req_wf (q : SaveReq) : Prop :=
  match q with
  | SaveRf c pad => cfg_wf c ∧ zlen pad = 2
  | SaveBatt x => valid_binary 24 128 x = true
  | SaveKiss dst _ => wf_nid dst
  | SaveNode _ _ | SaveBle _ _ => True
  | SaveNet ms => is_u32 ms
  | SaveKey sk pk => zlen sk = 64 ∧ zlen pk = 32
  | SaveCtrl pub counter => zlen pub = 32 ∧ is_u32 counter
  end.
End records.

(** ** A record read back *)

Lemma cstr_nonzero l : Forall (λ c, c ≠ 0) (cstr l).
Proof. induction l as [|c l IH]; simpl; [done|]. destruct (Z.eqb_spec c 0); [done|]. by constructor. Qed.
Lemma cstr_id l : Forall (λ c, c ≠ 0) l → cstr l = l.
Proof. induction 1 as [|c l Hc _ IH]; simpl; [done|]. destruct (Z.eqb_spec c 0); [done|]. by rewrite IH. Qed.
Lemma cstr_stop l k : Forall (λ c, c ≠ 0) l → cstr (l ++ 0 :: k) = l.
Proof. induction 1 as [|c l Hc _ IH]; simpl; [done|]. destruct (Z.eqb_spec c 0); [done|]. by rewrite IH. Qed.
Lemma cstr_take_name (l : bytes) : (length (cstr (l ++ [0%Z])) <= length l)%nat.
Proof. induction l as [|c l IH]; simpl; [lia|]. case_match; simpl; lia. Qed.
Lemma cstr_idemp l : cstr (cstr l) = cstr l.
Proof. apply cstr_id, cstr_nonzero. Qed.
Lemma strncpy_len n l : zlen (strncpy n l) = Z.of_nat n.
Proof. unfold strncpy, zlen. rewrite length_app, length_replicate. pose proof (length_take_le (cstr l) n). rewrite length_take. lia. Qed.
Lemma strncpy_cstr n l : cstr (strncpy n l) = take n (cstr l).
Proof.
  unfold strncpy. set (c := take n (cstr l)).
  assert (Forall (λ x, x ≠ 0) c) as Hc by apply Forall_take, cstr_nonzero.
  destruct (n - length c)%nat as [|k]; simpl; [rewrite app_nil_r; by apply cstr_id|by apply cstr_stop].
Qed.
Lemma strncpy_twice n l k : cstr (strncpy n (strncpy n l ++ k)) = take n (cstr l).
Proof.
  rewrite strncpy_cstr. unfold strncpy at 1. set (c := take n (cstr l)).
  assert (Forall (λ x, x ≠ 0) c) as Hc by apply Forall_take, cstr_nonzero.
  assert (length c <= n)%nat as Hl by (unfold c; rewrite length_take; lia).
  destruct (Nat.eq_dec (length c) n) as [He|Hne].
  - rewrite He, Nat.sub_diag, app_nil_r. assert (∀ m : bytes, take n (cstr (c ++ m)) = c) as ->; [|done].
    intros m. rewrite <- He. clear -Hc. induction Hc as [|x c Hx _ IH]; simpl; [by destruct (cstr m)|].
    destruct (Z.eqb_spec x 0); [done|]. simpl. by rewrite IH.
  - replace (n - length c)%nat with (S (n - length c - 1)) by lia. simpl. rewrite <- app_assoc. simpl.
    rewrite cstr_stop by done. by apply take_ge.
Qed.

Section laws.
Context `{Laws : FileSystemLaws}.

Lemma load_rec_ext path size magic s s' : fs_read path s = fs_read path s' →
  load_rec path size magic s = load_rec path size magic s'.
Proof. unfold load_rec. by intros ->. Qed.
Lemma load_rec_removed path size magic s : load_rec path size magic (fs_remove path s) = None.
Proof. unfold load_rec. by rewrite read_removed. Qed.
Lemma save_rec_other p q rec s : p ≠ q → fs_read q (save_rec p rec s) = fs_read q s.
Proof.
  intros Hne. unfold save_rec. destruct (fs_write p rec (fs_remove p s)) as [s'|] eqn:Hw.
  - rewrite (read_write_ne p q rec _ s' Hne Hw). by apply read_remove_ne.
  - by apply read_remove_ne.
Qed.

(** Writing the record: exactly the payload is read back, or nothing. *)
Lemma save_rec_spec path size magic payload s : is_u32 magic → 4 + zlen payload = size →
  load_rec path size magic (save_rec path (put_u32 magic ++ payload) s) =
    match fs_write path (put_u32 magic ++ payload) (fs_remove path s) with Some _ => Some payload | None => None end.
Proof.
  intros Hm Hz. unfold save_rec. set (rec := put_u32 magic ++ payload).
  destruct (fs_write path rec (fs_remove path s)) as [s'|] eqn:Hw; [|apply load_rec_removed].
  unfold load_rec. rewrite (read_written path rec _ s' (read_removed path s) Hw). cbn [mbind option_bind].
  assert (zlen rec = size) as Hr by (unfold rec; rewrite zlen_app, zlen_put_u32; done).
  rewrite take_ge by (unfold zlen in Hr; lia). rewrite (proj2 (Z.eqb_eq _ _) Hr).
  pose proof (at_start rec) as Hat. unfold rec in Hat at 2.
  rewrite (at_rd_u32 _ _ _ _ Hat Hm), Z.eqb_refl. done.
Qed.
End laws.

(** Reading the fields of a payload just written. *)
Ltac at_jump Hat o n := let o' := eval vm_compute in (o + n) in apply (at_move _ _ o') in Hat; [|done].
Ltac at_fields :=
  repeat match goal with
  | Hat : at_ ?b ?o (put_u32 ?v ++ ?r) |- context [rd_u32 ?b ?o] =>
      rewrite (at_rd_u32 _ _ _ _ Hat) by done; at_jump Hat o 4
  | Hat : at_ ?b ?o (put_u16 ?v ++ ?r) |- context [rd_u16 ?b ?o] =>
      rewrite (at_rd_u16 _ _ _ _ Hat) by done; at_jump Hat o 2
  | Hat : at_ ?b ?o ((?x :: ?l) ++ ?r) |- _ => cbn [app] in Hat
  | Hat : at_ ?b ?o (?x :: ?r) |- context [rd ?b ?o] =>
      rewrite (at_rd _ _ _ _ Hat); apply at_next in Hat;
      let o' := eval vm_compute in (o + 1) in change (at_ b o' r) in Hat
  end; cbn [mbind res_bind res_opt].

Lemma rf_fields_back c pad : cfg_wf c → rf_fields (rf_bytes c pad) = Ok c.
Proof.
  intros []. set (b := rf_bytes c pad). pose proof (at_start b) as Hat. unfold b at 2, rf_bytes in Hat.
  unfold rf_fields. at_fields. rewrite i8_u8 by done. by destruct c.
Qed.
Lemma kiss_fields_back dst (on : bool) : wf_nid dst →
  kiss_fields (nid_write dst ++ [if on then 1 else 0]) = Ok (dst, on && negb (is_zero dst)).
Proof.
  intros Hd. set (b := nid_write dst ++ _). pose proof (at_start b) as Hat. unfold b at 2 in Hat.
  unfold kiss_fields. rewrite (at_nid_read _ _ _ _ Hd Hat). cbn [mbind res_bind].
  apply (at_move _ _ 16) in Hat; [|by rewrite zlen_nid_write]. rewrite (at_rd _ _ _ _ Hat). by destruct on.
Qed.
Lemma node_fields_back (mobile : bool) name :
  node_fields ([if mobile then 1 else 0] ++ strncpy 20 name ++ [0]) = Ok (mobile, take 20 (cstr name)).
Proof.
  set (b := [_] ++ _). pose proof (at_start b) as Hat. unfold b at 2 in Hat. simpl in Hat.
  unfold node_fields. rewrite (at_rd _ _ _ _ Hat). cbn [mbind res_bind]. apply at_next in Hat. change (0 + 1) with 1 in Hat.
  rewrite (at_rdn _ _ 20 _ _ Hat) by apply strncpy_len. cbn [mbind res_bind].
  rewrite <- (app_nil_r (strncpy 20 name)), strncpy_twice. by destruct mobile.
Qed.
Lemma key_fields_back sk pk : zlen sk = 64 → zlen pk = 32 → key_fields (sk ++ pk) = Ok (sk, pk).
Proof.
  intros Hs Hp. pose proof (at_start (sk ++ pk)) as Hat. unfold key_fields.
  rewrite (at_rdn _ _ _ _ _ Hat Hs). cbn [mbind res_bind]. apply (at_move _ _ 64) in Hat; [|lia].
  rewrite <- (app_nil_r pk) in Hat at 2. by rewrite (at_rdn _ _ _ _ _ Hat Hp).
Qed.
Lemma ctrl_fields_back pub counter : zlen pub = 32 → is_u32 counter → ctrl_fields (pub ++ put_u32 counter) = Ok (pub, counter).
Proof.
  intros Hp Hc. pose proof (at_start (pub ++ put_u32 counter)) as Hat. unfold ctrl_fields.
  rewrite (at_rdn _ _ _ _ _ Hat Hp). cbn [mbind res_bind]. apply (at_move _ _ 32) in Hat; [|lia].
  rewrite <- (app_nil_r (put_u32 counter)) in Hat at 2. by rewrite (at_rd_u32 _ _ _ _ Hat Hc).
Qed.
Lemma ble_fields_back pin (on : bool) : ble_fields (ble_bytes pin on) = Ok (take 6 (cstr pin), on).
Proof.
  unfold ble_bytes. set (b := strncpy 6 pin ++ _). pose proof (at_start b) as Hat. unfold b at 2 in Hat.
  change [0; if on then 1 else 0] with ([0] ++ [if on then 1 else 0]) in Hat. rewrite app_assoc in Hat.
  unfold ble_fields. rewrite (at_rdn _ _ 7 _ _ Hat) by (rewrite zlen_app, strncpy_len; done). cbn [mbind res_bind].
  apply (at_move _ _ 7) in Hat; [|rewrite zlen_app, strncpy_len; done]. rewrite (at_rd _ _ _ _ Hat). cbn [mbind res_bind].
  rewrite strncpy_twice. by destruct on.
Qed.

(** ** The flash refines the abstract store *)

Section refines.
Context `{Laws : FileSystemLaws}.

(** The field a request writes, and the seven it does not. *)
Definition same_but (p : string) (s s' : fs) : Prop := ∀ q, p ≠ q → fs_read q s' = fs_read q s.
Lemma same_but_remove p s : same_but p s (fs_remove p s).
Proof. intros q Hq. by apply read_remove_ne. Qed.
Lemma same_but_save p rec s : same_but p s (save_rec p rec s).
Proof. intros q Hq. by apply save_rec_other. Qed.
Lemma same_but_refl p s : same_but p s s.
Proof. done. Qed.

Definition sv_own (q : SaveReq) (v w : Saved) : Prop :=
  match q with
  | SaveRf _ _ => sv_rf v = sv_rf w | SaveBatt _ => sv_batt v = sv_batt w | SaveKiss _ _ => sv_kiss v = sv_kiss w
  | SaveNode _ _ => sv_node v = sv_node w | SaveNet _ => sv_net v = sv_net w | SaveKey _ _ => sv_key v = sv_key w
  | SaveCtrl _ _ => sv_ctrl v = sv_ctrl w | SaveBle _ _ => sv_ble v = sv_ble w
  end.

Lemma view_by_field q kept s s' : same_but (req_path q) s s' →
  sv_own q (flash_view s') (spec_save q kept (flash_view s)) →
  flash_view s' = spec_save q kept (flash_view s).
Proof.
  intros Hs Ho.
  assert (∀ p size magic, req_path q ≠ p → load_rec p size magic s' = load_rec p size magic s) as Hl.
  { intros p size magic Hne. apply load_rec_ext. by apply Hs. }
  destruct q; simpl in Ho, Hl; unfold flash_view in *; cbn [spec_save sv_rf sv_batt sv_kiss sv_node sv_net sv_key sv_ctrl sv_ble] in *;
    unfold rf_read, batt_rec, kiss_rec, node_rec, net_rec, key_cfg_load, ctrl_cfg_load, cfg_read in *;
    rewrite ?(Hl RF_PATH), ?(Hl BATT_PATH), ?(Hl KISS_PATH), ?(Hl NODE_PATH), ?(Hl NET_PATH), ?(Hl KEY_PATH),
      ?(Hl CTRL_PATH), ?(Hl CFG_PATH) by done; by rewrite Ho.
Qed.

Lemma view_removed q s : flash_view (fs_remove (req_path q) s) = spec_save q false (flash_view s).
Proof.
  apply view_by_field; [apply same_but_remove|].
  destruct q; simpl; unfold rf_read, batt_rec, kiss_rec, node_rec, net_rec, key_cfg_load, ctrl_cfg_load, cfg_read;
    by rewrite load_rec_removed.
Qed.

(** The payload of a request, and how it is read back. *)
Definition req_rec (q : SaveReq) : Z * bytes :=
  match q with
  | SaveRf c pad => (RF_MAGIC, rf_bytes c pad)
  | SaveBatt x => (BATT_MAGIC, put_u32 (f32_bits x))
  | SaveKiss dst on => (KISS_MAGIC, nid_write dst ++ [if on then 1 else 0])
  | SaveNode mobile name => (NODE_MAGIC, [if mobile then 1 else 0] ++ strncpy 20 name ++ [0])
  | SaveNet ms => (NET_MAGIC, put_u32 ms)
  | SaveKey sk pk => (KEY_MAGIC, sk ++ pk)
  | SaveCtrl pub counter => (CTRL_MAGIC, pub ++ put_u32 counter)
  | SaveBle pin on => (CFG_MAGIC, ble_bytes pin on)
  end.
Definition req_size (q : SaveReq) : Z :=
  match q with
  | SaveRf _ _ => 20 | SaveBatt _ => 8 | SaveKiss _ _ => 21 | SaveNode _ _ => 26
  | SaveNet _ => 8 | SaveKey _ _ => 100 | SaveCtrl _ _ => 40 | SaveBle _ _ => 12
  end.
Definition req_load (q : SaveReq) (s : fs) : option bytes := load_rec (req_path q) (req_size q) (req_rec q).1 s.

Lemma req_rec_size q : req_wf q → 4 + zlen (req_rec q).2 = req_size q.
Proof.
  destruct q as [c pad|x|dst on|mobile name|ms|sk pk|pub counter|pin on]; simpl; intros Hq;
    unfold rf_bytes, ble_bytes; try match type of Hq with _ ∧ _ => destruct Hq end;
    rewrite ?zlen_app, ?zlen_cons, ?zlen_app, ?zlen_put_u32, ?zlen_put_u16, ?zlen_nid_write, ?strncpy_len by done;
    rewrite ?zlen_cons, ?(zlen_nil (A:=Z)); try lia; done.
Qed.

(** A payload that loads is the value saved. *)
Lemma own_kept q s s' : req_wf q → req_load q s' = Some (req_rec q).2 →
  sv_own q (flash_view s') (spec_save q true (flash_view s)).
Proof.
  unfold req_load. intros Hq Hl.
  destruct q as [c pad|x|dst on|mobile name|ms|sk pk|pub counter|pin on]; simpl in Hq, Hl; simpl sv_own; simpl sv_rf; simpl sv_batt;
    simpl sv_kiss; simpl sv_node; simpl sv_net; simpl sv_key; simpl sv_ctrl; simpl sv_ble.
  - unfold rf_read. rewrite Hl. cbn [mbind option_bind]. by rewrite rf_fields_back by apply Hq.
  - unfold batt_rec. rewrite Hl. cbn [mbind option_bind]. destruct (f32_bits_roundtrip x Hq) as [Hr Hb].
    pose proof (at_start (put_u32 (f32_bits x) ++ [])) as Hat. rewrite app_nil_r in Hat at 1.
    rewrite (at_rd_u32 _ _ _ _ Hat Hr). simpl. by rewrite Hb.
  - unfold kiss_rec. rewrite Hl. cbn [mbind option_bind]. by rewrite kiss_fields_back.
  - unfold node_rec. rewrite Hl. cbn [mbind option_bind].
    change ((if mobile then 1 else 0) :: strncpy 20 name ++ [0]) with ([if mobile then 1 else 0] ++ strncpy 20 name ++ [0]).
    by rewrite node_fields_back.
  - unfold net_rec. rewrite Hl. cbn [mbind option_bind].
    pose proof (at_start (put_u32 ms ++ [])) as Hat. rewrite app_nil_r in Hat at 1. by rewrite (at_rd_u32 _ _ _ _ Hat Hq).
  - unfold key_cfg_load. rewrite Hl. cbn [mbind option_bind]. by rewrite key_fields_back by apply Hq.
  - unfold ctrl_cfg_load. rewrite Hl. cbn [mbind option_bind]. by rewrite ctrl_fields_back by apply Hq.
  - unfold cfg_read. rewrite Hl. cbn [mbind option_bind]. by rewrite ble_fields_back.
Qed.

(** A save either finds the record already there, or rewrites it. *)
Lemma do_save_cases q s : let rec := put_u32 (req_rec q).1 ++ (req_rec q).2 in
  (do_save q s = s ∧ req_load q s = Some (req_rec q).2) ∨ do_save q s = save_rec (req_path q) rec s.
Proof.
  destruct q; simpl; try (by right); unfold fs_rf_save, cfg_save, req_load; simpl;
    (case_bool_decide as Hb; [by left|by right]).
Qed.

Lemma magic_range q : is_u32 (req_rec q).1.
Proof. by destruct q. Qed.

Lemma do_save_view q s : req_wf q →
  ∃ kept, flash_view (do_save q s) = spec_save q kept (flash_view s) ∧
    (kept = false → ∃ rec, fs_write (req_path q) rec (fs_remove (req_path q) s) = None).
Proof.
  intros Hq. destruct (do_save_cases q s) as [[-> Hl] | ->].
  { exists true. split; [|done]. apply view_by_field; [apply same_but_refl|]. by apply own_kept. }
  set (rec := put_u32 _ ++ _).
  pose proof (save_rec_spec (req_path q) _ _ _ s (magic_range q) (req_rec_size q Hq)) as Hs.
  fold rec in Hs. destruct (fs_write (req_path q) rec (fs_remove (req_path q) s)) as [s'|] eqn:Hw.
  - exists true. split; [|done]. apply view_by_field; [apply same_but_save|]. by apply own_kept.
  - exists false. split; [|eauto]. unfold save_rec. rewrite Hw. apply view_removed.
Qed.

(** C25: the flash keeps what it was given. Every save of the firmware,
    byte for byte and with its save-if-dirty shortcut, acts on the store as its
    specification says: the next boot reads back exactly the value saved (the
    name cut at 20 characters, the PIN at 6, KISS mode off without a
    destination), and the seven other records are as they were. The only other
    outcome is a record that is gone, and that needs an open for writing that
    failed; a power cut between the remove and the write has the same effect. *)
Theorem flash_refines (q : SaveReq) (s : fs) (Hq : req_wf q) :
  (∃ kept, flash_view (do_save q s) = spec_save q kept (flash_view s) ∧
     (kept = false → ∃ rec, fs_write (req_path q) rec (fs_remove (req_path q) s) = None)) ∧
  flash_view (fs_remove (req_path q) s) = spec_save q false (flash_view s).
Proof. split; [by apply do_save_view|apply view_removed]. Qed.

End refines.

(** ** The node's identity *)

(** ** What a reader may rely on, whatever the flash holds *)

Section wf_flash.
Context `{Laws : FileSystemLaws}.

Lemma load_rec_wf path size magic s b : wf_flash s → load_rec path size magic s = Some b → wf_bytes b.
Proof.
  unfold load_rec. intros Hs. destruct (fs_read path s) as [c|] eqn:Hc; cbn [mbind option_bind]; [|done].
  repeat case_match; try done. intros [= <-]. apply Forall_drop, Forall_take. by eapply Hs.
Qed.
Lemma node_rec_name s m nm : node_rec s = Some (m, nm) → cstr (nm ++ [0]) = nm.
Proof.
  unfold node_rec. destruct (load_rec _ _ _ _) as [b|]; [|done]. simpl. unfold node_fields.
  destruct (rd b 0); cbn [mbind res_bind]; [|done|done]. destruct (rdn b 1 20); cbn [mbind res_bind]; [|done|done].
  intros [= _ <-]. apply cstr_stop, cstr_nonzero.
Qed.
Lemma node_rec_len s m nm : node_rec s = Some (m, nm) → (length nm <= 20)%nat.
Proof.
  unfold node_rec. destruct (load_rec _ _ _ _) as [b|]; [|done]. simpl. unfold node_fields.
  destruct (rd b 0); cbn [mbind res_bind]; [|done|done]. destruct (rdn b 1 20); cbn [mbind res_bind]; [|done|done].
  intros [= _ <-]. rewrite strncpy_cstr, length_take. lia.
Qed.
Lemma kiss_rec_wf s dst on : wf_flash s → kiss_rec s = Some (dst, on) → wf_nid dst.
Proof.
  intros Hs. unfold kiss_rec. destruct (load_rec _ _ _ _) as [b|] eqn:Hb; [|done]. apply load_rec_wf in Hb; [|done].
  simpl. unfold kiss_fields, nid_read. destruct (rdn b 0 16) as [l| |] eqn:Hl; cbn [mbind res_bind]; [|done|done].
  destruct (rd b 16); cbn [mbind res_bind]; [|done|done]. intros [= <- _]. apply rdn_seg in Hl as [<- Hl].
  split; [done|]. by apply Forall_take, Forall_drop.
Qed.
Lemma key_rec_len s sk pk : key_cfg_load s = Some (sk, pk) → zlen pk = 32.
Proof.
  unfold key_cfg_load. destruct (load_rec _ _ _ _) as [b|]; [|done]. simpl. unfold key_fields.
  destruct (rdn b 0 64); cbn [mbind res_bind]; [|done|done].
  destruct (rdn b 64 32) as [l| |] eqn:Hl; cbn [mbind res_bind]; [|done|done]. intros [= _ <-]. by apply rdn_seg in Hl as [_ ?].
Qed.
Lemma save_rec_wf p rec s : wf_flash s → wf_bytes rec → wf_flash (save_rec p rec s).
Proof.
  intros Hs Hr q b. destruct (decide (p = q)) as [<-|Hne]; [|rewrite save_rec_other by done; by apply Hs].
  unfold save_rec. destruct (fs_write p rec (fs_remove p s)) as [s'|] eqn:Hw; [|by rewrite read_removed].
  rewrite (read_written p rec _ s' (read_removed p s) Hw). by intros [= <-].
Qed.
End wf_flash.

Section identity.
Context `{Laws : FileSystemLaws} `{Crypto} `{Kg : KeyGenLaws}.

(** [key_cfg_save]: the flash, and the record it is left with when the write succeeds. *)
Definition key_put (sk pk : bytes) (s : fs) : option (bytes * bytes) * fs := (Some (sk, pk), key_cfg_save sk pk s).

(** [node_key_init]: the id, the key pair when the node has one, the record in
    flash as last saved, and the flash; [agn_node_id] is the build-time override, [seed] what the generator gives. *)
Definition node_key_init (agn_node_id : Z) (seed : bytes) (s : fs)
    : NodeId * option (bytes * bytes) * option (bytes * bytes) * fs :=
  if negb (u32 agn_node_id =? 0) then (nid_from_u32 (u32 agn_node_id), None, key_cfg_load s, s)
  else match key_cfg_load s with
    | Some (sk, pk) => (nid_from_pubkey pk, Some (sk, pk), Some (sk, pk), s)
    | None =>
        let '(sk, pk) := ed25519_key_pair seed in
        let '(saved, s) := key_put sk pk s in
        (nid_from_pubkey pk, Some (sk, pk), saved, s)
    end.

Definition spares_key (q : SaveReq) : Prop := req_wf q ∧ req_path q ≠ KEY_PATH.

Lemma do_save_frame q s p : req_path q ≠ p → fs_read p (do_save q s) = fs_read p s.
Proof.
  intros Hne. destruct (do_save_cases q s) as [[-> _] | ->]; [done|]. by apply save_rec_other.
Qed.
Lemma saves_keep_key qs s : Forall spares_key qs → key_cfg_load (foldl (λ s q, do_save q s) s qs) = key_cfg_load s.
Proof.
  intros Hq. revert s. induction Hq as [|q qs [_ Hq] _ IH]; intros s; simpl; [done|]. rewrite IH.
  unfold key_cfg_load. erewrite load_rec_ext; [done|]. by apply do_save_frame.
Qed.

Lemma node_key_init_ok agn seed s id key rec s' : CryptoLaws → wf_flash s → node_key_init agn seed s = (id, key, rec, s') →
  wf_nid id ∧ (∀ sk pk, key = Some (sk, pk) → zlen pk = 32) ∧ wf_flash s'.
Proof.
  intros Claws Hs. unfold node_key_init.
  assert (∀ pk, wf_nid (nid_from_pubkey pk)) as Hid by (intros pk; split; [by apply blake2b_len|apply blake2b_wf]).
  case_match; [intros [= <- <- _ <-]; split; [apply wf_nid_u32|done]|].
  destruct (key_cfg_load s) as [[sk pk]|] eqn:Hl.
  - intros [= <- <- _ <-]. split; [done|]. split; [|done]. intros ?? [= <- <-]. by eapply key_rec_len.
  - pose proof (key_pair_len seed) as [L1 L2]. pose proof (key_pair_wf seed) as [W1 W2].
    destruct (ed25519_key_pair seed) as [sk pk]. simpl in *. intros [= <- <- _ <-]. split; [done|].
    split; [by intros ?? [= <- <-]|]. apply save_rec_wf; [done|]. apply Forall_app; split; [apply wf_put_u32|].
    by apply Forall_app.
Qed.

(** A node's identity is its key's, and lasts. The id a boot computes
    is the hash of the public key it holds; a stored key is used whatever the
    generator would give; and once the key is in flash, every later boot, after
    any other records have been saved any number of times, computes the same id
    and the same key and leaves the flash alone. *)
Theorem identity_stable (seed : bytes) (s s1 : fs) (id : NodeId) (key saved : option (bytes * bytes))
    (Hboot : node_key_init 0 seed s = (id, key, saved, s1)) :
  saved = key ∧
  (∃ sk pk, key = Some (sk, pk) ∧ id = nid_from_pubkey pk ∧
     (key_cfg_load s = Some (sk, pk) ∧ s1 = s ∨
      key_cfg_load s = None ∧ (sk, pk) = ed25519_key_pair seed ∧
        (key_cfg_load s1 = None → ∃ rec, fs_write KEY_PATH rec (fs_remove KEY_PATH s) = None))) ∧
  (∀ qs seed2, key_cfg_load s1 ≠ None → Forall spares_key qs →
     let s2 := foldl (λ s q, do_save q s) s1 qs in
     node_key_init 0 seed2 s2 = (id, key, saved, s2)).
Proof.
  unfold node_key_init in *. simpl in *.
  assert (∀ sk pk, key = Some (sk, pk) → id = nid_from_pubkey pk → key_cfg_load s1 = Some (sk, pk) →
    ∀ qs seed2, Forall spares_key qs →
    let s2 := foldl (λ s q, do_save q s) s1 qs in
    match key_cfg_load s2 with
    | Some (sk, pk) => (nid_from_pubkey pk, Some (sk, pk), Some (sk, pk), s2)
    | None => let '(sk, pk) := ed25519_key_pair seed2 in
        let '(saved, s) := key_put sk pk s2 in (nid_from_pubkey pk, Some (sk, pk), saved, s)
    end = (id, key, key, s2)) as Hlater.
  { intros sk pk -> -> Hl qs seed2 Hq s2. unfold s2. by rewrite (saves_keep_key qs s1 Hq), Hl. }
  destruct (key_cfg_load s) as [[sk pk]|] eqn:Hl.
  - injection Hboot as <- <- <- <-. split; [done|]. split; [exists sk, pk; auto|]. intros qs seed2 _ Hq. by apply (Hlater sk pk).
  - pose proof (key_pair_len seed) as [L1 L2]. destruct (ed25519_key_pair seed) as [sk pk] eqn:Hk. simpl in L1, L2.
    injection Hboot as <- <- <- <-. split; [done|].
    destruct (do_save_view (SaveKey sk pk) s (conj L1 L2)) as (kept & Hv & Hlost). apply (f_equal sv_key) in Hv.
    simpl in Hv. split.
    + exists sk, pk. split; [done|]. split; [done|]. right. split; [done|]. split; [done|]. intros Hn.
      apply Hlost. destruct kept; [congruence|done].
    + intros qs seed2 Hl1 Hq. destruct kept; [|by rewrite Hv in Hl1]. by apply (Hlater sk pk).
Qed.
End identity.

(** ** A concrete file system, for the witnesses *)

Definition map_fs : FileSystem := {|
  fs := gmap string bytes;
  fs_read p s := s !! p;
  fs_remove p s := delete p s;
  fs_write p b s := Some (<[p := b]> s) |}.
Lemma map_fs_laws : @FileSystemLaws map_fs.
Proof.
  split; simpl.
  - intros. apply lookup_delete_eq.
  - intros. by apply lookup_delete_ne.
  - intros p b s s' _ [= <-]. apply lookup_insert_eq.
  - intros p q b s s' Hne [= <-]. by apply lookup_insert_ne.
Qed.
Definition toy_keygen : KeyGen := λ seed,
  let b := match seed with x :: _ => u8 x | [] => 0 end in (replicate 64 b, replicate 32 b).
Lemma toy_keygen_laws : @KeyGenLaws toy_keygen.
Proof.
  assert (∀ (l : bytes), is_u8 (match l with x :: _ => u8 x | [] => 0 end)) as Hb.
  { intros [|x l]; [done|apply u8_range]. }
  split; intros seed; unfold ed25519_key_pair, toy_keygen; cbv zeta; simpl fst; simpl snd; (split; [|]); try done;
    apply Forall_replicate, Hb.
Qed.

Definition ex_ctrl : SaveReq := SaveCtrl (replicate 32 9) 7.

Example flash_refines_witness :
  req_wf ex_ctrl ∧
  (let _ := map_fs in
   (∃ kept, flash_view (do_save ex_ctrl (∅ : gmap string bytes)) =
        spec_save ex_ctrl kept (flash_view (∅ : gmap string bytes)) ∧
      (kept = false → ∃ rec, fs_write (req_path ex_ctrl) rec (fs_remove (req_path ex_ctrl) (∅ : gmap string bytes)) = None)) ∧
   flash_view (fs_remove (req_path ex_ctrl) (∅ : gmap string bytes)) =
     spec_save ex_ctrl false (flash_view (∅ : gmap string bytes))).
Proof.
  assert (req_wf ex_ctrl) as Hq by (by split).
  split; [exact Hq|]. exact (@flash_refines map_fs map_fs_laws ex_ctrl ∅ Hq).
Defined.

Definition fresh_boot : NodeId * option (bytes * bytes) * option (bytes * bytes) * gmap string bytes :=
  @node_key_init map_fs toy_crypto toy_keygen 0 [5] ∅.

Example identity_stable_witness :
  let '(id, key, saved, s1) := fresh_boot in
  @key_cfg_load map_fs s1 ≠ None ∧
  @node_key_init map_fs toy_crypto toy_keygen 0 [6] (@do_save map_fs ex_ctrl s1) =
    (id, key, saved, @do_save map_fs ex_ctrl s1).
Proof.
  destruct fresh_boot as [[[id key] saved] s1] eqn:Hb.
  assert (@key_cfg_load map_fs s1 ≠ None) as Hl.
  { unfold fresh_boot in Hb. injection Hb as _ _ _ <-. by vm_compute. }
  split; [exact Hl|].
  destruct (@identity_stable map_fs map_fs_laws toy_crypto toy_keygen toy_keygen_laws [5] ∅ s1 id key saved Hb) as (_ & _ & Hr).
  apply (Hr [ex_ctrl] [6] Hl). constructor; [|constructor]. split; [by split|done].
Defined.
