(* ===== verification/CString.v ===== *)
(** The C library's string routines, as the console uses them.

    A C string is the list of its characters without the terminating NUL;
    [strtok]'s saved pointer is the list of the characters not yet read.
    [long] has 32 bits on every target of the firmware. *)
From stdpp Require Import strings.
From S2P Require Import Prelude Float32.
From Stdlib Require Import SpecFloat.
#[local] Open Scope Z_scope.

(** ["..."]: the characters of a literal. *)
Definition str (s : string) : bytes :=
  (λ c, Z.of_N (Ascii.N_of_ascii c)) <$> String.list_ascii_of_string s.
Arguments str s%_string.

Lemma str_wf s : wf_bytes (str s).
Proof.
  apply Forall_fmap, Forall_true. intros c. simpl. pose proof (Ascii.N_ascii_bounded c) as Hc. unfold is_u8. lia.
Qed.

(** [strcmp(a, b) == 0] *)
Definition streq (a b : bytes) : bool := bool_decide (a = b).

(** ** strtok *)

Definition SP : Z := 32.
Fixpoint skip_sp (p : bytes) : bytes := match p with c :: q => if c =? SP then skip_sp q else p | [] => [] end.
Fixpoint span_sp (p : bytes) : bytes * bytes :=
  match p with
  | [] => ([], [])
  | c :: q => if c =? SP then ([], q) else let '(t, r) := span_sp q in (c :: t, r)
  end.
(** [strtok(p, " ")]: the token and the saved pointer. *)
Definition strtok (p : bytes) : option bytes * bytes :=
  match skip_sp p with
  | [] => (None, [])
  | q => let '(t, r) := span_sp q in (Some t, r)
  end.
(** [strtok(nullptr, "")]: the rest of the line. *)
Definition strtok_rest (p : bytes) : option bytes := match p with [] => None | _ => Some p end.

(** ** Numbers *)

Definition is_space (c : Z) : bool := (c =? 32) || ((9 <=? c) && (c <=? 13)).
Fixpoint skip_space (p : bytes) : bytes := match p with c :: q => if is_space c then skip_space q else p | [] => [] end.
Definition read_sign (p : bytes) : bool * bytes :=
  match p with c :: q => if c =? 45 then (true, q) else if c =? 43 then (false, q) else (false, p) | [] => (false, []) end.
Definition digit_val (c : Z) : Z :=
  if (48 <=? c) && (c <=? 57) then c - 48 else
  if (97 <=? c) && (c <=? 122) then c - 87 else
  if (65 <=? c) && (c <=? 90) then c - 55 else 36.
(** The digits read, as a number, and what follows them. *)
Fixpoint digits (base : Z) (p : bytes) (acc : Z) : Z * bytes :=
  match p with
  | c :: q => if digit_val c <? base then digits base q (acc * base + digit_val c) else (acc, p)
  | [] => (acc, [])
  end.
Definition hex_prefix (p : bytes) : option bytes :=
  match p with
  | c :: x :: q => if (c =? 48) && ((x =? 120) || (x =? 88)) then Some q else None
  | _ => None
  end.
(** The magnitude of a number in base 8, 10, 16, or 0 (by its prefix). *)
Definition magnitude (base : Z) (p : bytes) : Z :=
  match hex_prefix p with
  | Some q => if (base =? 0) || (base =? 16) then (digits 16 q 0).1 else (digits base p 0).1
  | None =>
      if base =? 0 then match p with c :: _ => (digits (if c =? 48 then 8 else 10) p 0).1 | [] => 0 end
      else (digits base p 0).1
  end.
(** strtoul: a value that does not fit is ULONG_MAX, a minus sign negates modulo 2^32. *)
Definition strtoul (p : bytes) (base : Z) : Z :=
  let '(neg, q) := read_sign (skip_space p) in
  let m := magnitude base q in
  if 4294967295 <? m then 4294967295 else if neg then u32 (- m) else m.
(** strtol: saturates at LONG_MIN and LONG_MAX. *)
Definition strtol (p : bytes) (base : Z) : Z :=
  let '(neg, q) := read_sign (skip_space p) in
  let m := magnitude base q in
  if neg then Z.max (- 2147483648) (- m) else Z.min 2147483647 m.
Definition atoi (p : bytes) : Z := strtol p 10.

(** [atof] over decimal notation, correctly rounded to binary64: the digits as
    one integer, and the power of ten it is scaled by.  (Hexadecimal floats and
    the spellings of infinity and NaN are read up to their first odd character.) *)
Definition f64_scaled (neg : bool) (m k : Z) : spec_float :=
  match m with
  | Zpos m =>
      let num := if 0 <=? k then Z.pos m * 10 ^ k else Z.pos m in
      let den := if 0 <=? k then 1 else 10 ^ (- k) in
      let '(q, e, l) := SFdiv_core_binary 53 1024 num 0 den 0 in
      binary_round_aux 53 1024 neg q e l
  | _ => S754_zero neg
  end.
Definition atof (p : bytes) : spec_float :=
  let '(neg, p) := read_sign (skip_space p) in
  let '(i, p1) := digits 10 p 0 in
  let '(m, k, p2) := match p1 with
    | 46 :: q => let '(m, q') := digits 10 q i in (m, zlen q' - zlen q, q')
    | _ => (i, 0, p1)
    end in
  let x := match p2 with
    | c :: q => if (c =? 101) || (c =? 69)
        then let '(eneg, q) := read_sign q in let e := (digits 10 q 0).1 in if eneg then - e else e
        else 0
    | [] => 0
    end in
  f64_scaled neg m (k + x).
(** [(float)x] of a binary64. *)
Definition f32_of_f64 (x : spec_float) : f32 :=
  match x with
  | S754_finite s m e => binary_normalize 24 128 (if s then Z.neg m else Z.pos m) e s
  | _ => x
  end.

Example atof_31_25 : f32_of_f64 (SFmul 53 1024 (atof (str "31.25")) (binary_normalize 53 1024 1000 0 false)) = f32_of_Z 31250.
Proof. by vm_compute. Qed.
Example atof_exp : atof (str "-0.5e3 kHz") = binary_normalize 53 1024 (-500) 0 false.
Proof. by vm_compute. Qed.
Example strtol_prefixes : strtol (str "0x4D") 0 = 77 ∧ strtol (str "017") 0 = 15 ∧ strtoul (str "-1") 10 = 4294967295.
Proof. by vm_compute. Qed.

(** ** Hex *)

Definition hexnyb (c : Z) : Z :=
  if (48 <=? c) && (c <=? 57) then c - 48 else
  if (97 <=? c) && (c <=? 102) then c - 97 + 10 else
  if (65 <=? c) && (c <=? 70) then c - 65 + 10 else -1.
(** The bytes [hex_decode(s, out, cap)] writes. *)
Fixpoint hex_decode (s : bytes) (cap : nat) {struct cap} : bytes :=
  match cap, s with
  | S cap, h :: l :: s =>
      let hi := hexnyb h in let lo := hexnyb l in
      if (hi <? 0) || (lo <? 0) then [] else u8 (Z.lor (Z.shiftl hi 4) lo) :: hex_decode s cap
  | _, _ => []
  end.
