(* ===== verification/Printf.v ===== *)
(** The C library's [snprintf], as far as the firmware's report lines use it:
    %s, %u, %d and %X with a zero-padded width, a precision or an [l].

    An argument is tagged with its C type, which bounds the characters it can
    take: a line's length is bounded from its format and its types alone
    ([format_max]), and a number printed is read back by [strtoul]
    ([strtoul_dec]). *)
From stdpp Require Import strings.
From S2P Require Import Prelude MeshTypes CString.
#[local] Open Scope Z_scope.

(** ** Numerals *)

(** The digits of [n] in [base], before [acc]; 20 digits hold 64 bits. *)
Fixpoint numeral (base : Z) (fuel : nat) (n : Z) (acc : bytes) : bytes :=
  match fuel with
  | O => acc
  | S fuel => if n <? base then hx n :: acc else numeral base fuel (n / base) (hx (n mod base) :: acc)
  end.
Definition dec (n : Z) : bytes := numeral 10 20 n [].
Definition sdec (n : Z) : bytes := if n <? 0 then 45 :: dec (- n) else dec n.
Definition hex (n : Z) : bytes := numeral 16 20 n [].

(** ** Arguments *)

Inductive arg :=
  | Str (s : bytes)
  | AU8 (n : Z) | AU16 (n : Z) | AU32 (n : Z)
  | AI8 (n : Z) | AI16 (n : Z) | AI32 (n : Z).

(** The value an argument of its type has. *)
Definition arg_val (a : arg) : Z :=
  match a with
  | Str _ => 0
  | AU8 n => u8 n | AU16 n => u16 n | AU32 n => u32 n
  | AI8 n => i8 n | AI16 n => i16 n | AI32 n => i32 n
  end.

Definition cut (prec : option Z) (s : bytes) : bytes :=
  match prec with Some p => take (Z.to_nat p) s | None => s end.
Definition pad (w : Z) (s : bytes) : bytes := replicate (Z.to_nat (w - zlen s)) 48 ++ s.

(** One directive: width [w], precision [prec], conversion [c]. *)
Definition convert (w : Z) (prec : option Z) (c : Z) (a : arg) : bytes :=
  match a with
  | Str s => if c =? 115 then cut prec s else []
  | _ =>
      if c =? 117 then pad w (dec (arg_val a))
      else if c =? 100 then pad w (sdec (arg_val a))
      else if c =? 88 then pad w (hex (arg_val a))
      else []
  end.

Definition is_digit (c : Z) : bool := (48 <=? c) && (c <=? 57).
(** One more digit of the width, or of the precision after a dot. *)
Definition more (c : Z) (d : Z * option Z) : Z * option Z :=
  match d.2 with Some p => (d.1, Some (10 * p + (c - 48))) | None => (10 * d.1 + (c - 48), None) end.

(** The text of format [f]; [d]: inside a directive, its width and precision so
    far.  (A directive with no argument left is undefined in C.) *)
Fixpoint format (f : bytes) (d : option (Z * option Z)) (args : list arg) : bytes :=
  match f with
  | [] => []
  | c :: f =>
      match d with
      | None => if c =? 37 then format f (Some (0, None)) args else c :: format f None args
      | Some d =>
          if c =? 37 then 37 :: format f None args
          else if c =? 46 then format f (Some (d.1, Some 0)) args
          else if is_digit c then format f (Some (more c d)) args
          else if c =? 108 then format f (Some d) args
          else match args with
               | a :: args => convert d.1 d.2 c a ++ format f None args
               | [] => []
               end
      end
  end.

(** [snprintf(buf, cap, f, ...)]: the characters stored, without the NUL. *)
Definition snprintf (cap : Z) (f : bytes) (args : list arg) : bytes :=
  take (Z.to_nat (cap - 1)) (format f None args).

Example format_ex :
  format (str "[rf] sf=%u p=%ddBm sync=0x%02X %lu%% %.3s") None
    [AU8 9; AI8 (-9); AU8 11; AU32 4294967295; Str (str "abcdef")]
  = str "[rf] sf=9 p=-9dBm sync=0x0B 4294967295% abc".
Proof. by vm_compute. Qed.

(** ** How long a text can be *)

(** [a] takes at most [m] characters, however it is converted. *)
Definition arg_fits (a : arg) (m : Z) : Prop := ∀ c p, zlen (convert 0 p c a) <= m.

Fixpoint format_max (f : bytes) (d : option (Z * option Z)) (ws : list Z) : Z :=
  match f with
  | [] => 0
  | c :: f =>
      match d with
      | None => if c =? 37 then format_max f (Some (0, None)) ws else 1 + format_max f None ws
      | Some d =>
          if c =? 37 then 1 + format_max f None ws
          else if c =? 46 then format_max f (Some (d.1, Some 0)) ws
          else if is_digit c then format_max f (Some (more c d)) ws
          else if c =? 108 then format_max f (Some d) ws
          else match ws with m :: ws => Z.max d.1 m + format_max f None ws | [] => 0 end
      end
  end.

Lemma zlen_pad w s : zlen (pad w s) = Z.max w (zlen s).
Proof. unfold pad. rewrite zlen_app, zlen_replicate. pose proof (zlen_nonneg s). lia. Qed.
Lemma pad_0 s : pad 0 s = s.
Proof. unfold pad. pose proof (zlen_nonneg s). by replace (Z.to_nat (0 - zlen s)) with O by lia. Qed.
Lemma cut_len p s : zlen (cut p s) <= zlen s.
Proof. destruct p; simpl; [|lia]. unfold zlen. rewrite length_take. lia. Qed.

Lemma zlen_numeral base fuel n acc k : 2 <= base → 1 <= k → 0 <= n < base ^ k →
  zlen (numeral base fuel n acc) <= k + zlen acc.
Proof.
  intros Hb. revert n acc k. induction fuel as [|fuel IH]; intros n acc k Hk Hn; cbn [numeral]; [lia|].
  destruct (Z.ltb_spec n base) as [|Hge]; [rewrite zlen_cons; lia|].
  assert (1 <= k - 1) as Hk1.
  { destruct (decide (k = 1)) as [->|]; [|lia]. rewrite Z.pow_1_r in Hn. lia. }
  etransitivity; [apply (IH _ _ (k - 1)); [lia|]|rewrite zlen_cons; lia].
  replace k with (Z.succ (k - 1)) in Hn by lia. rewrite Z.pow_succ_r in Hn by lia.
  split; [apply Z.div_pos; lia|]. apply Z.div_lt_upper_bound; lia.
Qed.
Lemma zlen_dec n k : 1 <= k → 0 <= n < 10 ^ k → zlen (dec n) <= k.
Proof. intros Hk Hn. unfold dec. pose proof (zlen_numeral 10 20 n [] k) as Hz. change (zlen []) with 0 in Hz. lia. Qed.
Lemma zlen_sdec n k : 1 <= k → - 10 ^ k < n < 10 ^ (k + 1) → zlen (sdec n) <= k + 1.
Proof.
  intros Hk Hn. unfold sdec. destruct (Z.ltb_spec n 0); [rewrite zlen_cons|apply zlen_dec; lia].
  pose proof (zlen_dec (- n) k). lia.
Qed.
Lemma zlen_hex n k : 1 <= k → 0 <= n < 16 ^ k → zlen (hex n) <= k.
Proof. intros Hk Hn. unfold hex. pose proof (zlen_numeral 16 20 n [] k) as Hz. change (zlen []) with 0 in Hz. lia. Qed.

(** The widths of the types. *)
Lemma fits_str s m : zlen s <= m → arg_fits (Str s) m.
Proof.
  intros Hs c p. simpl. case_match; [pose proof (cut_len p s); lia|]. rewrite zlen_nil. pose proof (zlen_nonneg s). lia.
Qed.
Lemma fits_unsigned a m : 1 <= m → (∀ s, a ≠ Str s) → 0 <= arg_val a < 10 ^ m → arg_fits a m.
Proof.
  intros Hm Hs Hv c p.
  assert (0 <= arg_val a < 16 ^ m) as Hx by (split; [lia|]; eapply Z.lt_le_trans; [apply Hv|apply Z.pow_le_mono_l; lia]).
  assert (0 < 10 ^ (m - 1)) by (apply Z.pow_pos_nonneg; lia).
  assert (zlen (dec (arg_val a)) <= m) by (apply zlen_dec; lia).
  assert (zlen (sdec (arg_val a)) <= m) by (unfold sdec; destruct (Z.ltb_spec (arg_val a) 0); lia).
  assert (zlen (hex (arg_val a)) <= m) by (apply zlen_hex; lia).
  destruct a; [by edestruct Hs|..]; simpl in *; repeat case_match; rewrite ?zlen_pad, ?zlen_nil; lia.
Qed.
Lemma fits_signed a m : 1 <= m → (∀ s, a ≠ Str s) → - 10 ^ m < arg_val a < 10 ^ m → arg_fits a (m + 1).
Proof.
  intros Hm Hs Hv c p.
  assert (zlen (dec (arg_val a)) <= m + 1 ∧ zlen (hex (arg_val a)) <= m + 1) as [Hd Hx].
  { destruct (Z.ltb_spec (arg_val a) 0).
    - unfold dec, hex. cbn [numeral]. rewrite !(proj2 (Z.ltb_lt _ _)) by lia. rewrite zlen_cons, zlen_nil. lia.
    - assert (10 ^ m <= 16 ^ m) by (apply Z.pow_le_mono_l; lia).
      pose proof (zlen_dec (arg_val a) m). pose proof (zlen_hex (arg_val a) m). lia. }
  assert (zlen (sdec (arg_val a)) <= m + 1).
  { apply zlen_sdec; [lia|]. rewrite Z.pow_add_r by lia. lia. }
  destruct a; [by edestruct Hs|..]; simpl in *; repeat case_match; rewrite ?zlen_pad, ?zlen_nil; lia.
Qed.
Lemma fits_u8 n : arg_fits (AU8 n) 3.
Proof. apply fits_unsigned; [lia|done|]. simpl. zlia. Qed.
Lemma fits_u16 n : arg_fits (AU16 n) 5.
Proof. apply fits_unsigned; [lia|done|]. simpl. zlia. Qed.
Lemma fits_u32 n : arg_fits (AU32 n) 10.
Proof. apply fits_unsigned; [lia|done|]. simpl. zlia. Qed.
Lemma fits_i8 n : arg_fits (AI8 n) 4.
Proof. apply (fits_signed _ 3); [lia|done|]. simpl. zlia. Qed.
Lemma fits_i16 n : arg_fits (AI16 n) 6.
Proof. apply (fits_signed _ 5); [lia|done|]. simpl. zlia. Qed.
Lemma fits_i32 n : arg_fits (AI32 n) 11.
Proof. apply (fits_signed _ 10); [lia|done|]. simpl. zlia. Qed.
(** A value known to be smaller than its type allows. *)
Lemma fits_small_u8 n m : 1 <= m → 0 <= n < 256 → n < 10 ^ m → arg_fits (AU8 n) m.
Proof. intros. apply fits_unsigned; [lia|done|]. simpl. unfold u8. rewrite Z.mod_small by lia. lia. Qed.
Lemma fits_small_u32 n m : 1 <= m → 0 <= n < 4294967296 → n < 10 ^ m → arg_fits (AU32 n) m.
Proof. intros. apply fits_unsigned; [lia|done|]. simpl. unfold u32. rewrite Z.mod_small by lia. lia. Qed.

(** The width of an argument: one that is known, else its type's. *)
Ltac fits_arg :=
  match goal with
  | H : arg_fits ?a _ |- arg_fits ?a _ => exact H
  | |- arg_fits (AU8 _) _ => apply fits_u8
  | |- arg_fits (AU16 _) _ => apply fits_u16
  | |- arg_fits (AU32 _) _ => apply fits_u32
  | |- arg_fits (AI8 _) _ => apply fits_i8
  | |- arg_fits (AI16 _) _ => apply fits_i16
  | |- arg_fits (AI32 _) _ => apply fits_i32
  end.

Lemma convert_width w p c a m : arg_fits a m → zlen (convert w p c a) <= Z.max w m.
Proof.
  intros Hf. pose proof (Hf c p) as Hc. destruct a; simpl in *; [lia|..]; repeat case_match;
    rewrite ?zlen_pad, ?zlen_nil in *; lia.
Qed.

(** No text is longer than its format and types allow. *)
Lemma format_fits f d args ws : Forall2 arg_fits args ws → zlen (format f d args) <= format_max f d ws.
Proof.
  revert d args ws. induction f as [|c f IH]; intros d args ws Ha; cbn [format format_max]; [by rewrite zlen_nil|].
  destruct d as [d|]; repeat case_match; rewrite ?zlen_cons, ?zlen_nil; try by (apply IH || (pose proof (IH None _ _ Ha); lia)).
  - inversion Ha.
  - inversion Ha.
  - apply Forall2_cons in Ha as [Hf Ha]. rewrite zlen_app.
    pose proof (IH None _ _ Ha). pose proof (convert_width d.1 d.2 c _ _ Hf). lia.
Qed.

Lemma format_pos c f args : c ≠ 37 → 0 < zlen (format (c :: f) None args).
Proof.
  intros Hc. cbn [format]. rewrite (proj2 (Z.eqb_neq _ _)) by done. rewrite zlen_cons.
  pose proof (zlen_nonneg (format f None args)). lia.
Qed.

(** A text longer than its buffer loses its end. *)
Lemma snprintf_cut cap f args a b : format f None args = a ++ b → zlen a <= cap - 1 →
  snprintf cap f args = a ++ take (Z.to_nat (cap - 1 - zlen a)) b.
Proof.
  intros Hf Ha. unfold snprintf. rewrite Hf, take_app. unfold zlen in *.
  rewrite take_ge by lia. f_equal. f_equal. lia.
Qed.
(** Two texts formatted one after the other into a buffer that holds both. *)
Lemma snprintf_whole cap f a : zlen (format f None a) < cap → snprintf cap f a = format f None a.
Proof. intros Hz. unfold snprintf. apply take_ge. unfold zlen in Hz. lia. Qed.
Lemma snprintf_append cap f a g b : let F := format f None a in let G := format g None b in
  zlen F + zlen G < cap → take (Z.to_nat (zlen F)) (snprintf cap f a) ++ snprintf (cap - zlen F) g b = F ++ G.
Proof.
  intros F G Hz. pose proof (zlen_nonneg G). rewrite !snprintf_whole by (fold F G; lia). f_equal.
  apply take_ge. unfold zlen. fold F. lia.
Qed.

(** ** Numbers read back *)

Lemma digit_val_hx n : 0 <= n < 36 → digit_val (hx n) = n.
Proof. intros Hn. unfold digit_val, hx. repeat case_match; try lia. Qed.

Lemma digits_numeral base fuel n rest : 2 <= base <= 36 → 0 <= n < base ^ Z.of_nat fuel →
  digits base (numeral base fuel n rest) 0 = digits base rest n.
Proof.
  intros Hb. revert n rest. induction fuel as [|fuel IH]; intros n rest Hn; cbn [numeral].
  { rewrite Z.pow_0_r in Hn. f_equal. lia. }
  destruct (Z.ltb_spec n base) as [Hlt|Hge].
  - cbn [digits]. rewrite digit_val_hx by lia. by rewrite (proj2 (Z.ltb_lt _ _)).
  - pose proof (Z.mod_pos_bound n base). rewrite IH.
    + cbn [digits]. rewrite digit_val_hx by lia. rewrite (proj2 (Z.ltb_lt _ _)) by lia. f_equal.
      pose proof (Z.div_mod n base). lia.
    + rewrite Nat2Z.inj_succ, Z.pow_succ_r in Hn by lia.
      split; [apply Z.div_pos; lia|]. apply Z.div_lt_upper_bound; lia.
Qed.

Lemma numeral_app base fuel n acc rest : numeral base fuel n acc ++ rest = numeral base fuel n (acc ++ rest).
Proof. revert n acc. induction fuel as [|fuel IH]; intros n acc; simpl; [done|]. case_match; [done|]. by rewrite IH. Qed.
Lemma numeral_head base fuel n acc : 2 <= base → 0 <= n → ∃ d r, numeral base (S fuel) n acc = hx d :: r ∧ 0 <= d < base.
Proof.
  intros Hb. revert n acc. induction fuel as [|fuel IH]; intros n acc Hn.
  - cbn [numeral]. destruct (Z.ltb_spec n base); eexists _, _; (split; [done|]); [lia|]. apply Z.mod_pos_bound. lia.
  - cbn [numeral]. destruct (Z.ltb_spec n base); [eexists _, _; split; [done|lia]|].
    apply IH. apply Z.div_pos; lia.
Qed.

(** [strtoul] reads a printed number back, up to what follows it. *)
Lemma strtoul_dec n rest : is_u32 n → (∀ c, head rest = Some c → 10 <= digit_val c) →
  strtoul (dec n ++ rest) 10 = n.
Proof.
  intros Hn Hr. unfold strtoul, dec. rewrite numeral_app. simpl app.
  destruct (numeral_head 10 19 n rest) as (d & r & Hd & Hdr); [lia|zlia|].
  assert ((numeral 10 20 n rest = hx d :: r)) as -> by done.
  assert (hx d = 48 + d) as Hx by (unfold hx; rewrite (proj2 (Z.ltb_lt _ _)); lia).
  assert (skip_space (hx d :: r) = hx d :: r) as ->.
  { cbn [skip_space]. unfold is_space. rewrite Hx. repeat case_match; [lia|done]. }
  assert (read_sign (hx d :: r) = (false, hx d :: r)) as ->.
  { cbn [read_sign]. rewrite Hx. repeat case_match; try lia; done. }
  assert (magnitude 10 (hx d :: r) = n) as ->; [|by rewrite (proj2 (Z.ltb_ge _ _)) by zlia].
  assert (magnitude 10 (hx d :: r) = (digits 10 (hx d :: r) 0).1) as ->.
  { unfold magnitude. by case_match. }
  rewrite <- Hd, digits_numeral by zlia. destruct rest as [|c rest]; [done|].
  cbn [digits]. rewrite (proj2 (Z.ltb_ge _ _)); [done|]. by apply Hr.
Qed.
