(* ===== verification/Console.v ===== *)
(** src/main.cpp, the command console: [handle_command], one definition per
    command, and the two byte streams it is fed from, USB ([poll_console]) and
    BLE ([ble_poll]).

    What a command prints is not part of its definition, except what other
    programs read back: [anndump], [resolve] and [dump] append to [n_host].  The
    lines themselves are in Reports.  BLE is compiled in
    (AGN_BLE); the Bluefruit stack is not under src/, and what it answers is in
    the environment. *)
From stdpp Require Import strings.
From S2P Require Import Prelude Update Reader SlotTable Float32 MeshTypes Router RouterWf Crypto Forwarder LinkArq Packet Kiss Sar NodeTable Telemetry Control LocatorDir RadioHal TxQueue Cadence Hdlc Node Transmit NodeOk LocService TelemService CtrlPlane SarSession Flash CString.
From Stdlib Require Import SpecFloat.
#[local] Open Scope Z_scope.

(** What the outside answers while one command runs. *)
Record ConEnv := mkConEnv {
  en_now : Z;                 (* millis() *)
  en_micros : Z;              (* micros() *)
  en_random : Z → Z → Z;      (* random(lo, hi) *)
  en_chip : ChipEnv;          (* the radio driver *)
  en_raw : nat → Z;           (* the k-th batt_raw() *)
  en_adv : bool;              (* Bluefruit.Advertising.start(0) *)
  en_notify : bool;           (* bleuart.notifyEnabled() *)
  en_interval : option Z }.   (* conn->getConnectionInterval() *)

(** The parser reads the string with its NUL; it never reads past it, and always
    yields an id ([nid_from_hex_safe]). *)
Definition parse_id (s : bytes) : NodeId :=
  match nid_from_hex (s ++ [0]) with Ok (_, id) => id | _ => nid_zero end.

(** ** Saving *)

Definition node_cfg_put (n : Node) : Node :=
  n <| n_con ::= λ c, c <| co_node_saved := Some (te_mobile (n_tel n), take 20 (cstr (te_name (n_tel n)))) |> |>.
Definition net_cfg_put (n : Node) : Node :=
  n <| n_con ::= λ c, c <| co_net_saved := Some (tm_net_beacon_cfg (n_timers n)) |> |>.
Definition batt_cfg_put (n : Node) : Node :=
  n <| n_con ::= λ c, c <| co_batt_saved := Some (te_batt_scale (n_tel n)) |> |>.
Definition kiss_cfg_put (n : Node) : Node :=
  let u := n_tun n in
  n <| n_con ::= λ c, c <| co_kiss_saved := Some (tu_kiss_dst u, tu_kiss_mode u && negb (is_zero (tu_kiss_dst u))) |> |>.
Definition ctrl_cfg_put (n : Node) : Node :=
  n <| n_ctrl ::= λ s, s <| cs_saved := Some (cs_pubkey s, cs_counter s) |> |>.

(** ** BLE *)

Definition set_pin (pin : bytes) (n : Node) : Node := n <| n_con ::= λ c, c <| co_pin := pin |> |>.
(** "%06lu" *)
Definition six_digits (v : Z) : bytes := (λ d, 48 + v / d mod 10) <$> [100000; 10000; 1000; 100; 10; 1].
Definition ble_gen_pin (e : ConEnv) (n : Node) : Node := set_pin (six_digits (en_random e 0 1000000)) n.
Definition ble_setup (n : Node) : Node := n <| n_con ::= λ c, c <| co_ble_inited := true |> |>.
Definition ble_start_adv (e : ConEnv) (n : Node) : Node :=
  (ble_setup n) <| n_ctrl ::= λ s, s <| cs_ble_advertising := en_adv e |> |>.
Definition ble_stop_adv (n : Node) : Node := n <| n_ctrl ::= λ s, s <| cs_ble_advertising := false |> |>.

(** The callbacks of the stack, which only latch flags. *)
Definition ble_connect_cb (n : Node) : Node :=
  n <| n_tun ::= λ u, u <| tu_ble_connected := true |> |> <| n_con ::= λ c, c <| co_dump_pending := true |> |>.
Definition ble_disconnect_cb (n : Node) : Node :=
  n <| n_tun ::= λ u, u <| tu_ble_connected := false |> |> <| n_con ::= λ c, c <| co_dump_pending := false |> |>.
(** A new client gets the directory once it listens. *)
Definition ble_evt_drain (e : ConEnv) (n : Node) : Node :=
  if co_dump_pending (n_con n) && en_notify e
  then loc_dump_to_client (en_now e) (n <| n_con ::= λ c, c <| co_dump_pending := false |> |>) else n.

Definition BLE_CI_MAX_U : Z := 24.
Definition BLE_CI_RETRY_MS : Z := 30000.
(** The connection interval ([None]: no connection object); [true]: a faster one
    is asked for. *)
Definition ble_conn_param_tick (e : ConEnv) (n : Node) : Node * bool :=
  let set f := n <| n_con ::= f |> in
  if negb (tu_ble_connected (n_tun n)) then (set (λ c, c <| co_ci_next_ms := 0 |> <| co_ci_logged := 0 |>), false) else
  match en_interval e with
  | None => (n, false)
  | Some ci =>
      let n := if negb (ci =? 0) && negb (ci =? co_ci_logged (n_con n))
               then n <| n_con ::= λ c, c <| co_ci_logged := ci |> |> else n in
      if i32 (en_now e - co_ci_next_ms (n_con n)) <? 0 then (n, false) else
      let n := n <| n_con ::= λ c, c <| co_ci_next_ms := u32 (en_now e + BLE_CI_RETRY_MS) |> |> in
      (n, negb (negb (ci =? 0) && (ci <=? BLE_CI_MAX_U)))
  end.

(** ** Data, blocks *)

Section commands.
Context `{Crypto}.
Variable (e : ConEnv).

Definition cmd_send (p : bytes) (n : Node) : Node :=
  let '(ids, p) := strtok p in
  match ids with
  | None => n
  | Some ids => send_data_bytes (en_now e) (parse_id ids) (default (str "ping") (strtok_rest p)) n
  end.

Definition cmd_block (cmd p : bytes) (n : Node) : Node :=
  match (strtok p).1 with
  | None => n
  | Some ids =>
      if streq (take 1 cmd) (str "b") then n <| n_router := (block (parse_id ids) (n_router n)).1 |>
      else n <| n_router ::= unblock (parse_id ids) |>
  end.

(** ** Uploading and sending a blob *)

Definition cmd_sbegin (p : bytes) (n : Node) : Node :=
  let '(lenS, p) := strtok p in
  let '(crcS, p) := strtok p in
  match lenS, crcS with
  | Some _, Some crcS => n <| n_sartx ::= λ t, t <| st_blob := [] |> <| st_crc := strtoul crcS 16 |> |>
  | _, _ => n
  end.
Definition cmd_sdata (p : bytes) (n : Node) : Node :=
  match (strtok p).1 with
  | None => n
  | Some hx =>
      let got := hex_decode hx (Z.to_nat (u16 (SAR_MAX_FILE - zlen (st_blob (n_sartx n))))) in
      n <| n_sartx ::= λ t, t <| st_blob ::= λ b, b ++ got |> |>
  end.
Definition cmd_xfer (p : bytes) (n : Node) : Node :=
  match (strtok p).1 with
  | None => n
  | Some ids =>
      n <| n_sartx ::= λ t, t <| st_dst := parse_id ids |> <| st_xfer_id := u16 (st_xfer_id t + 1) |>
             <| st_count := sar_frag_count (zlen (st_blob t)) |> <| st_idx := 0 |> <| st_active := true |> |>
  end.
Definition cmd_dump (n : Node) : Node :=
  if sar_complete (sx_rx (n_sarrx n)) then emit (DumpLines (sar_data (sx_rx (n_sarrx n)))) n else n.
Definition cmd_tunnel (n : Node) : Node := n <| n_tun ::= λ u, u <| tu_mode := true |> |>.

(** ** BLE commands *)

Definition cmd_ble (p : bytes) (n : Node) : Node :=
  match (strtok p).1 with
  | None => n
  | Some a =>
      if streq a (str "on") then ble_cfg_put (ble_start_adv e n)
      else if streq a (str "off") then ble_cfg_put (ble_stop_adv n)
      else if streq a (str "unbond") || streq a (str "clear") then
        let n := ble_setup n in
        if cs_ble_advertising (n_ctrl n) then ble_start_adv e n else n
      else n
  end.
Definition cmd_blepin (p : bytes) (n : Node) : Node :=
  let n := match (strtok p).1 with
    | None => n
    | Some a => if streq a (str "random") then ble_gen_pin e n else if zlen a =? 6 then set_pin a n else n
    end in
  let n := if cs_ble_advertising (n_ctrl n) then ble_start_adv e n else n in
  ble_cfg_put n.
(** The payload of one test frame. *)
Definition bletest_pat (seq sz : Z) : bytes :=
  [66; 84; u8 (Z.shiftr seq 8); u8 seq] ++ ((λ i, u8 (seq + i)) <$> seqZ 4 (sz - 4)).
Definition cmd_bletest (p : bytes) (n : Node) : Node :=
  let '(szS, p) := strtok p in
  let '(cntS, _) := strtok p in
  match szS with
  | None => n
  | Some szS =>
      if negb (tu_ble_connected (n_tun n)) || negb (en_notify e) then n else
      let sz := u16 (atoi szS) in
      let sz := if sz <? 4 then 4 else sz in
      let sz := if TUN_HOST_MAX <? sz then TUN_HOST_MAX else sz in
      let cnt := match cntS with Some s => u16 (atoi s) | None => 10 end in
      let cnt := if cnt <? 1 then 1 else cnt in
      let cnt := if 100 <? cnt then 100 else cnt in
      fold_left (λ n seq, tunnel_emit (n_id n) (bletest_pat seq sz) n) (seqZ 0 cnt) n
  end.

(** ** Settings *)

Definition cmd_trace (p : bytes) (n : Node) : Node :=
  match (strtok p).1 with
  | None => n
  | Some a =>
      let n := if streq a (str "on") then n <| n_con ::= λ c, c <| co_trace := true |> |> else n in
      if streq a (str "off") then n <| n_con ::= λ c, c <| co_trace := false |> |> else n
  end.
Definition set_mobile (on : bool) (n : Node) : Node := node_cfg_put (n <| n_tel ::= λ t, t <| te_mobile := on |> |>).
Definition cmd_mobile (p : bytes) (n : Node) : Node :=
  match (strtok p).1 with
  | None => n
  | Some a =>
      let n := if streq a (str "on") then set_mobile true n else n in
      if streq a (str "off") then set_mobile false n else n
  end.
Definition set_name (name : bytes) (n : Node) : Node :=
  node_cfg_put (n <| n_tel ::= λ t, t <| te_name := name ++ [0] |> |>).
Definition cmd_name (p : bytes) (n : Node) : Node :=
  match skip_sp (default [] (strtok_rest p)) with
  | [] => n
  | rest =>
      if streq rest (str "clear") then set_name [] n
      else
        let n := set_name (take 20 rest) n in
        if co_ble_inited (n_con n) && cs_ble_advertising (n_ctrl n) && negb (tu_ble_connected (n_tun n))
        then ble_start_adv e (ble_stop_adv n) else n
  end.
Definition cmd_net (p : bytes) (n : Node) : Node :=
  let '(a, p) := strtok p in
  match a, (strtok p).1 with
  | Some a, Some v =>
      if streq a (str "beacon") then
        let set ms n := net_cfg_put (n <| n_timers ::= λ t, t <| tm_net_beacon_cfg := ms |> |>) in
        if streq v (str "auto") then set 0 n
        else
          let s := strtoul v 10 in
          if (s <? 5) || (600 <? s) then n else set (u32 (s * 1000)) n
      else n
  | _, _ => n
  end.
Definition cmd_batt (p : bytes) (n : Node) : Node :=
  let '(a, p) := strtok p in
  let raw := en_raw e 0 in
  if streq (default [] a) (str "cal") then
    let mv := match (strtok p).1 with Some v => strtoul v 10 | None => 0 end in
    if (mv <? 1000) || (6000 <? mv) || (raw =? 0) then n else
    let n := batt_cfg_put (n <| n_tel ::= λ t, t <| te_batt_scale := fdiv (f32_of_Z mv) (f32_of_Z raw) |> |>) in
    n <| n_tel ::= batt_refresh (en_raw e 1) |>
  else n.

(** ** Identities, control *)

Definition cmd_anndump (n : Node) : Node :=
  fold_left (λ n '(id, pub), emit (AnnLine id (Some pub)) n) (for_each_verified (n_ids n)) n.

Definition cmd_ctrlkey (p : bytes) (n : Node) : Node :=
  match (strtok p).1 with
  | None => n
  | Some a =>
      if streq a (str "clear") then
        n <| n_ctrl ::= λ s, s <| cs_have_key := false |> <| cs_counter := 0 |> <| cs_saved := None |> |>
      else
        let k := hex_decode a 32 in
        if negb (zlen k =? 32) then n else
        let s := n_ctrl n in
        let n := if negb (cs_have_key s) || negb (bool_decide (k = cs_pubkey s))
                 then n <| n_ctrl ::= λ s, s <| cs_counter := 0 |> |> else n in
        ctrl_cfg_put (n <| n_ctrl ::= λ s, s <| cs_pubkey := k |> <| cs_have_key := true |> |>)
  end.

Definition cmd_ctrlsend (p : bytes) (n : Node) : res Node :=
  let blob := match (strtok p).1 with Some a => hex_decode a (Z.to_nat CTRL_MAX_BYTES) | None => [] end in
  let len := zlen blob in
  if negb (len =? CTRL_MSG_BYTES) && negb (len =? CTRL_RTN_BYTES) && negb (len =? CTRL_BLK_BYTES) then Ok n else
  tgt ← nid_read blob 2;
  if nid_eqb tgt (n_id n) then
    if negb (cs_have_key (n_ctrl n)) then Ok n else
    r ← ctrl_verify blob (cs_pubkey (n_ctrl n)) (cs_counter (n_ctrl n)) CtrlMsg_default;
    match r : CtrlVerdict * option CtrlMsg with
    | (CTRL_OK, Some m) => Ok (ctrl_apply_verified (en_chip e) (en_now e) m (n_id n) n)
    | _ => Ok n
    end
  else Ok (send_loc_flood blob DEFAULT_TTL PKT_CONTROL n).

Definition cmd_kiss (p : bytes) (n : Node) : Node :=
  match (strtok p).1 with
  | None => n
  | Some a =>
      if streq a (str "off") then kiss_cfg_put (n <| n_tun ::= λ u, u <| tu_kiss_mode := false |> |>)
      else
        let d := parse_id a in
        if is_zero d then n
        else kiss_cfg_put (n <| n_tun ::= λ u, u <| tu_kiss_dst := d |> <| tu_kiss_mode := true |> |>)
  end.

Definition cmd_status (p : bytes) (n : Node) : Node :=
  let t := match (strtok p).1 with Some a => parse_id a | None => nid_zero end in
  if is_zero t then n else
  if nid_eqb t (n_id n) then n else
  match telem_build_query t 17 with
  | Some q => send_loc_flood q DEFAULT_TTL PKT_TELEM n
  | None => n
  end.

(** ** Radio *)

Definition cmd_cad (p : bytes) (n : Node) : Node :=
  match (strtok p).1 with
  | None => n
  | Some a =>
      let n := if streq a (str "on") then n <| n_radio ::= set_cad true |> else n in
      if streq a (str "off") then n <| n_radio ::= set_cad false |> else n
  end.

Definition set_work (c : RadioCfg) (n : Node) : Node := n <| n_con ::= λ x, x <| co_rf_work := c |> |>.
Definition rf_apply (n : Node) : Node :=
  let '(h, ops, st) := apply_config (en_chip e) (co_rf_work (n_con n)) (n_radio n) in
  let n := log_ops ops (n <| n_radio := h |>) in
  if st =? 0 then rf_save (rh_cfg (n_radio n)) n else set_work (rh_cfg (n_radio n)) n.
(** The staged configuration after [rf <field> <value>]; [None]: unknown field. *)
Definition rf_field (a v : bytes) (c : RadioCfg) : option RadioCfg :=
  let '(mkCfg freq bw sf cr power sync pre) := c in
  if streq a (str "freq") then Some (mkCfg (strtoul v 10) bw sf cr power sync pre)
  else if streq a (str "bw") then
    let khz := SFmul 53 1024 (atof v) (binary_normalize 53 1024 1000 0 false) in
    Some (mkCfg freq (u32 (lroundf (f32_of_f64 khz))) sf cr power sync pre)
  else if streq a (str "sf") then Some (mkCfg freq bw (u8 (atoi v)) cr power sync pre)
  else if streq a (str "cr") then Some (mkCfg freq bw sf (u8 (atoi v)) power sync pre)
  else if streq a (str "power") || streq a (str "pwr") then Some (mkCfg freq bw sf cr (i8 (atoi v)) sync pre)
  else if streq a (str "sync") then Some (mkCfg freq bw sf cr power (u8 (strtol v 0)) pre)
  else if streq a (str "preamble") || streq a (str "pre") then Some (mkCfg freq bw sf cr power sync (u16 (atoi v)))
  else None.
Definition cmd_rf (p : bytes) (n : Node) : Node :=
  let '(a, p) := strtok p in
  match a with
  | None => n
  | Some a =>
      if streq a (str "show") then n
      else if streq a (str "apply") then rf_apply n
      else if streq a (str "revert") then set_work (rh_cfg (n_radio n)) n
      else if streq a (str "default") then set_work radio_default_config n
      else match (strtok p).1 with
        | Some v => match rf_field a v (co_rf_work (n_con n)) with Some c => set_work c n | None => n end
        | None => n
        end
  end.

(** ** Locator service *)

Definition cmd_register (p : bytes) (n : Node) : Node :=
  let id := match (strtok p).1 with Some a => hex_decode a (Z.to_nat LOC_ID_MAX) | None => [] end in
  if zlen id =? 0 then n else
  let n := loc_register (en_now e) (en_micros e) id n in
  n <| n_loc ::= λ l, l <| lo_burst_left := 2 |>
                        <| lo_burst_ms := u32 (en_now e + 2000 + u32 (en_random e 0 2000)) |> |>.
Definition cmd_resolve (p : bytes) (n : Node) : Node :=
  let id := match (strtok p).1 with Some a => hex_decode a (Z.to_nat LOC_ID_MAX) | None => [] end in
  if zlen id =? 0 then n else loc_resolve (en_now e) id n.

(** ** The dispatcher *)

(** [true]: the command was [bootloader] or [dfu], which does not return. *)
Definition handle_command (line : bytes) (n : Node) : res (Node * bool) :=
  let '(cmd, p) := strtok line in
  match cmd with
  | None => Ok (n, false)
  | Some cmd =>
      let named s := streq cmd (str s) in
      let run n := Ok (n, false) in
      if named "send" then run (cmd_send p n)
      else if named "block" || named "unblock" then run (cmd_block cmd p n)
      else if named "info" then run n
      else if named "sbegin" then run (cmd_sbegin p n)
      else if named "sdata" then run (cmd_sdata p n)
      else if named "xfer" then run (cmd_xfer p n)
      else if named "dump" then run (cmd_dump n)
      else if named "tunnel" then run (cmd_tunnel n)
      else if named "ble" then run (cmd_ble p n)
      else if named "blepin" then run (cmd_blepin p n)
      else if named "bletest" then run (cmd_bletest p n)
      else if named "trace" then run (cmd_trace p n)
      else if named "mobile" then run (cmd_mobile p n)
      else if named "name" then run (cmd_name p n)
      else if named "net" then run (cmd_net p n)
      else if named "bootloader" || named "dfu" then Ok (n, true)
      else if named "batt" then run (cmd_batt p n)
      else if named "pub" then run n
      else if named "anndump" then run (cmd_anndump n)
      else if named "ctrlkey" then run (cmd_ctrlkey p n)
      else if named "ctrlsend" then n ← cmd_ctrlsend p n; run n
      else if named "kiss" then run (cmd_kiss p n)
      else if named "status" then run (cmd_status p n)
      else if named "battdump" || named "nbrdump" then run n
      else if named "cad" then run (cmd_cad p n)
      else if named "rf" then run (cmd_rf p n)
      else if named "register" then run (cmd_register p n)
      else if named "resolve" then run (cmd_resolve p n)
      else run n   (* dirdump, help, unknown *)
  end.

End commands.

(** ** The byte streams *)

(** The accumulators of [poll_console] and [ble_poll]. *)
Record HostIo := mkIo { io_usb : Demux; io_kiss : KissDecoder; io_ble : Demux }.
Definition HostIo_init : HostIo := mkIo Demux_init KissDecoder_init Demux_init.

Section streams.
Context `{Crypto}.
Variable (e : ConEnv).

Definition console_exec (line : bytes) (n : Node) : res (Node * bool) := handle_command e (cstr line) n.

Definition host_event (h : HostIn) (n : Node) : res (Node * bool) :=
  match h with
  | HNothing => Ok (n, false)
  | HLine line => console_exec line n
  | HFrame f => n ← tunnel_rx_frame (en_now e) f n; Ok (n, false)
  end.

(** One byte from USB. *)
Definition usb_byte (c : Z) (io : HostIo) (n : Node) : HostIo * res (Node * bool) :=
  let u := n_tun n in
  let '(d, k, ev) := console_byte (tu_kiss_mode u) (tu_mode u) c (io_usb io) (io_kiss io) in
  (mkIo d k (io_ble io),
   match ev with
   | CText h | CTunnel h => host_event h n
   | CKissData payload => Ok (tunnel_send (en_now e) (tu_kiss_dst u) payload n, false)
   | CKissReturn => Ok (n <| n_tun ::= λ u, u <| tu_kiss_mode := false |> |>, false)
   | CKissOther => Ok (n, false)
   end).

(** One byte from the BLE client. *)
Definition ble_byte (c : Z) (io : HostIo) (n : Node) : HostIo * res (Node * bool) :=
  let '(d, h) := demux_byte BLE_LINE_MAX c (io_ble io) in
  (mkIo (io_usb io) (io_kiss io) d, host_event h n).

(** The bytes available are read one by one; a reset ends the reading. *)
Fixpoint feed (step : Z → HostIo → Node → HostIo * res (Node * bool)) (l : bytes) (io : HostIo) (n : Node)
    : res (HostIo * Node * bool) :=
  match l with
  | [] => Ok (io, n, false)
  | c :: l =>
      let '(io, r) := step c io n in
      r ← r;
      let '(n, reset) := r : Node * bool in
      if reset then Ok (io, n, true) else feed step l io n
  end.
Definition poll_console (l : bytes) (io : HostIo) (n : Node) : res (HostIo * Node * bool) := feed usb_byte l io n.
Definition ble_poll (l : bytes) (io : HostIo) (n : Node) : res (HostIo * Node * bool) :=
  if negb (co_ble_inited (n_con n)) then Ok (io, n, false) else
  let n := ble_evt_drain e n in
  let n := (ble_conn_param_tick e n).1 in
  feed ble_byte l io n.

End streams.

(** ** Every command keeps the invariant *)

Lemma parse_id_wf s : wf_nid (parse_id s).
Proof.
  unfold parse_id. assert ((s ++ [0]) !! length s = Some 0) as Hk.
  { by rewrite lookup_app_r, Nat.sub_diag. }
  pose proof (nid_from_hex_safe (s ++ [0]) (length s) Hk) as Hs.
  destruct (nid_from_hex (s ++ [0])) as [[k id]| |]; [apply Hs|apply wf_nid_zero|apply wf_nid_zero].
Qed.

Lemma hex_decode_len s cap : zlen (hex_decode s cap) <= Z.of_nat cap.
Proof.
  revert s. induction cap as [|cap IH]; intros s; [unfold zlen; simpl; lia|]. rewrite Nat2Z.inj_succ.
  destruct s as [|h [|l s]]; cbn [hex_decode]; rewrite ?(zlen_nil (A:=Z)); try lia.
  case_match; rewrite ?(zlen_nil (A:=Z)), ?zlen_cons; [lia|]. specialize (IH s). lia.
Qed.
Lemma hex_decode_wf s cap : wf_bytes (hex_decode s cap).
Proof.
  revert s. induction cap as [|cap IH]; intros s; simpl; [constructor|].
  destruct s as [|h [|l s]]; try constructor. case_match; constructor; [apply u8_range|apply IH].
Qed.

Lemma node_ok_tun_set n u : node_ok n → tu_q u = tu_q (n_tun n) → tu_head u = tu_head (n_tun n) →
  tu_count u = tu_count (n_tun n) → wf_nid (tu_kiss_dst u) → node_ok (n <| n_tun := u |>).
Proof.
  intros Hn Hq Hh Hc Hd. apply node_ok_tun; [done|]. destruct (nok_tun n Hn) as [(l & Hl & Hf) _].
  split; [|done]. exists l. split; [|done]. unfold tun_repr in *. by rewrite Hq, Hh, Hc.
Qed.
Lemma node_ok_tel_set n t : node_ok n → te_cache t = te_cache (n_tel n) → te_ann t = te_ann (n_tel n) →
  (te_name t = te_name (n_tel n) ∨ ∃ name, te_name t = name ++ [0] ∧ zlen name <= 20) → node_ok (n <| n_tel := t |>).
Proof.
  intros Hn Hc Ha Hm. apply node_ok_tel; [done|]. destruct (nok_tel n Hn).
  destruct Hm as [Hm|Hm]; by split; rewrite ?Hc, ?Ha, ?Hm.
Qed.
Lemma node_ok_loc_set n (f : Loc → Loc) : node_ok n → (∀ l, loc_ok l → loc_ok (f l)) → node_ok (n <| n_loc ::= f |>).
Proof. intros Hn Hf. apply node_ok_loc; [done|]. by apply Hf, nok_loc. Qed.

Lemma fold_node {A} (f : Node → A → Node) l n : (∀ n x, node_ok n → node_ok (f n x)) → node_ok n → node_ok (fold_left f l n).
Proof. intros Hf. revert n. induction l as [|x l IH]; intros n Hn; simpl; [done|]. by apply IH, Hf. Qed.

Section commands_ok.
Context `{Laws : CryptoLaws}.
Variables (e : ConEnv) (n : Node).
Hypothesis (Hn : node_ok n).

Lemma start_adv_node : node_ok (ble_start_adv e n).
Proof. apply node_ok_ctrl_same; [by apply node_ok_con|done]. Qed.
Lemma cmd_send_node p : node_ok (cmd_send e p n).
Proof. unfold cmd_send. destruct (strtok p) as [[ids|] q]; [|done]. by apply send_data_node, parse_id_wf. Qed.
Lemma cmd_block_node cmd p : node_ok (cmd_block cmd p n).
Proof.
  unfold cmd_block. destruct (strtok p).1 as [ids|]; [|done].
  case_match; (apply node_ok_router; [done| |]); first [by apply block_ok, nok_router|by apply unblock_ok, nok_router
    |by apply block_wf; [apply nok_rwf|apply parse_id_wf]|by apply unblock_wf, nok_rwf].
Qed.
Lemma cmd_sbegin_node p : node_ok (cmd_sbegin p n).
Proof.
  unfold cmd_sbegin. destruct (strtok p) as [a p1]. destruct (strtok p1) as [b p2]. destruct a, b; try done.
  apply node_ok_sartx; [done|]. destruct (nok_sartx n Hn). by split.
Qed.
Lemma cmd_sdata_node p : node_ok (cmd_sdata p n).
Proof.
  unfold cmd_sdata. destruct (strtok p).1 as [hx|]; [|done]. apply node_ok_sartx; [done|].
  destruct (nok_sartx n Hn) as [Hl Hd Hx Hi Hr Hri]. split; try done. simpl. rewrite zlen_app.
  pose proof (hex_decode_len hx (Z.to_nat (u16 (SAR_MAX_FILE - zlen (st_blob (n_sartx n)))))).
  pose proof (zlen_nonneg (st_blob (n_sartx n))). unfold SAR_MAX_FILE in *. rewrite u16_small in * by zlia. lia.
Qed.
Lemma cmd_xfer_node p : node_ok (cmd_xfer p n).
Proof.
  unfold cmd_xfer. destruct (strtok p).1 as [ids|]; [|done]. apply node_ok_sartx; [done|].
  destruct (nok_sartx n Hn). split; try done; simpl; [apply parse_id_wf|apply u16_range].
Qed.
Lemma cmd_bletest_node p : node_ok (cmd_bletest e p n).
Proof.
  unfold cmd_bletest. destruct (strtok p) as [a p1]. destruct (strtok p1) as [b p2]. destruct a as [szS|]; [|done].
  case_match; [done|]. cbv zeta. apply fold_node; [|done]. intros m x Hm. by apply tunnel_emit_node.
Qed.
Lemma node_cfg_node : node_ok (node_cfg_put n). Proof. by apply node_ok_con. Qed.
Lemma cmd_mobile_node p : node_ok (cmd_mobile p n).
Proof.
  unfold cmd_mobile, set_mobile. destruct (strtok p).1 as [a|]; [|done].
  assert (∀ b m, node_ok m → node_ok (node_cfg_put (m <| n_tel ::= λ t, t <| te_mobile := b |> |>))) as Hm.
  { intros b m Hm. apply node_ok_con. apply node_ok_tel_set; auto. }
  repeat case_match; eauto.
Qed.
Lemma cmd_name_node p : node_ok (cmd_name e p n).
Proof.
  unfold cmd_name. destruct (skip_sp _) as [|c rest]; [done|].
  assert (∀ nm, zlen nm <= 20 → node_ok (set_name nm n)) as Hm.
  { intros nm Hz. apply node_ok_con. apply node_ok_tel_set; eauto. }
  case_match; [by apply Hm|].
  assert (node_ok (set_name (take 20 (c :: rest)) n)) as H20 by (apply Hm; unfold zlen; rewrite length_take; lia).
  cbv zeta. case_match; [|done].
  apply node_ok_ctrl_same; [|done]. apply node_ok_con. by apply node_ok_ctrl_same.
Qed.
Lemma cmd_net_node p : node_ok (cmd_net p n).
Proof.
  unfold cmd_net. destruct (strtok p) as [a p1]. destruct a, (strtok p1).1; try done.
  repeat case_match; try done; by apply node_ok_con, node_ok_timers.
Qed.
Lemma cmd_batt_node p : node_ok (cmd_batt e p n).
Proof.
  unfold cmd_batt. destruct (strtok p) as [a p1]. case_match; [|done]. cbv zeta. case_match; [done|].
  apply node_ok_tel_set; [|auto..]. apply node_ok_con. apply node_ok_tel_set; auto.
Qed.
Lemma cmd_anndump_node : node_ok (cmd_anndump n).
Proof.
  unfold cmd_anndump. apply fold_node; [|done]. intros m [id pub] Hm. by apply node_ok_emit.
Qed.
Lemma cmd_ctrlkey_node p : node_ok (cmd_ctrlkey p n).
Proof.
  unfold cmd_ctrlkey. destruct (strtok p).1 as [a|]; [|done]. case_match; [by apply node_ok_ctrl_same|].
  cbv zeta. case_match; [done|]. case_match; repeat (apply node_ok_ctrl_same; [|done]); done.
Qed.
Lemma cmd_kiss_node p : node_ok (cmd_kiss p n).
Proof.
  unfold cmd_kiss. destruct (strtok p).1 as [a|]; [|done]. cbv zeta.
  repeat case_match; try done; apply node_ok_con; apply node_ok_tun_set; try done; simpl;
    [apply (tuk_kiss _ (nok_tun n Hn))|apply parse_id_wf].
Qed.
Lemma cmd_status_node p : node_ok (cmd_status p n).
Proof.
  unfold cmd_status, telem_build_query. cbv zeta. repeat case_match; try done; simplify_eq.
  all: apply send_loc_flood_node; [done|].
  all: rewrite zlen_app, zlen_nid_write; [unfold zlen, DATA_MAX, MAX_PAYLOAD, HEADER_BYTES; simpl; lia|].
  all: first [apply parse_id_wf|apply wf_nid_zero].
Qed.
Lemma cmd_ctrlsend_node p : safe (cmd_ctrlsend e p n) node_ok.
Proof.
  unfold cmd_ctrlsend. set (blob := match (strtok p).1 with Some a => _ | None => [] end).
  assert (wf_bytes blob ∧ zlen blob <= CTRL_MAX_BYTES) as [Hw Hl].
  { unfold blob. destruct (strtok p).1 as [l|]; [|split; [constructor|done]]. split; [apply hex_decode_wf|].
    pose proof (hex_decode_len l (Z.to_nat CTRL_MAX_BYTES)). by unfold CTRL_MAX_BYTES, CTRL_BLK_BYTES in *. }
  clearbody blob. cbv zeta. case_match eqn:Hc; [done|].
  assert (87 <= zlen blob) as Hlen.
  { unfold CTRL_MSG_BYTES, CTRL_RTN_BYTES, CTRL_BLK_BYTES, CTRL_RETUNE_CFG in Hc. lia. }
  apply safe_bind, safe_nid_read; [done|lia|lia|]. intros tgt Ht. case_match.
  - case_match; [done|]. apply safe_bind.
    eapply safe_eq; [apply ctrl_verify_spec; [done|unfold CTRL_MAX_BYTES, CTRL_BLK_BYTES in *; lia]|].
    intros [[] [m|]] Hv _; try done. apply ctrl_apply_verified_node; [done|apply (nok_id n Hn)|].
    eapply ctrl_verify_aux; [exact Hw| |exact Hv]. apply wf_nid_zero.
  - apply safe_ok, send_loc_flood_node; [done|].
    unfold CTRL_MAX_BYTES, CTRL_BLK_BYTES, DATA_MAX, MAX_PAYLOAD, HEADER_BYTES in *. lia.
Qed.
Lemma rf_apply_node : node_ok (rf_apply e n).
Proof.
  unfold rf_apply. pose proof (apply_config_ok (en_chip e) (co_rf_work (n_con n)) _ (tk_radio n (nok_tx n Hn))) as Hh.
  destruct (apply_config _ _ _) as [[h ops] st]. simpl in Hh.
  assert (node_ok (log_ops ops (n <| n_radio := h |>))) as H1 by (by apply node_ok_ops, node_ok_radio).
  cbv zeta. case_match; [by apply node_ok_ctrl_same|by apply node_ok_con].
Qed.
Lemma cmd_rf_node p : node_ok (cmd_rf e p n).
Proof.
  unfold cmd_rf. destruct (strtok p) as [[a|] q]; [|done].
  repeat case_match; try done; first [apply rf_apply_node|by apply node_ok_con].
Qed.
Lemma cmd_cad_node p : node_ok (cmd_cad p n).
Proof.
  assert (∀ b m, node_ok m → node_ok (m <| n_radio ::= set_cad b |>)) as Hc.
  { intros b m Hm. apply node_ok_radio; [done|]. by destruct (tk_radio m (nok_tx m Hm)). }
  unfold cmd_cad. destruct (strtok p).1; [|done]. cbv zeta. repeat case_match; auto.
Qed.
Lemma cmd_register_node p : node_ok (cmd_register e p n).
Proof.
  unfold cmd_register. cbv zeta. case_match; [done|].
  apply (node_ok_loc_set _ (λ l, l <| lo_burst_left := 2 |> <| lo_burst_ms := _ |>));
    [by apply loc_register_node|]. by intros l [].
Qed.
Lemma cmd_resolve_node p : node_ok (cmd_resolve e p n).
Proof. unfold cmd_resolve. cbv zeta. case_match; [done|]. by apply loc_resolve_node. Qed.
Lemma cmd_dump_node : node_ok (cmd_dump n).
Proof. unfold cmd_dump. case_match; [by apply node_ok_emit|done]. Qed.
Lemma cmd_tunnel_node : node_ok (cmd_tunnel n).
Proof. apply node_ok_tun_set; try done. apply (tuk_kiss _ (nok_tun n Hn)). Qed.
Lemma cmd_trace_node p : node_ok (cmd_trace p n).
Proof. unfold cmd_trace. destruct (strtok p).1; [|done]. cbv zeta. repeat case_match; try done; by repeat apply node_ok_con. Qed.
End commands_ok.

Section console_ok.
Context `{Laws : CryptoLaws}.
Variable (e : ConEnv).

Lemma cmd_ble_node p n : node_ok n → node_ok (cmd_ble e p n).
Proof.
  intros Hn. unfold cmd_ble. destruct (strtok p).1; [|done].
  repeat case_match; try done; repeat (apply node_ok_ctrl_same; [|done]); try done; by repeat apply node_ok_con.
Qed.
Lemma cmd_blepin_node p n : node_ok n → node_ok (cmd_blepin e p n).
Proof.
  intros Hn. unfold cmd_blepin. cbv zeta. set (n1 := match (strtok p).1 with Some _ => _ | None => n end).
  assert (node_ok n1) as H1 by (unfold n1; repeat case_match; try done; by apply node_ok_con).
  apply node_ok_ctrl_same; [|done]. case_match; [by apply start_adv_node|done].
Qed.

Lemma handle_command_node line n : node_ok n → safe (handle_command e line n) (λ r, node_ok r.1).
Proof.
  intros Hn. unfold handle_command. destruct (strtok line) as [[cmd|] p]; [|done]. cbv zeta.
  repeat (case_match; [first
    [ exact Hn
    | apply safe_bind; eapply safe_mono; [by apply cmd_ctrlsend_node|done]
    | simpl; eauto using cmd_send_node, cmd_block_node, cmd_sbegin_node, cmd_sdata_node, cmd_xfer_node, cmd_dump_node,
        cmd_tunnel_node, cmd_ble_node, cmd_blepin_node, cmd_bletest_node, cmd_trace_node, cmd_mobile_node, cmd_name_node,
        cmd_net_node, cmd_batt_node, cmd_anndump_node, cmd_ctrlkey_node, cmd_kiss_node, cmd_status_node, cmd_cad_node,
        cmd_rf_node, cmd_register_node, cmd_resolve_node ]|]).
  exact Hn.
Qed.
End console_ok.


(** ** Every byte keeps the invariant *)

Definition dx_safe (line_max : Z) (d : Demux) : Prop := dx_ok line_max d ∧ wf_bytes (dx_frame d).
Record io_ok (io : HostIo) : Prop := {
  iok_usb : dx_safe CONSOLE_LINE_MAX (io_usb io);
  iok_ble : dx_safe BLE_LINE_MAX (io_ble io) }.
Definition event_ok (h : HostIn) : Prop :=
  match h with HFrame f => wf_bytes f ∧ zlen f <= HOST_FRAME_MAX | _ => True end.

Lemma io_init_ok : io_ok HostIo_init.
Proof. split; (split; [by vm_compute|constructor]). Qed.

Lemma unmask_u8 c : is_u8 c → is_u8 (Z.lxor c HDLC_ESC_MASK).
Proof.
  intros Hc. unfold is_u8 in *.
  assert (0 <= Z.lxor c HDLC_ESC_MASK) as Hp by (apply Z.lxor_nonneg; unfold HDLC_ESC_MASK; lia).
  split; [done|]. destruct (Z.eq_dec (Z.lxor c HDLC_ESC_MASK) 0) as [->|Hne]; [lia|].
  apply Z.log2_lt_cancel. change (Z.log2 256) with 8.
  pose proof (Z.log2_lxor c HDLC_ESC_MASK ltac:(lia) ltac:(done)) as Hl. change (Z.log2 HDLC_ESC_MASK) with 5 in Hl.
  assert (Z.log2 c < 8); [|lia]. destruct (Z.eq_dec c 0) as [->|]; [done|]. apply Z.log2_lt_pow2; lia.
Qed.

Lemma text_byte_safe line_max c d : dx_safe line_max d → 0 <= line_max →
  dx_safe line_max (text_byte line_max c d).1 ∧ event_ok (text_byte line_max c d).2.
Proof.
  intros [[Hl Hf] Hw] Hm. unfold text_byte, dx_safe, dx_ok. repeat case_match; simpl; bools;
    rewrite ?zlen_app, ?zlen_cons, ?(zlen_nil (A:=Z)) in *; (split; [split; [lia|done]|done]) || auto.
  all: split; [split; [split; lia|done]|done].
Qed.
Lemma demux_byte_safe line_max c d : dx_safe line_max d → 0 <= line_max → is_u8 c →
  dx_safe line_max (demux_byte line_max c d).1 ∧ event_ok (demux_byte line_max c d).2.
Proof.
  intros [Hd Hw] Hm Hc. split; [split; [by apply demux_ok|]|].
  - unfold demux_byte, text_byte. repeat case_match; simpl; try done; try constructor.
    all: apply Forall_app; split; [done|]; repeat constructor; try apply Hc; by apply unmask_u8.
  - destruct Hd as [Hl Hf]. unfold demux_byte, text_byte. by repeat case_match.
Qed.

Section streams_ok.
Context `{Laws : CryptoLaws}.
Variable (e : ConEnv).
Abbreviation fine r := (safe r (λ x, node_ok x.1)).

Lemma host_event_node h n : node_ok n → event_ok h → fine (host_event e h n).
Proof.
  intros Hn Hh. destruct h as [|line|f]; [done|by apply handle_command_node|]. destruct Hh as [Hw Hl].
  apply safe_bind. eapply safe_mono; [apply tunnel_rx_node; [done..|]|done].
  unfold HOST_FRAME_MAX, TUN_HOST_MAX in *. lia.
Qed.
Lemma usb_byte_node c io n : node_ok n → io_ok io → is_u8 c →
  io_ok (usb_byte e c io n).1 ∧ fine (usb_byte e c io n).2.
Proof.
  intros Hn [Hu Hb] Hc. unfold usb_byte, console_byte.
  destruct (tu_kiss_mode (n_tun n)).
  - destruct (kiss_feed c (io_kiss io)) as [k r]. repeat case_match; simplify_eq; simpl; (split; [by split|]); try done.
    + by apply node_ok_tun_set; [..|apply (tuk_kiss _ (nok_tun n Hn))].
    + apply tunnel_send_node; [done|]. apply (tuk_kiss _ (nok_tun n Hn)).
  - destruct (tu_mode (n_tun n)); simpl.
    + pose proof (demux_byte_safe CONSOLE_LINE_MAX c _ Hu ltac:(done) Hc) as [H1 H2].
      destruct (demux_byte CONSOLE_LINE_MAX c (io_usb io)) as [d h]. simpl in *. split; [by split|]. by apply host_event_node.
    + pose proof (text_byte_safe CONSOLE_LINE_MAX c _ Hu ltac:(done)) as [H1 H2].
      destruct (text_byte CONSOLE_LINE_MAX c (io_usb io)) as [d h]. simpl in *. split; [by split|]. by apply host_event_node.
Qed.
Lemma ble_byte_node c io n : node_ok n → io_ok io → is_u8 c →
  io_ok (ble_byte e c io n).1 ∧ fine (ble_byte e c io n).2.
Proof.
  intros Hn [Hu Hb] Hc. unfold ble_byte.
  pose proof (demux_byte_safe BLE_LINE_MAX c _ Hb ltac:(done) Hc) as [H1 H2].
  destruct (demux_byte BLE_LINE_MAX c (io_ble io)) as [d h]. simpl in *. split; [by split|]. by apply host_event_node.
Qed.
(** No command and no byte is given up half-way. *)
Lemma cmd_ctrlsend_ne_rej p n : cmd_ctrlsend e p n ≠ Rej.
Proof.
  unfold cmd_ctrlsend. generalize (match (strtok p).1 with Some a => hex_decode a (Z.to_nat CTRL_MAX_BYTES) | None => [] end).
  intros blob. cbv zeta. case_match; [done|]. apply bind_ne_rej; [auto with no_rej|]. intros tgt.
  case_match; [|done]. case_match; [done|]. apply bind_ne_rej; [apply ctrl_verify_no_rej|]. by intros [[] []].
Qed.
Lemma handle_command_ne_rej line n : handle_command e line n ≠ Rej.
Proof.
  unfold handle_command. destruct (strtok line) as [[cmd|] p]; [|done]. cbv zeta.
  repeat (case_match; [first [done|apply bind_ne_rej; [apply cmd_ctrlsend_ne_rej|done]]|]); done.
Qed.
Lemma host_event_ne_rej h n : host_event e h n ≠ Rej.
Proof.
  destruct h; [done|apply handle_command_ne_rej|]. apply bind_ne_rej; [|done]. unfold tunnel_rx_frame. by repeat case_match.
Qed.
Lemma feed_ne_rej step l io n : (∀ c io n, (step c io n).2 ≠ Rej) → feed step l io n ≠ Rej.
Proof.
  intros Hs. revert io n. induction l as [|c l IH]; intros io n; simpl; [done|].
  specialize (Hs c io n). destruct (step c io n) as [io1 r]. apply bind_ne_rej; [done|]. intros [n1 []]; [done|apply IH].
Qed.
Lemma poll_console_ne_rej l io n : poll_console e l io n ≠ Rej.
Proof.
  apply feed_ne_rej. intros c io1 n1. unfold usb_byte. destruct (console_byte _ _ _ _ _) as [[d k] ev]. simpl.
  destruct ev; try done; apply host_event_ne_rej.
Qed.
Lemma ble_poll_ne_rej l io n : ble_poll e l io n ≠ Rej.
Proof.
  unfold ble_poll. case_match; [done|]. apply feed_ne_rej. intros c io1 n1. unfold ble_byte.
  destruct (demux_byte _ _ _) as [d h]. apply host_event_ne_rej.
Qed.

Abbreviation fine_io r := (safe r (λ x, io_ok x.1.1 ∧ node_ok x.1.2)).
Lemma feed_ok step l io n : (∀ c io n, node_ok n → io_ok io → is_u8 c → io_ok (step c io n).1 ∧ fine (step c io n).2) →
  wf_bytes l → node_ok n → io_ok io → fine_io (feed step l io n).
Proof.
  intros Hstep Hl. revert io n. induction Hl as [|c l Hc _ IH]; intros io n Hn Hio; simpl; [done|].
  destruct (Hstep c io n Hn Hio Hc) as [H1 H2]. destruct (step c io n) as [io1 r]. simpl in *.
  apply safe_bind. eapply safe_mono; [exact H2|]. intros [n1 reset] Hn1. simpl in Hn1.
  destruct reset; [by apply safe_ok|by apply IH].
Qed.
Lemma poll_console_ok l io n : wf_bytes l → node_ok n → io_ok io → fine_io (poll_console e l io n).
Proof. apply feed_ok. intros. by apply usb_byte_node. Qed.
Lemma ble_dump_ok n : node_ok n → node_ok (ble_evt_drain e n).
Proof.
  intros Hn. unfold ble_evt_drain, loc_dump_to_client. case_match; [|done].
  apply fold_node; [|by apply node_ok_con]. intros m [[id loc] ttl] Hm. case_match; [done|by apply node_ok_emit].
Qed.
Lemma conn_param_ok n : node_ok n → node_ok (ble_conn_param_tick e n).1.
Proof.
  intros Hn. unfold ble_conn_param_tick. case_match; [by apply node_ok_con|].
  repeat case_match; try done; simpl; repeat (apply node_ok_con; try done).
Qed.
Lemma ble_poll_ok l io n : wf_bytes l → node_ok n → io_ok io → fine_io (ble_poll e l io n).
Proof.
  intros Hl Hn Hio. unfold ble_poll. case_match; [done|]. apply feed_ok; [|done| |done].
  - intros. by apply ble_byte_node.
  - by apply conn_param_ok, ble_dump_ok.
Qed.
End streams_ok.
