(* ===== verification/Reports.v ===== *)
(** src/main.cpp: what the node prints for its hosts and its operator, character
    by character.

    A line is the buffer it is formatted into, its format and its arguments;
    [printed] is what [println] sends, cut at the buffer's size, and [whole]
    says that nothing was cut.  The lines of the commands that only report
    ([report]), and the lines that go with each [HostOut] ([host_lines]). *)
From stdpp Require Import strings.
From S2P Require Import Prelude Update Reader SlotTable Float32 MeshTypes LinkMetric NeighborTable RoutingTable Router RouterWf Crypto AnnounceCodec Packet Sar NodeTable Forwarder Telemetry LocatorDir RadioHal TxQueue Cadence Node Transmit NodeOk LocService TelemService CtrlPlane SarSession Flash CString Printf Console.
From Stdlib Require Import SpecFloat.
#[local] Open Scope Z_scope.

(** [Buf]: [char l[cap]; snprintf(l, sizeof(l), f, ...); println(l)].
    [Lit]: a literal. *)
Inductive Line :=
  | Buf (cap : Z) (f : bytes) (args : list arg)
  | Lit (s : bytes).

Definition full (l : Line) : bytes := match l with Buf _ f args => format f None args | Lit s => s end.
Definition printed (l : Line) : bytes := match l with Buf cap f args => snprintf cap f args | Lit s => s end.
Definition whole (l : Line) : Prop := match l with Buf cap f args => zlen (format f None args) < cap | Lit _ => True end.

(** ** Pieces *)

(** [char hx[33]; nid_hex(id, hx)], as a string. *)
Definition nid_text (id : NodeId) : bytes := cstr (nid_hex id).
Definition loc_id_hex (id : bytes) : bytes := flat_map (λ x, format (str "%02X") None [AU8 x]) id.
Definition on_off (b : bool) : bytes := if b then str "on" else str "off".
(** [(int)(q * 100)] and the like; out of range the conversion is undefined. *)
Definition scaled (q : f32) (k : Z) : arg := AI32 (f32_trunc (fmul q (f32_of_Z k))).
Definition bit (b : bool) : Z := if b then 1 else 0.

(** ** Lines that go with what a handler tells the host *)

Definition loc_line (id : bytes) (loc : NodeId) : Line :=
  Buf 96 (str "loc %s %s") [Str (loc_id_hex id); Str (nid_text loc)].

Definition ann_line (id : NodeId) (pub : option bytes) : Line :=
  match pub with
  | Some pub => Buf 120 (str "[ann] %s pub=%s sig=ok") [Str (nid_text id); Str (loc_id_hex pub)]
  | None => Buf 64 (str "[ann] %s sig=bad") [Str (nid_text id)]
  end.

Definition tnbr_line (nb : TelemNbr) : Line :=
  if negb (tn_rssi nb =? 0)
  then Buf 160 (str "  nbr %s q_rx=%u q_tx=%u rssi=%d snr=%d")
         [Str (nid_text (tn_id nb)); AU8 (tn_q_rx nb); AU8 (tn_q_tx nb); AI16 (tn_rssi nb); AI8 (tn_snr nb)]
  else Buf 160 (str "  nbr %s q_rx=%u q_tx=%u") [Str (nid_text (tn_id nb)); AU8 (tn_q_rx nb); AU8 (tn_q_tx nb)].
Definition telem_print_status (origin : NodeId) (m : TelemMsg) : list Line :=
  let mob := bit (negb (Z.land (tm_flags m) TELEM_FLAG_MOBILE =? 0)) in
  let ble := bit (negb (Z.land (tm_flags m) TELEM_FLAG_BLE =? 0)) in
  (if negb (tm_pct_plus1 m =? 0)
   then Buf 160 (str "[status] %s fw=%s up=%umin sf=%u pwr=%d batt=%umV/%u%% mob=%u ble=%u name=%s")
          [Str (nid_text origin); Str (cstr (tm_fw m)); AU16 (tm_uptime_min m); AU8 (tm_sf m); AI8 (tm_power_dbm m);
           AU16 (tm_mv m); AU8 (tm_pct_plus1 m - 1); AU8 mob; AU8 ble; Str (cstr (tm_name m))]
   else Buf 160 (str "[status] %s fw=%s up=%umin sf=%u pwr=%d batt=? mob=%u ble=%u name=%s")
          [Str (nid_text origin); Str (cstr (tm_fw m)); AU16 (tm_uptime_min m); AU8 (tm_sf m); AI8 (tm_power_dbm m);
           AU8 mob; AU8 ble; Str (cstr (tm_name m))])
  :: (tnbr_line <$> tm_nbrs m).

Definition ctrl_ack_line (origin : NodeId) (cmd applied provisional counter : Z) : Line :=
  Buf 96 (str "[ctrl] ack %s cmd=%u applied=%d provisional=%u counter=%lu")
    [Str (nid_text origin); AU8 cmd; AI8 applied; AU8 provisional; AU32 counter].

(** The payload is copied into [char payload[64]] first. *)
Definition data_line (src : NodeId) (pkt_id : Z) (payload : bytes) : Line :=
  Buf 96 (str "[RX] DATA delivered from %s id=%u: " ++ [34] ++ str "%s" ++ [34])
    [Str (nid_text src); AU16 pkt_id; Str (cstr payload)].

(** The loop over the blob, 32 bytes a line. *)
Fixpoint hex_lines (n : nat) (blob : bytes) : list Line :=
  match n, blob with
  | S n, _ :: _ => Buf 65 (str "%s") [Str (loc_id_hex (take 32 blob))] :: hex_lines n (drop 32 blob)
  | _, _ => []
  end.
Definition dump_lines (blob : bytes) : list Line :=
  Buf 48 (str "[DUMP] len=%lu crc=%08lX") [AU32 (zlen blob); AU32 (sar_crc32 blob)]
  :: hex_lines (length blob) blob ++ [Lit (str "[ENDDUMP]")].

(** The text lines of an output; frames for the host are not text. *)
Definition host_lines (o : HostOut) : list Line :=
  match o with
  | ToHost _ | ToKiss _ => []
  | LocLine id loc => [loc_line id loc]
  | LocBusy => [Lit (str "loc busy")]
  | AnnLine id pub => [ann_line id pub]
  | StatusLine origin m => telem_print_status origin m
  | CtrlAckLine origin cmd applied provisional counter => [ctrl_ack_line origin cmd applied provisional counter]
  | DataLine src pkt_id payload => [data_line src pkt_id payload]
  | DumpLines blob => dump_lines blob
  end.

(** ** [info] *)

Section info.
(** AGN_FW_VERSION and FW_BUILD *)
Variables (fw_version fw_build : bytes).

(** [char b[300]; int o = snprintf(b, sizeof(b), "[blocked]")] and the loop:
    the text in [b], and [o]. *)
Definition blocked_step (bo : bytes * Z) (id : NodeId) : bytes * Z :=
  let '(b, o) := bo in
  if o <? 300 - 34 then
    (take (Z.to_nat o) b ++ snprintf (300 - o) (str " %s") [Str (nid_text id)],
     o + zlen (format (str " %s") None [Str (nid_text id)]))
  else (b, o).
Definition blocked_line (ids : list NodeId) : bytes :=
  (fold_left blocked_step ids (snprintf 300 (str "[blocked]") [], 9)).1.

Definition info_nbr (cache : list AnnCache) (nb : Neighbor) : Line :=
  match ann_cache_find (nb_id nb) cache with
  | Some ac =>
      Buf 160 (str "  nbr %s  q_rx=%d q_tx=%d (x100)  myAlias=%u theirAlias=%u rssi=%d snr=%d")
        [Str (nid_text (nb_id nb)); scaled (nb_q_rx nb) 100; scaled (nb_q_tx nb) 100; AU8 (nb_my_alias nb);
         AU8 (nb_their_alias nb); AI32 (f32_trunc (ac_rssi ac)); AI32 (f32_trunc (ac_snr ac))]
  | None =>
      Buf 160 (str "  nbr %s  q_rx=%d q_tx=%d (x100)  myAlias=%u theirAlias=%u")
        [Str (nid_text (nb_id nb)); scaled (nb_q_rx nb) 100; scaled (nb_q_tx nb) 100; AU8 (nb_my_alias nb);
         AU8 (nb_their_alias nb)]
  end.
Definition info_route (r : Route) : Line :=
  Buf 160 (str "  route dst=%s via=%s cost=%d hops=%u")
    [Str (nid_text (r_dst r)); Str (nid_text (r_next_hop r)); scaled (r_cost r) 16; AU8 (r_hops r)].

Definition node_name (n : Node) : bytes := cstr (te_name (n_tel n)).

Definition print_info (n : Node) : list Line :=
  let r := n_router n in
  let h := n_radio n in
  let t := n_tel n in
  [Buf 160 (str "fw %s  built %s") [Str fw_version; Str fw_build];
   Buf 160 (str "node %s  neighbors=%u routes=%u blocked=%u  mobile=%s  name=%s")
     [Str (nid_text (n_id n)); AU8 (nt_count (ro_neighbors r)); AU8 (rt_count (ro_routes r));
      AU8 (zlen (ro_blocked r)); Str (on_off (te_mobile t)); Str (node_name n)]] ++
  (if vs_any (n_ver n)
   then [Buf 64 (str "[ver] drops=%lu last=%u supported=%u")
           [AU32 (vs_drops (n_ver n)); AU8 (vs_last_ver (n_ver n)); AU8 PROTO_VERSION]]
   else []) ++
  [Lit (blocked_line (ro_blocked r));
   Buf 160 (str "cad %s  busy=%lu forced=%lu")
     [Str (on_off (rh_cad_enabled h)); AU32 (rh_cad_busy_count h); AU32 (rh_cad_forced_count h)]] ++
  (if fgt (te_batt_scale t) f0
   then [Buf 160 (str "batt mv=%u pct=%u") [AU16 (te_batt_mv t); AU8 (batt_pct (te_batt_mv t))]] else []) ++
  (info_nbr (te_ann t) <$> filter (λ nb, nb_used nb = true) (nt_slots (ro_neighbors r))) ++
  (info_route <$> filter (λ x, r_used x = true) (rt_slots (ro_routes r))).

(** ** The other commands that only report *)

Definition pub_line (n : Node) : Line :=
  match n_key n with
  | Some (_, pk) => Buf 120 (str "pub %s  id=%s") [Str (loc_id_hex pk); Str (nid_text (n_id n))]
  | None => Buf 64 (str "pub (none — AGN_NODE_ID override)  id=%s") [Str (nid_text (n_id n))]
  end.

Definition batt_report (v : NodeId * Z * Z * Z) : Line :=
  let '(origin, mv, pct_plus1, age_ms) := v in
  if negb (pct_plus1 =? 0)
  then Buf 96 (str "[batt] %s mv=%u pct=%u age=%lus")
         [Str (nid_text origin); AU16 mv; AU8 (pct_plus1 - 1); AU32 (age_ms / 1000)]
  else Buf 96 (str "[batt] %s UNKNOWN age=%lus") [Str (nid_text origin); AU32 (age_ms / 1000)].
Definition battdump_lines (now : Z) (n : Node) : list Line :=
  match telem_snapshot TELEM_CACHE_CAP now (te_cache (n_tel n)) with
  | [] => [Lit (str "[batt] no reports cached yet")]
  | v => batt_report <$> v
  end.

Definition rep_line (r : Report) : Line :=
  Buf 112 (str "  nbr %s q_rx=%d alias=%u") [Str (nid_text (rep_id r)); scaled (rep_q r) 100; AU8 (rep_alias r)].
Definition nbr_report (now : Z) (c : AnnCache) : list Line :=
  let age := AU32 (u32 (now - ac_ms c) / 1000) in
  let rssi := AI32 (f32_trunc (ac_rssi c)) in
  let snr := AI32 (f32_trunc (ac_snr c)) in
  (if negb (ac_batt_pct_plus1 c =? 0)
   then Buf 112 (str "[nbrs] %s age=%lus rssi=%d snr=%d batt=%u%%")
          [Str (nid_text (ac_src c)); age; rssi; snr; AU8 (ac_batt_pct_plus1 c - 1)]
   else Buf 112 (str "[nbrs] %s age=%lus rssi=%d snr=%d") [Str (nid_text (ac_src c)); age; rssi; snr])
  :: (rep_line <$> ac_rep c).
Definition nbrdump_lines (now : Z) (n : Node) : list Line :=
  flat_map (nbr_report now) (filter (λ c, ac_used c = true) (te_ann (n_tel n))).

Definition dir_line (v : bytes * NodeId * Z) : Line :=
  let '(id, loc, ttl) := v in
  Buf 96 (str "  %s -> %s  ttl=%us") [Str (loc_id_hex id); Str (nid_text loc); AU16 ttl].
Definition loc_dirdump (now : Z) (n : Node) : list Line :=
  let v := loc_snapshot LOC_DIR_CAP now (lo_dir (n_loc n)) in
  Buf 96 (str "[dir] %u binding(s):") [AU16 (zlen v)] :: (dir_line <$> v).

(** The lines of a command that only reports; [None]: any other command. *)
Definition report (now : Z) (cmd : bytes) (n : Node) : option (list Line) :=
  if streq cmd (str "info") then Some (print_info n)
  else if streq cmd (str "pub") then Some [pub_line n]
  else if streq cmd (str "battdump") then Some (battdump_lines now n)
  else if streq cmd (str "nbrdump") then Some (nbrdump_lines now n)
  else if streq cmd (str "dirdump") then Some (loc_dirdump now n)
  else None.
End info.

(** ** Lines that answer a setting *)

Definition rf_print (c : RadioCfg) (tag : bytes) : Line :=
  Buf 120 (str "[rf] freq_hz=%lu bw_hz=%lu sf=%u cr=%u power_dbm=%d sync=0x%02X preamble=%u (%s)")
    [AU32 (rc_freq_hz c); AU32 (rc_bw_hz c); AU8 (rc_sf c); AU8 (rc_cr c); AI8 (rc_power_dbm c); AU8 (rc_sync c);
     AU16 (rc_preamble c); Str tag].
Definition net_line (n : Node) : Line :=
  let cfg := tm_net_beacon_cfg (n_timers n) in
  let sf := rc_sf (rh_cfg (n_radio n)) in
  Buf 96 (str "net beacon=%lus (%s)  jitter=%lus  nbr_timeout=%lus")
    [AU32 (beacon_period_ms cfg sf / 1000); Str (if negb (cfg =? 0) then str "set" else str "auto-by-SF");
     AU32 (beacon_jitter_ms cfg sf / 1000); AU32 (neighbor_timeout_ms cfg sf / 1000)].
Definition ctrlkey_line (c : Ctrl) : Line :=
  let k i := AU8 (default 0 (cs_pubkey c !! i)) in
  if cs_have_key c
  then Buf 64 (str "ctrlkey %02X%02X..%02X%02X counter=%lu")
         [k 0%nat; k 1%nat; k 30%nat; k 31%nat; AU32 (cs_counter c)]
  else Lit (str "ctrlkey: none (control surface disabled)").
Definition kiss_line (u : Tunnel) : Line :=
  Buf 80 (str "kiss %s dst=%s") [Str (on_off (tu_kiss_mode u)); Str (nid_text (tu_kiss_dst u))].
Definition cad_line (h : RadioHal) : Line :=
  Buf 64 (str "cad %s  busy=%lu forced=%lu")
    [Str (on_off (rh_cad_enabled h)); AU32 (rh_cad_busy_count h); AU32 (rh_cad_forced_count h)].
Definition name_line (n : Node) : Line :=
  Buf 48 (str "name: %s") [Str (if negb (zlen (node_name n) =? 0) then node_name n else str "(none — ALN-<id>)")].
Definition block_line (id : NodeId) (ok : bool) : Line :=
  Buf 64 (str "block %s -> %s") [Str (nid_text id); Str (if ok then str "ok" else str "fail")].
(** The name BLE advertises: "ALN-" and the friendly name, or eight digits of
    the id. *)
Definition ble_adv_name (cap : Z) (n : Node) : bytes :=
  if negb (zlen (node_name n) =? 0) then snprintf cap (str "ALN-%s") [Str (node_name n)]
  else snprintf cap (str "ALN-%.8s") [Str (nid_text (n_id n))].

(** [batt], after the calibration if there was one; [raw] is the reading. *)
Definition batt_line (raw : Z) (batt_scale : f32) : Line :=
  if fgt batt_scale f0 then
    let mv := u16 (f32_trunc (fmul (f32_of_Z raw) batt_scale)) in
    let units := u32 (f32_trunc batt_scale) in
    Buf 88 (str "batt raw=%u mv=%u pct=%u scale=%lu.%04lu")
      [AU16 raw; AU16 mv; AU8 (batt_pct mv); AU32 units;
       AU32 (f32_trunc (fmul (fsub batt_scale (f32_of_Z units)) (f32_of_Z 10000)))]
  else Buf 88 (str "batt raw=%u UNCALIBRATED — batt cal <measured_mV>") [AU16 raw].
Definition kiss_on_line (kiss_dst : NodeId) : Line :=
  Buf 96 (str "KISS ON (persisted): USB is now a TNC, data -> %s.") [Str (nid_text kiss_dst)].
Definition registered_line (n : Z) (my_id : NodeId) : Line :=
  Buf 72 (str "registered %u-byte id at %s") [AU8 n; Str (nid_text my_id)].

(** The head of the line [on_rx] logs a frame with, before the figures. *)
Definition rx_line (net : NetHeader) (type : Z) (buf : bytes) : res Line :=
  let len := zlen buf in
  if (type =? PKT_BEACON) && (BEACON_BASE <=? len) then
    pl ← beacon_read buf HEADER_BYTES;
    Ok (Buf 112 (str "[RX] beacon  src=%s seq=%u up=%us  rssi=")
          [Str (nid_text (nh_src net)); AU16 (nh_pkt_id net); AU16 (bp_uptime_s pl)])
  else Ok (Buf 112 (str "[RX] type=%u  src=%s seq=%u len=%u  rssi=")
             [AU8 type; Str (nid_text (nh_src net)); AU16 (nh_pkt_id net); AU16 len]).

(** The relay's line, a dropped packet's, and the heartbeat with the battery
    appended to it. *)
Definition fwd_line (src dst next : NodeId) (pkt_id ttl : Z) : Line :=
  Buf 128 (str "[FWD] %s->%s id=%u via %s ttl=%u")
    [Str (nid_text src); Str (nid_text dst); AU16 pkt_id; Str (nid_text next); AU8 ttl].
(** [reason[(uint8_t)d.action]] *)
Definition drop_reason (a : Action) : bytes :=
  match a with
  | DELIVER | FORWARD => []
  | DROP_OWN => str "own" | DROP_DUP => str "dup" | DROP_TTL => str "ttl" | DROP_NO_ROUTE => str "no-route"
  end.
Definition drop_line (pkt_id : Z) (a : Action) : Line :=
  Buf 80 (str "[DROP] DATA id=%u (%s)") [AU16 pkt_id; Str (drop_reason a)].
Definition hb_format : bytes := str "[hb] up=%lus  node=%s  nbrs=%u routes=%u txq=%u stk=%u".
Definition hb_args (now stk : Z) (n : Node) : list arg :=
  let r := n_router n in
  [AU32 (u32 (now - tm_boot_ms (n_timers n)) / 1000); Str (nid_text (n_id n)); AU8 (nt_count (ro_neighbors r));
   AU8 (rt_count (ro_routes r)); AU8 (tx_count (n_txq n)); AU32 stk].
Definition heartbeat (now stk : Z) (n : Node) : bytes :=
  let hn := zlen (format hb_format None (hb_args now stk n)) in
  let hb := snprintf 140 hb_format (hb_args now stk n) in
  let mv := te_batt_mv (n_tel n) in
  if negb (mv =? 0) && (0 <? hn) && (hn <? 140)
  then take (Z.to_nat hn) hb ++ snprintf (140 - hn) (str " batt=%umV/%u%%") [AU16 mv; AU8 (batt_pct mv)]
  else hb.

(** ** Every report is whole *)

Lemma nid_text_eq id : nid_text id = cstr (nid_hex id).
Proof. done. Qed.
Lemma hx_nonzero n : 0 <= n → hx n ≠ 0.
Proof. unfold hx. case_match; lia. Qed.
Lemma nid_text_hex id : wf_nid id → nid_text id = flat_map (λ x, [hx (Z.shiftr x 4); hx (Z.land x 15)]) (nid_b id).
Proof.
  intros [_ Hb]. unfold nid_text, nid_hex. apply cstr_stop.
  induction Hb as [|x l Hx _ IH]; simpl; [constructor|].
  destruct (nibbles x Hx) as (Hh & Hl & _). repeat constructor; [apply hx_nonzero; lia..|exact IH].
Qed.
Lemma zlen_pairs {A} (f g : A → Z) l : zlen (flat_map (λ x, [f x; g x]) l) = 2 * zlen l.
Proof. induction l as [|x l IH]; [done|]. simpl flat_map. rewrite !zlen_cons, IH. lia. Qed.
Lemma zlen_nid_text id : wf_nid id → zlen (nid_text id) = 32.
Proof. intros Hid. rewrite nid_text_hex by done. destruct Hid as [Hl _]. rewrite zlen_pairs. lia. Qed.
Lemma hex_byte x : format (str "%02X") None [AU8 x] = [hx (Z.shiftr (u8 x) 4); hx (Z.land (u8 x) 15)].
Proof.
  change (format (str "%02X") None [AU8 x]) with (pad 2 (hex (u8 x)) ++ []). rewrite app_nil_r.
  set (good y := bool_decide (pad 2 (hex y) = [hx (Z.shiftr y 4); hx (Z.land y 15)])).
  assert (good (u8 x) = true) as Hg; [|by apply bool_decide_eq_true in Hg].
  apply (all_below_spec good 256 0); [by vm_compute|zlia].
Qed.
Lemma loc_id_hex_eq id : loc_id_hex id = flat_map (λ x, [hx (Z.shiftr (u8 x) 4); hx (Z.land (u8 x) 15)]) id.
Proof. unfold loc_id_hex. apply flat_map_ext. apply hex_byte. Qed.
Lemma zlen_loc_id_hex id : zlen (loc_id_hex id) = 2 * zlen id.
Proof. rewrite loc_id_hex_eq. apply zlen_pairs. Qed.

Lemma fits_nid id : wf_nid id → arg_fits (Str (nid_text id)) 32.
Proof. intros Hid. apply fits_str. by rewrite zlen_nid_text. Qed.
Lemma fits_hex id n : zlen id <= n → arg_fits (Str (loc_id_hex id)) (2 * n).
Proof. intros Hid. apply fits_str. rewrite zlen_loc_id_hex. lia. Qed.
Lemma fits_on_off b : arg_fits (Str (on_off b)) 3.
Proof. apply fits_str. by destruct b. Qed.
Lemma zlen_cstr l : zlen (cstr l) <= zlen l.
Proof. induction l as [|c l IH]; simpl; [done|]. case_match; rewrite ?zlen_cons, ?zlen_nil; pose proof (zlen_nonneg l); lia. Qed.
Lemma fits_cstr l m : zlen l <= m → arg_fits (Str (cstr l)) m.
Proof. intros Hl. apply fits_str. pose proof (zlen_cstr l). lia. Qed.
Lemma fits_scaled q k : arg_fits (scaled q k) 11.
Proof. apply fits_i32. Qed.

(** The buffer's size against the format and the widths [ws]. *)
Lemma buf_whole cap f args ws : Forall2 arg_fits args ws → (format_max f None ws <? cap) = true → whole (Buf cap f args).
Proof. intros Hf Hm. simpl. pose proof (format_fits f None args ws Hf). lia. Qed.
Lemma whole_printed l : whole l → printed l = full l.
Proof. destruct l as [cap f args|s]; simpl; [apply snprintf_whole|done]. Qed.

(** [line_fits]: find each argument's width, then compare. *)
Ltac line_arg :=
  match goal with
  | |- arg_fits (Str (nid_text _)) _ => apply fits_nid; assumption
  | |- arg_fits (Str (on_off _)) _ => apply fits_on_off
  | |- arg_fits (scaled _ _) _ => apply fits_scaled
  | _ => fits_arg
  end.
Ltac line_fits := eapply buf_whole; [repeat (apply Forall2_cons; split; [line_arg|]); apply Forall2_nil_2|vm_compute; reflexivity].

(** *** The list of blocked ids *)

(** The text of the list, were the buffer large enough for it. *)
Definition blocked_text (ids : list NodeId) : bytes := str "[blocked]" ++ flat_map (λ id, 32 :: nid_text id) ids.

Lemma zlen_blocked_text ids : Forall wf_nid ids → zlen (blocked_text ids) = 9 + 33 * zlen ids.
Proof.
  intros Hids. unfold blocked_text. rewrite zlen_app. change (zlen (str "[blocked]")) with 9.
  induction Hids as [|id ids Hid _ IH]; [done|]. simpl flat_map. rewrite !zlen_cons, zlen_app, zlen_nid_text by done. lia.
Qed.

Lemma blocked_loop ids done : Forall wf_nid (done ++ ids) → zlen (done ++ ids) <= MAX_BLOCKED →
  fold_left blocked_step ids (blocked_text done, zlen (blocked_text done))
  = (blocked_text (done ++ ids), zlen (blocked_text (done ++ ids))).
Proof.
  revert done. induction ids as [|id ids IH]; intros dn Hids Hz; [by rewrite app_nil_r|].
  assert (Forall wf_nid dn ∧ wf_nid id) as [Hd Hid].
  { apply Forall_app in Hids as [? Hids]. by apply Forall_cons in Hids as [? _]. }
  assert (format (str " %s") None [Str (nid_text id)] = 32 :: nid_text id) as Hf.
  { change (format (str " %s") None [Str (nid_text id)]) with (32 :: nid_text id ++ []). by rewrite app_nil_r. }
  assert (zlen dn <= 7) as H7.
  { rewrite zlen_app, zlen_cons in Hz. pose proof (zlen_nonneg ids). unfold MAX_BLOCKED in Hz. lia. }
  pose proof (zlen_blocked_text dn Hd) as Hl. cbn [fold_left]. unfold blocked_step at 2.
  rewrite (proj2 (Z.ltb_lt _ _)) by lia. unfold snprintf. rewrite Hf.
  rewrite take_ge by (unfold zlen; lia).
  rewrite take_ge by (pose proof (zlen_nid_text id Hid); simpl; unfold zlen in *; lia).
  assert (blocked_text dn ++ 32 :: nid_text id = blocked_text (dn ++ [id])) as ->.
  { unfold blocked_text. rewrite flat_map_app. cbn [flat_map]. by rewrite app_nil_r, <- app_assoc. }
  assert (zlen (blocked_text dn) + zlen (32 :: nid_text id) = zlen (blocked_text (dn ++ [id]))) as ->.
  { rewrite (zlen_blocked_text (dn ++ [id])) by (apply Forall_app; auto).
    rewrite Hl, zlen_app, !zlen_cons, zlen_nil, zlen_nid_text by done. lia. }
  rewrite IH by (by rewrite <- app_assoc). by rewrite <- app_assoc.
Qed.
Lemma blocked_line_eq ids : Forall wf_nid ids → zlen ids <= MAX_BLOCKED → blocked_line ids = blocked_text ids.
Proof.
  intros Hids Hz. unfold blocked_line. change (snprintf 300 (str "[blocked]") []) with (blocked_text []).
  change 9 with (zlen (blocked_text [])). by rewrite (blocked_loop ids []).
Qed.

(** *** The lines of a good node *)

Lemma Forall_slots {A} (P : A → Prop) (u : A → bool) l : Forall P l → Forall P (filter (λ x, u x = true) l).
Proof. intros Hl. apply Forall_forall. intros x [_ Hx]%list_elem_of_filter. by eapply Forall_forall in Hl. Qed.

Lemma info_nbr_whole cache nb : wf_nid (nb_id nb) → whole (info_nbr cache nb).
Proof. intros Hid. unfold info_nbr. case_match; line_fits. Qed.
Lemma info_route_whole r : wf_nid (r_dst r) → wf_nid (r_next_hop r) → whole (info_route r).
Proof. intros Hd Hn. unfold info_route. line_fits. Qed.
Lemma batt_report_whole origin mv pct age : wf_nid origin → whole (batt_report (origin, mv, pct, age)).
Proof. intros Hid. unfold batt_report. case_match; line_fits. Qed.
Lemma nbr_report_whole now c : ac_ok c → Forall whole (nbr_report now c).
Proof.
  intros [Hs Hr]. constructor; [case_match; line_fits|]. apply Forall_fmap. eapply Forall_impl; [exact Hr|].
  intros r Hid. simpl in Hid. unfold rep_line, compose. line_fits.
Qed.
Lemma node_name_fits n : node_ok n → arg_fits (Str (node_name n)) 20.
Proof.
  intros Hn. apply fits_str. unfold node_name. destruct (tlk_name _ (nok_tel n Hn)) as (name & -> & Hz).
  pose proof (cstr_take_name name). unfold zlen in *. lia.
Qed.
Lemma print_info_whole fw build n : node_ok n → zlen fw <= 100 → zlen build <= 32 → Forall whole (print_info fw build n).
Proof.
  intros Hn Hfw Hb. pose proof (nok_id n Hn). pose proof (node_name_fits n Hn). destruct (nok_rwf n Hn) as (Hnt & Hrt & _).
  assert (arg_fits (Str fw) 100) by (by apply fits_str). assert (arg_fits (Str build) 32) by (by apply fits_str).
  unfold print_info. repeat (apply Forall_app; split).
  - repeat constructor; line_fits.
  - case_match; repeat constructor; line_fits.
  - constructor; [done|]. repeat constructor; line_fits.
  - case_match; repeat constructor; line_fits.
  - apply Forall_fmap. eapply Forall_impl; [apply Forall_slots, Hnt|]. intros nb Hid. by apply info_nbr_whole.
  - apply Forall_fmap. eapply Forall_impl; [apply Forall_slots, Hrt|]. intros r [Hd Hh]. by apply info_route_whole.
Qed.
Lemma battdump_whole now n : node_ok n → Forall whole (battdump_lines now n).
Proof.
  intros Hn. unfold battdump_lines. destruct (telem_snapshot _ _ _) as [|v l] eqn:Hv; [by repeat constructor|].
  rewrite <- Hv. apply Forall_fmap, Forall_take, Forall_fmap.
  eapply Forall_impl; [apply Forall_slots, (tlk_origins _ (nok_tel n Hn))|]. intros e Hid. by apply batt_report_whole.
Qed.
Lemma nbrdump_whole now n : node_ok n → Forall whole (nbrdump_lines now n).
Proof.
  intros Hn. unfold nbrdump_lines. apply Forall_flat_map.
  eapply Forall_impl; [apply Forall_slots, (tlk_ids _ (nok_tel n Hn))|]. intros c Hc. by apply nbr_report_whole.
Qed.
Lemma dir_line_whole id loc ttl : zlen id <= LOC_ID_MAX → wf_nid loc → whole (dir_line (id, loc, ttl)).
Proof. intros Hz Hl. pose proof (fits_hex id 16 Hz). unfold dir_line. line_fits. Qed.
Lemma dirdump_whole now n : node_ok n → Forall whole (loc_dirdump now n).
Proof.
  intros Hn. constructor; [line_fits|]. apply Forall_fmap, Forall_take, Forall_fmap, Forall_forall.
  intros e [_ He]%list_elem_of_filter. pose proof (lok_locs _ (nok_loc n Hn)) as Hl. unfold ld_wf in Hl.
  rewrite Forall_forall in Hl. destruct (Hl e He) as [Hid Hz].
  by apply dir_line_whole.
Qed.
Lemma pub_line_whole n : node_ok n → n_key n ≠ None → whole (pub_line n).
Proof.
  intros Hn Hk. unfold pub_line. destruct (n_key n) as [[sk pk]|] eqn:He; [|done].
  assert (zlen pk <= 32) as Hz by (by rewrite (nok_key n Hn _ _ He)).
  pose proof (fits_hex pk 32 Hz). pose proof (nok_id n Hn). line_fits.
Qed.

(** C28: whatever a node in order is asked to report, every line comes out
    whole: no buffer is too small for any id, name or number it can hold, and
    the list of blocked ids lists all of them.  (A version string of up to 100
    and a build date of up to 32 characters; [pub] of a node with a key.) *)
Theorem reports_whole (fw_version fw_build : bytes) (now : Z) (cmd : bytes) (n : Node) (ls : list Line)
    (Hn : node_ok n) (Hfw : zlen fw_version <= 100) (Hb : zlen fw_build <= 32)
    (Hkey : cmd = str "pub" → n_key n ≠ None) (Hr : report fw_version fw_build now cmd n = Some ls) :
  Forall whole ls ∧ printed <$> ls = full <$> ls ∧
  blocked_line (ro_blocked (n_router n)) = blocked_text (ro_blocked (n_router n)).
Proof.
  assert (Forall whole ls) as Hls.
  { unfold report, streq in Hr. repeat case_bool_decide; simplify_eq;
      [by apply print_info_whole| |by apply battdump_whole|by apply nbrdump_whole|by apply dirdump_whole].
    repeat constructor. apply pub_line_whole; auto. }
  split; [done|]. split.
  - apply list_fmap_ext. intros i l Hl. apply whole_printed. by eapply Forall_lookup_1.
  - apply blocked_line_eq; [by destruct (nok_rwf n Hn) as (_ & _ & ?)|apply (ok_blocked_len _ _ (nok_router n Hn))].
Qed.

(** *** Lines that are cut *)

Definition cap_of (l : Line) : Z := match l with Buf cap _ _ => cap | Lit s => zlen s + 1 end.
Lemma line_cut l a b : full l = a ++ b → zlen a <= cap_of l - 1 →
  printed l = a ++ take (Z.to_nat (cap_of l - 1 - zlen a)) b.
Proof.
  destruct l as [cap f args|s]; simpl; [apply snprintf_cut|]. intros -> _. f_equal. symmetry. apply take_ge.
  rewrite zlen_app. unfold zlen. lia.
Qed.

Definition data_head (src : NodeId) (pkt_id : Z) : bytes :=
  str "[RX] DATA delivered from " ++ nid_text src ++ str " id=" ++ dec pkt_id ++ str ": " ++ [34].

Lemma data_line_full src pkt_id text : is_u16 pkt_id →
  full (data_line src pkt_id text) = data_head src pkt_id ++ cstr text ++ [34].
Proof.
  intros Hid. unfold data_head. rewrite <- !app_assoc. assert (u16 pkt_id = pkt_id) as Hu by zlia.
  rewrite <- Hu at 2. rewrite <- (pad_0 (dec (u16 pkt_id))). reflexivity.
Qed.
Lemma zlen_dec_u16 n : is_u16 n → 1 <= zlen (dec n) <= 5.
Proof.
  intros Hn. split; [|apply zlen_dec; [lia|zlia]].
  destruct (numeral_head 10 19 n []) as (d & r & Hd & _); [lia|zlia|].
  assert (dec n = hx d :: r) as -> by done. rewrite zlen_cons. pose proof (zlen_nonneg r). lia.
Qed.
Lemma zlen_data_head src pkt_id : wf_nid src → zlen (data_head src pkt_id) = 64 + zlen (dec pkt_id).
Proof.
  intros Hs. unfold data_head. rewrite !zlen_app, zlen_nid_text by done.
  change (zlen (str "[RX] DATA delivered from ")) with 25. change (zlen (str " id=")) with 4.
  change (zlen (str ": ")) with 2. change (zlen [34]) with 1. lia.
Qed.

(** C27: a text message that arrives while no host bridge is attached is printed
    on the console, and only its first 26 to 30 characters come out (the fewer
    the more digits the packet number has): the line goes through a buffer of 96
    characters, of which the sender's 32-digit id and the wording take 64.  A
    longer message loses its end and the closing quote, though up to 63
    characters of it were set aside for printing. *)
Theorem received_text_cut (now rnd : Z) (net : NetHeader) (pay : bytes) (n : Node)
    (Hhost : host_tunnel_active n = false)
    (Hsar : sar_is_done pay = false ∧ sar_is_nack pay = false ∧ sar_is_fragment pay = false)
    (Hs : wf_nid (nh_src net)) (Hid : is_u16 (nh_pkt_id net)) (Htext : Forall (λ c, c ≠ 0) pay) :
  let text := take 63 pay in
  let room := 30 - zlen (dec (nh_pkt_id net)) in
  25 <= room <= 29 ∧
  ∃ o, data_deliver now rnd net pay n = Ok (emit o n) ∧
    printed <$> host_lines o =
      [data_head (nh_src net) (nh_pkt_id net) ++
       if zlen text <=? room then text ++ [34] else take (Z.to_nat (room + 1)) text].
Proof.
  intros text room. pose proof (zlen_dec_u16 _ Hid) as Hd. split; [lia|].
  exists (DataLine (nh_src net) (nh_pkt_id net) text). destruct Hsar as (H1 & H2 & H3).
  split; [unfold data_deliver; by rewrite H1, H2, H3, Hhost|].
  assert (cstr text = text) as Ht by (apply cstr_id; by apply Forall_take).
  pose proof (data_line_full (nh_src net) (nh_pkt_id net) text Hid) as Hf. rewrite Ht in Hf.
  pose proof (zlen_data_head (nh_src net) (nh_pkt_id net) Hs) as Hh.
  assert (cap_of (data_line (nh_src net) (nh_pkt_id net) text) = 96) as Hcap by done.
  change (printed <$> host_lines _) with [printed (data_line (nh_src net) (nh_pkt_id net) text)].
  rewrite (line_cut _ _ _ Hf) by (rewrite Hh, Hcap; clear - Hd; lia). rewrite Hh, Hcap. do 2 f_equal.
  replace (96 - 1 - (64 + zlen (dec (nh_pkt_id net)))) with (room + 1) by (unfold room; lia).
  clearbody room. clear Hf Hh Hcap Ht. destruct (Z.leb_spec (zlen text) room).
  - apply take_ge. rewrite length_app. simpl. unfold zlen in *. lia.
  - apply take_app_le. unfold zlen in *. lia.
Qed.

(** [pub] of a node without a key: the last nine digits of its id are missing. *)
Lemma pub_line_cut n : n_key n = None → wf_nid (n_id n) →
  printed (pub_line n) = str "pub (none — AGN_NODE_ID override)  id=" ++ take 23 (nid_text (n_id n)) ∧
  zlen (nid_text (n_id n)) = 32.
Proof.
  intros Hk Hid. split; [|by apply zlen_nid_text]. unfold pub_line. rewrite Hk. unfold printed.
  by rewrite (snprintf_cut _ _ _ (str "pub (none — AGN_NODE_ID override)  id=") (nid_text (n_id n) ++ [])), app_nil_r.
Qed.

(** [rf default]: the line loses its closing parenthesis. *)
Lemma rf_default_cut :
  let l := rf_print radio_default_config (str "staged defaults — rf apply to commit") in
  zlen (full l) = 120 ∧ full l = printed l ++ str ")".
Proof. by vm_compute. Qed.

(** An ACK as a node sends it is printed whole; one with extreme values, which
    anybody can forge, loses digits of its counter. *)
Lemma ctrl_ack_line_whole origin cmd applied provisional counter : wf_nid origin → 0 <= cmd < 10 →
  -100 < applied < 1000 → 0 <= provisional < 10 → whole (ctrl_ack_line origin cmd applied provisional counter).
Proof.
  intros Ho Hc Ha Hp. assert (arg_fits (AU8 cmd) 1) by (apply fits_small_u8; lia).
  assert (arg_fits (AU8 provisional) 1) by (apply fits_small_u8; lia). unfold ctrl_ack_line. line_fits.
Qed.
Lemma ctrl_ack_line_cut :
  let l := ctrl_ack_line nid_zero 100 (-128) 255 4294967295 in full l = printed l ++ str "7295".
Proof. by vm_compute. Qed.

(** ** What is printed is read back

    By the console's own readers: [strtok] splits at spaces, [hex_decode] and
    [parse_id] read ids. *)

Fixpoint words (fuel : nat) (p : bytes) : list bytes :=
  match fuel with
  | O => []
  | S fuel => match strtok p with (Some t, p) => t :: words fuel p | (None, _) => [] end
  end.

Definition word (t : bytes) : Prop := t ≠ [] ∧ Forall (λ c, c ≠ SP) t.

Lemma strtok_last t : word t → strtok t = (Some t, []).
Proof.
  intros [Hne Ht]. assert (∀ t, Forall (λ c, c ≠ SP) t → span_sp t = (t, [])) as Hs.
  { clear. intros t Ht. induction Ht as [|c t Hc _ IH]; simpl; [done|]. by rewrite (proj2 (Z.eqb_neq _ _)), IH. }
  unfold strtok. destruct t as [|c t]; [done|]. apply Forall_cons in Ht as [Hc Ht].
  cbn [skip_sp]. rewrite (proj2 (Z.eqb_neq _ _)) by done. by rewrite Hs by (by constructor).
Qed.
Lemma strtok_next t rest : word t → strtok (t ++ SP :: rest) = (Some t, rest).
Proof.
  intros [Hne Ht]. assert (∀ t, Forall (λ c, c ≠ SP) t → span_sp (t ++ SP :: rest) = (t, rest)) as Hs.
  { clear. intros t Ht. induction Ht as [|c t Hc _ IH]; simpl; [done|]. by rewrite (proj2 (Z.eqb_neq _ _)), IH. }
  unfold strtok. destruct t as [|c t]; [done|]. apply Forall_cons in Ht as [Hc Ht].
  cbn [app skip_sp]. rewrite (proj2 (Z.eqb_neq _ _)) by done.
  assert (span_sp (c :: t ++ SP :: rest) = (c :: t, rest)) as -> by (apply (Hs (c :: t)); by constructor). done.
Qed.

Lemma hx_word n : 0 <= n → hx n ≠ SP.
Proof. unfold hx, SP. case_match; lia. Qed.
Lemma nid_text_word id : wf_nid id → word (nid_text id).
Proof.
  intros Hid. split; [by intros He; pose proof (zlen_nid_text id Hid) as Hz; rewrite He in Hz|].
  rewrite nid_text_hex by done. destruct Hid as [_ Hb]. induction Hb as [|x l Hx _ IH]; simpl; [constructor|].
  destruct (nibbles x Hx) as (Hh & Hl & _). repeat constructor; [apply hx_word; lia..|exact IH].
Qed.
Lemma loc_id_hex_word id : id ≠ [] → word (loc_id_hex id).
Proof.
  intros Hne. rewrite loc_id_hex_eq. split; [by destruct id|]. clear Hne.
  induction id as [|x l IH]; simpl; [constructor|].
  destruct (nibbles (u8 x) (u8_range x)) as (Hh & Hl & _). repeat constructor; [apply hx_word; lia..|exact IH].
Qed.

Lemma parse_nid_text id : wf_nid id → parse_id (nid_text id) = id.
Proof.
  intros Hid. unfold parse_id. assert (nid_text id ++ [0] = nid_hex id) as -> by (by rewrite nid_text_hex).
  by rewrite nid_hex_roundtrip.
Qed.
Lemma hex_decode_loc_id id cap : wf_bytes id → (length id <= cap)%nat → hex_decode (loc_id_hex id) cap = id.
Proof.
  rewrite loc_id_hex_eq. intros Hb. revert cap. induction Hb as [|x l Hx _ IH]; intros cap Hc; [by destruct cap|].
  destruct cap as [|cap]; simpl in Hc; [lia|]. assert (u8 x = x) as Hu by zlia.
  destruct (nibbles x Hx) as (Hh & Hl & Hn). cbn [flat_map app hex_decode]. rewrite Hu.
  change hexnyb with nid_hexval. rewrite !hexval_hx by done.
  rewrite !(proj2 (Z.ltb_ge _ _)) by lia. cbn [orb]. rewrite Hn. f_equal. apply IH. lia.
Qed.

Lemma words_ids ids fuel : Forall wf_nid ids → (length ids <= fuel)%nat →
  ∀ t, word t → words (S fuel) (t ++ flat_map (λ id, 32 :: nid_text id) ids) = t :: (nid_text <$> ids).
Proof.
  intros Hids. revert fuel. induction Hids as [|id ids Hid Hids IH]; intros fuel Hl t Ht.
  - cbn [flat_map words]. rewrite app_nil_r, strtok_last by done. by destruct fuel.
  - destruct fuel as [|fuel]; simpl in Hl; [lia|].
    change (t ++ flat_map _ (id :: ids)) with (t ++ SP :: nid_text id ++ flat_map (λ id, 32 :: nid_text id) ids).
    assert (∀ p, words (S (S fuel)) (t ++ SP :: p) = t :: words (S fuel) p) as -> by
      (intros p; change (words (S (S fuel)) ?q) with
         (match strtok q with (Some t, p) => t :: words (S fuel) p | (None, _) => [] end); by rewrite strtok_next).
    rewrite fmap_cons. f_equal. apply IH; [lia|by apply nid_text_word].
Qed.

(** The lines of a dump, decoded one by one, are the blob. *)
Lemma hex_lines_back k blob : wf_bytes blob → (length blob <= k)%nat →
  flat_map (λ l, hex_decode (printed l) 32) (hex_lines k blob) = blob.
Proof.
  revert blob. induction k as [|k IH]; (intros blob Hb Hk; destruct blob as [|x blob]; [done|]); [simpl in Hk; lia|].
  cbn [hex_lines flat_map]. set (chunk := take 32 (x :: blob)).
  assert (length chunk <= 32)%nat as Hc by (unfold chunk; rewrite length_take; lia).
  assert (printed (Buf 65 (str "%s") [Str (loc_id_hex chunk)]) = loc_id_hex chunk) as ->.
  { assert (full (Buf 65 (str "%s") [Str (loc_id_hex chunk)]) = loc_id_hex chunk) as Hf
      by (unfold full; simpl; by rewrite app_nil_r).
    rewrite whole_printed; [exact Hf|]. unfold whole. unfold full in Hf. rewrite Hf, zlen_loc_id_hex. unfold zlen. lia. }
  rewrite hex_decode_loc_id; [|by apply Forall_take|done].
  rewrite IH; [apply take_drop|by apply Forall_drop|]. rewrite length_drop. simpl in *. lia.
Qed.

(** C29: a host that splits the report lines at spaces and reads the ids with
    the console's own parsers gets back exactly what the node holds: from a
    [loc] line the identifier and the node that serves it, from [info] the whole
    list of blocked neighbours in order, from [dump] the received file; a
    printed number is read back by [strtoul]. *)
Theorem report_ids_read_back (id blob : bytes) (loc : NodeId) (n : Node) (v : Z)
    (Hid : wf_bytes id ∧ 1 <= zlen id <= LOC_ID_MAX) (Hloc : wf_nid loc) (Hn : node_ok n) (Hv : is_u32 v)
    (Hblob : wf_bytes blob) :
  (∃ hex who, words 4 (printed (loc_line id loc)) = [str "loc"; hex; who] ∧
     hex_decode hex (Z.to_nat LOC_ID_MAX) = id ∧ parse_id who = loc) ∧
  (∃ ids, words 10 (blocked_line (ro_blocked (n_router n))) = str "[blocked]" :: ids ∧
     parse_id <$> ids = ro_blocked (n_router n)) ∧
  (∃ head hexes, dump_lines blob = head :: hexes ++ [Lit (str "[ENDDUMP]")] ∧
     flat_map (λ l, hex_decode (printed l) 32) hexes = blob) ∧
  strtoul (format (str "%lu") None [AU32 v]) 10 = v.
Proof.
  destruct Hid as [Hb Hz]. split; [|split; [|split]].
  - exists (loc_id_hex id), (nid_text loc).
    assert (word (loc_id_hex id)) as Hw by (apply loc_id_hex_word; intros ->; change (zlen []) with 0 in Hz; lia).
    assert (whole (loc_line id loc)) as Hwh.
    { pose proof (fits_hex id 16 (proj2 Hz)). unfold loc_line. line_fits. }
    split; [|split; [apply hex_decode_loc_id; [done|]; unfold zlen, LOC_ID_MAX in *; lia|by apply parse_nid_text]].
    rewrite whole_printed by done.
    assert (full (loc_line id loc) = str "loc" ++ SP :: loc_id_hex id ++ SP :: nid_text loc) as ->
      by (unfold full, loc_line; simpl; by rewrite app_nil_r).
    cbn [words]. rewrite strtok_next by (split; [done|by repeat constructor]). rewrite strtok_next by done.
    by rewrite strtok_last by (by apply nid_text_word).
  - exists (nid_text <$> ro_blocked (n_router n)). destruct (nok_rwf n Hn) as (_ & _ & Hw).
    pose proof (ok_blocked_len _ _ (nok_router n Hn)) as Hl.
    rewrite blocked_line_eq by done. split.
    + apply words_ids; [done|unfold zlen, MAX_BLOCKED in *; lia|]. split; [done|by repeat constructor].
    + rewrite <- list_fmap_compose. rewrite <- (list_fmap_id (ro_blocked (n_router n))) at 2.
      apply list_fmap_ext. intros i x Hx. apply parse_nid_text. by eapply Forall_lookup_1 in Hw.
  - eexists _, _. split; [reflexivity|]. by apply hex_lines_back.
  - assert (format (str "%lu") None [AU32 v] = dec v) as ->.
    { assert (u32 v = v) as Hu by zlia. rewrite <- Hu at 2. rewrite <- (pad_0 (dec (u32 v))).
      rewrite <- (app_nil_r (pad 0 _)). reflexivity. }
    rewrite <- (app_nil_r (dec v)). by apply strtoul_dec.
Qed.

(** ** Settings, relays, the heartbeat *)

Lemma fits_set_auto (b : bool) : arg_fits (Str (if b then str "set" else str "auto-by-SF")) 10.
Proof. apply fits_str. by destruct b. Qed.
Lemma setting_lines_whole n ok : node_ok n →
  Forall whole [net_line n; ctrlkey_line (n_ctrl n); kiss_line (n_tun n); cad_line (n_radio n); name_line n;
                block_line (n_id n) ok].
Proof.
  intros Hn. pose proof (nok_id n Hn). pose proof (tuk_kiss _ (nok_tun n Hn)). pose proof (node_name_fits n Hn) as Hname.
  repeat apply Forall_cons_2; [..|constructor].
  - unfold net_line. pose proof (fits_set_auto (negb (tm_net_beacon_cfg (n_timers n) =? 0))). line_fits.
  - unfold ctrlkey_line. case_match; [line_fits|done].
  - unfold kiss_line. line_fits.
  - unfold cad_line. line_fits.
  - unfold name_line. case_match; [line_fits|]. pose proof (fits_str (str "(none — ALN-<id>)") 20 ltac:(done)). line_fits.
  - unfold block_line. assert (arg_fits (Str (if ok then str "ok" else str "fail")) 4) by (apply fits_str; by destruct ok).
    line_fits.
Qed.
Lemma fwd_line_whole src dst next pkt_id ttl : wf_nid src → wf_nid dst → wf_nid next → whole (fwd_line src dst next pkt_id ttl).
Proof. intros Hs Hd Hn. unfold fwd_line. line_fits. Qed.

Lemma drop_line_whole pkt_id a : whole (drop_line pkt_id a).
Proof. unfold drop_line. assert (arg_fits (Str (drop_reason a)) 8) by (apply fits_str; by destruct a). line_fits. Qed.

Lemma batt_line_whole raw batt_scale : whole (batt_line raw batt_scale).
Proof. unfold batt_line. case_match; line_fits. Qed.
Lemma kiss_on_line_whole id : wf_nid id → whole (kiss_on_line id).
Proof. intros Hid. unfold kiss_on_line. line_fits. Qed.
Lemma registered_line_whole n id : wf_nid id → whole (registered_line n id).
Proof. intros Hid. unfold registered_line. line_fits. Qed.
Lemma rx_line_whole net type buf : wf_bytes buf → wf_nid (nh_src net) → safe (rx_line net type buf) whole.
Proof.
  intros Hb Hs. unfold rx_line, beacon_read. destruct ((type =? PKT_BEACON) && (BEACON_BASE <=? zlen buf)) eqn:Hc; [|cbn [safe]; line_fits].
  apply andb_true_iff in Hc as [_ Hl%Z.leb_le]. unfold BEACON_BASE, HEADER_BYTES in *. repeat (safe_step; try lia). line_fits.
Qed.

(** Neither part of the heartbeat is cut. *)
Lemma heartbeat_whole now stk n : node_ok n →
  let mv := te_batt_mv (n_tel n) in
  heartbeat now stk n = format hb_format None (hb_args now stk n) ++
    (if mv =? 0 then [] else format (str " batt=%umV/%u%%") None [AU16 mv; AU8 (batt_pct mv)]).
Proof.
  intros Hn mv. pose proof (nok_id n Hn). unfold heartbeat. fold mv.
  assert (whole (Buf 109 hb_format (hb_args now stk n))) as Hw by (unfold hb_args, hb_format; line_fits).
  assert (whole (Buf 31 (str " batt=%umV/%u%%") [AU16 mv; AU8 (batt_pct mv)])) as Hb by line_fits.
  assert (0 < zlen (format hb_format None (hb_args now stk n))) as Hpos by (by apply (format_pos 91)).
  unfold whole in Hw, Hb. rewrite (proj2 (Z.ltb_lt _ _) Hpos), (proj2 (Z.ltb_lt _ 140)) by lia. rewrite !andb_true_r.
  destruct (mv =? 0); cbn [negb].
  - rewrite app_nil_r. apply snprintf_whole. lia.
  - apply snprintf_append. lia.
Qed.

(** What a handler tells the host: every line whole, given what the parsers
    guarantee of the values.  ([DataLine]: [received_text_cut].) *)
Definition host_ok (o : HostOut) : Prop :=
  match o with
  | LocLine id loc => zlen id <= LOC_ID_MAX ∧ wf_nid loc
  | AnnLine id pub => wf_nid id ∧ ∀ pk, pub = Some pk → zlen pk <= 32
  | StatusLine origin m => wf_nid origin ∧ tmsg_ok m
  | CtrlAckLine origin cmd applied provisional counter =>
      wf_nid origin ∧ 0 <= cmd < 10 ∧ 0 <= provisional < 10 ∧ -100 < applied < 1000
  | DataLine _ _ _ => False
  | ToHost _ | ToKiss _ | LocBusy | DumpLines _ => True
  end.

Lemma tnbr_line_whole nb : wf_tnbr nb → whole (tnbr_line nb).
Proof. intros [Hid _]. unfold tnbr_line. case_match; line_fits. Qed.
Lemma status_whole origin m : wf_nid origin → tmsg_ok m → Forall whole (telem_print_status origin m).
Proof.
  intros Ho Hm. pose proof (fits_cstr _ _ (tmo_fw m Hm)) as Hf. pose proof (fits_cstr _ _ (tmo_name m Hm)) as Hname.
  constructor; [case_match; line_fits|]. apply Forall_fmap. eapply Forall_impl; [apply (tmo_nbrs m Hm)|].
  intros nb Hnb. by apply tnbr_line_whole.
Qed.
Lemma hex_lines_whole k blob : Forall whole (hex_lines k blob).
Proof.
  revert blob. induction k as [|k IH]; intros blob; [constructor|]. destruct blob as [|x blob]; [constructor|].
  constructor; [|apply IH].
  assert (zlen (take 32 (x :: blob)) <= 32) as Hz by (unfold zlen; rewrite length_take; lia).
  pose proof (fits_hex _ _ Hz). eapply buf_whole; [repeat constructor; eassumption|done].
Qed.
Lemma host_lines_whole o : host_ok o → Forall whole (host_lines o).
Proof.
  destruct o as [f|f|id loc| |id pub|origin m|origin cmd applied prov ctr|src pid pay|blob]; simpl host_ok;
    intros Ho; try done.
  - destruct Ho as [Hz Hl]. pose proof (fits_hex id 16 Hz). repeat constructor. unfold loc_line. line_fits.
  - by repeat constructor.
  - destruct Ho as [Hid Hp]. repeat constructor. unfold ann_line. destruct pub as [pk|]; [|line_fits].
    pose proof (fits_hex pk 32 (Hp pk eq_refl)). line_fits.
  - destruct Ho. by apply status_whole.
  - destruct Ho as (? & ? & ? & ?). constructor; [by apply ctrl_ack_line_whole|constructor].
  - constructor; [line_fits|]. apply Forall_app. split; [apply hex_lines_whole|by repeat constructor].
Qed.

(** ** Witnesses *)

Lemma report_dirdump fw build now n : report fw build now (str "dirdump") n = Some (loc_dirdump now n).
Proof. done. Qed.
Lemma report_info fw build now n : report fw build now (str "info") n = Some (print_info fw build n).
Proof. done. Qed.

Example reports_whole_witness :
  node_ok knowing ∧ length (loc_dirdump 0 knowing) = 2%nat ∧ Forall whole (loc_dirdump 0 knowing) ∧
  Forall whole (print_info (str "v1.4") (str "Jan  1 2026 00:00:00") knowing).
Proof.
  split; [apply knowing_ok|]. split; [by vm_compute|].
  assert (zlen (str "v1.4") <= 100 ∧ zlen (str "Jan  1 2026 00:00:00") <= 32) as [Hv Hb] by done. split.
  - eapply (reports_whole _ _ 0 (str "dirdump") knowing _ knowing_ok Hv Hb); [discriminate|apply report_dirdump].
  - eapply (reports_whole _ _ 0 (str "info") knowing _ knowing_ok Hv Hb); [discriminate|apply report_info].
Defined.

(** Forty characters from node 5, packet 1234: 27 are shown. *)
Example received_text_cut_witness :
  let net := mkNet 32 0 7 (nid_from_u32 1) (nid_from_u32 5) 1234 in
  let text := str "the quick brown fox jumps over a dogs it" in
  ∃ o, data_deliver 0 0 net text node_ex = Ok (emit o node_ex) ∧
    printed <$> host_lines o = [data_head (nid_from_u32 5) 1234 ++ str "the quick brown fox jumps o"].
Proof.
  intros net text.
  assert (Forall (λ c, c ≠ 0) text) as Htext by (apply (bool_decide_unpack _); by vm_compute).
  destruct (received_text_cut 0 0 net text node_ex eq_refl (conj eq_refl (conj eq_refl eq_refl)) (wf_nid_u32 5)
    ltac:(simpl; zlia) Htext) as (_ & o & Ho & Hl).
  exists o. split; [exact Ho|]. etransitivity; [exact Hl|]. f_equal.
Defined.

Example report_ids_read_back_witness :
  let n := node_ex <| n_router ::= λ r, (block (nid_from_u32 7) r).1 |> in
  ∃ ids, words 10 (blocked_line [nid_from_u32 7]) = str "[blocked]" :: ids ∧ parse_id <$> ids = [nid_from_u32 7].
Proof.
  intros n. assert (node_ok n) as Hn.
  { apply node_ok_router; [apply node_ex_ok|apply block_ok, nok_router, node_ex_ok|].
    apply block_wf; [apply nok_rwf, node_ex_ok|apply wf_nid_u32]. }
  destruct (report_ids_read_back [1; 2] [3] (nid_from_u32 5) n 77) as (_ & Hids & _);
    [split; [each; zlia|done]|apply wf_nid_u32|exact Hn|zlia|each; zlia|].
  exact Hids.
Defined.
