(* ===== verification/Firmware.v ===== *)
(** src/main.cpp, the whole firmware: [setup], one full pass of the main loop
    with the bytes both hosts sent, the events between passes, and the states
    all of that reaches, across resets. *)
From stdpp Require Import strings.
From S2P Require Import Prelude Update Reader SlotTable Float32 MeshTypes Router RouterWf Crypto NodeTable Telemetry RadioHal TxQueue Cadence Hdlc Kiss Node Transmit NodeOk LocService TelemService CtrlPlane SarSession Rx Guard Loop Flash CString Console.
From Stdlib Require Import SpecFloat.
#[local] Open Scope Z_scope.

(** What the outside answers during [setup]. *)
Record BootEnv := mkBootEnv {
  be_now : Z;                  (* millis(), at the first line *)
  be_con : ConEnv;             (* the rest: clock, random(), battery, BLE, driver *)
  be_seed : bytes;             (* entropy_fill *)
  be_spi_failed : Z → bool;    (* RADIOLIB_ERR_SPI_CMD_FAILED / _INVALID *)
  be_tcxo : f32 }.             (* LORA_TCXO_VOLTAGE *)

Section setup.
Context `{FileSystem} `{Crypto} `{KeyGen}.
(** -DAGN_NODE_ID; 0 in every shipped build. *)
Variable (agn_node_id : Z).

(** batt_cfg_load, batt_refresh, net_cfg_load, kiss_cfg_load, node_cfg_load *)
Definition load_settings (e : ConEnv) (s : fs) (n : Node) : Node :=
  let n := n <| n_tel ::= λ t, batt_refresh (en_raw e 0) (t <| te_batt_scale := batt_cfg_load s (te_batt_scale t) |>) |> in
  let n := n <| n_timers ::= λ t, t <| tm_net_beacon_cfg := net_cfg_load s (tm_net_beacon_cfg t) |> |> in
  let '(dst, on) := kiss_cfg_load s (tu_kiss_dst (n_tun n), tu_kiss_mode (n_tun n)) in
  let n := n <| n_tun ::= λ u, u <| tu_kiss_dst := dst |> <| tu_kiss_mode := on |> |> in
  let '(mobile, name) := node_cfg_load s (te_mobile (n_tel n), cstr (te_name (n_tel n))) in
  let n := n <| n_tel ::= λ t, t <| te_mobile := mobile |> <| te_name := name ++ [0] |> |> in
  n <| n_con ::= λ c, c <| co_batt_saved := batt_rec s |> <| co_kiss_saved := kiss_rec s |>
                       <| co_node_saved := node_rec s |> <| co_net_saved := net_rec s |> |>.

(** cfg_load, the first boot's cfg_save, and ble_start_adv when it was on. *)
Definition load_ble (e : ConEnv) (s : fs) (n : Node) : Node * fs :=
  match cfg_read s with
  | Some (pin, enabled) =>
      let n := set_pin pin n in
      let n := n <| n_ctrl ::= λ c, c <| cs_ble_saved := Some (pin, enabled) |> |> in
      (if enabled then ble_start_adv e n else n, s)
  | None =>
      let n := ble_gen_pin e n in
      (ble_cfg_put n, cfg_save (co_pin (n_con n)) (cs_ble_advertising (n_ctrl n)) s)
  end.

Definition load_radio (e : BootEnv) (s : fs) (n : Node) : Node * Z :=
  let cfg := rf_load s in
  let n := n <| n_con ::= λ c, c <| co_rf_work := cfg |> |> in
  let '(h, ops, st) := begin_ (en_chip (be_con e)) (be_spi_failed e) (be_tcxo e) cfg (n_radio n) in
  (log_ops ops (n <| n_radio := h |>), st).

Definition arm_timers (e : ConEnv) (n : Node) : Node :=
  let now := en_now e in
  n <| n_timers ::= λ t, t
    <| tm_next_beacon_ms := schedule_next_beacon (en_random e) now (tm_net_beacon_cfg t) (rc_sf (rh_cfg (n_radio n))) |>
    <| tm_next_tick_ms := u32 (now + TICK_PERIOD_MS) |> <| tm_next_arq_ms := u32 (now + ARQ_TICK_MS) |> |>.

(** [None]: the radio did not come up, and [setup] never returns. *)
Definition setup (e : BootEnv) (s : fs) : option Node * fs :=
  let '(id, key, saved, s) := node_key_init agn_node_id (be_seed e) s in
  let n := Node_new id key RadioHal_new (be_now e) (ctrl_cfg_load s) (rf_read s) in
  let n := n <| n_con ::= λ c, c <| co_key_saved := saved |> |> in
  let n := load_settings (be_con e) s n in
  let '(n, s) := load_ble (be_con e) s n in
  let '(n, st) := load_radio e s n in
  (if st =? 0 then Some (arm_timers (be_con e) n) else None, s).

(** What a reset finds in flash: the eight records, each as it was last saved. *)
Definition saved_of (n : Node) : Saved :=
  let c := n_con n in
  mkSaved (cs_rf_saved (n_ctrl n)) (co_batt_saved c) (co_kiss_saved c) (co_node_saved c) (co_net_saved c)
    (co_key_saved c) (cs_saved (n_ctrl n)) (cs_ble_saved (n_ctrl n)).

(** ** The running firmware *)

Record Fw := mkFw { fw_loop : LoopSt; fw_io : HostIo }.
Definition fw_node (f : Fw) : Node := lp_node (fw_loop f).
Definition fw_boot (n : Node) : Fw := mkFw (mkLoop n 0) HostIo_init.

Variable (fw_version : bytes).

(** One pass of [agn_loop_once], with the bytes the BLE client and the USB host
    have sent; [true]: it ended in a reset. *)
Definition fw_pass (le : LoopEnv) (ce : ConEnv) (ble usb : bytes) (f : Fw) : res (Fw * bool) :=
  r ← agn_loop_once fw_version le (fw_loop f);
  let '(lp, reboot) := r : LoopSt * bool in
  if reboot then Ok (mkFw lp (fw_io f), true) else
  r ← ble_poll ce ble (fw_io f) (lp_node lp);
  let '(io, n, reset) := r : HostIo * Node * bool in
  if reset then Ok (mkFw (mkLoop n (lp_next_batt_ms lp)) io, true) else
  r ← poll_console ce usb io n;
  let '(io, n, reset) := r : HostIo * Node * bool in
  Ok (mkFw (mkLoop n (lp_next_batt_ms lp)) io, reset).

(** Interrupts and callbacks between the handlers. *)
Inductive Irq := Dio1 | BleUp | BleDown.
Definition irq (i : Irq) (n : Node) : Node :=
  match i with
  | Dio1 => n <| n_radio ::= isr |>
  | BleUp => ble_connect_cb n
  | BleDown => ble_disconnect_cb n
  end.
Definition fw_irq (i : Irq) (f : Fw) : Fw :=
  mkFw (mkLoop (irq i (fw_node f)) (lp_next_batt_ms (fw_loop f))) (fw_io f).

(** The states the firmware reaches from a flash it [first] finds. A reset, for whatever reason and at any
    moment between handlers, starts over from a flash that holds the records as
    last saved ([Flash.flash_refines]). *)
Inductive reachable (first : fs → Prop) : Fw → Prop :=
  | r_first e s n : wf_flash s → first s → (setup e s).1 = Some n → reachable first (fw_boot n)
  | r_pass le ce ble usb f f' reset : reachable first f → env_ok le → wf_bytes ble → wf_bytes usb →
      fw_pass le ce ble usb f = Ok (f', reset) → reachable first f'
  | r_irq i f : reachable first f → reachable first (fw_irq i f)
  | r_reset e s f n : reachable first f → wf_flash s → flash_view s = saved_of (fw_node f) →
      (setup e s).1 = Some n → reachable first (fw_boot n).
End setup.

(** ** Whatever happens, the node is well-formed *)

Section firmware_ok.
Context `{Fl : FileSystemLaws} `{Cl : CryptoLaws} `{Kl : KeyGenLaws}.
Variables (agn_node_id : Z) (fw_version : bytes).

Lemma begin_hal e spi tcxo c h : hal_ok h → rh_state h = RX → hal_ok (begin_ e spi tcxo c h).1.1.
Proof.
  intros [A B C D] Hst. unfold begin_. destruct (if spi (ce_set e 0) then _ else _) as [ops0 st]. cbv zeta.
  case_match; [split; simpl; rewrite ?Hst; done|].
  destruct (checked _ _ _) as [ops1 st1]. case_match; split; simpl; rewrite ?Hst; done.
Qed.
Lemma load_settings_node e s n : wf_flash s → node_ok n → node_ok (load_settings e s n).
Proof.
  intros Hs Hn. unfold load_settings. set (n1 := n <| n_tel ::= _ |>).
  assert (node_ok n1) as Hn1 by (apply node_ok_tel_set; auto). cbv zeta.
  set (n2 := n1 <| n_timers ::= _ |>). assert (node_ok n2) as Hn2 by (by apply node_ok_timers).
  assert (wf_nid (tu_kiss_dst (n_tun n2))) as Hk by apply (tuk_kiss _ (nok_tun n2 Hn2)).
  destruct (kiss_cfg_load s (tu_kiss_dst (n_tun n2), tu_kiss_mode (n_tun n2))) as [dst on] eqn:Hkl.
  assert (wf_nid dst) as Hd.
  { unfold kiss_cfg_load in Hkl. destruct (kiss_rec s) as [[d o]|] eqn:Hr; [|by injection Hkl as <- _].
    injection Hkl as <- _. by eapply kiss_rec_wf. }
  set (n3 := n2 <| n_tun ::= _ |>). assert (node_ok n3) as Hn3 by (by apply node_ok_tun_set).
  destruct (node_cfg_load s _) as [mobile name] eqn:Hnl. apply node_ok_con. apply node_ok_tel_set; [done..|]. right.
  exists name. split; [done|]. unfold node_cfg_load in Hnl. destruct (node_rec s) as [[m nm]|] eqn:Hr; injection Hnl as <- <-.
  - apply node_rec_len in Hr. unfold zlen. lia.
  - destruct (tlk_name _ (nok_tel _ Hn)) as (nm & -> & Hz). pose proof (cstr_take_name nm). unfold zlen in *. lia.
Qed.
Lemma load_ble_node e s n : node_ok n → node_ok (load_ble e s n).1.
Proof.
  intros Hn. unfold load_ble. assert (∀ p, node_ok (set_pin p n)) as Hp by (intros p; by apply node_ok_con).
  destruct (cfg_read s) as [[pin enabled]|]; simpl; [|apply node_ok_ctrl_same; [apply Hp|done]].
  assert (∀ b, node_ok ((set_pin pin n) <| n_ctrl ::= λ c, c <| cs_ble_saved := b |> |>)) as Hc
    by (intros b; apply node_ok_ctrl_same; [apply Hp|done]).
  destruct enabled; [|done]. by apply start_adv_node.
Qed.
Lemma setup_node e s n : wf_flash s → (setup agn_node_id e s).1 = Some n → node_ok n.
Proof.
  intros Hs. unfold setup. destruct (node_key_init _ _ _) as [[[id key] saved] s1] eqn:Hk.
  apply node_key_init_ok in Hk as (Hid & Hkey & Hs1); [|done..].
  set (m0 := Node_new _ _ _ _ _ _). assert (node_ok m0) as Hm0 by (by apply Node_new_ok; [|apply hal_new_ok|]).
  set (n0 := m0 <| n_con ::= _ |>). assert (node_ok n0) as Hn0 by (by apply node_ok_con).
  set (n1 := load_settings _ _ n0). assert (node_ok n1) as Hn1 by (by apply load_settings_node).
  assert (rh_state (n_radio (load_ble (be_con e) s1 n1).1) = RX) as Hst.
  { unfold load_ble, n1, load_settings. destruct (kiss_cfg_load _ _) as [d o]. destruct (node_cfg_load _ _) as [m nm].
    destruct (cfg_read s1) as [[pin []]|]; done. }
  pose proof (load_ble_node (be_con e) s1 n1 Hn1) as Hn2. destruct (load_ble (be_con e) s1 n1) as [n2 s2]. simpl in *.
  unfold load_radio. set (n3 := n2 <| n_con ::= _ |>). assert (node_ok n3) as Hn3 by (by apply node_ok_con).
  pose proof (begin_hal (en_chip (be_con e)) (be_spi_failed e) (be_tcxo e) (rf_load s2) _ (tk_radio n3 (nok_tx n3 Hn3)) Hst) as Hh.
  change (n_radio n2) with (n_radio n3). destruct (begin_ _ _ _ _ _) as [[h ops] st]. simpl in *.
  case_match; [|done]. intros [= <-]. apply node_ok_timers. by apply node_ok_ops, node_ok_radio.
Qed.

(** A radio that answers every call comes up. *)
Lemma setup_up e s : (∀ i, ce_set (en_chip (be_con e)) i = 0) → be_spi_failed e 0 = false →
  ∃ n s', setup agn_node_id e s = (Some n, s').
Proof.
  intros Hset Hspi. unfold setup. destruct (node_key_init _ _ _) as [[[id key] saved] s1].
  destruct (load_ble _ _ _) as [n2 s2]. destruct (load_radio e s2 n2) as [n3 st] eqn:Hlr.
  assert (st = 0) as ->; [|simpl; eauto]. unfold load_radio, begin_ in Hlr. rewrite !Hset, Hspi in Hlr. simpl in Hlr.
  rewrite !Hset in Hlr. by injection Hlr.
Qed.

Lemma irq_node i n : node_ok n → node_ok (irq i n).
Proof.
  intros Hn. destruct i; simpl.
  - apply node_ok_radio; [done|]. by destruct (tk_radio n (nok_tx n Hn)).
  - apply node_ok_con, node_ok_tun_set; try done. apply (tuk_kiss _ (nok_tun n Hn)).
  - apply node_ok_con, node_ok_tun_set; try done. apply (tuk_kiss _ (nok_tun n Hn)).
Qed.

Definition fw_ok (f : Fw) : Prop := node_ok (fw_node f) ∧ io_ok (fw_io f).
Lemma fw_pass_ok le ce ble usb f : fw_ok f → env_ok le → wf_bytes ble → wf_bytes usb →
  ∃ f' reset, fw_pass fw_version le ce ble usb f = Ok (f', reset) ∧ fw_ok f'.
Proof.
  intros [Hn Hio] Hle Hb Hu. unfold fw_pass.
  destruct (safe_total _ _ (agn_loop_once_node fw_version le (fw_loop f) Hn Hle) (agn_loop_once_ne_rej fw_version le (fw_loop f)))
    as ([lp reboot] & -> & Hn1). simpl in Hn1. cbn [mbind res_bind]. destruct reboot; [by exists (mkFw lp (fw_io f)), true|].
  destruct (safe_total _ _ (ble_poll_ok ce ble (fw_io f) (lp_node lp) Hb Hn1 Hio) (ble_poll_ne_rej ce ble (fw_io f) (lp_node lp)))
    as ([[io n] reset] & -> & Hio1 & Hn2). simpl in Hio1, Hn2. cbn [mbind res_bind].
  destruct reset; [by exists (mkFw (mkLoop n (lp_next_batt_ms lp)) io), true|].
  destruct (safe_total _ _ (poll_console_ok ce usb io n Hu Hn2 Hio1) (poll_console_ne_rej ce usb io n))
    as ([[io2 n2] reset] & -> & Hio2 & Hn3). cbn [mbind res_bind]. by exists (mkFw (mkLoop n2 (lp_next_batt_ms lp)) io2), reset.
Qed.

Lemma fw_reachable_ok first f : reachable agn_node_id fw_version first f → fw_ok f.
Proof.
  induction 1 as [e s n Hs _ Hb|le ce ble usb f f' reset _ IH Hle Hbl Hu Hp|i f _ IH|e s f n _ IH Hs _ Hb].
  - split; [by eapply setup_node|apply io_init_ok].
  - destruct (fw_pass_ok le ce ble usb f IH Hle Hbl Hu) as (f1 & r1 & Hp1 & Hok). congruence.
  - destruct IH as [Hn Hio]. split; [by apply irq_node|done].
  - split; [by eapply setup_node|apply io_init_ok].
Qed.

(** C9: the firmware never leaves its invariant. From power-up on,
    through any interleaving of main loop passes, received frames, bytes typed or
    sent at either host port, commands, interrupts, BLE connections and resets
    (and whatever bytes the flash held at first), every invariant of the node
    holds, and every pass runs to its end: no handler reads outside a buffer or
    gives up half-way. *)
Theorem firmware_safe (f : Fw) (le : LoopEnv) (ce : ConEnv) (ble usb : bytes)
    (Hr : reachable agn_node_id fw_version (λ _, True) f) (Hle : env_ok le) (Hble : wf_bytes ble) (Husb : wf_bytes usb) :
  node_ok (fw_node f) ∧ io_ok (fw_io f) ∧
  ∃ f' reset, fw_pass fw_version le ce ble usb f = Ok (f', reset) ∧ node_ok (fw_node f') ∧ io_ok (fw_io f').
Proof. pose proof (fw_reachable_ok _ f Hr) as Hf. split; [apply Hf|]. split; [apply Hf|]. by apply fw_pass_ok. Qed.
End firmware_ok.

(** ** A concrete boot *)

#[local] Existing Instance map_fs.
#[local] Existing Instance toy_crypto.
#[local] Existing Instance toy_keygen.

Definition quiet_con (now : Z) : ConEnv := mkConEnv now 0 (λ lo _, lo) env_quiet (λ _, 0) false false None.
Definition quiet_boot : BootEnv := mkBootEnv 0 (quiet_con 0) [5] (λ _, false) f0.
Definition quiet_loop (now : Z) : LoopEnv := mkLoopEnv (λ _, now) (λ _, 0) (λ _ lo _, lo) (λ _, env_quiet) 0.
Lemma quiet_loop_ok now : env_ok (quiet_loop now).
Proof. intros k. split; [done|intros len Hl|done]. split; [constructor|unfold zlen; simpl; lia]. Qed.
Lemma empty_flash_wf : @wf_flash map_fs (∅ : gmap string bytes).
Proof. intros p b. simpl. by rewrite lookup_empty. Qed.

(** A node fresh from the factory, told over USB to beacon every minute. *)
Example firmware_safe_witness :
  ∃ f, reachable 0 [50; 0] (λ _, True) f ∧
    wf_bytes (str "net beacon 60" ++ [10]) ∧
    node_ok (fw_node f) ∧ io_ok (fw_io f) ∧
    ∃ f' reset, fw_pass [50; 0] (quiet_loop 1000) (quiet_con 1000) [] (str "net beacon 60" ++ [10]) f = Ok (f', reset) ∧
      node_ok (fw_node f') ∧ io_ok (fw_io f').
Proof.
  destruct (@setup_up map_fs toy_crypto toy_keygen 0 quiet_boot ∅ (λ _, eq_refl) eq_refl) as (n & s & Hs).
  assert (reachable 0 [50; 0] (λ _, True) (fw_boot n)) as Hr.
  { eapply (r_first _ _ _ quiet_boot); [apply empty_flash_wf|exact I|exact (f_equal fst Hs)]. }
  assert (wf_bytes []) as Hb by constructor.
  assert (wf_bytes (str "net beacon 60" ++ [10])) as Hu.
  { apply Forall_app; split; [apply str_wf|by repeat constructor]. }
  exists (fw_boot n). split; [exact Hr|]. split; [exact Hu|].
  exact (@firmware_safe map_fs map_fs_laws toy_crypto toy_laws toy_keygen toy_keygen_laws 0 [50; 0] (fw_boot n)
    (quiet_loop 1000) (quiet_con 1000) [] (str "net beacon 60" ++ [10]) Hr (quiet_loop_ok 1000) Hb Hu).
Defined.
