(* ===== verification/Settings.v ===== *)
(** What the operator set stays set: which work of the node leaves the settings
    and the controller record alone, and what a reset brings back. *)
From stdpp Require Import strings.
From S2P Require Import Prelude Update Reader SlotTable Float32 MeshTypes Router RouterWf Crypto Forwarder LinkArq Packet Kiss Sar NodeTable Telemetry Control LocatorDir RadioHal TxQueue Cadence Hdlc Node Transmit NodeOk LocService TelemService CtrlPlane SarSession Rx Guard Loop Flash CString Console Firmware.
From Stdlib Require Import SpecFloat.
#[local] Open Scope Z_scope.

(** ** Settings untouched *)

(** The controller record in flash is the one in memory. *)
Definition floor_saved (n : Node) : Prop :=
  let c := n_ctrl n in cs_saved c = if cs_have_key c then Some (cs_pubkey c, cs_counter c) else None.
Lemma floor_saved_eq n n' : floor_of n' = floor_of n → floor_saved n → floor_saved n'.
Proof. unfold floor_of, floor_saved. intros [= -> -> -> ->]. done. Qed.

(** The BLE record holds the PIN. *)
Definition pin_saved (n : Node) : Prop := fst <$> cs_ble_saved (n_ctrl n) = Some (co_pin (n_con n)).

Definition keep (n n' : Node) : Prop :=
  quiet_set n n' ∧ (floor_saved n → floor_saved n') ∧ (pin_saved n → pin_saved n').
#[export] Instance keep_pre : PreOrder keep.
Proof. split; [done|]. intros ??? (? & ? & ?) (? & ? & ?). split_and!; [by etrans|auto..]. Qed.
Lemma quiet_pin n n' : quiet_set n n' → co_pin (n_con n') = co_pin (n_con n).
Proof. unfold quiet_set, settings_of. by intros [=]. Qed.
Lemma keep_eq n n' : quiet_set n n' → n_ctrl n' = n_ctrl n → keep n n'.
Proof.
  intros Hq Hc. split_and!; [done|apply floor_saved_eq; unfold floor_of; by rewrite Hc|].
  unfold pin_saved. by rewrite Hc, (quiet_pin _ _ Hq).
Qed.
Lemma keep_calm n n' : calm n n' → keep n n'.
Proof.
  intros Hc. apply keep_eq; [by apply calm_set|]. by destruct Hc as (_ & Hc & _).
Qed.
Lemma keep_fold {A} (f : Node → A → Node) l n : (∀ n x, keep n (f n x)) → keep n (fold_left f l n).
Proof. intros Hf. revert n. induction l as [|x l IH]; intros n; simpl; [done|]. trans (f n x); auto. Qed.
Lemma keep_power e dbm n : keep n (ctrl_apply_power e dbm false n).
Proof. apply keep_eq; [apply power_set|apply ctrl_apply_power_ctrl]. Qed.

Lemma keep_register now micros id n : keep n (loc_register now micros id n).
Proof. unfold loc_register, send_loc_flood. by repeat case_match. Qed.
Lemma keep_register_all now micros n : keep n (loc_register_all now micros n).
Proof. apply keep_fold. intros m r. case_match; [apply keep_register|done]. Qed.
Lemma keep_resolve now id n : keep n (loc_resolve now id n).
Proof. unfold loc_resolve, send_loc_flood. destruct (loc_lookup _ _ _) as [d [loc|]]; [done|]. destruct (loc_begin _ _ _ _). by repeat case_match. Qed.
Lemma keep_tunnel_emit src p n : keep n (tunnel_emit src p n).
Proof. apply keep_calm, calm_tunnel_emit. Qed.
Lemma keep_tunnel_send now dst p n : keep n (tunnel_send now dst p n).
Proof.
  unfold tunnel_send. cbv zeta. repeat case_match; try done; [apply keep_tunnel_emit|apply keep_calm, calm_send_data].
Qed.

(** ** The main loop *)

Section loop_keep.
Context `{Crypto}.
Variable (fw_version : bytes).

Lemma keep_batt now raw s : keep (lp_node s) (lp_node (loop_batt now raw s)).
Proof. unfold loop_batt. by case_match. Qed.
Lemma keep_beacon rnd now n : keep n (loop_beacon rnd now n).
Proof.
  unfold loop_beacon, next_beacon_at, send_beacon. case_match; [|done]. case_match; [done|].
  destruct (txq_push _ _) as [q ok]. by case_match.
Qed.
Lemma keep_arq now n : keep n (loop_arq now n).
Proof.
  unfold loop_arq. case_match; [|done]. destruct (arq_tick _ _) as [[a frames] k].
  match goal with |- keep _ (?m <| n_timers ::= _ |>) => trans m; [|done] end.
  trans (n <| n_arq := a |>); [done|]. by apply keep_fold.
Qed.
Lemma keep_sar now rnd n : keep n (loop_sar now rnd n).
Proof.
  unfold loop_sar. trans (sar_rx_tick now rnd (sar_tx_tick now n)).
  2: { unfold tun_queue_tick, sar_start. cbv zeta. by repeat case_match. }
  trans (sar_tx_tick now n).
  - unfold sar_tx_tick. repeat (case_match; [done|]). destruct (sar_next _ _) as [idx t]. cbv zeta. case_match; [|done].
    trans (n <| n_sartx := t |>); [done|]. apply keep_calm, calm_send_data.
  - unfold sar_rx_tick. cbv zeta. repeat (case_match; [done|]).
    match goal with |- keep ?m (hush _ (?x <| n_sarrx ::= _ |>)) => trans x; [|done] end. apply keep_calm, calm_send_data.
Qed.
Lemma keep_loc now micros n : keep n (loop_loc now micros n).
Proof.
  unfold loop_loc. cbv zeta. set (n1 := n <| n_loc ::= _ |>). trans n1; [done|]. case_match; [|done].
  trans (loc_register_all now micros n1); [apply keep_register_all|done].
Qed.
Lemma keep_burst rnd now micros n : keep n (loop_burst rnd now micros n).
Proof.
  unfold loop_burst. case_match; [|done]. trans (loc_register_all now micros n); [apply keep_register_all|done].
Qed.
Lemma keep_telem rnd now n : keep n (loop_telem rnd now n).
Proof.
  unfold loop_telem. cbv zeta. set (n1 := if te_next_batt_flood_ms (n_tel n) =? 0 then _ else n).
  trans n1; [unfold n1; by case_match|]. case_match; [|done]. trans (telem_flood_batt now n1); [|done].
  unfold telem_flood_batt, send_loc_flood. by repeat case_match.
Qed.
Lemma keep_ctrl e now n : keep n (loop_ctrl e now n).
Proof.
  unfold loop_ctrl. trans (ctrl_revert_tick e now n).
  - unfold ctrl_revert_tick. cbv zeta. case_match; [|done].
    match goal with |- context [ctrl_apply_power _ _ _ ?m] => trans m; [done|apply keep_power] end.
  - set (n1 := ctrl_revert_tick e now n). trans (ctrl_blk_sweep now n1); [done|]. generalize (ctrl_blk_sweep now n1). clear.
    intros n. unfold ctrl_heartbeat_sweep. cbv zeta. repeat (case_match; [done|]).
    match goal with |- keep _ (?m <| n_ctrl ::= _ |>) => trans m; [|done] end. case_match; [apply keep_power|done].
Qed.

(** A received frame: what a signed command changes, it saves. *)
Lemma pin_verified e now m to n : pin_saved n → pin_saved (ctrl_apply_verified e now m to n).
Proof.
  pose proof (quiet_pin _ _ (verified_set e now m to n)) as Hp. unfold pin_saved. rewrite Hp. intros Hs.
  unfold ctrl_apply_verified. set (n1 := ctrl_accept now m n).
  change (n_con n) with (n_con n1). change (fst <$> cs_ble_saved (n_ctrl n1) = Some (co_pin (n_con n1))) in Hs. clearbody n1. clear Hp.
  unfold apply_power_cmd, apply_confirm, apply_block, apply_unblock, apply_ble, apply_retune, rf_save, ble_cfg_put.
  repeat case_match; try done; try destruct (block _ _) as [r []];
    repeat (simpl; rewrite ?ctrl_apply_power_ctrl, ?(proj1 (ctrl_ack_same _ _ _ _ _ _)); try done).
Qed.
Lemma keep_verified e now m to n : cs_have_key (n_ctrl n) = true → keep n (ctrl_apply_verified e now m to n).
Proof.
  intros Hk. split_and!; [apply verified_set| |apply pin_verified].
  intros _. pose proof (ctrl_apply_verified_floor e now m to n) as Hf.
  unfold floor_of in Hf. injection Hf as F1 F2 F3 F4. unfold floor_saved. by rewrite F1, F2, F3, F4, Hk.
Qed.
Lemma keep_control e now buf net lh n n' : on_control_rx e now buf net lh n = Ok n' → keep n n'.
Proof.
  unfold on_control_rx. case_match.
  - destruct (flood_gate net n) as [n1|] eqn:Hg; [|by intros [= <-]]. apply calm_gate, keep_calm in Hg.
    destruct (ctrl_command _ _ _ _ _) as [n2| |] eqn:Hc; simpl; [|done|done]. intros [= <-].
    trans n1; [done|]. trans n2; [|apply keep_calm, calm_flood_on].
    apply ctrl_command_cases in Hc as [->|(m & -> & Hk & _)]; [done|by apply keep_verified].
  - destruct (ctrl_parse_ack _); try done; intros [= <-]; apply keep_calm, calm_unicast_rx; intros n1; by try apply calm_emit.
Qed.
Lemma keep_rx e now rnd buf rssi snr n n' : on_rx fw_version e now rnd buf rssi snr n = Ok n' → keep n n'.
Proof.
  intros [Hc|(_ & net & _ & [[_ (n1 & Hb & Hc)]|[_ (lh & n1 & Hc & Hr)]])]%on_rx_cases; [by apply keep_calm|..].
  - apply rx_beacon_ctl in Hb as (Hb1 & _ & _ & _ & Hb). trans n1; [|by apply keep_calm].
    by apply keep_eq.
  - trans n1; [by apply keep_calm|by eapply keep_control].
Qed.
Lemma keep_radio e now rnd n n' : loop_radio fw_version e now rnd n = Ok n' → keep n n'.
Proof.
  unfold loop_radio. destruct (poll_begin _ _ _) as [[h ops] p]. set (n1 := log_ops ops _).
  assert (∀ n2, match p with Received buf rssi snr => on_rx fw_version e now rnd buf rssi snr n1 | _ => Ok n1 end = Ok n2 →
    keep n1 n2) as Hrx by (intros n2; destruct p; try (by intros [= <-]); apply keep_rx).
  destruct (match p with Received _ _ _ => _ | _ => _ end) as [n2| |]; cbn [mbind res_bind]; [|done|done].
  destruct (poll_end _ _) as [h2 ops2]. intros [= <-]. trans n1; [done|]. trans n2; [by apply Hrx|done].
Qed.
Lemma keep_pump e n : keep n (loop_pump e n).
Proof. unfold loop_pump. by destruct (txq_pump _ _ _) as [[q h] ops]. Qed.
Lemma keep_tick now n : keep n (loop_tick now n).
Proof. unfold loop_tick. by case_match. Qed.

Lemma keep_loop e s s' reboot : agn_loop_once fw_version e s = Ok (s', reboot) → keep (lp_node s) (lp_node s').
Proof.
  unfold agn_loop_once. set (s0 := loop_batt _ _ _).
  destruct (loop_radio _ _ _ _ (lp_node s0)) as [n1| |] eqn:Hr; cbn [mbind res_bind]; [|done|done]. intros [= <- _]. simpl.
  trans (lp_node s0); [apply keep_batt|]. trans n1; [by eapply keep_radio|]. clear.
  repeat match goal with
  | |- keep _ (loop_burst _ _ _ ?m) => trans m; [|apply keep_burst]
  | |- keep _ (loop_ctrl _ _ ?m) => trans m; [|apply keep_ctrl]
  | |- keep _ (loop_telem _ _ ?m) => trans m; [|apply keep_telem]
  | |- keep _ (loop_loc _ _ ?m) => trans m; [|apply keep_loc]
  | |- keep _ (loop_sar _ _ ?m) => trans m; [|apply keep_sar]
  | |- keep _ (loop_tick _ ?m) => trans m; [|apply keep_tick]
  | |- keep _ (loop_arq _ ?m) => trans m; [|apply keep_arq]
  | |- keep _ (loop_beacon _ _ ?m) => trans m; [|apply keep_beacon]
  | |- keep _ (loop_pump _ ?m) => trans m; [|apply keep_pump]
  end. done.
Qed.
End loop_keep.

(** ** Commands that set nothing *)

Section console_keep.
Context `{Crypto}.
Variable (e : ConEnv).

Lemma keep_flood msg ttl pt n : keep n (send_loc_flood msg ttl pt n).
Proof. unfold send_loc_flood. by repeat case_match. Qed.
Lemma keep_start_adv n : keep n (ble_start_adv e n). Proof. done. Qed.
Lemma keep_log ops h n : keep n (log_ops ops (n <| n_radio := h |>)). Proof. done. Qed.
Lemma keep_send p n : keep n (cmd_send e p n).
Proof. unfold cmd_send. destruct (strtok p) as [[] ?]; [|done]. apply keep_calm, calm_send_data. Qed.
Lemma keep_block cmd p n : keep n (cmd_block cmd p n).
Proof. unfold cmd_block. by repeat case_match. Qed.
Lemma keep_sbegin p n : keep n (cmd_sbegin p n).
Proof. unfold cmd_sbegin. destruct (strtok p) as [[] p1]; destruct (strtok p1) as [[] ?]; done. Qed.
Lemma keep_sdata p n : keep n (cmd_sdata p n). Proof. unfold cmd_sdata. by case_match. Qed.
Lemma keep_xfer p n : keep n (cmd_xfer p n). Proof. unfold cmd_xfer. by case_match. Qed.
Lemma keep_dump n : keep n (cmd_dump n). Proof. unfold cmd_dump. by case_match. Qed.
Lemma keep_ble p n : keep n (cmd_ble e p n).
Proof. unfold cmd_ble. destruct (strtok p).1; [|done]. by repeat case_match. Qed.
Lemma keep_bletest p n : keep n (cmd_bletest e p n).
Proof.
  unfold cmd_bletest. destruct (strtok p) as [[] p1]; destruct (strtok p1) as [b ?]; [|done]. case_match; [done|].
  cbv zeta. apply keep_fold. intros. apply keep_tunnel_emit.
Qed.
Lemma keep_trace p n : keep n (cmd_trace p n).
Proof. unfold cmd_trace. destruct (strtok p).1; [|done]. cbv zeta. by repeat case_match. Qed.
Lemma keep_anndump n : keep n (cmd_anndump n).
Proof. unfold cmd_anndump. apply keep_fold. by intros m [id pub]. Qed.
Lemma keep_ctrlsend p n n' : cmd_ctrlsend e p n = Ok n' → keep n n'.
Proof.
  unfold cmd_ctrlsend. generalize (match (strtok p).1 with Some a => hex_decode a (Z.to_nat CTRL_MAX_BYTES) | None => [] end).
  intros blob. cbv zeta. case_match; [by intros [= <-]|]. destruct (nid_read blob 2) as [tgt| |]; cbn [mbind res_bind]; [|done|done].
  case_match; [|intros [= <-]; apply keep_flood]. destruct (cs_have_key (n_ctrl n)) eqn:Hk; simpl; [|by intros [= <-]].
  destruct (ctrl_verify _ _ _ _) as [[[] [m|]]| |]; cbn [mbind res_bind]; try done; intros [= <-]; try done.
  by apply keep_verified.
Qed.
Lemma keep_status p n : keep n (cmd_status p n).
Proof. unfold cmd_status. cbv zeta. repeat case_match; try done. apply keep_flood. Qed.
Lemma keep_cad p n : keep n (cmd_cad p n).
Proof. unfold cmd_cad. destruct (strtok p).1; [|done]. cbv zeta. by repeat case_match. Qed.
Lemma keep_rf p n : keep n (cmd_rf e p n).
Proof.
  assert (keep n (rf_apply e n)) as Ha.
  { unfold rf_apply. destruct (apply_config _ _ _) as [[h ops] st]. cbv zeta. by case_match. }
  unfold cmd_rf. destruct (strtok p) as [[a|] q]; [|done]. by repeat case_match.
Qed.
Lemma keep_cmd_register p n : keep n (cmd_register e p n).
Proof.
  unfold cmd_register. cbv zeta. case_match; [done|].
  match goal with |- keep _ ((loc_register ?a ?b ?id ?m) <| n_loc ::= _ |>) => trans (loc_register a b id m); [apply keep_register|done] end.
Qed.
Lemma keep_cmd_resolve p n : keep n (cmd_resolve e p n).
Proof. unfold cmd_resolve. cbv zeta. case_match; [done|]. apply keep_resolve. Qed.
Lemma keep_evt_drain n : keep n (ble_evt_drain e n).
Proof.
  unfold ble_evt_drain, loc_dump_to_client. case_match; [|done]. match goal with |- keep _ (fold_left _ _ ?m) => trans m; [done|] end.
  apply keep_fold. intros m [[id loc] ttl]. by case_match.
Qed.
Lemma keep_conn_param n : keep n (ble_conn_param_tick e n).1.
Proof. unfold ble_conn_param_tick. by repeat case_match. Qed.
End console_keep.
Create HintDb keep.
#[export] Hint Resolve keep_flood keep_send keep_block keep_sbegin keep_sdata keep_xfer keep_dump keep_ble keep_bletest keep_trace
  keep_anndump keep_status keep_cad keep_rf keep_cmd_register keep_cmd_resolve keep_tunnel_send : keep.

(** ** Invariants of the settings *)

(** A predicate that [keep] carries over needs a proof only for the commands
    that do set something. *)
Record setter_stable (P : Node → Prop) `{Crypto} : Prop := {
  ss_keep n n' : keep n n' → P n → P n';
  ss_blepin e p n : P n → P (cmd_blepin e p n);
  ss_mobile p n : P n → P (cmd_mobile p n);
  ss_name e p n : P n → P (cmd_name e p n);
  ss_net p n : P n → P (cmd_net p n);
  ss_batt e p n : P n → P (cmd_batt e p n);
  ss_ctrlkey p n : P n → P (cmd_ctrlkey p n);
  ss_kiss p n : P n → P (cmd_kiss p n);
  ss_return n : P n → P (n <| n_tun ::= λ u, u <| tu_kiss_mode := false |> |>) }.

Lemma stable_and `{Crypto} P Q : setter_stable P → setter_stable Q → setter_stable (λ n, P n ∧ Q n).
Proof. intros [] []. split; intros; destruct_and?; eauto. Qed.

Section invariant.
Context `{Crypto}.
Variable P : Node → Prop.
Hypothesis HP : setter_stable P.

Lemma inv_command e line n n' r : handle_command e line n = Ok (n', r) → P n → P n'.
Proof.
  intros Hc Hn. assert (∀ m, keep n m → P m) as Hk by (intros m Hm; by apply (ss_keep P HP n)).
  revert Hc. unfold handle_command. destruct (strtok line) as [[cmd|] p]; [|by intros [= <- _]]. cbv zeta.
  repeat (case_match; [first
    [ intros [= <- _]; first [exact Hn|by apply (ss_blepin P HP)|by apply (ss_mobile P HP)|by apply (ss_name P HP)|by apply (ss_net P HP)|by apply (ss_batt P HP)
        |by apply (ss_ctrlkey P HP)|by apply (ss_kiss P HP)|apply Hk; by auto with keep]
    | destruct (cmd_ctrlsend e p n) as [m| |] eqn:Hs; simpl; [|done|done]; intros [= <- _]; apply Hk; by eapply keep_ctrlsend ]|]).
  by intros [= <- _].
Qed.
Lemma inv_host_event e h n n' r : host_event e h n = Ok (n', r) → P n → P n'.
Proof.
  destruct h as [|line|f]; simpl; [by intros [= <- _]|apply inv_command|].
  unfold tunnel_rx_frame. destruct (tunnel_parse f) as [[dst p]| |]; simpl; intros [= <- _]; [|done].
  apply (ss_keep P HP), keep_tunnel_send.
Qed.
Lemma inv_usb_byte e c io n n' r : (usb_byte e c io n).2 = Ok (n', r) → P n → P n'.
Proof.
  unfold usb_byte. destruct (console_byte _ _ _ _ _) as [[d k] ev]. simpl.
  destruct ev; try apply inv_host_event; intros [= <- _]; try done; [|apply (ss_return P HP)].
  apply (ss_keep P HP), keep_tunnel_send.
Qed.
Lemma inv_feed step l io n io' n' r : (∀ c io n n' r, (step c io n).2 = Ok (n', r) → P n → P n') →
  feed step l io n = Ok (io', n', r) → P n → P n'.
Proof.
  intros Hs. revert io n. induction l as [|c l IH]; intros io n; simpl; [by intros [= _ <- _]|].
  specialize (Hs c io n). destruct (step c io n) as [io1 [[n1 b]| |]]; simpl in *; [|done|done].
  destruct b; [intros [= _ <- _]; by eapply Hs|]. intros Hf Hn. eapply IH; [exact Hf|]. by eapply Hs.
Qed.
Lemma inv_poll_console e l io n io' n' r : poll_console e l io n = Ok (io', n', r) → P n → P n'.
Proof. apply inv_feed. intros. by eapply inv_usb_byte. Qed.
Lemma inv_ble_poll e l io n io' n' r : ble_poll e l io n = Ok (io', n', r) → P n → P n'.
Proof.
  unfold ble_poll. case_match; [by intros [= _ <- _]|]. intros Hf Hn. eapply inv_feed; [|exact Hf|].
  - intros c io1 n1 n2 r2. unfold ble_byte. destruct (demux_byte _ _ _) as [d h]. apply inv_host_event.
  - eapply (ss_keep P HP); [|exact Hn]. trans (ble_evt_drain e n); [apply keep_evt_drain|apply keep_conn_param].
Qed.
Lemma inv_pass fw_version le ce ble usb f f' r : fw_pass fw_version le ce ble usb f = Ok (f', r) →
  P (fw_node f) → P (fw_node f').
Proof.
  unfold fw_pass. destruct (agn_loop_once fw_version le (fw_loop f)) as [[lp reboot]| |] eqn:Hl; cbn [mbind res_bind]; [|done|done].
  intros Hp Hn. assert (P (lp_node lp)) as H1 by (eapply (ss_keep P HP); [by eapply keep_loop|done]).
  destruct reboot; [by injection Hp as <- _|].
  destruct (ble_poll ce ble (fw_io f) (lp_node lp)) as [[[io n] reset]| |] eqn:Hb; cbn [mbind res_bind] in Hp; [|done|done].
  apply inv_ble_poll in Hb; [|done]. destruct reset; [by injection Hp as <- _|].
  destruct (poll_console ce usb io n) as [[[io2 n2] reset]| |] eqn:Hu; cbn [mbind res_bind] in Hp; [|done|done].
  apply inv_poll_console in Hu; [|done]. by injection Hp as <- _.
Qed.
Lemma inv_irq i n : P n → P (irq i n).
Proof. apply (ss_keep P HP). by destruct i. Qed.

Lemma inv_reachable `{FileSystem} `{KeyGen} agn_node_id fw_version first f :
  (∀ e s n, wf_flash s → first s → (setup agn_node_id e s).1 = Some n → P n) →
  (∀ e s f n, P (fw_node f) → wf_flash s → flash_view s = saved_of (fw_node f) → (setup agn_node_id e s).1 = Some n → P n) →
  reachable agn_node_id fw_version first f → P (fw_node f).
Proof.
  intros Hfirst Hreset. induction 1 as [e s n Hs Hf Hb|le ce ble usb f f' reset _ IH _ _ _ Hp|i f _ IH|e s f n _ IH Hs Hv Hb]; simpl.
  - by eapply Hfirst.
  - by eapply inv_pass.
  - by apply inv_irq.
  - by eapply Hreset.
Qed.
End invariant.

(** ** What a boot restores *)

Section restore.
Context `{Fl : FileSystemLaws} `{Crypto} `{KeyGen}.
Variable (agn_node_id : Z).

(** The settings of a node that booted with the records [v]: the value saved, or
    the firmware's default. *)
Record restored (v : Saved) (n : Node) : Prop := {
  rs_net : tm_net_beacon_cfg (n_timers n) = default 0 (sv_net v);
  rs_batt : te_batt_scale (n_tel n) = default f0 (sv_batt v);
  rs_node : (te_mobile (n_tel n), cstr (te_name (n_tel n))) = default (false, []) (sv_node v);
  rs_kiss : (tu_kiss_dst (n_tun n), tu_kiss_mode (n_tun n)) = default (nid_zero, false) (sv_kiss v);
  rs_ctrl : floor_of n = match sv_ctrl v with
    | Some (pub, counter) => (counter, Some (pub, counter), pub, true)
    | None => (0, None, cs_pubkey Ctrl_init, false) end;
  rs_rf : rh_cfg (n_radio n) = default radio_default_config (sv_rf v);
  rs_work : co_rf_work (n_con n) = rh_cfg (n_radio n);
  rs_rf_saved : cs_rf_saved (n_ctrl n) = sv_rf v;
  rs_ble : ∀ pin on, sv_ble v = Some (pin, on) → co_pin (n_con n) = pin ∧ cs_ble_saved (n_ctrl n) = Some (pin, on);
  rs_pin : pin_saved n;
  rs_key : ∀ k, u32 agn_node_id = 0 → sv_key v = Some k → n_key n = Some k;
  rs_id : n_id n = match n_key n with Some (_, pk) => nid_from_pubkey pk | None => nid_from_u32 (u32 agn_node_id) end;
  rs_has_key : n_key n = None ↔ u32 agn_node_id ≠ 0;
  rs_key_saved : u32 agn_node_id = 0 → co_key_saved (n_con n) = n_key n;
  rs_saved : (co_net_saved (n_con n), co_batt_saved (n_con n), co_node_saved (n_con n), co_kiss_saved (n_con n))
             = (sv_net v, sv_batt v, sv_node v, sv_kiss v) }.

Lemma view_after_key sk pk s (v := flash_view (key_cfg_save sk pk s)) :
  v = mkSaved (sv_rf (flash_view s)) (sv_batt (flash_view s)) (sv_kiss (flash_view s)) (sv_node (flash_view s))
        (sv_net (flash_view s)) (sv_key v) (sv_ctrl (flash_view s)) (sv_ble (flash_view s)).
Proof.
  unfold v, flash_view, rf_read, batt_rec, kiss_rec, node_rec, net_rec, ctrl_cfg_load, cfg_read. simpl.
  assert (∀ p size magic, KEY_PATH ≠ p → load_rec p size magic (key_cfg_save sk pk s) = load_rec p size magic s) as Hl.
  { intros p size magic Hne. apply load_rec_ext. by apply (do_save_frame (SaveKey sk pk)). }
  by rewrite !Hl by done.
Qed.
Lemma rf_after_ble pin on s : rf_read (cfg_save pin on s) = rf_read s.
Proof. unfold rf_read. erewrite load_rec_ext; [done|]. by apply (do_save_frame (SaveBle pin on)). Qed.

Lemma begin_cfg e spi tcxo c h : rh_cfg (begin_ e spi tcxo c h).1.1 = c.
Proof.
  unfold begin_. destruct (if spi (ce_set e 0) then _ else _) as [ops0 st]. cbv zeta. case_match; [done|].
  destruct (checked _ _ _) as [ops1 st1]. by case_match.
Qed.

(** Identity and key: from the record, or new, or the build's. *)
Lemma node_key_init_spec seed s id key saved s' : node_key_init agn_node_id seed s = (id, key, saved, s') →
  id = match key with Some (_, pk) => nid_from_pubkey pk | None => nid_from_u32 (u32 agn_node_id) end ∧
  (key = None ↔ u32 agn_node_id ≠ 0) ∧
  (∀ k, u32 agn_node_id = 0 → key_cfg_load s = Some k → key = Some k) ∧ (u32 agn_node_id = 0 → saved = key) ∧
  (s' = s ∨ ∃ sk pk, s' = key_cfg_save sk pk s).
Proof.
  unfold node_key_init. destruct (Z.eqb_spec (u32 agn_node_id) 0) as [E|E]; simpl.
  - destruct (key_cfg_load s) as [[sk pk]|].
    + intros [= <- <- <- <-]. split_and!; [done|done|by intros ? _ [= <-]|done|by left].
    + destruct (ed25519_key_pair seed) as [sk pk]. intros [= <- <- <- <-].
      split_and!; [done|done|done|done|right; by exists sk, pk].
  - intros [= <- <- <- <-]. split_and!; [done|done|done|done|by left].
Qed.
(** The four records of [load_settings], from a node that has the defaults. *)
Lemma settings_loaded e s n (n' := load_settings e s n) :
  tm_net_beacon_cfg (n_timers n) = 0 → te_batt_scale (n_tel n) = f0 → (te_mobile (n_tel n), te_name (n_tel n)) = (false, [0]) →
  (tu_kiss_dst (n_tun n), tu_kiss_mode (n_tun n)) = (nid_zero, false) →
  tm_net_beacon_cfg (n_timers n') = default 0 (net_rec s) ∧ te_batt_scale (n_tel n') = default f0 (batt_rec s) ∧
  (te_mobile (n_tel n'), cstr (te_name (n_tel n'))) = default (false, []) (node_rec s) ∧
  (tu_kiss_dst (n_tun n'), tu_kiss_mode (n_tun n')) = default (nid_zero, false) (kiss_rec s) ∧
  (co_net_saved (n_con n'), co_batt_saved (n_con n'), co_node_saved (n_con n'), co_kiss_saved (n_con n'))
    = (net_rec s, batt_rec s, node_rec s, kiss_rec s).
Proof.
  intros Hnet Hbatt Hnode Hkiss. unfold n', load_settings, batt_cfg_load, net_cfg_load, kiss_cfg_load, node_cfg_load. cbv zeta.
  injection Hnode as Hm Hnm. injection Hkiss as Hd Ho.
  destruct (kiss_rec s) as [[d o]|]; destruct (node_rec s) as [[m nm]|] eqn:Hn; simpl;
    rewrite ?(node_rec_name _ _ _ Hn), ?Hnet, ?Hbatt, ?Hm, ?Hnm, ?Hd, ?Ho; done.
Qed.
(** [load_ble] leaves all of that alone. *)
Lemma load_ble_spec e s n n' s' : load_ble e s n = (n', s') →
  (n_timers n', n_tel n', (tu_kiss_dst (n_tun n'), tu_kiss_mode (n_tun n')), (n_id n', n_key n'), n_radio n')
    = (n_timers n, n_tel n, (tu_kiss_dst (n_tun n), tu_kiss_mode (n_tun n)), (n_id n, n_key n), n_radio n) ∧
  (co_net_saved (n_con n'), co_batt_saved (n_con n'), co_node_saved (n_con n'), co_kiss_saved (n_con n'))
    = (co_net_saved (n_con n), co_batt_saved (n_con n), co_node_saved (n_con n), co_kiss_saved (n_con n)) ∧
  floor_of n' = floor_of n ∧ cs_rf_saved (n_ctrl n') = cs_rf_saved (n_ctrl n) ∧
  (∀ pin on, cfg_read s = Some (pin, on) → co_pin (n_con n') = pin ∧ cs_ble_saved (n_ctrl n') = Some (pin, on)) ∧
  pin_saved n' ∧ co_key_saved (n_con n') = co_key_saved (n_con n) ∧
  rf_read s' = rf_read s.
Proof.
  unfold load_ble. destruct (cfg_read s) as [[pin []]|]; intros [= <- <-]; split_and!; try done;
    try (by intros ?? [= <- <-]). apply rf_after_ble.
Qed.
Lemma setup_restores e s n : (setup agn_node_id e s).1 = Some n → restored (flash_view s) n.
Proof.
  unfold setup. destruct (node_key_init _ _ _) as [[[id key] saved] s1] eqn:Hk.
  apply node_key_init_spec in Hk as (Hid & Hhas & Hkey & Hsaved & Hs1).
  assert (∃ k, flash_view s1 = mkSaved (rf_read s) (batt_rec s) (kiss_rec s) (node_rec s) (net_rec s) k (ctrl_cfg_load s) (cfg_read s)) as [k Hv].
  { destruct Hs1 as [->|(sk & pk & ->)]; [by eexists|rewrite view_after_key; by eexists]. }
  injection Hv as Hrf Hbatt Hkiss Hnode Hnet Hk Hctrl Hble.
  set (n0 := (Node_new _ _ _ _ _ _) <| n_con ::= _ |>). set (n1 := load_settings _ _ n0).
  assert (n_id n1 = id ∧ n_key n1 = key ∧ n_ctrl n1 = n_ctrl n0 ∧ co_key_saved (n_con n1) = saved) as (I1 & K1 & C1 & KS1).
  { unfold n1, load_settings. destruct (kiss_cfg_load _ _), (node_cfg_load _ _). done. }
  pose proof (settings_loaded (be_con e) s1 n0 eq_refl eq_refl eq_refl eq_refl) as (L1 & L2 & L3 & L4 & L5).
  fold n1 in L1, L2, L3, L4, L5. rewrite ?Hbatt, ?Hkiss, ?Hnode, ?Hnet in *.
  destruct (load_ble (be_con e) s1 n1) as [n2 s2] eqn:Hlb.
  apply load_ble_spec in Hlb as (B1 & B2 & B3 & B4 & B5 & B7 & B8 & B6). injection B1 as T1 T2 T3 T4 T5 T6.
  unfold load_radio, rf_load. rewrite B6, Hrf.
  pose proof (begin_cfg (en_chip (be_con e)) (be_spi_failed e) (be_tcxo e)
    (match rf_read s with Some c => c | None => radio_default_config end) (n_radio n2)) as Hc.
  simpl. destruct (begin_ _ _ _ _ _) as [[h ops] st]. simpl in Hc. simpl. destruct (st =? 0); simpl; [|done]. intros [= <-]. unfold arm_timers. clear -L1 L2 L3 L4 L5 T1 T2 T3 T4 T5 T6 B2 B3 B4 B5 B7 B8 Hid Hhas Hkey Hsaved Hc Hctrl Hble Hrf I1 K1 C1 KS1.
  split; simpl; rewrite ?T1, ?T2, ?T3, ?T4, ?T5, ?T6, ?B4, ?I1, ?K1, ?C1; try done.
  - match goal with |- ?a = _ => change a with (floor_of n2) end. rewrite B3. unfold floor_of. rewrite C1, <- Hctrl.
    unfold n0. simpl. by destruct (ctrl_cfg_load s1) as [[pub c]|].
  - rewrite <- Hrf. unfold n0. simpl. by destruct (ctrl_cfg_load s1) as [[pub c]|].
  - intros pin on. rewrite <- Hble. apply B5.
  - intros Ha. by rewrite B8, KS1, (Hsaved Ha).
  - by rewrite B2, L5.
Qed.
End restore.

(** ** What is set is what is saved *)

Section synced.
Context `{Fl : FileSystemLaws} `{Crypto} `{KeyGen}.
Variable (agn_node_id : Z).

(** Each setting in memory is the one a reset brings back: the value saved, or
    the default when nothing was ever saved.  KISS mode may be off in memory
    only: a host can leave it without saving. *)
Record synced (n : Node) : Prop := {
  sy_net : default 0 (co_net_saved (n_con n)) = tm_net_beacon_cfg (n_timers n);
  sy_batt : default f0 (co_batt_saved (n_con n)) = te_batt_scale (n_tel n);
  sy_node : default (false, []) (co_node_saved (n_con n)) = (te_mobile (n_tel n), cstr (te_name (n_tel n)));
  sy_len : (length (cstr (te_name (n_tel n))) <= 20)%nat;
  sy_kiss_dst : (default (nid_zero, false) (co_kiss_saved (n_con n))).1 = tu_kiss_dst (n_tun n);
  sy_kiss : tu_kiss_mode (n_tun n) = true → (default (nid_zero, false) (co_kiss_saved (n_con n))).2 = true;
  sy_id : n_id n = match n_key n with Some (_, pk) => nid_from_pubkey pk | None => nid_from_u32 (u32 agn_node_id) end;
  sy_key : n_key n = None ↔ u32 agn_node_id ≠ 0;
  sy_ctrl : floor_saved n;
  sy_pin : pin_saved n;
  sy_key_saved : u32 agn_node_id = 0 → co_key_saved (n_con n) = n_key n }.

Lemma setup_synced e s n : (setup agn_node_id e s).1 = Some n → synced n.
Proof.
  intros Hs. apply setup_restores in Hs as []. injection rs_saved0 as Hnet Hbatt Hnode Hkiss. simpl in rs_kiss0.
  split; rewrite ?Hnet, ?Hbatt, ?Hnode, ?Hkiss, <- ?rs_kiss0; try done.
  - assert (cstr (te_name (n_tel n)) = (default (false, []) (node_rec s)).2) as -> by (simpl in rs_node0; by rewrite <- rs_node0).
    destruct (node_rec s) as [[m nm]|] eqn:Hn; [by eapply node_rec_len|simpl; lia].
  - unfold floor_of in rs_ctrl0. unfold floor_saved. simpl in *. destruct (ctrl_cfg_load s) as [[pub c]|]; injection rs_ctrl0 as F1 F2 F3 F4; by rewrite F2, F4, ?F1, ?F3.
Qed.

Lemma synced_keep n n' : keep n n' → synced n → synced n'.
Proof.
  intros (Hq & Hf & Hpin) []. unfold quiet_set, settings_of in Hq.
  injection Hq as E1 E2 E3 E4 E5 E6 E7 E8 E9 E10 E11 E12 E13 E14.
  split; rewrite ?E1, ?E2, ?E3, ?E4, ?E5, ?E6, ?E7, ?E8, ?E9, ?E10, ?E11, ?E12, ?E13, ?E14; auto.
Qed.
Lemma synced_name nm n : (length nm <= 20)%nat → synced n → synced (set_name nm n).
Proof.
  intros Hl []. assert (cstr (nm ++ [0]) = cstr nm) as Hc.
  { clear. induction nm as [|c nm IH]; simpl; [done|]. by rewrite IH. }
  assert (length (cstr nm) <= 20)%nat as Hl2.
  { etrans; [|exact Hl]. clear. induction nm as [|c nm IH]; simpl; [done|]. case_match; simpl; lia. }
  split; simpl; rewrite ?Hc; try done. by rewrite take_ge.
Qed.
Lemma synced_mobile b n : synced n → synced (set_mobile b n).
Proof. intros []. split; simpl; try done. by rewrite take_ge. Qed.

Lemma synced_stable : setter_stable synced.
Proof.
  split.
  - intros n n' Hk. by apply synced_keep.
  - intros e p n Hn. unfold cmd_blepin, ble_gen_pin. cbv zeta.
    assert (∀ pin, synced (ble_cfg_put (set_pin pin n)) ∧ synced (ble_cfg_put (ble_start_adv e (set_pin pin n)))) as Hset
      by (intros pin; destruct Hn; split; by split).
    assert (synced (ble_cfg_put n) ∧ synced (ble_cfg_put (ble_start_adv e n))) as Hput by (destruct Hn; split; by split).
    repeat case_match; first [apply Hset|apply Hput].
  - intros p n Hn. unfold cmd_mobile. destruct (strtok p).1; [|done]. cbv zeta. repeat case_match; by repeat apply synced_mobile.
  - intros e p n Hn. unfold cmd_name. destruct (skip_sp _) as [|c rest] eqn:Hr; [done|].
    case_match; [apply synced_name; [simpl; lia|done]|]. cbv zeta.
    assert (synced (set_name (take 20 (c :: rest)) n)) as Hn1 by (apply synced_name; [rewrite length_take; lia|done]).
    case_match; [|done]. eapply synced_keep; [|exact Hn1]. done.
  - intros p n Hn. unfold cmd_net. destruct (strtok p) as [a p1]. destruct a, (strtok p1).1; try done.
    assert (∀ ms, synced (net_cfg_put (n <| n_timers ::= λ t, t <| tm_net_beacon_cfg := ms |> |>))) as Hset
      by (intros ms; destruct Hn; by split).
    repeat case_match; done || apply Hset.
  - intros e p n Hn. unfold cmd_batt. destruct (strtok p) as [a p1]. case_match; [|done]. cbv zeta. case_match; [done|].
    destruct Hn. by split.
  - intros p n Hn. unfold cmd_ctrlkey. destruct (strtok p).1 as [a|]; [|done]. case_match; [by destruct Hn|].
    cbv zeta. case_match; [done|]. case_match; by destruct Hn.
  - intros p n Hn. unfold cmd_kiss. destruct (strtok p).1 as [a|]; [|done]. case_match; [destruct Hn; by split|]. cbv zeta.
    destruct (is_zero (parse_id a)) eqn:Hz; [done|]. destruct Hn. split; simpl; rewrite ?Hz; done.
  - intros n []. by split.
Qed.
End synced.

(** ** What [setup] itself saves *)

Section setup_saves.
Context `{Fl : FileSystemLaws} `{Crypto} `{Kl : KeyGenLaws}.

Lemma six_digits_cstr v : take 6 (cstr (six_digits v)) = six_digits v.
Proof.
  rewrite cstr_id; [done|]. unfold six_digits. apply Forall_fmap, Forall_true. intros d. simpl. Z.div_mod_to_equations; lia.
Qed.
Lemma saved_kept q s : (∀ p b s, fs_write p b s ≠ None) → req_wf q → flash_view (do_save q s) = spec_save q true (flash_view s).
Proof.
  intros Hw Hq. destruct (do_save_view q s Hq) as ([] & Hv & Hl); [done|]. destruct (Hl eq_refl) as [rec Hr]. by apply Hw in Hr.
Qed.

(** After [setup] the flash holds what [saved_of] says, when no write fails: a
    first boot has saved its key pair and its PIN. *)
Lemma setup_saves e s n s' : (∀ p b s, fs_write p b s ≠ None) → setup 0 e s = (Some n, s') → flash_view s' = saved_of n.
Proof.
  intros Hw Hs. assert ((setup 0 e s).1 = Some n) as Hr by (by rewrite Hs). apply setup_restores in Hr as [].
  revert Hs. unfold setup. destruct (node_key_init _ _ _) as [[[id key] saved] s1] eqn:Hk.
  assert (flash_view s1 = mkSaved (rf_read s) (batt_rec s) (kiss_rec s) (node_rec s) (net_rec s) key (ctrl_cfg_load s) (cfg_read s)) as Hv1.
  { unfold node_key_init in Hk. simpl in Hk. destruct (key_cfg_load s) as [[sk pk]|] eqn:Hl.
    - injection Hk as <- <- <- <-. unfold flash_view. by rewrite Hl.
    - pose proof (key_pair_len (be_seed e)) as Hlen. destruct (ed25519_key_pair _) as [sk pk]. injection Hk as <- <- <- <-.
      by apply (saved_kept (SaveKey sk pk)). }
  set (n1 := load_settings _ _ _).
  assert (n_key n1 = key ∧ cs_ble_advertising (n_ctrl n1) = false) as [K1 A1].
  { unfold n1, load_settings. destruct (kiss_cfg_load _ _), (node_cfg_load _ _). simpl. by destruct (ctrl_cfg_load s1) as [[??]|]. }
  destruct (load_ble (be_con e) s1 n1) as [n2 s2] eqn:Hlb.
  assert (flash_view s2 = mkSaved (rf_read s) (batt_rec s) (kiss_rec s) (node_rec s) (net_rec s) (n_key n2) (ctrl_cfg_load s)
    (cs_ble_saved (n_ctrl n2))) as Hv2.
  { unfold load_ble in Hlb. injection Hv1 as V1 V2 V3 V4 V5 V6 V7 V8.
    destruct (cfg_read s1) as [[pin on]|] eqn:Hc.
    - assert (n_key n2 = key ∧ cs_ble_saved (n_ctrl n2) = Some (pin, on) ∧ s2 = s1) as (-> & -> & ->).
      { by destruct on; injection Hlb as <- <-. }
      unfold flash_view. by rewrite V1, V2, V3, V4, V5, V6, V7, Hc.
    - injection Hlb as <- <-. etrans; [exact (saved_kept (SaveBle _ _) s1 Hw I)|]. unfold flash_view. simpl.
      rewrite V1, V2, V3, V4, V5, V6, V7, <- K1. do 2 f_equal.
      exact (f_equal (λ p, (p, cs_ble_advertising (n_ctrl n1))) (six_digits_cstr _)). }
  destruct (load_radio e s2 n2) as [n3 st] eqn:Hlr.
  assert (n_key n3 = n_key n2 ∧ cs_ble_saved (n_ctrl n3) = cs_ble_saved (n_ctrl n2)) as (E1 & E2).
  { unfold load_radio in Hlr. destruct (begin_ _ _ _ _ _) as [[h ops] st']. by injection Hlr as <- _. }
  destruct (st =? 0); [|done]. intros [= Hn <-]. rewrite Hv2. unfold saved_of. rewrite rs_key_saved0 by done.
  assert (n_key n = n_key n3 ∧ cs_ble_saved (n_ctrl n) = cs_ble_saved (n_ctrl n3)) as (-> & ->) by (by subst n).
  rewrite E1, E2. injection rs_saved0 as -> -> -> ->. rewrite rs_rf_saved0. unfold floor_of in rs_ctrl0. simpl in *. f_equal.
  destruct (ctrl_cfg_load s) as [[pub c]|]; by injection rs_ctrl0 as _ -> _ _.
Qed.
End setup_saves.

(** ** Across a reset *)

Section survive.
Context `{Fl : FileSystemLaws} `{Cl : Crypto} `{Kg : KeyGen}.
Variables (agn_node_id : Z) (fw_version : bytes).

Lemma reachable_synced first f : reachable agn_node_id fw_version first f → synced agn_node_id (fw_node f).
Proof.
  apply inv_reachable; [apply synced_stable| |].
  - intros e s n _ _. apply setup_synced.
  - intros e s f' n _ _ _. apply setup_synced.
Qed.

(** [n'], fresh from [setup], has the settings of [n]. KISS mode comes back if it
    was on; the radio has the configuration last saved. *)
Record same_settings (n n' : Node) : Prop := {
  sm_identity : (n_id n', n_key n') = (n_id n, n_key n);
  sm_beacon : tm_net_beacon_cfg (n_timers n') = tm_net_beacon_cfg (n_timers n);
  sm_scale : te_batt_scale (n_tel n') = te_batt_scale (n_tel n);
  sm_label : (te_mobile (n_tel n'), cstr (te_name (n_tel n'))) = (te_mobile (n_tel n), cstr (te_name (n_tel n)));
  sm_kiss_dst : tu_kiss_dst (n_tun n') = tu_kiss_dst (n_tun n);
  sm_kiss_mode : tu_kiss_mode (n_tun n) = true → tu_kiss_mode (n_tun n') = true;
  sm_pin : co_pin (n_con n') = co_pin (n_con n);
  sm_has_key : cs_have_key (n_ctrl n') = cs_have_key (n_ctrl n);
  sm_controller : cs_have_key (n_ctrl n) = true →
    cs_pubkey (n_ctrl n') = cs_pubkey (n_ctrl n) ∧ cs_counter (n_ctrl n') = cs_counter (n_ctrl n);
  sm_radio : rh_cfg (n_radio n') = default radio_default_config (cs_rf_saved (n_ctrl n)) }.

(** C10: what the operator set survives every reset. In every state the
    firmware reaches, a reset that finds the records as last saved brings back
    the same identity and key, the same beacon period, battery calibration,
    mobile flag, name, KISS destination and PIN, the same controller key with
    the same replay floor, KISS mode if it was on, and the radio configuration
    last saved. *)
Theorem settings_survive_reset (first : fs → Prop) (e : BootEnv) (s : fs) (f : Fw) (n' : Node)
    (Hf : reachable agn_node_id fw_version first f) (Hs : flash_view s = saved_of (fw_node f))
    (Hboot : (setup agn_node_id e s).1 = Some n') :
  same_settings (fw_node f) n'.
Proof.
  apply reachable_synced in Hf. revert Hs Hf. generalize (fw_node f). intros n Hs []. apply setup_restores in Hboot as [].
  unfold floor_saved in sy_ctrl0. unfold floor_of in rs_ctrl0. rewrite Hs in *. simpl in *.
  assert (n_key n' = n_key n) as Hkey.
  { destruct (n_key n) as [k|].
    - destruct (decide (u32 agn_node_id = 0)) as [Hz|Hz]; [apply rs_key0; [done|by rewrite sy_key_saved0]|]. by apply sy_key0 in Hz.
    - apply rs_has_key0. by apply sy_key0. }
  split; rewrite <- ?sy_net0, <- ?sy_batt0, <- ?sy_node0, <- ?sy_kiss_dst0, <- ?rs_kiss0, ?sy_id0, ?rs_id0, ?Hkey; try done.
  - intros Hm. specialize (sy_kiss0 Hm). by rewrite <- rs_kiss0 in sy_kiss0.
  - unfold pin_saved in sy_pin0. destruct (cs_ble_saved (n_ctrl n)) as [[pin on]|]; [|done].
    injection sy_pin0 as <-. by destruct (rs_ble0 pin on eq_refl).
  - rewrite sy_ctrl0 in rs_ctrl0. destruct (cs_have_key (n_ctrl n)); by injection rs_ctrl0.
  - intros Hk. rewrite sy_ctrl0, Hk in rs_ctrl0. by injection rs_ctrl0 as -> _ -> _.
Qed.

(** ** The beacon period stays in range *)

Lemma period_stable : setter_stable (λ n, period_ok (tm_net_beacon_cfg (n_timers n))).
Proof.
  split.
  - intros n n' (Hq & _ & _). unfold quiet_set, settings_of in Hq. by injection Hq as -> _.
  - intros e p n Hn. unfold cmd_blepin. cbv zeta. by repeat case_match.
  - intros p n Hn. unfold cmd_mobile. destruct (strtok p).1; [|done]. cbv zeta. by repeat case_match.
  - intros e p n Hn. unfold cmd_name. cbv zeta. by repeat case_match.
  - intros p n Hn. unfold cmd_net. destruct (strtok p) as [a p1]. destruct a, (strtok p1).1; try done.
    case_match; [|done]. case_match; [by left|]. cbv zeta. case_match eqn:Hr; [done|]. right. simpl.
    apply orb_false_iff in Hr as [H5 H600]. apply Z.ltb_ge in H5, H600. rewrite u32_small by zlia. lia.
  - intros e p n Hn. unfold cmd_batt. destruct (strtok p) as [a p1]. cbv zeta. by repeat case_match.
  - intros p n Hn. unfold cmd_ctrlkey. destruct (strtok p).1; [|done]. cbv zeta. by repeat case_match.
  - intros p n Hn. unfold cmd_kiss. destruct (strtok p).1; [|done]. cbv zeta. by repeat case_match.
  - done.
Qed.

(** The next beacon is scheduled one period to one period and a quarter ahead, a
    period is 5 to 600 s, and six such intervals fit into both timeouts. *)
Definition cadence_fits (random_ : Z → Z → Z) (now : Z) (n : Node) : Prop :=
  let cfg := tm_net_beacon_cfg (n_timers n) in
  let sf := rc_sf (rh_cfg (n_radio n)) in
  let wait := u32 (schedule_next_beacon random_ now cfg sf - now) in
  5000 <= node_period n <= 600000 ∧ node_period n <= wait < node_period n + beacon_jitter_ms cfg sf ∧
  6 * wait <= neighbor_timeout_ms cfg sf ∧ 6 * wait <= route_timeout_ms cfg sf.

(** C26: the running firmware always beacons within the range the timeouts are
    made for. From a flash without a beacon record, or with one the console could
    have written, no command, frame, pass or reset ever sets a period outside
    5 to 600 s, so that at every moment six worst-case beacon intervals fit
    into the time after which neighbours and routes expire. *)
Theorem running_period_in_range (f : Fw) (random_ : Z → Z → Z) (now : Z)
    (Hf : reachable agn_node_id fw_version (λ s, period_ok (default 0 (net_rec s))) f)
    (Hnow : is_u32 now) (Hrand : ∀ lo hi, lo < hi → lo <= random_ lo hi < hi) :
  cadence_fits random_ now (fw_node f).
Proof.
  assert (synced agn_node_id (fw_node f) ∧ period_ok (tm_net_beacon_cfg (n_timers (fw_node f)))) as [_ Hp].
  { revert Hf. apply (inv_reachable _ (stable_and _ _ (synced_stable agn_node_id) period_stable)).
    - intros e s n _ Hs Hb. split; [by eapply setup_synced|]. apply setup_restores in Hb as []. by rewrite rs_net0.
    - intros e s g n [Hg Hp] _ Hv Hb. split; [by eapply setup_synced|]. apply setup_restores in Hb as [].
      rewrite rs_net0, Hv. simpl. by rewrite (sy_net _ _ Hg). }
  unfold cadence_fits. cbv zeta. set (n := fw_node f) in *. set (cfg := tm_net_beacon_cfg (n_timers n)) in *.
  set (sf := rc_sf (rh_cfg (n_radio n))). set (wait := u32 _). pose proof (beacon_period_range cfg sf Hp) as Hr.
  destruct (timeout_covers_six_beacons random_ now cfg sf Hp Hnow Hrand) as (Hw & H6 & Hrt).
  split; [exact Hr|]. split; [exact Hw|]. split; [exact H6|]. by rewrite Hrt.
Qed.
End survive.

(** ** A concrete reset *)

#[local] Existing Instance map_fs.
#[local] Existing Instance map_fs_laws.
#[local] Existing Instance toy_crypto.
#[local] Existing Instance toy_keygen.
#[local] Existing Instance toy_keygen_laws.

(** A flash in which the operator has set a one-minute beacon. *)
Definition minute_flash : fs := net_cfg_save 60000 (∅ : gmap string bytes).
Lemma minute_flash_wf : wf_flash minute_flash.
Proof.
  apply save_rec_wf; [apply empty_flash_wf|]. apply Forall_app; split; apply wf_put_u32.
Qed.
Lemma minute_flash_net : net_rec minute_flash = Some 60000.
Proof.
  pose proof (saved_kept (SaveNet 60000) (∅ : gmap string bytes) (λ p b s, ltac:(discriminate)) ltac:(done)) as Hv.
  by apply (f_equal sv_net) in Hv.
Qed.
Lemma minute_boot : ∃ n s, setup 0 quiet_boot minute_flash = (Some n, s) ∧
  reachable 0 [50; 0] (λ s, period_ok (default 0 (net_rec s))) (fw_boot n) ∧
  tm_net_beacon_cfg (n_timers n) = 60000 ∧ flash_view s = saved_of n.
Proof.
  destruct (setup_up 0 quiet_boot minute_flash (λ _, eq_refl) eq_refl) as (n & s & Hs). exists n, s.
  assert ((setup 0 quiet_boot minute_flash).1 = Some n) as Hn by exact (f_equal fst Hs).
  split; [exact Hs|]. split.
  - eapply (r_first _ _ _ quiet_boot); [apply minute_flash_wf| |exact Hn]. rewrite minute_flash_net. right. simpl. lia.
  - split; [|eapply setup_saves; [|exact Hs]; discriminate]. apply setup_restores in Hn as [].
    rewrite rs_net0. simpl. by rewrite minute_flash_net.
Qed.

Example settings_survive_reset_witness :
  ∃ n s n', reachable 0 [50; 0] (λ s, period_ok (default 0 (net_rec s))) (fw_boot n) ∧ flash_view s = saved_of n ∧
    (setup 0 quiet_boot s).1 = Some n' ∧ tm_net_beacon_cfg (n_timers n) = 60000 ∧
    (n_id n', n_key n') = (n_id n, n_key n) ∧ tm_net_beacon_cfg (n_timers n') = 60000.
Proof.
  destruct minute_boot as (n & s & _ & Hr & H60 & Hv).
  destruct (setup_up 0 quiet_boot s (λ _, eq_refl) eq_refl) as (n' & s' & Hs).
  assert ((setup 0 quiet_boot s).1 = Some n') as Hn by exact (f_equal fst Hs).
  exists n, s, n'. split; [exact Hr|]. split; [exact Hv|]. split; [exact Hn|]. split; [exact H60|].
  destruct (settings_survive_reset 0 [50; 0] _ quiet_boot s (fw_boot n) n' Hr Hv Hn) as [Hid Hnet].
  split; [exact Hid|]. rewrite Hnet. exact H60.
Defined.

Example running_period_in_range_witness :
  ∃ f, reachable 0 [50; 0] (λ s, period_ok (default 0 (net_rec s))) f ∧
    tm_net_beacon_cfg (n_timers (fw_node f)) = 60000 ∧ cadence_fits (λ _ hi, hi - 1) 4294960000 (fw_node f).
Proof.
  destruct minute_boot as (n & s & _ & Hr & H60 & _). exists (fw_boot n). split; [exact Hr|]. split; [exact H60|].
  apply (running_period_in_range 0 [50; 0] (fw_boot n) (λ _ hi, hi - 1) 4294960000 Hr); [zlia|]. intros lo hi Hlt. simpl. lia.
Defined.
